(** * FIRMS / UNGRD processing scripts: a shallow embedding

    The development follows the three scripts with algorithmic content:

    - [firms_merge.py]: versioned output paths, day-first date
      normalisation, deduplication that prefers one instrument;
    - [firms_ungrd_match.py]: text normaliser, candidate generation,
      best match per point, attachment of the matches to the points;
    - [random_absence_points.py]: allowed zone and rejection sampler;

    then each of them from the files it reads to the summary it
    returns, and the scripts that move shapefiles and sheets around:
    [shp_merge_folder.py], [ungrd_filter.py], [shp_clip.py],
    [shp_reprojector.py] and [firms_admin_join.py].

    Python values are modelled as follows.  [int] is [Z] (or [nat] for
    counters that start positive and only grow), [str] is [string] for
    paths and labels and a list of code points for text that goes
    through [unicodedata], a nullable cell of a data frame is an
    [option], a data frame is the list of its rows in row order (a map
    from column names to columns where a function works on a column).
    Library calls (pandas, shapely, numpy, os.path) are given the
    behaviour their documentation states; where the documentation
    leaves a behaviour open, the call is a section variable together
    with the part of its contract that is documented. *)

From Stdlib Require Import String Ascii.
From Stdlib Require Import DecimalString DecimalNat DecimalZ.
From Stdlib Require Import ZArith List Bool Lia Arith.
From Stdlib Require Import Permutation Sorted.
Import ListNotations.

(* ------------------------------------------------------------------ *)
(** * Python string formatting *)

Module PyStr.

Local Open Scope string_scope.

(** [str(n)] / [f"{n}"] for a non-negative [int]. *)
Definition str_nat (n : nat) : string :=
  NilEmpty.string_of_uint (Nat.to_uint n).

(** [str(z)] / [f"{z}"] for an [int]. *)
Definition str_int (z : Z) : string :=
  NilEmpty.string_of_int (Z.to_int z).

Fixpoint zeros (k : nat) : string :=
  match k with
  | O => ""
  | S k' => String "0" (zeros k')
  end.

(** [f"{n:03d}"] for a non-negative [int]: at least three digits,
    padded with zeros on the left. *)
Definition fmt_03d (n : nat) : string :=
  let s := str_nat n in
  zeros (3 - String.length s) ++ s.

(** Reading a decimal numeral back, leading zeros allowed. *)
Definition parse_nat (s : string) : option nat :=
  option_map Nat.of_uint (NilEmpty.uint_of_string s).

Lemma parse_str_nat (n : nat) : parse_nat (str_nat n) = Some n.
Proof.
  unfold parse_nat, str_nat.
  rewrite NilEmpty.usu. simpl.
  now rewrite DecimalNat.Unsigned.of_to.
Qed.

Lemma parse_zero_prefix (s : string) :
  parse_nat (String "0" s) = parse_nat s.
Proof.
  unfold parse_nat. simpl.
  destruct (NilEmpty.uint_of_string s) as [d|]; reflexivity.
Qed.

Lemma parse_zeros (k : nat) (s : string) :
  parse_nat (zeros k ++ s) = parse_nat s.
Proof.
  induction k as [|k IH]; simpl; [reflexivity|].
  now rewrite parse_zero_prefix.
Qed.

Lemma str_nat_inj (m n : nat) : str_nat m = str_nat n -> m = n.
Proof.
  intros H.
  assert (E : parse_nat (str_nat m) = parse_nat (str_nat n)) by now rewrite H.
  rewrite !parse_str_nat in E. congruence.
Qed.

Lemma fmt_03d_inj (m n : nat) : fmt_03d m = fmt_03d n -> m = n.
Proof.
  unfold fmt_03d. intros H.
  assert (E : parse_nat (zeros (3 - String.length (str_nat m)) ++ str_nat m)
            = parse_nat (zeros (3 - String.length (str_nat n)) ++ str_nat n))
    by now rewrite H.
  rewrite !parse_zeros, !parse_str_nat in E. congruence.
Qed.

Lemma append_assoc (a b c : string) : (a ++ b) ++ c = a ++ (b ++ c).
Proof. induction a as [|x a IH]; simpl; [reflexivity | now rewrite IH]. Qed.

Lemma append_length (a b : string) :
  String.length (a ++ b) = String.length a + String.length b.
Proof. induction a as [|x a IH]; simpl; [reflexivity | now rewrite IH]. Qed.

Lemma append_inv_head (a x y : string) : a ++ x = a ++ y -> x = y.
Proof.
  induction a as [|c a IH]; simpl; intros H; [exact H|].
  injection H as H. now apply IH.
Qed.

Lemma append_inv_tail (b x y : string) : x ++ b = y ++ b -> x = y.
Proof.
  revert y. induction x as [|c x IH]; intros [|d y] H; simpl in H.
  - reflexivity.
  - exfalso.
    assert (L : String.length b = String.length (String d (y ++ b))) by now rewrite <- H.
    simpl in L. rewrite append_length in L. lia.
  - exfalso.
    assert (L : String.length (String c (x ++ b)) = String.length b) by now rewrite H.
    simpl in L. rewrite append_length in L. lia.
  - injection H as -> H. f_equal. now apply IH.
Qed.

End PyStr.

(* ------------------------------------------------------------------ *)
(** * Stable sorting
    The order a stable sort returns ([numpy.lexsort], which pandas uses
    to sort a frame by several columns; [kind="stable"]): insertion
    from the right, an element going before the first one it does not
    exceed. *)

Module PySort.

Section Insertion.

Context {A : Type}.
Variable leb : A -> A -> bool.

Fixpoint insert (x : A) (l : list A) : list A :=
  match l with
  | [] => [x]
  | y :: l' => if leb x y then x :: l else y :: insert x l'
  end.

Fixpoint stable_sort (l : list A) : list A :=
  match l with
  | [] => []
  | x :: l' => insert x (stable_sort l')
  end.

Lemma insert_perm (x : A) (l : list A) : Permutation (insert x l) (x :: l).
Proof.
  induction l as [|y l IH]; simpl; [reflexivity|].
  destruct (leb x y); [reflexivity|].
  rewrite IH. apply perm_swap.
Qed.

Lemma stable_sort_perm (l : list A) : Permutation (stable_sort l) l.
Proof.
  induction l as [|x l IH]; simpl; [reflexivity|].
  rewrite insert_perm. now constructor.
Qed.

Lemma stable_sort_In (l : list A) (x : A) : In x (stable_sort l) <-> In x l.
Proof.
  split; apply Permutation_in; [|symmetry]; apply stable_sort_perm.
Qed.

Hypothesis leb_total : forall a b, leb a b = true \/ leb b a = true.
Hypothesis leb_trans : forall a b c, leb a b = true -> leb b c = true -> leb a c = true.

Lemma insert_sorted (x : A) (l : list A) :
  StronglySorted (fun a b => leb a b = true) l ->
  StronglySorted (fun a b => leb a b = true) (insert x l).
Proof.
  induction 1 as [|y l Hs IH Hy]; simpl.
  - constructor; constructor.
  - destruct (leb x y) eqn:E.
    + constructor; [now constructor|].
      constructor; [exact E|].
      rewrite Forall_forall in *. intros z Hz. eapply leb_trans; eauto.
    + constructor; [exact IH|].
      rewrite Forall_forall in *. intros z Hz.
      apply (Permutation_in _ (insert_perm x l)) in Hz.
      destruct Hz as [<-|Hz]; [|now apply Hy].
      destruct (leb_total x y) as [C|C]; congruence.
Qed.

Lemma stable_sort_sorted (l : list A) :
  StronglySorted (fun a b => leb a b = true) (stable_sort l).
Proof.
  induction l as [|x l IH]; simpl; [constructor | now apply insert_sorted].
Qed.

End Insertion.

(** Stability: elements that the order does not separate keep their
    relative order. *)
Lemma insert_filter {A : Type} (leb : A -> A -> bool) (P : A -> bool) (x : A) (l : list A) :
  (forall y, In y l -> P x = true -> P y = true -> leb x y = true) ->
  filter P (insert leb x l) = filter P (x :: l).
Proof.
  induction l as [|y l IH]; intros H; [reflexivity|].
  simpl. destruct (leb x y) eqn:E; [reflexivity|].
  simpl. rewrite IH by (intros z Hz; apply H; now right).
  simpl. destruct (P x) eqn:Px, (P y) eqn:Py; try reflexivity.
  rewrite (H y) in E by (auto; now left). discriminate.
Qed.

Lemma stable_sort_filter {A : Type} (leb : A -> A -> bool) (P : A -> bool) (l : list A) :
  (forall a b, P a = true -> P b = true -> leb a b = true) ->
  filter P (stable_sort leb l) = filter P l.
Proof.
  intros H. induction l as [|x l IH]; [reflexivity|].
  simpl stable_sort. rewrite insert_filter by (intros; now apply H).
  simpl. now rewrite IH.
Qed.

End PySort.

(* ------------------------------------------------------------------ *)
(** * Versioned output paths
    [firms_merge.next_version_path] and
    [firms_ungrd_match.next_version_path_suffix_1] (the sampler script
    has a copy of the latter). *)

Module Versioning.

Import PyStr.
Local Open Scope string_scope.

(** The target store is the finite set of paths that exist on it;
    [os.path.exists] is membership. *)
Definition store := list string.

Definition path_exists (fs : store) (p : string) : bool :=
  existsb (String.eqb p) fs.

(** The body of [while True: cand = ...; if not exists(cand): return cand;
    k += 1], with the number of iterations bounded by [fuel].  [None]
    stands for a loop that did not return within the bound. *)
Fixpoint probe (fs : store) (cand : nat -> string) (fuel k : nat) : option string :=
  match fuel with
  | O => None
  | S fuel' =>
      if negb (path_exists fs (cand k)) then Some (cand k)
      else probe fs cand fuel' (S k)
  end.

(** [str.rfind] of one character; [-1] when it does not occur. *)
Fixpoint rfind (c : ascii) (s : string) : Z :=
  match s with
  | EmptyString => (-1)%Z
  | String a s' =>
      let r := rfind c s' in
      if (0 <=? r)%Z then (r + 1)%Z
      else if Ascii.eqb a c then 0%Z else (-1)%Z
  end.

(** [while filenameIndex < dotIndex: if p[filenameIndex] != '.': return
    the split; filenameIndex += 1], as a search for a character other
    than a dot in [p[filenameIndex:dotIndex]]. *)
Fixpoint has_non_dot (s : string) : bool :=
  match s with
  | EmptyString => false
  | String a s' => if Ascii.eqb a "." then has_non_dot s' else true
  end.

(** [posixpath.splitext]: the extension starts at the last dot of the
    last path component, unless that component has only dots before it. *)
Definition posix_splitext (p : string) : string * string :=
  let sepIndex := rfind "/" p in
  let dotIndex := rfind "." p in
  if (sepIndex <? dotIndex)%Z then
    let filenameIndex := Z.to_nat (sepIndex + 1) in
    let d := Z.to_nat dotIndex in
    if has_non_dot (substring filenameIndex (d - filenameIndex) p)
    then (substring 0 d p, substring d (String.length p - d) p)
    else (p, "")
  else (p, "").

Lemma path_exists_In (fs : store) (p : string) :
  path_exists fs p = true <-> In p fs.
Proof.
  unfold path_exists. rewrite existsb_exists. split.
  - intros [x [Hin Heq]]. apply String.eqb_eq in Heq. now subst.
  - intros Hin. exists p. split; [exact Hin | apply String.eqb_refl].
Qed.

Lemma probe_some (fs : store) (cand : nat -> string) (fuel k : nat) (r : string) :
  probe fs cand fuel k = Some r ->
  exists v, k <= v /\ r = cand v /\ path_exists fs (cand v) = false
            /\ forall v', k <= v' < v -> path_exists fs (cand v') = true.
Proof.
  revert k. induction fuel as [|fuel IH]; intros k H; simpl in H; [discriminate|].
  destruct (path_exists fs (cand k)) eqn:E; simpl in H.
  - destruct (IH _ H) as [v [Hle [Hr [Hfree Hbelow]]]].
    exists v. repeat split; try assumption; try lia.
    intros v' Hv'. destruct (Nat.eq_dec v' k) as [->|Hne]; [exact E|].
    apply Hbelow. lia.
  - injection H as <-. exists k. repeat split; try assumption; try lia.
Qed.

Lemma probe_none (fs : store) (cand : nat -> string) (fuel k : nat) :
  probe fs cand fuel k = None ->
  forall v, k <= v < k + fuel -> path_exists fs (cand v) = true.
Proof.
  revert k. induction fuel as [|fuel IH]; intros k H v Hv; [lia|].
  simpl in H. destruct (path_exists fs (cand k)) eqn:E; simpl in H; [|discriminate].
  destruct (Nat.eq_dec v k) as [->|Hne]; [exact E|].
  apply (IH _ H). lia.
Qed.

(** Pigeonhole: candidates are pairwise distinct, so among
    [length fs + 1] of them one does not exist. *)
Lemma probe_total (fs : store) (cand : nat -> string) (k : nat) :
  (forall a b, cand a = cand b -> a = b) ->
  probe fs cand (S (List.length fs)) k <> None.
Proof.
  intros Hinj Hnone.
  pose proof (probe_none _ _ _ _ Hnone) as Hall.
  assert (Hincl : incl (map cand (seq k (S (List.length fs)))) fs).
  { intros x Hx. apply in_map_iff in Hx as [v [<- Hv]].
    apply in_seq in Hv. apply path_exists_In. apply Hall. lia. }
  assert (Hnd : NoDup (map cand (seq k (S (List.length fs))))).
  { apply NoDup_map_NoDup_ForallPairs; [|apply seq_NoDup].
    intros a b _ _. apply Hinj. }
  pose proof (NoDup_incl_length Hnd Hincl) as Hlen.
  rewrite length_map, length_seq in Hlen. lia.
Qed.

Lemma substring_all (s : string) : substring 0 (String.length s) s = s.
Proof. induction s as [|a s IH]; simpl; [reflexivity | now rewrite IH]. Qed.

Lemma substring_split (s : string) (n : nat) :
  substring 0 n s ++ substring n (String.length s - n) s = s.
Proof.
  revert n. induction s as [|a s IH]; intros [|n]; simpl; try reflexivity.
  - now rewrite substring_all.
  - now rewrite IH.
Qed.

Lemma posix_splitext_join (p : string) :
  fst (posix_splitext p) ++ snd (posix_splitext p) = p.
Proof.
  unfold posix_splitext.
  destruct (rfind "/" p <? rfind "." p)%Z.
  - destruct (has_non_dot _); simpl.
    + apply substring_split.
    + clear. induction p as [|a p IH]; simpl; [reflexivity | now rewrite IH].
  - simpl. clear. induction p as [|a p IH]; simpl; [reflexivity | now rewrite IH].
Qed.

Section Resolver.

(** [os.path.splitext]; its documented contract is [root + ext == path]. *)
Variable splitext : string -> string * string.
Hypothesis splitext_join : forall p, fst (splitext p) ++ snd (splitext p) = p.

(** [f"{base}_v{v:03d}{ext}"] *)
Definition merge_candidate (out_shp_path : string) (v : nat) : string :=
  let (base, ext) := splitext out_shp_path in
  base ++ "_v" ++ fmt_03d v ++ ext.

(** [f"{base}_{k}{ext}"] *)
Definition suffix_candidate (out_path : string) (k : nat) : string :=
  let (base, ext) := splitext out_path in
  base ++ "_" ++ str_nat k ++ ext.

(** [firms_merge.next_version_path].  One more iteration than there
    are existing paths is always enough, see [probe_total]. *)
Definition next_version_path (fs : store) (out_shp_path : string) : option string :=
  if negb (path_exists fs out_shp_path) then Some out_shp_path
  else probe fs (merge_candidate out_shp_path) (S (List.length fs)) 2.

(** [firms_ungrd_match.next_version_path_suffix_1] *)
Definition next_version_path_suffix_1 (fs : store) (out_path : string) : option string :=
  if negb (path_exists fs out_path) then Some out_path
  else probe fs (suffix_candidate out_path) (S (List.length fs)) 1.

Lemma merge_candidate_inj (p : string) (a b : nat) :
  merge_candidate p a = merge_candidate p b -> a = b.
Proof.
  unfold merge_candidate. destruct (splitext p) as [base ext]. intros H.
  apply append_inv_head in H. apply (append_inv_head "_v") in H.
  apply append_inv_tail in H. now apply fmt_03d_inj.
Qed.

Lemma suffix_candidate_inj (p : string) (a b : nat) :
  suffix_candidate p a = suffix_candidate p b -> a = b.
Proof.
  unfold suffix_candidate. destruct (splitext p) as [base ext]. intros H.
  apply append_inv_head in H. apply (append_inv_head "_") in H.
  apply append_inv_tail in H. now apply str_nat_inj.
Qed.

Lemma merge_candidate_fresh (p : string) (v : nat) : merge_candidate p v <> p.
Proof.
  unfold merge_candidate. pose proof (splitext_join p) as J.
  destruct (splitext p) as [base ext]. simpl in J. intros H.
  assert (L : String.length (base ++ "_v" ++ fmt_03d v ++ ext)
              = String.length (base ++ ext)) by now rewrite H, J.
  rewrite !append_length in L. simpl in L. lia.
Qed.

Lemma suffix_candidate_fresh (p : string) (k : nat) : suffix_candidate p k <> p.
Proof.
  unfold suffix_candidate. pose proof (splitext_join p) as J.
  destruct (splitext p) as [base ext]. simpl in J. intros H.
  assert (L : String.length (base ++ "_" ++ str_nat k ++ ext)
              = String.length (base ++ ext)) by now rewrite H, J.
  rewrite !append_length in L. simpl in L. lia.
Qed.

(** What both resolvers share: the path itself when it is free, the
    first free candidate from [k0] on otherwise. *)
Lemma resolver_spec (fs : store) (cand : nat -> string) (k0 : nat) (path : string) :
  (forall a b, cand a = cand b -> a = b) ->
  (forall k, cand k <> path) ->
  exists r,
    (if negb (path_exists fs path) then Some path
     else probe fs cand (S (List.length fs)) k0) = Some r
    /\ path_exists fs r = false
    /\ (r = path <-> path_exists fs path = false)
    /\ (path_exists fs path = true ->
        exists v, k0 <= v /\ r = cand v
                  /\ forall v', k0 <= v' < v -> path_exists fs (cand v') = true).
Proof.
  intros Hinj Hfresh.
  destruct (path_exists fs path) eqn:E; simpl.
  - destruct (probe fs cand (S (List.length fs)) k0) as [r|] eqn:P.
    + destruct (probe_some _ _ _ _ _ P) as [v [Hle [-> [Hfree Hbelow]]]].
      exists (cand v). repeat split; try assumption.
      * intros Heq. exfalso. exact (Hfresh _ Heq).
      * intros Habs. discriminate.
      * intros _. exists v. repeat split; assumption.
    + exfalso. exact (probe_total fs cand k0 Hinj P).
  - exists path. repeat split; try assumption; try reflexivity.
    intros Habs. discriminate.
Qed.

(** C9.  For every path and every finite set of existing paths, each
    resolver returns a path; the result does not exist; it is the
    given path exactly when that one does not exist; otherwise it is
    the first free candidate of the resolver's numbering, the marker
    standing between root and extension: [_v002], [_v003], ... for the
    merge writer, [_1], [_2], ... for the matcher and sampler writers. *)
Theorem versioned_path_resolution (fs : store) (path : string) :
  (exists r, next_version_path fs path = Some r
     /\ path_exists fs r = false
     /\ (r = path <-> path_exists fs path = false)
     /\ (path_exists fs path = true ->
         exists v, 2 <= v
           /\ r = fst (splitext path) ++ "_v" ++ fmt_03d v ++ snd (splitext path)
           /\ forall v', 2 <= v' < v ->
                path_exists fs (fst (splitext path) ++ "_v" ++ fmt_03d v'
                                ++ snd (splitext path)) = true))
  /\
  (exists r, next_version_path_suffix_1 fs path = Some r
     /\ path_exists fs r = false
     /\ (r = path <-> path_exists fs path = false)
     /\ (path_exists fs path = true ->
         exists k, 1 <= k
           /\ r = fst (splitext path) ++ "_" ++ str_nat k ++ snd (splitext path)
           /\ forall k', 1 <= k' < k ->
                path_exists fs (fst (splitext path) ++ "_" ++ str_nat k'
                                ++ snd (splitext path)) = true)).
Proof.
  split.
  - destruct (resolver_spec fs (merge_candidate path) 2 path
                (merge_candidate_inj path) (merge_candidate_fresh path)) as [r [H1 [H2 [H3 H4]]]].
    exists r. repeat split; try assumption; try apply H3.
    intros E. destruct (H4 E) as [v [Hle [Hr Hbelow]]].
    exists v. unfold merge_candidate in Hr, Hbelow.
    destruct (splitext path) as [base ext]. simpl. auto.
  - destruct (resolver_spec fs (suffix_candidate path) 1 path
                (suffix_candidate_inj path) (suffix_candidate_fresh path)) as [r [H1 [H2 [H3 H4]]]].
    exists r. repeat split; try assumption; try apply H3.
    intros E. destruct (H4 E) as [k [Hle [Hr Hbelow]]].
    exists k. unfold suffix_candidate in Hr, Hbelow.
    destruct (splitext path) as [base ext]. simpl. auto.
Qed.

End Resolver.

(** The spec's examples, on POSIX paths. *)
Example out_shp_versions :
  next_version_path posix_splitext [] "out.shp" = Some "out.shp"
  /\ next_version_path posix_splitext ["out.shp"] "out.shp" = Some "out_v002.shp"
  /\ next_version_path posix_splitext ["out.shp"; "out_v002.shp"] "out.shp"
     = Some "out_v003.shp"
  /\ next_version_path_suffix_1 posix_splitext ["dir.d/out.shp"; "dir.d/out_1.shp"]
       "dir.d/out.shp" = Some "dir.d/out_2.shp"
  /\ next_version_path_suffix_1 posix_splitext [".hidden"] ".hidden" = Some ".hidden_1".
Proof. repeat split; reflexivity. Qed.

Lemma versioned_path_resolution_witness :
  (exists r, next_version_path posix_splitext ["out.shp"] "out.shp" = Some r
     /\ path_exists ["out.shp"] r = false)
  /\ (exists r, next_version_path_suffix_1 posix_splitext ["out.shp"] "out.shp" = Some r
     /\ path_exists ["out.shp"] r = false).
Proof.
  destruct (versioned_path_resolution posix_splitext posix_splitext_join
              ["out.shp"] "out.shp") as [[r [H1 [H2 _]]] [r' [H1' [H2' _]]]].
  split; [exists r | exists r']; split; assumption.
Defined.

End Versioning.

(* ------------------------------------------------------------------ *)
(** * Text normaliser
    [firms_ungrd_match.normalize_text] ([firms_admin_join] has the same
    function, documented as: upper case, no accents, normalised
    spaces). *)

Module Normalizer.

Local Open Scope N_scope.

(** A Python [str] is a sequence of Unicode code points. *)
Definition codepoint := N.
Definition text := list codepoint.

(** An ASCII literal as text. *)
Definition ascii_text (s : string) : text :=
  map N_of_ascii (list_ascii_of_string s).

Section Unicode.

(** The Unicode character database, as far as the function reads it:
    the full upper-case mapping of a character ([str.upper] maps
    character by character), its full compatibility decomposition
    (NFKD), its canonical combining class ([unicodedata.combining]) and
    whether it is white space ([str.isspace]; the same set is [\s] of
    [re] on [str] patterns and what [str.strip] removes). *)
Variable upper_map : codepoint -> list codepoint.
Variable decomposition : codepoint -> list codepoint.
Variable combining : codepoint -> N.
Variable isspace : codepoint -> bool.

Definition str_upper (s : text) : text := flat_map upper_map s.

Fixpoint lstrip (s : text) : text :=
  match s with
  | [] => []
  | c :: s' => if isspace c then lstrip s' else s
  end.

Definition rstrip (s : text) : text := rev (lstrip (rev s)).

Definition strip (s : text) : text := rstrip (lstrip s).

(** [unicodedata.normalize("NFKD", s)] without the canonical reordering
    of combining marks: reordering only permutes neighbouring characters
    of non-zero combining class, and the next statement of the function
    deletes exactly the characters of non-zero class, so the text that
    statement returns is the same with and without it. *)
Definition nfkd (s : text) : text := flat_map decomposition s.

(** [re.sub(r"\s+", " ", s)]: [in_run] tells that the previous
    character was white space, so the run is already replaced. *)
Fixpoint sub_ws (in_run : bool) (s : text) : text :=
  match s with
  | [] => []
  | c :: s' =>
      if isspace c
      then (if in_run then sub_ws true s' else 32 :: sub_ws true s')
      else c :: sub_ws false s'
  end.

Definition normalize_text (val : option text) : option text :=
  match val with
  | None => None
  | Some v =>
      let s := strip (str_upper v) in
      let s := nfkd s in
      let s := filter (fun ch => combining ch =? 0) s in
      let s := strip (sub_ws false s) in
      Some s
  end.

(** ** What one pass establishes *)

(** The text does not start with white space. *)
Definition no_lead (s : text) : Prop :=
  match s with
  | [] => True
  | c :: _ => isspace c = false
  end.

(** Every white space character of the text is one U+0020 that does
    not follow white space; [prev] tells that the text follows white
    space. *)
Fixpoint ws_ok (prev : bool) (s : text) : Prop :=
  match s with
  | [] => True
  | c :: s' =>
      if isspace c then c = 32 /\ prev = false /\ ws_ok true s'
      else ws_ok false s'
  end.

(** The character is its own decomposition and no combining mark. *)
Definition settled (c : codepoint) : Prop :=
  decomposition c = [c] /\ combining c = 0.

Lemma lstrip_no_lead (s : text) : no_lead (lstrip s).
Proof.
  induction s as [|c s IH]; simpl; [exact I|].
  destruct (isspace c) eqn:E; [exact IH | simpl; exact E].
Qed.

Lemma lstrip_id (s : text) : no_lead s -> lstrip s = s.
Proof. destruct s as [|c s]; simpl; [reflexivity|]. now intros ->. Qed.

Lemma lstrip_suffix (s : text) : exists l, s = l ++ lstrip s.
Proof.
  induction s as [|c s [l IH]]; simpl; [now exists []|].
  destruct (isspace c); [|now exists []].
  exists (c :: l). simpl. now f_equal.
Qed.

Lemma lstrip_snoc (l : text) (c : codepoint) :
  isspace c = false -> exists l', lstrip (l ++ [c]) = l' ++ [c].
Proof.
  intros H. induction l as [|a l [l' IH]]; simpl.
  - rewrite H. now exists [].
  - destruct (isspace a); [now exists l' | now exists (a :: l)].
Qed.

Lemma rstrip_no_trail (s : text) : no_lead (rev (rstrip s)).
Proof. unfold rstrip. rewrite rev_involutive. apply lstrip_no_lead. Qed.

Lemma rstrip_id (s : text) : no_lead (rev s) -> rstrip s = s.
Proof.
  intros H. unfold rstrip. rewrite (lstrip_id _ H). apply rev_involutive.
Qed.

Lemma rstrip_no_lead (s : text) : no_lead s -> no_lead (rstrip s).
Proof.
  destruct s as [|c s]; [intros _; exact I|].
  simpl. intros H. unfold rstrip. simpl rev.
  destruct (lstrip_snoc (rev s) c H) as [l' ->].
  rewrite rev_app_distr. simpl. exact H.
Qed.

Lemma rstrip_prefix (s : text) : exists l, s = rstrip s ++ l.
Proof.
  unfold rstrip. destruct (lstrip_suffix (rev s)) as [l H]. exists (rev l).
  rewrite <- rev_app_distr, <- H. symmetry. apply rev_involutive.
Qed.

Lemma strip_id (s : text) : no_lead s -> no_lead (rev s) -> strip s = s.
Proof.
  intros H1 H2. unfold strip. rewrite (lstrip_id _ H1). now apply rstrip_id.
Qed.

Lemma strip_no_lead (s : text) : no_lead (strip s).
Proof. apply rstrip_no_lead, lstrip_no_lead. Qed.

Lemma strip_no_trail (s : text) : no_lead (rev (strip s)).
Proof. apply rstrip_no_trail. Qed.

Lemma Forall_strip (P : codepoint -> Prop) (s : text) :
  Forall P s -> Forall P (strip s).
Proof.
  intros H. unfold strip.
  destruct (lstrip_suffix s) as [l1 E1].
  destruct (rstrip_prefix (lstrip s)) as [l2 E2].
  rewrite E1 in H. apply Forall_app in H as [_ H].
  rewrite E2 in H. now apply Forall_app in H as [H _].
Qed.

Lemma ws_ok_prefix (b : bool) (l1 l2 : text) : ws_ok b (l1 ++ l2) -> ws_ok b l1.
Proof.
  revert b. induction l1 as [|a l1 IH]; intros b; simpl; [auto|].
  destruct (isspace a); [|apply IH].
  intros [H1 [H2 H3]]. repeat split; try assumption. now apply IH.
Qed.

Lemma ws_ok_lstrip (b : bool) (s : text) : ws_ok b s -> ws_ok false (lstrip s).
Proof.
  revert b. induction s as [|c s IH]; intros b; simpl; [auto|].
  destruct (isspace c) eqn:E.
  - intros [_ [_ H]]. now apply (IH true).
  - intros H. simpl. now rewrite E.
Qed.

Lemma ws_ok_strip (b : bool) (s : text) : ws_ok b s -> ws_ok false (strip s).
Proof.
  intros H. unfold strip. destruct (rstrip_prefix (lstrip s)) as [l E].
  apply (ws_ok_prefix _ _ l). rewrite <- E. now apply (ws_ok_lstrip b).
Qed.

Lemma sub_ws_id (b : bool) (s : text) : ws_ok b s -> sub_ws b s = s.
Proof.
  revert b. induction s as [|c s IH]; intros b; simpl; [reflexivity|].
  destruct (isspace c).
  - intros [-> [-> H]]. f_equal. now apply IH.
  - intros H. f_equal. now apply IH.
Qed.

Lemma nfkd_settled (s : text) : Forall settled s -> nfkd s = s.
Proof.
  induction 1 as [|c s [Hc _] _ IH]; [reflexivity|].
  unfold nfkd in *. simpl. now rewrite Hc, IH.
Qed.

Lemma filter_settled (s : text) :
  Forall settled s -> filter (fun ch => combining ch =? 0) s = s.
Proof.
  induction 1 as [|c s [_ Hc] _ IH]; [reflexivity|].
  simpl. now rewrite Hc, IH.
Qed.

(** The facts of the character database that make a second pass
    leave the text as it is: U+0020 is white space, no combining mark
    and its own decomposition, and a decomposition is made of
    characters that do not decompose further. *)
Hypothesis space_isspace : isspace 32 = true.
Hypothesis space_not_combining : combining 32 = 0.
Hypothesis space_decomposed : decomposition 32 = [32].
Hypothesis decomposition_idem :
  forall c d, In d (decomposition c) -> decomposition d = [d].

Lemma ws_ok_sub_ws (b : bool) (s : text) : ws_ok b (sub_ws b s).
Proof.
  revert b. induction s as [|c s IH]; intros b; simpl; [exact I|].
  destruct (isspace c) eqn:E.
  - destruct b; [apply IH|].
    simpl. rewrite space_isspace. repeat split. apply IH.
  - simpl. rewrite E. apply IH.
Qed.

Lemma settled_filter_nfkd (s : text) :
  Forall settled (filter (fun ch => combining ch =? 0) (nfkd s)).
Proof.
  apply Forall_forall. intros d Hd. apply filter_In in Hd as [Hd Hc].
  unfold nfkd in Hd. apply in_flat_map in Hd as [c [_ Hd]].
  split; [now apply (decomposition_idem c) | now apply N.eqb_eq].
Qed.

Lemma settled_sub_ws (b : bool) (s : text) :
  Forall settled s -> Forall settled (sub_ws b s).
Proof.
  intros H. revert b. induction H as [|c s Hc _ IH]; intros b; simpl; [constructor|].
  destruct (isspace c).
  - destruct b; [apply IH|]. constructor; [|apply IH].
    split; [exact space_decomposed | exact space_not_combining].
  - constructor; [exact Hc | apply IH].
Qed.

(** One pass returns a text without combining marks and without white
    space at its ends, whose white space is single U+0020 characters;
    when upper-casing leaves that text as it is, a second pass returns
    it unchanged. *)
Theorem normalize_text_fixed_point (s r : text) :
  normalize_text (Some s) = Some r ->
  Forall (fun c => combining c = 0) r
  /\ no_lead r /\ no_lead (rev r) /\ ws_ok false r
  /\ (str_upper r = r -> normalize_text (Some r) = Some r).
Proof.
  intros H. simpl in H. injection H as <-.
  set (F := filter (fun ch => combining ch =? 0) (nfkd (strip (str_upper s)))).
  assert (HF : Forall settled (strip (sub_ws false F))).
  { apply Forall_strip, settled_sub_ws, settled_filter_nfkd. }
  assert (HW : ws_ok false (strip (sub_ws false F))).
  { apply (ws_ok_strip false), ws_ok_sub_ws. }
  split; [eapply Forall_impl; [|exact HF]; now intros c [_ Hc]|].
  split; [apply strip_no_lead|]. split; [apply strip_no_trail|].
  split; [exact HW|].
  intros Hup. simpl. rewrite Hup.
  rewrite (strip_id _ (strip_no_lead _) (strip_no_trail _)).
  rewrite (nfkd_settled _ HF), (filter_settled _ HF), (sub_ws_id _ _ HW).
  now rewrite (strip_id _ (strip_no_lead _) (strip_no_trail _)).
Qed.

End Unicode.

(** ** The tables on Latin text

    The Unicode 14 tables (Python 3.11) on the blocks Basic Latin and
    Latin-1 Supplement (U+0000 to U+00FF) and on the twelve characters
    outside them that upper-casing or decomposing those produces
    (U+0178, U+0300 to U+0304, U+0308, U+030A, U+0327, U+039C, U+03BC,
    U+2044).  [unicode_isspace] is the whole white space set of
    [str.isspace]. *)

Definition latin1_upper (c : codepoint) : list codepoint :=
  if (97 <=? c) && (c <=? 122) then [c - 32]
  else if (224 <=? c) && (c <=? 254) && negb (c =? 247) then [c - 32]
  else if c =? 181 then [924]
  else if c =? 223 then [83; 83]
  else if c =? 255 then [376]
  else if c =? 956 then [924]
  else [c].

(** The characters of the fragment that have a decomposition, each
    with its full compatibility decomposition. *)
Definition latin1_decompositions : list (codepoint * list codepoint) :=
  [(160, [32]); (168, [32; 776]); (170, [97]); (175, [32; 772]); (178, [50]);
   (179, [51]); (180, [32; 769]); (181, [956]); (184, [32; 807]);
   (185, [49]); (186, [111]); (188, [49; 8260; 52]); (189, [49; 8260; 50]);
   (190, [51; 8260; 52]); (192, [65; 768]); (193, [65; 769]);
   (194, [65; 770]); (195, [65; 771]); (196, [65; 776]); (197, [65; 778]);
   (199, [67; 807]); (200, [69; 768]); (201, [69; 769]); (202, [69; 770]);
   (203, [69; 776]); (204, [73; 768]); (205, [73; 769]); (206, [73; 770]);
   (207, [73; 776]); (209, [78; 771]); (210, [79; 768]); (211, [79; 769]);
   (212, [79; 770]); (213, [79; 771]); (214, [79; 776]); (217, [85; 768]);
   (218, [85; 769]); (219, [85; 770]); (220, [85; 776]); (221, [89; 769]);
   (224, [97; 768]); (225, [97; 769]); (226, [97; 770]); (227, [97; 771]);
   (228, [97; 776]); (229, [97; 778]); (231, [99; 807]); (232, [101; 768]);
   (233, [101; 769]); (234, [101; 770]); (235, [101; 776]);
   (236, [105; 768]); (237, [105; 769]); (238, [105; 770]);
   (239, [105; 776]); (241, [110; 771]); (242, [111; 768]);
   (243, [111; 769]); (244, [111; 770]); (245, [111; 771]);
   (246, [111; 776]); (249, [117; 768]); (250, [117; 769]);
   (251, [117; 770]); (252, [117; 776]); (253, [121; 769]);
   (255, [121; 776]); (376, [89; 776])].

Definition latin1_decomposition (c : codepoint) : list codepoint :=
  match find (fun kv => fst kv =? c) latin1_decompositions with
  | Some kv => snd kv
  | None => [c]
  end.

Definition latin1_combining (c : codepoint) : N :=
  match c with
  | 768 | 769 | 770 | 771 | 772 | 776 | 778 => 230
  | 807 => 202
  | _ => 0
  end.

Definition unicode_isspace (c : codepoint) : bool :=
  ((9 <=? c) && (c <=? 13)) || ((28 <=? c) && (c <=? 32))
  || (c =? 133) || (c =? 160) || (c =? 5760)
  || ((8192 <=? c) && (c <=? 8202))
  || (c =? 8232) || (c =? 8233) || (c =? 8239) || (c =? 8287) || (c =? 12288).

Definition normalize_latin1 : option text -> option text :=
  normalize_text latin1_upper latin1_decomposition latin1_combining unicode_isspace.

(** [normalize(null) == null]. *)
Lemma normalize_text_null upper_map decomposition combining isspace :
  normalize_text upper_map decomposition combining isspace None = None.
Proof. reflexivity. Qed.

(** [normalize("Bogotá  D.C. ") == "BOGOTA D.C."]; U+00E1 is the
    accented letter. *)
Example normalize_bogota :
  normalize_latin1 (Some (ascii_text "Bogot" ++ [225] ++ ascii_text "  D.C. "))
  = Some (ascii_text "BOGOTA D.C.").
Proof. vm_compute. reflexivity. Qed.

Lemma latin1_decomposition_idem (c d : codepoint) :
  In d (latin1_decomposition c) -> latin1_decomposition d = [d].
Proof.
  assert (T : forallb
                (fun kv => forallb
                   (fun d => if list_eq_dec N.eq_dec (latin1_decomposition d) [d]
                             then true else false) (snd kv))
                latin1_decompositions = true) by (vm_compute; reflexivity).
  unfold latin1_decomposition at 1.
  destruct (find (fun kv => fst kv =? c) latin1_decompositions) as [kv|] eqn:F.
  - intros Hd. apply find_some in F as [Hkv _].
    rewrite forallb_forall in T. specialize (T kv Hkv).
    rewrite forallb_forall in T. specialize (T d Hd).
    destruct (list_eq_dec N.eq_dec (latin1_decomposition d) [d]); [assumption|discriminate].
  - intros [<-|[]]. unfold latin1_decomposition. now rewrite F.
Qed.

Lemma normalize_text_fixed_point_witness :
  normalize_latin1 (Some (ascii_text "BOGOTA D.C.")) = Some (ascii_text "BOGOTA D.C.").
Proof.
  apply (normalize_text_fixed_point latin1_upper latin1_decomposition latin1_combining
           unicode_isspace eq_refl eq_refl eq_refl latin1_decomposition_idem
           (ascii_text "Bogot" ++ [225] ++ ascii_text "  D.C. ")
           (ascii_text "BOGOTA D.C.")).
  - vm_compute. reflexivity.
  - vm_compute. reflexivity.
Defined.

(** C8.  The normaliser maps null to null and the spec's example to
    its expected text, but it is not idempotent: the feminine ordinal
    indicator U+00AA has no upper-case mapping and decomposes (NFKD) to
    the small letter a, so one pass returns [a] and a second pass
    returns [A].  The function upper-cases before it decomposes. *)
Theorem normalize_text_not_idempotent :
  normalize_latin1 None = None
  /\ normalize_latin1 (Some (ascii_text "Bogot" ++ [225] ++ ascii_text "  D.C. "))
     = Some (ascii_text "BOGOTA D.C.")
  /\ normalize_latin1 (Some [170]) = Some (ascii_text "a")
  /\ normalize_latin1 (normalize_latin1 (Some [170])) = Some (ascii_text "A")
  /\ normalize_latin1 (normalize_latin1 (Some [170])) <> normalize_latin1 (Some [170]).
Proof.
  repeat split; try (vm_compute; reflexivity).
  vm_compute. discriminate.
Qed.

End Normalizer.

(* ------------------------------------------------------------------ *)
(** * Merge of FIRMS shapefiles
    [firms_merge.parse_dd_mm_yyyy], [normalize_acq_date] and
    [deduplicate_prefer_instrument]. *)

Module Merge.

Import Normalizer.

(** A cell of a column: one of the nulls [pd.isna] recognises, a
    [str], or another object, given by its [str()]. *)
Inductive value : Type :=
| VNone
| VNaN
| VNaT
| VStr (s : text)
| VObj (str : text).

Definition isna (v : value) : bool :=
  match v with
  | VNone | VNaN | VNaT => true
  | VStr _ | VObj _ => false
  end.

Definition py_str (v : value) : text :=
  match v with
  | VNone => ascii_text "None"
  | VNaN => ascii_text "nan"
  | VNaT => ascii_text "NaT"
  | VStr s => s
  | VObj s => s
  end.

Definition date_formats : list text :=
  [ascii_text "%d-%m-%Y"; ascii_text "%d/%m/%Y"; ascii_text "%d.%m.%Y"].

(** A frame by columns: the column of a name, when the frame has it. *)
Definition frame := string -> option (list value).

Inductive error : Type :=
| ValueError (msg : string).

Section Dates.

(** [datetime.strptime(s, fmt).date().isoformat()]; [None] when
    [strptime] raises [ValueError]. *)
Variable strptime_iso : text -> text -> option text.

(** [pd.to_datetime(s, dayfirst=True, errors="raise").date().isoformat()];
    [None] when the expression raises. *)
Variable to_datetime_iso : text -> option text.

(** [for fmt in (...): try: return ... except ValueError: continue] *)
Fixpoint try_formats (s : text) (fmts : list text) : option text :=
  match fmts with
  | [] => None
  | fmt :: rest =>
      match strptime_iso s fmt with
      | Some iso => Some iso
      | None => try_formats s rest
      end
  end.

Definition parse_dd_mm_yyyy (val : value) : value :=
  if isna val then val
  else
    let s := strip unicode_isspace (py_str val) in
    match try_formats s date_formats with
    | Some iso => VStr iso
    | None =>
        match to_datetime_iso s with
        | Some iso => VStr iso
        | None => VStr s
        end
    end.

Definition normalize_acq_date (gdf : frame) (src_col out_col : string)
  : error + frame :=
  match gdf src_col with
  | None => inl (ValueError ("Falta el campo " ++ src_col ++ ".")%string)
  | Some col =>
      inr (fun c => if String.eqb c out_col
                    then Some (map parse_dd_mm_yyyy col)
                    else gdf c)
  end.

(** No accepted format reads [s]. *)
Definition unparseable (s : text) : Prop :=
  (forall fmt, In fmt date_formats -> strptime_iso s fmt = None)
  /\ to_datetime_iso s = None.

Lemma try_formats_none (s : text) (fmts : list text) :
  (forall fmt, In fmt fmts -> strptime_iso s fmt = None) ->
  try_formats s fmts = None.
Proof.
  induction fmts as [|fmt rest IH]; intros H; simpl; [reflexivity|].
  rewrite (H fmt) by now left. apply IH. intros f Hf. apply H. now right.
Qed.

Lemma parse_null (val : value) : isna val = true -> parse_dd_mm_yyyy val = val.
Proof. intros H. unfold parse_dd_mm_yyyy. now rewrite H. Qed.

Lemma parse_not_null (val : value) :
  isna val = false -> isna (parse_dd_mm_yyyy val) = false.
Proof.
  intros H. unfold parse_dd_mm_yyyy. rewrite H.
  destruct (try_formats _ _); [reflexivity|].
  destruct (to_datetime_iso _); reflexivity.
Qed.

Lemma parse_unparseable (val : value) :
  isna val = false ->
  unparseable (strip unicode_isspace (py_str val)) ->
  parse_dd_mm_yyyy val = VStr (strip unicode_isspace (py_str val)).
Proof.
  intros H [Hf Ht]. unfold parse_dd_mm_yyyy. rewrite H.
  now rewrite (try_formats_none _ _ Hf), Ht.
Qed.

(** C10.  The normalised date column of the merge has one cell per
    cell of ACQ_DATE; a null cell stays the same null; a cell that is
    not null never becomes null, and when none of the three day-first
    formats nor the generic day-first parse reads its stripped string,
    the cell is that stripped string. *)
Theorem acq_date_norm_keeps_unparseable (gdf : frame) (col : list value) :
  gdf "ACQ_DATE"%string = Some col ->
  exists gdf' norm,
    normalize_acq_date gdf "ACQ_DATE" "ACQ_DATE_NORM" = inr gdf'
    /\ gdf' "ACQ_DATE_NORM"%string = Some norm
    /\ length norm = length col
    /\ forall i v, nth_error col i = Some v ->
         exists w, nth_error norm i = Some w
           /\ w = parse_dd_mm_yyyy v
           /\ (isna v = true -> w = v)
           /\ (isna v = false ->
               isna w = false
               /\ (unparseable (strip unicode_isspace (py_str v)) ->
                   w = VStr (strip unicode_isspace (py_str v)))).
Proof.
  intros Hcol. unfold normalize_acq_date. rewrite Hcol.
  eexists. exists (map parse_dd_mm_yyyy col).
  split; [reflexivity|]. split; [reflexivity|].
  split; [apply length_map|].
  intros i v Hi. exists (parse_dd_mm_yyyy v).
  split; [now rewrite nth_error_map, Hi|].
  split; [reflexivity|].
  split; [apply parse_null|].
  intros Hv. split; [now apply parse_not_null | now apply parse_unparseable].
Qed.

End Dates.

(** Parsers to run the section on: day, month and year as two, two and
    four digits around the separator of the format (a part of what
    [strptime] accepts), and a generic parse that reads nothing more. *)
Definition is_digit (c : codepoint) : bool := ((48 <=? c) && (c <=? 57))%N.

Definition two_digits (a b : codepoint) : N := ((a - 48) * 10 + (b - 48))%N.

Definition sample_strptime_iso (s fmt : text) : option text :=
  match s, fmt with
  | [d1; d2; p; m1; m2; q; y1; y2; y3; y4], [37; 100; f; 37; 109; g; 37; 89]%N =>
      if forallb is_digit [d1; d2; m1; m2; y1; y2; y3; y4]
         && (p =? f)%N && (q =? g)%N
         && (1 <=? two_digits d1 d2)%N && (two_digits d1 d2 <=? 31)%N
         && (1 <=? two_digits m1 m2)%N && (two_digits m1 m2 <=? 12)%N
      then Some [y1; y2; y3; y4; 45; m1; m2; 45; d1; d2]%N
      else None
  | _, _ => None
  end.

Definition sample_to_datetime_iso (s : text) : option text := None.

Example parse_examples :
  parse_dd_mm_yyyy sample_strptime_iso sample_to_datetime_iso
    (VStr (ascii_text " 24/12/2020 ")) = VStr (ascii_text "2020-12-24")
  /\ parse_dd_mm_yyyy sample_strptime_iso sample_to_datetime_iso
    (VStr (ascii_text " sin fecha ")) = VStr (ascii_text "sin fecha")
  /\ parse_dd_mm_yyyy sample_strptime_iso sample_to_datetime_iso VNaN = VNaN.
Proof. repeat split; vm_compute; reflexivity. Qed.

Lemma acq_date_norm_keeps_unparseable_witness :
  exists gdf' norm,
    normalize_acq_date sample_strptime_iso sample_to_datetime_iso
      (fun c => if String.eqb c "ACQ_DATE"
                then Some [VStr (ascii_text " sin fecha "); VNone]
                else None)
      "ACQ_DATE" "ACQ_DATE_NORM" = inr gdf'
    /\ gdf' "ACQ_DATE_NORM"%string = Some norm
    /\ length norm = 2.
Proof.
  destruct (acq_date_norm_keeps_unparseable sample_strptime_iso sample_to_datetime_iso
              (fun c => if String.eqb c "ACQ_DATE"
                        then Some [VStr (ascii_text " sin fecha "); VNone]
                        else None)
              [VStr (ascii_text " sin fecha "); VNone] eq_refl)
    as [gdf' [norm [H1 [H2 [H3 _]]]]].
  exists gdf', norm. repeat split; assumption.
Defined.

(** ** Deduplication *)

Lemma StronglySorted_impl {A : Type} (R S : A -> A -> Prop) (l : list A) :
  (forall a b, R a b -> S a b) -> StronglySorted R l -> StronglySorted S l.
Proof.
  intros H. induction 1 as [|x l Hs IH Hx]; constructor; [exact IH|].
  eapply Forall_impl; [|exact Hx]. intros y. apply H.
Qed.

Lemma StronglySorted_split {A : Type} (R : A -> A -> Prop) (l1 l2 : list A) (x : A) :
  StronglySorted R (l1 ++ x :: l2) -> forall y, In y l2 -> R x y.
Proof.
  induction l1 as [|a l1 IH]; simpl; intros H y Hy.
  - inversion H as [|? ? _ Hall]; subst.
    rewrite Forall_forall in Hall. now apply Hall.
  - inversion H; subst. now apply IH.
Qed.

Lemma filter_split {A : Type} (P : A -> bool) (l a b : list A) (r : A) :
  filter P l = a ++ r :: b ->
  exists l1 l2, l = l1 ++ r :: l2 /\ filter P l1 = a /\ filter P l2 = b.
Proof.
  revert a. induction l as [|x l IH]; intros a H; simpl in H.
  - destruct a; discriminate.
  - destruct (P x) eqn:Px.
    + destruct a as [|y a]; simpl in H.
      * injection H as -> Hb. exists [], l. now rewrite Hb.
      * injection H as -> H. destruct (IH _ H) as [l1 [l2 [-> [<- <-]]]].
        exists (y :: l1), l2. simpl. now rewrite Px.
    + destruct (IH _ H) as [l1 [l2 [-> [<- <-]]]].
      exists (x :: l1), l2. simpl. now rewrite Px.
Qed.

Section Dedup.

(** A record of the concatenated frame, and what the function reads of
    it: the values of the columns [keys], compared as
    [drop_duplicates] compares them, and [str] of the instrument
    cell. *)
Variable row : Type.
Variable K : Type.
Variable key_eqb : K -> K -> bool.
Hypothesis key_eqb_spec : forall a b, key_eqb a b = true <-> a = b.
Variable subset_key : row -> K.
Variable instrument : row -> text.
Variable upper_map : codepoint -> list codepoint.
Variable prefer_value : text.

(** [DataFrame.sort_values(by=[column])]: one column is sorted with the
    default [kind="quicksort"], which pandas documents as not stable
    (only [mergesort] and [stable] are).  The result is the frame's
    records in ascending order of the column; nothing more is taken
    for granted. *)
Variable sort_values : (row -> nat) -> list row -> list row.
Hypothesis sort_values_perm : forall by_ l, Permutation (sort_values by_ l) l.
Hypothesis sort_values_sorted :
  forall by_ l, StronglySorted (fun a b => by_ a <= by_ b) (sort_values by_ l).

(** [astype(str).str.upper() == str(prefer_value).upper()] *)
Definition pref (r : row) : bool :=
  if list_eq_dec N.eq_dec (str_upper upper_map (instrument r))
                          (str_upper upper_map prefer_value)
  then true else false.

(** [(~pref).astype(int)] *)
Definition priority (r : row) : nat := if pref r then 0 else 1.

(** [drop_duplicates(subset=keys, keep="first")]; [seen] holds the keys
    of the records already passed. *)
Fixpoint drop_duplicates (seen : list K) (l : list row) : list row :=
  match l with
  | [] => []
  | r :: l' =>
      if existsb (key_eqb (subset_key r)) seen
      then drop_duplicates seen l'
      else r :: drop_duplicates (subset_key r :: seen) l'
  end.

Definition deduplicate_prefer_instrument (gdf : list row) : list row * Z :=
  let before := Z.of_nat (length gdf) in
  let gdf2 := drop_duplicates [] (sort_values priority gdf) in
  let dropped := (before - Z.of_nat (length gdf2))%Z in
  (gdf2, dropped).

Lemma seen_In (k : K) (seen : list K) :
  existsb (key_eqb k) seen = true <-> In k seen.
Proof.
  rewrite existsb_exists. split.
  - intros [x [Hx E]]. apply key_eqb_spec in E. now subst.
  - intros H. exists k. split; [exact H | now apply key_eqb_spec].
Qed.

Lemma drop_duplicates_first (seen : list K) (l : list row) (r : row) :
  In r (drop_duplicates seen l) ->
  ~ In (subset_key r) seen
  /\ exists l1 l2, l = l1 ++ r :: l2
       /\ forall x, In x l1 -> subset_key x <> subset_key r.
Proof.
  revert seen. induction l as [|h l IH]; intros seen H; simpl in H; [contradiction|].
  destruct (existsb (key_eqb (subset_key h)) seen) eqn:E.
  - destruct (IH _ H) as [Hns [l1 [l2 [-> Hl1]]]].
    split; [exact Hns|]. exists (h :: l1), l2. split; [reflexivity|].
    intros x [<-|Hx]; [|now apply Hl1].
    apply seen_In in E. intros Heq. apply Hns. now rewrite <- Heq.
  - destruct H as [<-|H].
    + split.
      * intros Hin. apply seen_In in Hin. congruence.
      * exists [], l. split; [reflexivity|]. intros x [].
    + destruct (IH _ H) as [Hns [l1 [l2 [-> Hl1]]]].
      split; [intros Hin; apply Hns; now right|].
      exists (h :: l1), l2. split; [reflexivity|].
      intros x [<-|Hx]; [|now apply Hl1].
      intros Heq. apply Hns. left. exact Heq.
Qed.

Lemma drop_duplicates_In (seen : list K) (l : list row) (r : row) :
  In r (drop_duplicates seen l) -> In r l.
Proof.
  intros H. destruct (drop_duplicates_first _ _ _ H) as [_ [l1 [l2 [-> _]]]].
  apply in_or_app. right. now left.
Qed.

Lemma drop_duplicates_NoDup (seen : list K) (l : list row) :
  NoDup (map subset_key (drop_duplicates seen l)).
Proof.
  revert seen. induction l as [|h l IH]; intros seen; simpl; [constructor|].
  destruct (existsb (key_eqb (subset_key h)) seen); [apply IH|].
  simpl. constructor; [|apply IH].
  intros Hin. apply in_map_iff in Hin as [x [Hk Hx]].
  apply drop_duplicates_first in Hx as [Hns _]. apply Hns. left. now symmetry.
Qed.

Lemma drop_duplicates_complete (seen : list K) (l : list row) (r : row) :
  In r l -> ~ In (subset_key r) seen ->
  exists r', In r' (drop_duplicates seen l) /\ subset_key r' = subset_key r.
Proof.
  revert seen. induction l as [|h l IH]; intros seen Hin Hns; [contradiction|].
  simpl. destruct (existsb (key_eqb (subset_key h)) seen) eqn:E.
  - destruct Hin as [->|Hin].
    + apply seen_In in E. contradiction.
    + now apply IH.
  - destruct (key_eqb (subset_key h) (subset_key r)) eqn:Ek.
    + apply key_eqb_spec in Ek. exists h. split; [now left | exact Ek].
    + destruct Hin as [->|Hin].
      * exists r. split; [now left | reflexivity].
      * destruct (IH (subset_key h :: seen) Hin) as [r' [Hr' Hk]].
        { intros [Heq|Hs]; [|contradiction].
          assert (T : key_eqb (subset_key h) (subset_key r) = true)
            by now apply key_eqb_spec.
          congruence. }
        exists r'. split; [now right | exact Hk].
Qed.

Lemma drop_duplicates_length (seen : list K) (l : list row) :
  length (drop_duplicates seen l) <= length l.
Proof.
  revert seen. induction l as [|h l IH]; intros seen; simpl; [lia|].
  destruct (existsb _ seen); simpl.
  - specialize (IH seen). lia.
  - specialize (IH (subset_key h :: seen)). lia.
Qed.

Lemma priority_rank (r : row) :
  (priority r = 0 <->
   str_upper upper_map (instrument r) = str_upper upper_map prefer_value)
  /\ (priority r = 0 \/ priority r = 1).
Proof.
  unfold priority, pref.
  destruct (list_eq_dec N.eq_dec _ _) as [E|E].
  - split; [tauto | now left].
  - split; [|now right]. split; [discriminate | contradiction].
Qed.

(** C3, as the code has it.  Records whose instrument equals the
    preferred value up to case get rank 0, the others rank 1; the
    frame is sorted by rank (by a sort that need not be stable); of
    every group of records with the same key exactly one is kept, the
    first after the sort, so its rank is the least of its group: a
    preferred record wins where the group has one; the dropped count is
    input size minus output size. *)
Theorem dedup_keeps_one_per_key (gdf : list row) :
  let out := fst (deduplicate_prefer_instrument gdf) in
  let dropped := snd (deduplicate_prefer_instrument gdf) in
  (forall r,
      (priority r = 0 <->
       str_upper upper_map (instrument r) = str_upper upper_map prefer_value)
      /\ (priority r = 0 \/ priority r = 1))
  /\ NoDup (map subset_key out)
  /\ (forall r, In r gdf -> exists r', In r' out /\ subset_key r' = subset_key r)
  /\ (forall r, In r out ->
        In r gdf
        /\ (exists l1 l2, sort_values priority gdf = l1 ++ r :: l2
              /\ forall x, In x l1 -> subset_key x <> subset_key r)
        /\ (forall r', In r' gdf -> subset_key r' = subset_key r ->
              priority r <= priority r'))
  /\ dropped = (Z.of_nat (length gdf) - Z.of_nat (length out))%Z
  /\ (0 <= dropped)%Z.
Proof.
  cbv zeta. unfold deduplicate_prefer_instrument. simpl fst. simpl snd.
  split; [apply priority_rank|].
  split; [apply drop_duplicates_NoDup|].
  split.
  { intros r Hr. apply drop_duplicates_complete; [|intros []].
    apply (Permutation_in _ (Permutation_sym (sort_values_perm priority gdf))).
    exact Hr. }
  split.
  { intros r Hr.
    pose proof (drop_duplicates_In _ _ _ Hr) as Hs.
    pose proof (Permutation_in _ (sort_values_perm priority gdf) Hs) as Hg.
    destruct (drop_duplicates_first _ _ _ Hr) as [_ [l1 [l2 [Hsplit Hl1]]]].
    split; [exact Hg|]. split; [now exists l1, l2|].
    intros r' Hr' Hk.
    apply (Permutation_in _ (Permutation_sym (sort_values_perm priority gdf))) in Hr'.
    rewrite Hsplit in Hr'. apply in_app_or in Hr' as [Hr'|[<-|Hr']].
    - exfalso. exact (Hl1 _ Hr' Hk).
    - lia.
    - pose proof (sort_values_sorted priority gdf) as Hsorted.
      rewrite Hsplit in Hsorted.
      exact (StronglySorted_split _ _ _ _ Hsorted _ Hr'). }
  split; [reflexivity|].
  pose proof (drop_duplicates_length [] (sort_values priority gdf)) as L.
  rewrite (Permutation_length (sort_values_perm priority gdf)) in L. lia.
Qed.

(** With a stable sort ([kind="stable"]) the survivor of a group is
    also the first in base order among the group's records of its
    rank. *)
Lemma stable_dedup_keeps_first_encountered (gdf : list row) :
  (forall k l, filter (fun r => priority r =? k) (sort_values priority l)
               = filter (fun r => priority r =? k) l) ->
  forall r, In r (fst (deduplicate_prefer_instrument gdf)) ->
  exists l1 l2, gdf = l1 ++ r :: l2
    /\ forall x, In x l1 -> subset_key x = subset_key r -> priority x <> priority r.
Proof.
  intros Hstable r Hr. unfold deduplicate_prefer_instrument in Hr. simpl in Hr.
  destruct (drop_duplicates_first _ _ _ Hr) as [_ [s1 [s2 [Hsplit Hs1]]]].
  pose proof (Hstable (priority r) gdf) as Hf.
  rewrite Hsplit, filter_app in Hf. simpl in Hf. rewrite Nat.eqb_refl in Hf.
  symmetry in Hf. destruct (filter_split _ _ _ _ _ Hf) as [l1 [l2 [-> [Hl1 _]]]].
  exists l1, l2. split; [reflexivity|].
  intros x Hx Hk Hp.
  assert (Hin : In x (filter (fun r0 => priority r0 =? priority r) l1)).
  { apply filter_In. split; [exact Hx | now apply Nat.eqb_eq]. }
  rewrite Hl1 in Hin. apply filter_In in Hin as [Hin _].
  exact (Hs1 _ Hin Hk).
Qed.

End Dedup.

(** Records to run the section on: an identifier, a key, an
    instrument. *)
Record sample_record : Type := {
  rec_id : nat;
  rec_key : nat;
  rec_instrument : text
}.

Definition by_leb (by_ : sample_record -> nat) (a b : sample_record) : bool :=
  by_ a <=? by_ b.

(** A stable sort, and a sort that is as admissible for
    [kind="quicksort"]: ascending in the column, records of equal value
    in the opposite of their base order. *)
Definition stable_sort_values (by_ : sample_record -> nat) (l : list sample_record) :=
  PySort.stable_sort (by_leb by_) l.

Definition reversing_sort_values (by_ : sample_record -> nat) (l : list sample_record) :=
  PySort.stable_sort (by_leb by_) (rev l).

Lemma stable_sort_values_perm by_ l : Permutation (stable_sort_values by_ l) l.
Proof. apply PySort.stable_sort_perm. Qed.

Lemma stable_sort_values_sorted by_ l :
  StronglySorted (fun a b => by_ a <= by_ b) (stable_sort_values by_ l).
Proof.
  apply (StronglySorted_impl (fun a b => by_leb by_ a b = true)).
  - intros a b H. now apply Nat.leb_le.
  - apply PySort.stable_sort_sorted.
    + intros a b. unfold by_leb. rewrite !Nat.leb_le. lia.
    + intros a b c. unfold by_leb. rewrite !Nat.leb_le. lia.
Qed.

Lemma reversing_sort_values_perm by_ l : Permutation (reversing_sort_values by_ l) l.
Proof.
  unfold reversing_sort_values. rewrite PySort.stable_sort_perm.
  symmetry. apply Permutation_rev.
Qed.

Lemma reversing_sort_values_sorted by_ l :
  StronglySorted (fun a b => by_ a <= by_ b) (reversing_sort_values by_ l).
Proof. apply (stable_sort_values_sorted by_ (rev l)). Qed.

Definition sample_dedup (sort : (sample_record -> nat) -> list sample_record -> list sample_record)
  : list sample_record -> list sample_record * Z :=
  deduplicate_prefer_instrument sample_record nat Nat.eqb rec_key rec_instrument
    latin1_upper (ascii_text "MODIS") sort.

Definition viirs_a : sample_record :=
  {| rec_id := 0; rec_key := 65; rec_instrument := ascii_text "VIIRS" |}.
Definition modis_a : sample_record :=
  {| rec_id := 1; rec_key := 65; rec_instrument := ascii_text "modis" |}.
Definition modis_b : sample_record :=
  {| rec_id := 2; rec_key := 66; rec_instrument := ascii_text "MODIS" |}.
Definition viirs_a' : sample_record :=
  {| rec_id := 3; rec_key := 65; rec_instrument := ascii_text "VIIRS" |}.

(** The spec's example, with a stable sort. *)
Example dedup_spec_example :
  sample_dedup stable_sort_values [viirs_a; modis_a; modis_b] = ([modis_a; modis_b], 1%Z).
Proof. vm_compute. reflexivity. Qed.

Lemma dedup_keeps_one_per_key_witness :
  NoDup (map rec_key (fst (sample_dedup stable_sort_values [viirs_a; modis_a; modis_b])))
  /\ snd (sample_dedup stable_sort_values [viirs_a; modis_a; modis_b]) = 1%Z.
Proof.
  destruct (dedup_keeps_one_per_key sample_record nat Nat.eqb Nat.eqb_eq rec_key
              rec_instrument latin1_upper (ascii_text "MODIS") stable_sort_values
              stable_sort_values_perm stable_sort_values_sorted
              [viirs_a; modis_a; modis_b]) as [_ [Hnd [_ [_ [Hd _]]]]].
  split; [exact Hnd | exact Hd].
Defined.

Lemma stable_sort_values_stable by_ k l :
  filter (fun r => by_ r =? k) (stable_sort_values by_ l)
  = filter (fun r => by_ r =? k) l.
Proof.
  apply PySort.stable_sort_filter. intros a b Ha Hb.
  apply Nat.eqb_eq in Ha, Hb. unfold by_leb. apply Nat.leb_le. lia.
Qed.

Lemma stable_dedup_keeps_first_encountered_witness :
  exists l1 l2, [viirs_a; viirs_a'; modis_b] = l1 ++ viirs_a :: l2
    /\ forall x, In x l1 -> rec_key x = rec_key viirs_a ->
         priority sample_record rec_instrument latin1_upper (ascii_text "MODIS") x
         <> priority sample_record rec_instrument latin1_upper (ascii_text "MODIS") viirs_a.
Proof.
  apply (stable_dedup_keeps_first_encountered sample_record nat Nat.eqb Nat.eqb_eq
           rec_key rec_instrument latin1_upper (ascii_text "MODIS") stable_sort_values
           [viirs_a; viirs_a'; modis_b]).
  - intros k l. apply stable_sort_values_stable.
  - vm_compute. right. left. reflexivity.
Defined.

(** Eighteen records of one rank with distinct keys, but for the
    record at position 15, which has the key of the record at
    position 1. *)
Definition frame_18 : list sample_record :=
  map (fun i => {| rec_id := i;
                   rec_key := if i =? 15 then 1 else i;
                   rec_instrument := ascii_text "VIIRS" |})
      (seq 0 18).

(** The stability that C3 states does not follow from the sort the
    function calls.  [reversing_sort_values] returns the records in
    ascending order of the column as well, and with it the later of
    two records of the same key and rank survives, not the
    first-encountered one: on a frame of two records, and on
    [frame_18], a frame longer than the sixteen elements up to which
    numpy's quicksort is an insertion sort, where the record at
    position 1 is dropped and the one at position 15 kept. *)
Lemma dedup_first_encountered_dropped :
  (forall by_ l, Permutation (reversing_sort_values by_ l) l)
  /\ (forall by_ l,
        StronglySorted (fun a b => by_ a <= by_ b) (reversing_sort_values by_ l))
  /\ sample_dedup reversing_sort_values [viirs_a; viirs_a'] = ([viirs_a'], 1%Z)
  /\ viirs_a' <> viirs_a
  /\ map rec_id (fst (sample_dedup reversing_sort_values frame_18))
     = [17; 16; 15; 14; 13; 12; 11; 10; 9; 8; 7; 6; 5; 4; 3; 2; 0]
  /\ snd (sample_dedup reversing_sort_values frame_18) = 1%Z.
Proof.
  split; [exact reversing_sort_values_perm|].
  split; [exact reversing_sort_values_sorted|].
  split; [vm_compute; reflexivity|].
  split; [discriminate|].
  split; vm_compute; reflexivity.
Qed.

End Merge.

(* ------------------------------------------------------------------ *)
(** * FIRMS points against UNGRD events
    [firms_ungrd_match.build_candidates], [best_match_per_point],
    [attach_matches] and their composition in [run_firms_vs_ungrd]. *)

Module Match.

Import Normalizer.

(** A timestamp ([datetime64[ns]]) is its number of nanoseconds since
    the epoch; [NaT], like every null cell, is [None]. *)
Definition timestamp := Z.

Definition day_ns : Z := 86400000000000.

(** The columns of the FIRMS frame that the matching reads, after
    [load_firms_shp]. *)
Record firms_point : Type := {
  depto_std : option text;
  mpnombre_s_std : option text;
  fecha_FIRMS : option timestamp
}.

(** The columns of the UNGRD frame that the matching reads, after
    [load_ungrd_excel]. *)
Record ungrd_row : Type := {
  DEPTO_std : option text;
  MUNICIPIO_std : option text;
  FECHA : option timestamp
}.

(** A cell of the column [idx_firms]: null, or a number.  The number
    is a position of the frame, or stands for the value of a cell of a
    column [index] of the layer, equal cells having equal numbers and
    the numbers ordered as pandas orders the values. *)
Definition idx : Type := option nat.

Definition idx_eqb (a b : idx) : bool :=
  match a, b with
  | Some x, Some y => x =? y
  | None, None => true
  | _, _ => false
  end.

(** The order of a sort on the column, nulls last. *)
Definition idx_ltb (a b : idx) : bool :=
  match a, b with
  | Some x, Some y => x <? y
  | Some _, None => true
  | None, _ => false
  end.

(** The FIRMS frame as [build_candidates] receives it: the points in
    the order of the layer and, of the other columns of the layer,
    what [reset_index] and the renaming depend on: the cells of a
    column [index], by position, when the layer has one, and whether it
    has a column [level_0] or a column [idx_firms]. *)
Record firms_frame : Type := {
  points : list firms_point;
  index_column : option (nat -> idx);
  has_level_0 : bool;
  has_idx_firms : bool
}.

(** A layer with none of the three columns. *)
Definition layer (pts : list firms_point) : firms_frame :=
  {| points := pts; index_column := None;
     has_level_0 := false; has_idx_firms := false |}.

(** A layer with a column [index] beside its points. *)
Definition layer_with_index (pts : list firms_point) (cell : nat -> idx) : firms_frame :=
  {| points := pts; index_column := Some cell;
     has_level_0 := false; has_idx_firms := false |}.

(** A row of [gdf_firms_reset]: the point and its [idx_firms]. *)
Record reset_row : Type := {
  idx_firms : idx;
  point : firms_point
}.

(** A row of [merged]: the columns of the point and those of the
    event, all null when no event has the point's keys. *)
Record candidate : Type := {
  cand_idx_firms : idx;
  cand_point : firms_point;
  cand_ungrd : ungrd_row
}.

(** The columns that [best_match_per_point] returns beside
    [idx_firms]. *)
Record match_cols : Type := {
  fecha_UNGRD_match : option timestamp;
  dif_dias_min : option Z;
  dif_dias_abs : option Z;
  tipo_coincidencia : option string
}.

(** What the pandas calls of the matching raise: [reset_index] on a
    frame that has both [index] and [level_0], and the calls that meet
    a frame they cannot handle ([Raised]). *)
Inductive exn : Type :=
| ValueError (msg : string)
| Raised.

Definition null_ungrd : ungrd_row :=
  {| DEPTO_std := None; MUNICIPIO_std := None; FECHA := None |}.

Definition null_cols : match_cols :=
  {| fecha_UNGRD_match := None; dif_dias_min := None;
     dif_dias_abs := None; tipo_coincidencia := None |}.

Definition notna {A : Type} (o : option A) : bool :=
  match o with Some _ => true | None => false end.

(** Equality of join keys: pandas puts the null keys of both frames in
    one group, so a null key matches a null key. *)
Definition key_cell_eqb (a b : option text) : bool :=
  match a, b with
  | Some x, Some y => if list_eq_dec N.eq_dec x y then true else false
  | None, None => true
  | _, _ => false
  end.

Definition admin_match (p : firms_point) (u : ungrd_row) : bool :=
  key_cell_eqb (depto_std p) (DEPTO_std u)
  && key_cell_eqb (mpnombre_s_std p) (MUNICIPIO_std u).

(** [left.merge(right, how="left")]: the rows of [left] in order, each
    with its matching rows of [right] in their order, or once with a
    null right side. *)
Definition left_merge {L R : Type} (on : L -> R -> bool)
  (left : list L) (right : list R) : list (L * option R) :=
  flat_map (fun l =>
              match filter (on l) right with
              | [] => [(l, None)]
              | ms => map (fun r => (l, Some r)) ms
              end) left.

(** The cell of [idx_firms] at a position.  The second [reset_index]
    inserts the positions as a column named [index] only when the
    frame has no column of that name; otherwise it names it [level_0],
    and [rename(columns={"index": "idx_firms"})] renames the column
    [index] of the layer. *)
Definition key_of (gdf_firms : firms_frame) (i : nat) : idx :=
  match index_column gdf_firms with
  | Some cell => cell i
  | None => Some i
  end.

(** [reset_index(drop=True).reset_index().rename(columns={"index":
    "idx_firms"})], on a frame where the insertion does not raise. *)
Definition reset_index (gdf_firms : firms_frame) : list reset_row :=
  map (fun ip => {| idx_firms := key_of gdf_firms (fst ip); point := snd ip |})
      (combine (seq 0 (length (points gdf_firms))) (points gdf_firms)).

(** [firms_subset.merge(ungrd_subset, left_on=..., right_on=...,
    how="left")] *)
Definition admin_merge (gdf_firms_reset : list reset_row) (df_ungrd : list ungrd_row)
  : list candidate :=
  map (fun lr =>
         {| cand_idx_firms := idx_firms (fst lr);
            cand_point := point (fst lr);
            cand_ungrd := match snd lr with Some u => u | None => null_ungrd end |})
      (left_merge (fun l u => admin_match (point l) u) gdf_firms_reset df_ungrd).

(** [build_candidates].  On a frame with a column [index] the inserted
    column is [level_0], which pandas refuses to insert when the frame
    has a column of that name too. *)
Definition build_candidates (gdf_firms : firms_frame) (df_ungrd : list ungrd_row)
  : exn + (list candidate * list reset_row) :=
  if notna (index_column gdf_firms) && has_level_0 gdf_firms then
    inl (ValueError "cannot insert level_0, already exists")
  else
    let gdf_firms_reset := reset_index gdf_firms in
    inr (admin_merge gdf_firms_reset df_ungrd, gdf_firms_reset).

(** [(fecha_FIRMS - FECHA).dt.days]: whole days, rounded down. *)
Definition dif_dias (c : candidate) : option Z :=
  match fecha_FIRMS (cand_point c), FECHA (cand_ungrd c) with
  | Some p, Some e => Some ((p - e) / day_ns)%Z
  | _, _ => None
  end.

Definition dif_dias_abs_col (c : candidate) : option Z :=
  option_map Z.abs (dif_dias c).

(** The order of [sort_values(["idx_firms", "dif_dias_abs"])]: by
    [idx_firms], then by absolute difference, nulls last in both. *)
Definition abs_leb (a b : option Z) : bool :=
  match a, b with
  | Some x, Some y => (x <=? y)%Z
  | Some _, None => true
  | None, Some _ => false
  | None, None => true
  end.

Definition cand_leb (a b : candidate) : bool :=
  idx_ltb (cand_idx_firms a) (cand_idx_firms b)
  || (idx_eqb (cand_idx_firms a) (cand_idx_firms b)
      && abs_leb (dif_dias_abs_col a) (dif_dias_abs_col b)).

(** [drop_duplicates()] of the column [idx_firms]: first occurrences,
    in order, the null cells counting as one value. *)
Fixpoint unique_first (seen : list idx) (l : list idx) : list idx :=
  match l with
  | [] => []
  | i :: l' =>
      if existsb (idx_eqb i) seen then unique_first seen l'
      else i :: unique_first (i :: seen) l'
  end.

(** [GroupBy.first()] takes, column by column, the first value of the
    group that is not null. *)
Fixpoint first_notna {A B : Type} (col : A -> option B) (rows : list A) : option B :=
  match rows with
  | [] => None
  | r :: rows' =>
      match col r with
      | Some v => Some v
      | None => first_notna col rows'
      end
  end.

Definition idx_leb (a b : idx) : bool := negb (idx_ltb b a).

(** The group keys of [groupby("idx_firms")]: the values of the
    column without the null ones, ascending. *)
Definition group_keys (rows : list candidate) : list idx :=
  PySort.stable_sort idx_leb
    (filter notna (unique_first [] (map cand_idx_firms rows))).

(** The row of [best] for one group, with the nested [tipo]. *)
Definition best_row (window_days : Z) (i : idx) (group : list candidate)
  : idx * match_cols :=
  let fecha := first_notna (fun c => FECHA (cand_ungrd c)) group in
  let dif := first_notna dif_dias group in
  let dif_abs := first_notna dif_dias_abs_col group in
  let coincidencia_exacta :=
    match dif with Some d => (d =? 0)%Z | None => false end in
  let coincidencia_ventana :=
    negb coincidencia_exacta
    && match dif_abs with Some a => (a <=? window_days)%Z | None => false end in
  let tipo :=
    if coincidencia_exacta then "exacta"%string
    else if coincidencia_ventana then
      ("ventana_" ++ PyStr.str_int window_days ++ "dias")%string
    else "sin_coincidencia"%string in
  (i, {| fecha_UNGRD_match := fecha; dif_dias_min := dif;
         dif_dias_abs := dif_abs; tipo_coincidencia := Some tipo |}).

(** [best_match_per_point], on a frame with one column [idx_firms].
    When every row with an event date has a null [idx_firms] the
    frame [best] has no row, [best.apply(tipo, axis=1)] returns a
    frame and not a column, and the assignment of it to
    [tipo_coincidencia] raises. *)
Definition best_match_per_point (merged : list candidate) (window_days : Z)
  : exn + list (idx * match_cols) :=
  let valid := filter (fun c => notna (FECHA (cand_ungrd c))) merged in
  if length valid =? 0 then
    inr (map (fun i => (i, {| fecha_UNGRD_match := None; dif_dias_min := None;
                              dif_dias_abs := None;
                              tipo_coincidencia := Some "sin_coincidencia"%string |}))
             (unique_first [] (map cand_idx_firms merged)))
  else
    let valid := PySort.stable_sort cand_leb valid in
    match group_keys valid with
    | [] => inl Raised
    | keys =>
        inr (map (fun i => best_row window_days i
                             (filter (fun c => idx_eqb (cand_idx_firms c) i) valid))
                 keys)
    end.

(** [m["tipo_coincidencia"].fillna("sin_coincidencia")] *)
Definition fillna_tipo (m : match_cols) : match_cols :=
  {| fecha_UNGRD_match := fecha_UNGRD_match m;
     dif_dias_min := dif_dias_min m;
     dif_dias_abs := dif_dias_abs m;
     tipo_coincidencia :=
       match tipo_coincidencia m with
       | Some t => Some t
       | None => Some "sin_coincidencia"%string
       end |}.

Definition cols_or_null {A : Type} (o : option (A * match_cols)) : match_cols :=
  match o with Some r => snd r | None => null_cols end.

(** [attach_matches], on a frame with one column [idx_firms]: both
    merges are on the cells of [idx_firms], so a cell carried by
    several rows of a side joins each of them. *)
Definition attach_matches (gdf_firms_reset : list reset_row)
  (matches : list (idx * match_cols)) : list (reset_row * match_cols) :=
  let base := map idx_firms gdf_firms_reset in
  let m := map (fun lr => (fst lr, fillna_tipo (cols_or_null (snd lr))))
               (left_merge (fun i r => idx_eqb (fst r) i) base matches) in
  map (fun lr => (fst lr, cols_or_null (snd lr)))
      (left_merge (fun l r => idx_eqb (fst r) (idx_firms l)) gdf_firms_reset m).

(** [run_firms_vs_ungrd] from the loaded frames to [gdf_out].  On a
    layer that has a column [idx_firms] of its own the renaming gives
    the frame two columns of that label, on which
    [sort_values(["idx_firms", ...])] and
    [pd.DataFrame({"idx_firms": gdf_firms_reset["idx_firms"]})] raise,
    whichever of the two the run reaches. *)
Definition run_firms_vs_ungrd (df_ungrd : list ungrd_row) (gdf_firms : firms_frame)
  (window_days : Z) : exn + list (reset_row * match_cols) :=
  match build_candidates gdf_firms df_ungrd with
  | inl e => inl e
  | inr (merged, gdf_firms_reset) =>
      if has_idx_firms gdf_firms then inl Raised
      else
        match best_match_per_point merged window_days with
        | inl e => inl e
        | inr matches => inr (attach_matches gdf_firms_reset matches)
        end
  end.

(** The cells of [idx_firms] tell the points apart: the layer has no
    column [idx_firms], and either no column [index], or one whose
    cells are not null and pairwise different (and no [level_0]
    beside it). *)
Definition identified (gdf_firms : firms_frame) : Prop :=
  has_idx_firms gdf_firms = false
  /\ match index_column gdf_firms with
     | None => True
     | Some cell =>
         has_level_0 gdf_firms = false
         /\ (forall i, i < length (points gdf_firms) -> cell i <> None)
         /\ (forall i j, i < length (points gdf_firms) -> j < length (points gdf_firms) ->
               cell i = cell j -> i = j)
     end.

(** The events with the point's keys and a date: the rows of the
    point that pass the filter on the event date. *)
Definition dated_events (pt : firms_point) (df_ungrd : list ungrd_row) : list ungrd_row :=
  filter (fun u => notna (FECHA u)) (filter (admin_match pt) df_ungrd).

Definition cand_of (i : idx) (pt : firms_point) (u : ungrd_row) : candidate :=
  {| cand_idx_firms := i; cand_point := pt; cand_ungrd := u |}.

(** The columns of a point without a valid row, after [fillna]. *)
Definition sin_cols : match_cols :=
  {| fecha_UNGRD_match := None; dif_dias_min := None; dif_dias_abs := None;
     tipo_coincidencia := Some "sin_coincidencia"%string |}.

(** The label [tipo] computes from a difference in days. *)
Definition tipo_of (window_days d : Z) : string :=
  if (d =? 0)%Z then "exacta"%string
  else if (Z.abs d <=? window_days)%Z then
    ("ventana_" ++ PyStr.str_int window_days ++ "dias")%string
  else "sin_coincidencia"%string.

(** [MatchSummary], without the output path. *)
Record MatchSummary : Type := {
  n_points : nat;
  n_ungrd_rows : nat;
  n_candidates_after_admin_merge : nat;
  n_points_with_any_ungrd : nat;
  n_exact : nat;
  n_window : nat;
  n_none : nat
}.

(** [(gdf_out["tipo_coincidencia"] == label).sum()] *)
Definition count_tipo (label : string) (gdf_out : list (reset_row * match_cols)) : nat :=
  length (filter (fun r => match tipo_coincidencia (snd r) with
                           | Some t => String.eqb t label
                           | None => false
                           end) gdf_out).

(** The summary [run_firms_vs_ungrd] returns beside [gdf_out]. *)
Definition summary_of (df_ungrd : list ungrd_row) (merged : list candidate)
  (gdf_out : list (reset_row * match_cols)) (window_days : Z) : MatchSummary :=
  {| n_points := length gdf_out;
     n_ungrd_rows := length df_ungrd;
     n_candidates_after_admin_merge := length merged;
     n_points_with_any_ungrd :=
       length (filter (fun r => notna (fecha_UNGRD_match (snd r))) gdf_out);
     n_exact := count_tipo "exacta" gdf_out;
     n_window :=
       count_tipo ("ventana_" ++ PyStr.str_int window_days ++ "dias") gdf_out;
     n_none := count_tipo "sin_coincidencia" gdf_out |}.

Definition summarize (df_ungrd : list ungrd_row) (gdf_firms : firms_frame)
  (window_days : Z) : exn + MatchSummary :=
  match run_firms_vs_ungrd df_ungrd gdf_firms window_days with
  | inl e => inl e
  | inr gdf_out =>
      inr (summary_of df_ungrd (admin_merge (reset_index gdf_firms) df_ungrd)
             gdf_out window_days)
  end.

(** The spec's examples: a point of 2020-01-10 against events of the
    same municipality on 2020-01-10, 2020-01-13 and 2020-02-01, and
    against an event elsewhere. *)
Definition date (days_since_epoch : Z) : option timestamp :=
  Some (days_since_epoch * day_ns)%Z.

Definition point_at (muni : string) (d : option timestamp) : firms_point :=
  {| depto_std := Some (ascii_text "META");
     mpnombre_s_std := Some (ascii_text muni);
     fecha_FIRMS := d |}.

Definition point_x : firms_point := point_at "X" (date 18271).

Definition event_at (muni : string) (d : option timestamp) : ungrd_row :=
  {| DEPTO_std := Some (ascii_text "META");
     MUNICIPIO_std := Some (ascii_text muni);
     FECHA := d |}.

Definition undated_point_x : firms_point := point_at "X" None.

Definition cols_of (r : exn + list (reset_row * match_cols)) : option (list match_cols) :=
  match r with inr out => Some (map snd out) | inl _ => None end.

Example match_examples :
  cols_of (run_firms_vs_ungrd [event_at "X" (date 18271)] (layer [point_x]) 5)
  = Some [{| fecha_UNGRD_match := date 18271; dif_dias_min := Some 0%Z;
             dif_dias_abs := Some 0%Z; tipo_coincidencia := Some "exacta"%string |}]
  /\ cols_of (run_firms_vs_ungrd [event_at "X" (date 18274)] (layer [point_x]) 5)
  = Some [{| fecha_UNGRD_match := date 18274; dif_dias_min := Some (-3)%Z;
             dif_dias_abs := Some 3%Z;
             tipo_coincidencia := Some "ventana_5dias"%string |}]
  /\ cols_of (run_firms_vs_ungrd [event_at "X" (date 18293)] (layer [point_x]) 5)
  = Some [{| fecha_UNGRD_match := date 18293; dif_dias_min := Some (-22)%Z;
             dif_dias_abs := Some 22%Z;
             tipo_coincidencia := Some "sin_coincidencia"%string |}]
  /\ cols_of (run_firms_vs_ungrd [event_at "Y" (date 18271)] (layer [point_x]) 5)
  = Some [{| fecha_UNGRD_match := None; dif_dias_min := None;
             dif_dias_abs := None;
             tipo_coincidencia := Some "sin_coincidencia"%string |}]
  /\ cols_of (run_firms_vs_ungrd
                [event_at "X" (date 18293); event_at "X" (date 18269);
                 event_at "X" None; event_at "X" (date 18274)]
                (layer [point_x; point_x]) 5)
  = Some [{| fecha_UNGRD_match := date 18269; dif_dias_min := Some 2%Z;
             dif_dias_abs := Some 2%Z;
             tipo_coincidencia := Some "ventana_5dias"%string |};
          {| fecha_UNGRD_match := date 18269; dif_dias_min := Some 2%Z;
             dif_dias_abs := Some 2%Z;
             tipo_coincidencia := Some "ventana_5dias"%string |}].
Proof. repeat split; vm_compute; reflexivity. Qed.

(** A layer with a field [index] that two points share: a point of
    2020-01-30 in X and a point of 2020-01-09 in Y, both with 7 in
    [index], against an event of 2020-01-10 in X and an event of
    2020-01-09 in Y. *)
Definition shared_index_layer : firms_frame :=
  layer_with_index [point_at "X" (date 18291); point_at "Y" (date 18270)]
                   (fun _ => Some 7).

Definition shared_index_events : list ungrd_row :=
  [event_at "X" (date 18271); event_at "Y" (date 18270)].

(** ** Keys *)

Lemma idx_eqb_eq (a b : idx) : idx_eqb a b = true <-> a = b.
Proof.
  destruct a as [x|], b as [y|]; simpl; split; intros H;
    try discriminate; try reflexivity.
  - apply Nat.eqb_eq in H. now subst.
  - injection H as ->. apply Nat.eqb_refl.
Qed.

Lemma idx_eqb_refl (a : idx) : idx_eqb a a = true.
Proof. now apply idx_eqb_eq. Qed.

Lemma idx_eqb_neq (a b : idx) : idx_eqb a b = false <-> a <> b.
Proof.
  split.
  - intros H E. apply idx_eqb_eq in E. congruence.
  - intros H. destruct (idx_eqb a b) eqn:E; [|reflexivity].
    apply idx_eqb_eq in E. contradiction.
Qed.

Lemma idx_ltb_irrefl (a : idx) : idx_ltb a a = false.
Proof. destruct a; simpl; [apply Nat.ltb_irrefl | reflexivity]. Qed.

(** ** Lists *)

Lemma find_hd_filter {A : Type} (f : A -> bool) (l : list A) :
  find f l = hd_error (filter f l).
Proof.
  induction l as [|x l IH]; simpl; [reflexivity|].
  destruct (f x); [reflexivity | exact IH].
Qed.

Lemma filter_key_unique {A : Type} (key : A -> idx) (k : idx) (l : list A) :
  NoDup (map key l) -> length (filter (fun r => idx_eqb (key r) k) l) <= 1.
Proof.
  induction l as [|x l IH]; simpl; intros Hnd; [lia|].
  inversion Hnd as [|? ? Hnotin Hnd']; subst.
  destruct (idx_eqb (key x) k) eqn:E; [|now apply IH].
  apply idx_eqb_eq in E. simpl.
  assert (Hnil : filter (fun r => idx_eqb (key r) k) l = []).
  { destruct (filter (fun r => idx_eqb (key r) k) l) as [|y t] eqn:F; [reflexivity|].
    exfalso.
    assert (Hy : In y (filter (fun r => idx_eqb (key r) k) l)) by (rewrite F; now left).
    apply filter_In in Hy as [Hy Ey]. apply idx_eqb_eq in Ey.
    apply Hnotin. rewrite E, <- Ey. now apply in_map. }
  rewrite Hnil. simpl. lia.
Qed.

Lemma left_merge_find {L R : Type} (on : L -> R -> bool) (left : list L) (right : list R) :
  (forall l, In l left -> length (filter (on l) right) <= 1) ->
  left_merge on left right = map (fun l => (l, find (on l) right)) left.
Proof.
  unfold left_merge. induction left as [|l left IH]; intros H; [reflexivity|].
  cbn [flat_map]. rewrite map_cons.
  rewrite IH by (intros x Hx; apply H; now right).
  rewrite find_hd_filter.
  specialize (H l (or_introl eq_refl)).
  destruct (filter (on l) right) as [|r [|r' t]]; simpl in *; try reflexivity. lia.
Qed.

(** Each row of the left side is in the merge, and each row of the
    merge is a row of the left side with a matching row of the right
    side, or with none when no row matches. *)
Lemma left_merge_In {L R : Type} (on : L -> R -> bool) (left : list L) (right : list R)
  (l : L) (o : option R) :
  In (l, o) (left_merge on left right)
  <-> In l left
      /\ match o with
         | Some r => In r right /\ on l r = true
         | None => filter (on l) right = []
         end.
Proof.
  unfold left_merge. rewrite in_flat_map. split.
  - intros [x [Hx Hin]].
    destruct (filter (on x) right) as [|r ms] eqn:F.
    + destruct Hin as [E|[]]. injection E as -> <-. now split.
    + change (r :: ms) with ([] ++ r :: ms) in Hin.
      apply in_map_iff in Hin as [r' [E Hr']]. injection E as -> <-.
      split; [exact Hx|]. rewrite <- F in Hr'. now apply filter_In in Hr'.
  - intros [Hl Ho]. exists l. split; [exact Hl|].
    destruct o as [r|].
    + destruct Ho as [Hr Hon].
      assert (Hf : In r (filter (on l) right)) by (apply filter_In; now split).
      destruct (filter (on l) right) as [|r0 ms] eqn:F; [contradiction|].
      now apply (in_map (fun r => (l, Some r))).
    + rewrite Ho. now left.
Qed.

Lemma left_merge_left {L R : Type} (on : L -> R -> bool) (left : list L) (right : list R)
  (l : L) :
  In l left -> exists o, In (l, o) (left_merge on left right).
Proof.
  intros Hl. destruct (filter (on l) right) as [|r ms] eqn:F.
  - exists None. apply left_merge_In. now split.
  - exists (Some r). apply left_merge_In. split; [exact Hl|].
    assert (Hr : In r (filter (on l) right)) by (rewrite F; now left).
    now apply filter_In in Hr.
Qed.

Lemma find_map_key {B : Type} (g : idx -> B) (keys : list idx) (i : idx) :
  In i keys ->
  find (fun r : idx * B => idx_eqb (fst r) i) (map (fun k => (k, g k)) keys)
  = Some (i, g i).
Proof.
  induction keys as [|k keys IH]; simpl; intros H; [contradiction|].
  destruct (idx_eqb k i) eqn:E.
  - apply idx_eqb_eq in E. now subst.
  - destruct H as [->|H]; [now rewrite idx_eqb_refl in E | now apply IH].
Qed.

Lemma find_map_key_none {B : Type} (g : idx -> B) (keys : list idx) (i : idx) :
  ~ In i keys ->
  find (fun r : idx * B => idx_eqb (fst r) i) (map (fun k => (k, g k)) keys) = None.
Proof.
  induction keys as [|k keys IH]; simpl; intros H; [reflexivity|].
  destruct (idx_eqb k i) eqn:E.
  - apply idx_eqb_eq in E. exfalso. apply H. now left.
  - apply IH. intros Hin. apply H. now right.
Qed.

Lemma find_map_key_gen {B : Type} (f : idx -> idx * B) (keys : list idx) (i : idx) :
  In i keys -> (forall k, fst (f k) = k) ->
  find (fun r : idx * B => idx_eqb (fst r) i) (map f keys) = Some (f i).
Proof.
  intros Hin Hf. rewrite (map_ext f (fun k => (k, snd (f k)))).
  - rewrite (find_map_key (fun k => snd (f k)) keys i Hin).
    rewrite <- (Hf i) at 1. now destruct (f i).
  - intros k. rewrite <- (Hf k) at 2. now destruct (f k).
Qed.

Lemma find_map_key_none_gen {B : Type} (f : idx -> idx * B) (keys : list idx) (i : idx) :
  ~ In i keys -> (forall k, fst (f k) = k) ->
  find (fun r : idx * B => idx_eqb (fst r) i) (map f keys) = None.
Proof.
  intros Hin Hf. rewrite (map_ext f (fun k => (k, snd (f k)))).
  - now apply find_map_key_none.
  - intros k. rewrite <- (Hf k) at 2. now destruct (f k).
Qed.

Lemma Permutation_filter {A : Type} (f : A -> bool) (l l' : list A) :
  Permutation l l' -> Permutation (filter f l) (filter f l').
Proof.
  induction 1 as [|x l l' _ IH|x y l|l l' l'' _ IH1 _ IH2]; simpl.
  - constructor.
  - destruct (f x); [now constructor | exact IH].
  - destruct (f x), (f y); try reflexivity. apply perm_swap.
  - now transitivity (filter f l').
Qed.

Lemma StronglySorted_filter {A : Type} (R : A -> A -> Prop) (f : A -> bool) (l : list A) :
  StronglySorted R l -> StronglySorted R (filter f l).
Proof.
  induction 1 as [|x l Hs IH Hx]; simpl; [constructor|].
  destruct (f x); [|exact IH].
  constructor; [exact IH|].
  rewrite Forall_forall in *. intros y Hy. apply filter_In in Hy as [Hy _]. now apply Hx.
Qed.

Lemma filter_flat_map_key {A B : Type} (key : A -> idx) (ckey : B -> idx)
  (g : A -> list B) (l : list A) (r : A) :
  NoDup (map key l) -> In r l ->
  (forall x c, In c (g x) -> ckey c = key x) ->
  filter (fun c => idx_eqb (ckey c) (key r)) (flat_map g l) = g r.
Proof.
  intros Hnd Hin Hg.
  assert (Hsame : forall x, key x = key r ->
            filter (fun c => idx_eqb (ckey c) (key r)) (g x) = g x).
  { intros x Hx. apply forallb_filter_id. apply forallb_forall.
    intros c Hc. apply idx_eqb_eq. rewrite (Hg x c Hc). exact Hx. }
  assert (Hother : forall x, key x <> key r ->
            filter (fun c => idx_eqb (ckey c) (key r)) (g x) = []).
  { intros x Hx. destruct (filter _ (g x)) as [|c t] eqn:F; [reflexivity|].
    exfalso. assert (Hc : In c (filter (fun c => idx_eqb (ckey c) (key r)) (g x)))
      by (rewrite F; now left).
    apply filter_In in Hc as [Hc Ec]. apply idx_eqb_eq in Ec.
    apply Hx. now rewrite <- (Hg x c Hc). }
  assert (Hrest : forall l', (forall x, In x l' -> key x <> key r) ->
            filter (fun c => idx_eqb (ckey c) (key r)) (flat_map g l') = []).
  { induction l' as [|y l' IHl]; intros Hl'; [reflexivity|].
    simpl. rewrite filter_app, Hother by (apply Hl'; now left).
    apply IHl. intros x Hx. apply Hl'. now right. }
  induction l as [|x l IH]; [contradiction|].
  simpl. rewrite filter_app. inversion Hnd as [|? ? Hnotin Hnd']; subst.
  destruct Hin as [->|Hin].
  - rewrite Hsame by reflexivity.
    rewrite Hrest; [apply app_nil_r|].
    intros x Hx Heq. apply Hnotin. rewrite <- Heq. now apply in_map.
  - rewrite Hother.
    + now apply IH.
    + intros Hx. apply Hnotin. rewrite Hx. now apply in_map.
Qed.

Lemma first_notna_none {A B : Type} (col : A -> option B) (rows : list A) :
  (forall r, In r rows -> col r = None) -> first_notna col rows = None.
Proof.
  induction rows as [|r rows IH]; intros H; simpl; [reflexivity|].
  rewrite (H r) by now left. apply IH. intros x Hx. apply H. now right.
Qed.

(** ** First occurrences and group keys *)

Lemma unique_first_In (seen l : list idx) (i : idx) :
  In i (unique_first seen l) <-> In i l /\ ~ In i seen.
Proof.
  revert seen. induction l as [|x l IH]; intros seen; simpl; [tauto|].
  destruct (existsb (idx_eqb x) seen) eqn:E.
  - rewrite IH. apply existsb_exists in E as [y [Hy Ey]].
    apply idx_eqb_eq in Ey. subst y. split.
    + intros [H1 H2]. tauto.
    + intros [[->|H1] H2]; [contradiction | tauto].
  - assert (Hx : ~ In x seen).
    { intros Hin. assert (T : existsb (idx_eqb x) seen = true).
      { apply existsb_exists. exists x. split; [exact Hin | apply idx_eqb_refl]. }
      congruence. }
    simpl. rewrite IH. simpl. split.
    + intros [->|[H1 H2]]; [tauto|]. split; [now right|]. tauto.
    + intros [[->|H1] H2]; [now left|].
      destruct (idx_eqb x i) eqn:Exi.
      * apply idx_eqb_eq in Exi. now left.
      * apply idx_eqb_neq in Exi. right. split; [exact H1|].
        intros [C|C]; [contradiction | contradiction].
Qed.

Lemma unique_first_NoDup (seen l : list idx) : NoDup (unique_first seen l).
Proof.
  revert seen. induction l as [|x l IH]; intros seen; simpl; [constructor|].
  destruct (existsb (idx_eqb x) seen); [apply IH|].
  constructor; [|apply IH].
  rewrite unique_first_In. intros [_ H]. apply H. now left.
Qed.

Lemma group_keys_In (rows : list candidate) (i : idx) :
  In i (group_keys rows)
  <-> i <> None /\ exists c, In c rows /\ cand_idx_firms c = i.
Proof.
  unfold group_keys.
  rewrite PySort.stable_sort_In, filter_In, unique_first_In, in_map_iff.
  split.
  - intros [[[c [Hc Hin]] _] Hn]. split; [now destruct i | now exists c].
  - intros [Hn [c [Hin Hc]]]. split; [|now destruct i].
    split; [now exists c | intros []].
Qed.

Lemma group_keys_NoDup (rows : list candidate) : NoDup (group_keys rows).
Proof.
  unfold group_keys.
  eapply Permutation_NoDup; [symmetry; apply PySort.stable_sort_perm|].
  apply NoDup_filter. apply unique_first_NoDup.
Qed.

Lemma best_match_keys (merged : list candidate) (window_days : Z)
  (matches : list (idx * match_cols)) :
  best_match_per_point merged window_days = inr matches ->
  exists keys g, NoDup keys /\ matches = map (fun i => (i, g i)) keys.
Proof.
  unfold best_match_per_point.
  destruct (length (filter _ merged) =? 0).
  - intros [= <-]. eexists. eexists. split; [apply unique_first_NoDup | reflexivity].
  - pose proof (group_keys_NoDup (PySort.stable_sort cand_leb
              (filter (fun c => notna (FECHA (cand_ungrd c))) merged))) as Hnd.
    destruct (group_keys _) as [|k keys]; [discriminate|].
    intros [= <-]. exists (k :: keys).
    eexists (fun i => snd (best_row window_days i _)).
    split; [exact Hnd|]. reflexivity.
Qed.

Lemma best_match_NoDup (merged : list candidate) (window_days : Z)
  (matches : list (idx * match_cols)) :
  best_match_per_point merged window_days = inr matches ->
  NoDup (map fst matches).
Proof.
  intros H. destruct (best_match_keys merged window_days matches H) as [keys [g [Hnd ->]]].
  rewrite map_map. simpl. now rewrite map_id.
Qed.

Lemma best_match_groups (merged : list candidate) (window_days : Z)
  (matches : list (idx * match_cols)) :
  best_match_per_point merged window_days = inr matches ->
  (length (filter (fun c => notna (FECHA (cand_ungrd c))) merged) =? 0) = false ->
  matches
  = map (fun i => best_row window_days i
                    (filter (fun c => idx_eqb (cand_idx_firms c) i)
                       (PySort.stable_sort cand_leb
                          (filter (fun c => notna (FECHA (cand_ungrd c))) merged))))
        (group_keys (PySort.stable_sort cand_leb
                       (filter (fun c => notna (FECHA (cand_ungrd c))) merged))).
Proof.
  unfold best_match_per_point. intros H E. rewrite E in H.
  destruct (group_keys _) as [|k keys]; [discriminate|].
  now injection H as <-.
Qed.

(** ** The frame with the index *)

Lemma nth_error_combine_seq {A : Type} (l : list A) (start i : nat) :
  nth_error (combine (seq start (length l)) l) i
  = option_map (fun p => (start + i, p)) (nth_error l i).
Proof.
  revert start i. induction l as [|x l IH]; intros start [|i]; simpl; try reflexivity.
  - now rewrite Nat.add_0_r.
  - rewrite IH. destruct (nth_error l i); simpl; [|reflexivity].
    f_equal. f_equal. lia.
Qed.

Lemma nth_error_reset_index (gdf_firms : firms_frame) (i : nat) (pt : firms_point) :
  nth_error (points gdf_firms) i = Some pt ->
  nth_error (reset_index gdf_firms) i
  = Some {| idx_firms := key_of gdf_firms i; point := pt |}.
Proof.
  intros H. unfold reset_index.
  now rewrite nth_error_map, nth_error_combine_seq, H.
Qed.

Lemma map_combine_seq {A B : Type} (f : nat -> B) (l : list A) (start : nat) :
  map (fun ip : nat * A => f (fst ip)) (combine (seq start (length l)) l)
  = map f (seq start (length l)).
Proof.
  revert start. induction l as [|p l IH]; intros start; simpl; [reflexivity|].
  now rewrite IH.
Qed.

Lemma reset_index_idx (gdf_firms : firms_frame) :
  map idx_firms (reset_index gdf_firms)
  = map (key_of gdf_firms) (seq 0 (length (points gdf_firms))).
Proof.
  unfold reset_index. rewrite map_map. simpl. apply map_combine_seq.
Qed.

Lemma reset_index_point (gdf_firms : firms_frame) :
  map point (reset_index gdf_firms) = points gdf_firms.
Proof.
  unfold reset_index. rewrite map_map. simpl.
  generalize 0. induction (points gdf_firms) as [|p l IH]; intros start; simpl;
    [reflexivity|].
  now rewrite IH.
Qed.

Lemma reset_index_length (gdf_firms : firms_frame) :
  length (reset_index gdf_firms) = length (points gdf_firms).
Proof. now rewrite <- (length_map point), reset_index_point. Qed.

Lemma layer_identified (pts : list firms_point) : identified (layer pts).
Proof. split; [reflexivity | exact I]. Qed.

Lemma identified_notna (gdf_firms : firms_frame) (i : nat) :
  identified gdf_firms -> i < length (points gdf_firms) ->
  key_of gdf_firms i <> None.
Proof.
  intros [_ H] Hi. unfold key_of.
  destruct (index_column gdf_firms) as [cell|]; [|discriminate].
  destruct H as [_ [H _]]. now apply H.
Qed.

Lemma identified_inj (gdf_firms : firms_frame) (i j : nat) :
  identified gdf_firms ->
  i < length (points gdf_firms) -> j < length (points gdf_firms) ->
  key_of gdf_firms i = key_of gdf_firms j -> i = j.
Proof.
  intros [_ H] Hi Hj. unfold key_of.
  destruct (index_column gdf_firms) as [cell|]; [|congruence].
  destruct H as [_ [_ H]]. now apply H.
Qed.

Lemma reset_index_NoDup (gdf_firms : firms_frame) :
  identified gdf_firms -> NoDup (map idx_firms (reset_index gdf_firms)).
Proof.
  intros Hid. rewrite reset_index_idx.
  apply Finite.Injective_map_NoDup_in; [|apply seq_NoDup].
  intros i j Hi Hj. apply in_seq in Hi, Hj.
  apply identified_inj; [exact Hid | lia | lia].
Qed.

Lemma reset_index_notna (gdf_firms : firms_frame) (l : reset_row) :
  identified gdf_firms -> In l (reset_index gdf_firms) -> idx_firms l <> None.
Proof.
  intros Hid Hl.
  assert (Hk : In (idx_firms l) (map idx_firms (reset_index gdf_firms)))
    by now apply in_map.
  rewrite reset_index_idx in Hk. apply in_map_iff in Hk as [i [<- Hi]].
  apply in_seq in Hi. apply identified_notna; [exact Hid | lia].
Qed.

Lemma build_candidates_identified (gdf_firms : firms_frame) (df_ungrd : list ungrd_row) :
  identified gdf_firms ->
  build_candidates gdf_firms df_ungrd
  = inr (admin_merge (reset_index gdf_firms) df_ungrd, reset_index gdf_firms).
Proof.
  intros [_ H]. unfold build_candidates.
  destruct (index_column gdf_firms) as [cell|]; [|reflexivity].
  destruct H as [-> _]. reflexivity.
Qed.

(** ** Attachment *)

Lemma attach_matches_spec (gdf_firms_reset : list reset_row)
  (matches : list (idx * match_cols)) :
  NoDup (map fst matches) ->
  NoDup (map idx_firms gdf_firms_reset) ->
  attach_matches gdf_firms_reset matches
  = map (fun l => (l, fillna_tipo
                        (cols_or_null
                           (find (fun r => idx_eqb (fst r) (idx_firms l)) matches))))
        gdf_firms_reset.
Proof.
  intros Hm Hr. unfold attach_matches.
  set (g := fun i => fillna_tipo
                (cols_or_null (find (fun r : idx * match_cols => idx_eqb (fst r) i) matches))).
  assert (Em : map (fun lr => (fst lr, fillna_tipo (cols_or_null (snd lr))))
                   (left_merge (fun i (r : idx * match_cols) => idx_eqb (fst r) i)
                      (map idx_firms gdf_firms_reset) matches)
               = map (fun k => (k, g k)) (map idx_firms gdf_firms_reset)).
  { rewrite left_merge_find by (intros; now apply filter_key_unique).
    now rewrite map_map. }
  rewrite Em. rewrite left_merge_find.
  - rewrite map_map. apply map_ext_in. intros l Hl. simpl.
    rewrite find_map_key by now apply in_map. reflexivity.
  - intros l _. apply filter_key_unique.
    rewrite map_map. simpl. now rewrite map_id.
Qed.

(** Whatever the cells of [idx_firms], each row of the result has the
    columns of a row of [m]: a tier that is not null, from the matches
    or from [fillna]. *)
Lemma attach_matches_tipo (gdf_firms_reset : list reset_row)
  (matches : list (idx * match_cols)) (l : reset_row) (cols : match_cols) :
  In (l, cols) (attach_matches gdf_firms_reset matches) ->
  In l gdf_firms_reset
  /\ exists t, tipo_coincidencia cols = Some t
       /\ (t = "sin_coincidencia"%string
           \/ exists m, In m matches /\ tipo_coincidencia (snd m) = Some t).
Proof.
  unfold attach_matches. intros H.
  apply in_map_iff in H as [[l' o] [E H]]. simpl in E. injection E as -> <-.
  apply left_merge_In in H as [Hl Ho]. split; [exact Hl|].
  destruct o as [r|].
  - destruct Ho as [Hr _]. apply in_map_iff in Hr as [[k o'] [<- Hk]]. simpl.
    apply left_merge_In in Hk as [_ Ho'].
    destruct o' as [m|]; simpl.
    + destruct Ho' as [Hm _].
      destruct (tipo_coincidencia (snd m)) as [t|] eqn:T.
      * exists t. split; [reflexivity|]. right. now exists m.
      * eexists. split; [reflexivity | now left].
    + eexists. split; [reflexivity | now left].
  - exfalso.
    destruct (left_merge_left (fun i (r : idx * match_cols) => idx_eqb (fst r) i)
                (map idx_firms gdf_firms_reset) matches (idx_firms l)
                (in_map idx_firms _ _ Hl)) as [o Hin].
    set (row := (idx_firms l, fillna_tipo (cols_or_null o))).
    assert (Hrow : In row
              (filter (fun r : idx * match_cols => idx_eqb (fst r) (idx_firms l))
                 (map (fun lr : idx * option (idx * match_cols) =>
                         (fst lr, fillna_tipo (cols_or_null (snd lr))))
                      (left_merge (fun i (r : idx * match_cols) => idx_eqb (fst r) i)
                         (map idx_firms gdf_firms_reset) matches)))).
    { apply filter_In. split; [|apply idx_eqb_refl].
      apply in_map_iff. exists (idx_firms l, o). now split. }
    rewrite Ho in Hrow. contradiction.
Qed.

(** ** Candidates of one point *)

Lemma dated_events_In (pt : firms_point) (df_ungrd : list ungrd_row) (u : ungrd_row) :
  In u (dated_events pt df_ungrd)
  <-> In u df_ungrd /\ admin_match pt u = true /\ exists e, FECHA u = Some e.
Proof.
  unfold dated_events. rewrite !filter_In. split.
  - intros [[H1 H2] H3]. repeat split; try assumption.
    destruct (FECHA u) as [e|]; [now exists e | discriminate].
  - intros [H1 [H2 [e H3]]]. rewrite H3. now repeat split.
Qed.

Lemma map_flat_map_comm {A B C : Type} (f : B -> C) (g : A -> list B) (l : list A) :
  map f (flat_map g l) = flat_map (fun x => map f (g x)) l.
Proof.
  induction l as [|x l IH]; simpl; [reflexivity|]. now rewrite map_app, IH.
Qed.

Lemma filter_flat_map {A B : Type} (f : B -> bool) (g : A -> list B) (l : list A) :
  filter f (flat_map g l) = flat_map (fun x => filter f (g x)) l.
Proof.
  induction l as [|x l IH]; simpl; [reflexivity|]. now rewrite filter_app, IH.
Qed.

Lemma filter_map_comm {A B : Type} (f : B -> bool) (g : A -> B) (l : list A) :
  filter f (map g l) = map g (filter (fun x => f (g x)) l).
Proof.
  induction l as [|x l IH]; simpl; [reflexivity|].
  destruct (f (g x)); simpl; now rewrite IH.
Qed.

Lemma valid_rows (gdf_firms_reset : list reset_row) (df_ungrd : list ungrd_row) :
  filter (fun c => notna (FECHA (cand_ungrd c))) (admin_merge gdf_firms_reset df_ungrd)
  = flat_map (fun l => map (cand_of (idx_firms l) (point l))
                           (dated_events (point l) df_ungrd))
             gdf_firms_reset.
Proof.
  unfold admin_merge, left_merge.
  rewrite map_flat_map_comm, filter_flat_map.
  apply flat_map_ext. intros l. unfold dated_events.
  destruct (filter (admin_match (point l)) df_ungrd) as [|u ms]; [reflexivity|].
  change ((l, Some u) :: map (fun r : ungrd_row => (l, Some r)) ms)
    with (map (fun r : ungrd_row => (l, Some r)) (u :: ms)).
  rewrite map_map, filter_map_comm. reflexivity.
Qed.

Lemma valid_group (gdf_firms : firms_frame) (df_ungrd : list ungrd_row)
  (i : nat) (pt : firms_point) :
  identified gdf_firms ->
  nth_error (points gdf_firms) i = Some pt ->
  filter (fun c => idx_eqb (cand_idx_firms c) (key_of gdf_firms i))
         (filter (fun c => notna (FECHA (cand_ungrd c)))
                 (admin_merge (reset_index gdf_firms) df_ungrd))
  = map (cand_of (key_of gdf_firms i) pt) (dated_events pt df_ungrd).
Proof.
  intros Hid H. rewrite valid_rows.
  apply nth_error_reset_index in H. apply nth_error_In in H.
  pose proof (filter_flat_map_key idx_firms cand_idx_firms
                (fun l => map (cand_of (idx_firms l) (point l))
                              (dated_events (point l) df_ungrd))
                _ {| idx_firms := key_of gdf_firms i; point := pt |}
                (reset_index_NoDup gdf_firms Hid) H) as Hk.
  simpl in Hk. apply Hk.
  intros x c Hc. apply in_map_iff in Hc as [u [<- _]]. reflexivity.
Qed.

Lemma valid_notna (gdf_firms : firms_frame) (df_ungrd : list ungrd_row) (c : candidate) :
  identified gdf_firms ->
  In c (filter (fun c => notna (FECHA (cand_ungrd c)))
               (admin_merge (reset_index gdf_firms) df_ungrd)) ->
  cand_idx_firms c <> None.
Proof.
  intros Hid Hc. rewrite valid_rows in Hc.
  apply in_flat_map in Hc as [l [Hl Hc]].
  apply in_map_iff in Hc as [u [<- _]]. simpl.
  now apply (reset_index_notna gdf_firms).
Qed.

(** On a frame whose [idx_firms] tell the points apart the matches
    are computed, and the output has, row by row, each point with the
    columns of its row of the matches, if it has one, after
    [fillna]. *)
Lemma run_firms_vs_ungrd_rows (df_ungrd : list ungrd_row)
  (gdf_firms : firms_frame) (window_days : Z) :
  identified gdf_firms ->
  exists matches,
    best_match_per_point (admin_merge (reset_index gdf_firms) df_ungrd) window_days
    = inr matches
    /\ run_firms_vs_ungrd df_ungrd gdf_firms window_days
       = inr (map (fun l =>
                     (l, fillna_tipo
                           (cols_or_null
                              (find (fun r => idx_eqb (fst r) (idx_firms l)) matches))))
                  (reset_index gdf_firms)).
Proof.
  intros Hid. unfold run_firms_vs_ungrd.
  rewrite (build_candidates_identified _ _ Hid).
  destruct Hid as [Hcol Hrest]. rewrite Hcol.
  assert (Hid : identified gdf_firms) by (split; assumption).
  destruct (best_match_per_point (admin_merge (reset_index gdf_firms) df_ungrd)
              window_days) as [e|matches] eqn:B.
  - exfalso. unfold best_match_per_point in B.
    set (valid := filter (fun c => notna (FECHA (cand_ungrd c)))
                         (admin_merge (reset_index gdf_firms) df_ungrd)) in *.
    destruct (length valid =? 0) eqn:Elen; [discriminate|].
    destruct valid as [|c valid'] eqn:V; [discriminate|].
    assert (Hk : In (cand_idx_firms c)
                   (group_keys (PySort.stable_sort cand_leb (c :: valid')))).
    { apply group_keys_In. split.
      - apply (valid_notna gdf_firms df_ungrd c Hid). fold valid. rewrite V. now left.
      - exists c. split; [|reflexivity]. apply PySort.stable_sort_In. now left. }
    destruct (group_keys _); [contradiction | discriminate].
  - exists matches. split; [reflexivity|]. f_equal.
    apply attach_matches_spec;
      [eapply best_match_NoDup; eassumption | now apply reset_index_NoDup].
Qed.

(** ** The order of the sort *)

Lemma abs_leb_total (a b : option Z) : abs_leb a b = true \/ abs_leb b a = true.
Proof. destruct a, b; simpl; auto. rewrite !Z.leb_le. lia. Qed.

Lemma abs_leb_trans (a b c : option Z) :
  abs_leb a b = true -> abs_leb b c = true -> abs_leb a c = true.
Proof.
  destruct a, b, c; simpl; try discriminate; auto. rewrite !Z.leb_le. lia.
Qed.

Lemma cand_leb_total (a b : candidate) : cand_leb a b = true \/ cand_leb b a = true.
Proof.
  unfold cand_leb.
  destruct (cand_idx_firms a) as [x|], (cand_idx_firms b) as [y|]; simpl; auto.
  - destruct (Nat.lt_trichotomy x y) as [H|[H|H]].
    + left. apply orb_true_iff. left. now apply Nat.ltb_lt.
    + subst y. rewrite Nat.eqb_refl, Nat.ltb_irrefl. simpl. apply abs_leb_total.
    + right. apply orb_true_iff. left. now apply Nat.ltb_lt.
  - apply abs_leb_total.
Qed.

Lemma cand_leb_trans (a b c : candidate) :
  cand_leb a b = true -> cand_leb b c = true -> cand_leb a c = true.
Proof.
  unfold cand_leb.
  destruct (cand_idx_firms a) as [x|], (cand_idx_firms b) as [y|],
           (cand_idx_firms c) as [z|]; simpl; try discriminate; auto.
  - rewrite !orb_true_iff, !andb_true_iff, !Nat.ltb_lt, !Nat.eqb_eq.
    intros [H1|[H1 A1]] [H2|[H2 A2]].
    + left. lia.
    + left. lia.
    + left. lia.
    + right. split; [lia | eapply abs_leb_trans; eauto].
  - apply abs_leb_trans.
Qed.

Lemma cand_leb_same_idx (a b : candidate) :
  cand_idx_firms a = cand_idx_firms b -> cand_leb a b = true ->
  abs_leb (dif_dias_abs_col a) (dif_dias_abs_col b) = true.
Proof.
  unfold cand_leb. intros E. rewrite E, idx_ltb_irrefl, idx_eqb_refl. simpl. auto.
Qed.

(** ** The labels *)

Lemma tipo_of_spec (window_days d : Z) :
  (tipo_of window_days d = "exacta"%string <-> d = 0%Z)
  /\ (tipo_of window_days d = ("ventana_" ++ PyStr.str_int window_days ++ "dias")%string
      <-> d <> 0%Z /\ (Z.abs d <= window_days)%Z)
  /\ (tipo_of window_days d = "sin_coincidencia"%string
      <-> d <> 0%Z /\ (window_days < Z.abs d)%Z).
Proof.
  set (ventana := ("ventana_" ++ PyStr.str_int window_days ++ "dias")%string).
  assert (V1 : ventana <> "exacta"%string) by discriminate.
  assert (V2 : ventana <> "sin_coincidencia"%string) by discriminate.
  unfold tipo_of. fold ventana.
  destruct (d =? 0)%Z eqn:E0; [apply Z.eqb_eq in E0 | apply Z.eqb_neq in E0].
  - split; [|split]; split; intros H;
      try reflexivity; try assumption; try (symmetry in H; contradiction);
      try discriminate H; try (destruct H; contradiction).
  - destruct (Z.abs d <=? window_days)%Z eqn:Ew;
      [apply Z.leb_le in Ew | apply Z.leb_gt in Ew];
      (split; [|split]); split; intros H;
      try reflexivity; try contradiction; try discriminate H;
      try (split; assumption); try (destruct H; lia); try (symmetry in H; contradiction).
Qed.

(** ** The row of a group *)

Lemma best_row_dated (window_days : Z) (i : idx) (pt : firms_point)
  (u0 : ungrd_row) (p e0 : timestamp) (t : list candidate) :
  fecha_FIRMS pt = Some p -> FECHA u0 = Some e0 ->
  snd (best_row window_days i (cand_of i pt u0 :: t))
  = {| fecha_UNGRD_match := Some e0;
       dif_dias_min := Some ((p - e0) / day_ns)%Z;
       dif_dias_abs := Some (Z.abs ((p - e0) / day_ns));
       tipo_coincidencia := Some (tipo_of window_days ((p - e0) / day_ns)) |}.
Proof.
  intros Hp He. unfold best_row, tipo_of. simpl.
  unfold dif_dias_abs_col, dif_dias. simpl. rewrite Hp, He. simpl.
  destruct ((p - e0) / day_ns =? 0)%Z; reflexivity.
Qed.

Lemma best_row_undated (window_days : Z) (i : idx) (pt : firms_point)
  (u0 : ungrd_row) (e0 : timestamp) (t : list candidate) :
  fecha_FIRMS pt = None -> FECHA u0 = Some e0 ->
  (forall x, In x t -> cand_point x = pt) ->
  snd (best_row window_days i (cand_of i pt u0 :: t))
  = {| fecha_UNGRD_match := Some e0; dif_dias_min := None; dif_dias_abs := None;
       tipo_coincidencia := Some "sin_coincidencia"%string |}.
Proof.
  intros Hp He Ht. unfold best_row.
  assert (D : first_notna dif_dias (cand_of i pt u0 :: t) = None).
  { apply first_notna_none. intros x [<-|Hx]; unfold dif_dias.
    - simpl. now rewrite Hp.
    - now rewrite (Ht x Hx), Hp. }
  assert (A : first_notna dif_dias_abs_col (cand_of i pt u0 :: t) = None).
  { apply first_notna_none. intros x [<-|Hx]; unfold dif_dias_abs_col, dif_dias.
    - simpl. now rewrite Hp.
    - now rewrite (Ht x Hx), Hp. }
  rewrite D, A. simpl. now rewrite He.
Qed.

(** ** The result of one point *)

Lemma fillna_tipo_some (m : match_cols) (t : string) :
  tipo_coincidencia m = Some t -> fillna_tipo m = m.
Proof. destruct m as [f d a ty]. simpl. intros ->. reflexivity. Qed.

(** The rows of a point with a dated event, after the sort, and the
    columns they give. *)
Lemma point_group (df_ungrd : list ungrd_row) (gdf_firms : firms_frame)
  (window_days : Z) (i : nat) (pt : firms_point) (u : ungrd_row) :
  identified gdf_firms ->
  nth_error (points gdf_firms) i = Some pt ->
  In u (dated_events pt df_ungrd) ->
  exists out h t,
    filter (fun c => idx_eqb (cand_idx_firms c) (key_of gdf_firms i))
      (PySort.stable_sort cand_leb
         (filter (fun c => notna (FECHA (cand_ungrd c)))
                 (admin_merge (reset_index gdf_firms) df_ungrd))) = h :: t
    /\ run_firms_vs_ungrd df_ungrd gdf_firms window_days = inr out
    /\ nth_error out i
       = Some ({| idx_firms := key_of gdf_firms i; point := pt |},
               snd (best_row window_days (key_of gdf_firms i) (h :: t))).
Proof.
  intros Hid Hpt Hu.
  destruct (run_firms_vs_ungrd_rows df_ungrd gdf_firms window_days Hid)
    as [matches [Hbest Hrun]].
  pose proof (valid_group gdf_firms df_ungrd i pt Hid Hpt) as Hgroup.
  set (k := key_of gdf_firms i) in *.
  assert (Hk : k <> None).
  { apply identified_notna; [exact Hid|]. apply nth_error_Some. congruence. }
  apply best_match_groups in Hbest.
  2:{ destruct (filter _ (admin_merge (reset_index gdf_firms) df_ungrd)) as [|c v] eqn:V;
        [|reflexivity].
      exfalso. simpl in Hgroup.
      destruct (dated_events pt df_ungrd); [contradiction | discriminate]. }
  set (valid := filter (fun c => notna (FECHA (cand_ungrd c)))
                       (admin_merge (reset_index gdf_firms) df_ungrd)) in *.
  assert (Hc : In (cand_of k pt u) (filter (fun c => idx_eqb (cand_idx_firms c) k) valid)).
  { rewrite Hgroup. now apply in_map. }
  set (sorted := PySort.stable_sort cand_leb valid) in *.
  assert (Hs : In (cand_of k pt u) (filter (fun c => idx_eqb (cand_idx_firms c) k) sorted)).
  { apply filter_In in Hc as [Hc Ei]. apply filter_In. split; [|exact Ei].
    now apply PySort.stable_sort_In. }
  destruct (filter (fun c => idx_eqb (cand_idx_firms c) k) sorted) as [|h t] eqn:G;
    [contradiction|].
  eexists. exists h, t. split; [reflexivity|]. split; [exact Hrun|].
  rewrite nth_error_map, (nth_error_reset_index _ _ _ Hpt).
  cbn [option_map idx_firms]. fold k. do 2 f_equal.
  assert (Hkey : In k (group_keys sorted)).
  { apply group_keys_In. split; [exact Hk|]. exists h.
    assert (Hf : In h (filter (fun c => idx_eqb (cand_idx_firms c) k) sorted))
      by (rewrite G; now left).
    apply filter_In in Hf as [Hf Ei]. split; [exact Hf | now apply idx_eqb_eq]. }
  rewrite Hbest.
  rewrite (find_map_key_gen _ _ _ Hkey) by reflexivity.
  cbn [cols_or_null]. rewrite G.
  erewrite fillna_tipo_some; reflexivity.
Qed.

Lemma point_result (df_ungrd : list ungrd_row) (gdf_firms : firms_frame)
  (window_days : Z) (i : nat) (pt : firms_point) :
  identified gdf_firms ->
  nth_error (points gdf_firms) i = Some pt ->
  exists out cols,
    run_firms_vs_ungrd df_ungrd gdf_firms window_days = inr out
    /\ nth_error out i = Some ({| idx_firms := key_of gdf_firms i; point := pt |}, cols)
    /\ ((dated_events pt df_ungrd = [] /\ cols = sin_cols)
        \/ exists u0 t,
             In u0 (dated_events pt df_ungrd)
             /\ (forall x, In x t ->
                   exists u, In u (dated_events pt df_ungrd)
                             /\ x = cand_of (key_of gdf_firms i) pt u)
             /\ (forall u, In u (dated_events pt df_ungrd) ->
                   abs_leb (dif_dias_abs_col (cand_of (key_of gdf_firms i) pt u0))
                           (dif_dias_abs_col (cand_of (key_of gdf_firms i) pt u)) = true)
             /\ cols = snd (best_row window_days (key_of gdf_firms i)
                              (cand_of (key_of gdf_firms i) pt u0 :: t))).
Proof.
  intros Hid Hpt.
  pose proof (valid_group gdf_firms df_ungrd i pt Hid Hpt) as Hgroup.
  set (k := key_of gdf_firms i) in *.
  destruct (dated_events pt df_ungrd) as [|u us] eqn:D.
  - (* the point has no valid row *)
    destruct (run_firms_vs_ungrd_rows df_ungrd gdf_firms window_days Hid)
      as [matches [Hbest Hrun]].
    eexists. eexists. split; [exact Hrun|].
    rewrite nth_error_map, (nth_error_reset_index _ _ _ Hpt).
    cbn [option_map idx_firms]. fold k.
    split; [reflexivity|]. left. split; [reflexivity|].
    destruct (find _ matches) as [r|] eqn:F; [|reflexivity].
    apply find_some in F as [F Ek]. apply idx_eqb_eq in Ek.
    set (valid := filter (fun c => notna (FECHA (cand_ungrd c)))
                         (admin_merge (reset_index gdf_firms) df_ungrd)) in *.
    destruct (length valid =? 0) eqn:Elen.
    + unfold best_match_per_point in Hbest. fold valid in Hbest.
      rewrite Elen in Hbest.
      injection Hbest as <-. apply in_map_iff in F as [k' [<- _]]. reflexivity.
    + exfalso. apply best_match_groups in Hbest; [|exact Elen].
      fold valid in Hbest. rewrite Hbest in F.
      apply in_map_iff in F as [k' [<- Hk']].
      simpl in Ek. subst k'.
      apply group_keys_In in Hk' as [_ [c [Hc Ec]]].
      apply PySort.stable_sort_In in Hc.
      assert (Hf : In c (filter (fun c => idx_eqb (cand_idx_firms c) k) valid)).
      { apply filter_In. split; [exact Hc | now apply idx_eqb_eq]. }
      rewrite Hgroup in Hf. contradiction.
  - destruct (point_group df_ungrd gdf_firms window_days i pt u Hid Hpt)
      as [out [h [t [G [Hrun Hnth]]]]]; [rewrite D; now left|].
    fold k in G, Hnth.
    set (valid := filter (fun c => notna (FECHA (cand_ungrd c)))
                         (admin_merge (reset_index gdf_firms) df_ungrd)) in *.
    set (sorted := PySort.stable_sort cand_leb valid) in *.
    assert (Hperm : Permutation (h :: t) (map (cand_of k pt) (dated_events pt df_ungrd))).
    { rewrite <- G, D, <- Hgroup. apply Permutation_filter. apply PySort.stable_sort_perm. }
    assert (Hsorted : StronglySorted (fun a b => cand_leb a b = true) (h :: t)).
    { rewrite <- G. apply StronglySorted_filter.
      apply PySort.stable_sort_sorted; [apply cand_leb_total | apply cand_leb_trans]. }
    exists out. eexists. split; [exact Hrun|]. split; [exact Hnth|]. right.
    rewrite <- D.
    assert (Hh : In h (map (cand_of k pt) (dated_events pt df_ungrd))).
    { apply (Permutation_in _ Hperm). now left. }
    apply in_map_iff in Hh as [u0 [<- Hu0]].
    exists u0, t. split; [exact Hu0|]. split.
    { intros x Hx.
      assert (Hx' : In x (map (cand_of k pt) (dated_events pt df_ungrd))).
      { apply (Permutation_in _ Hperm). now right. }
      apply in_map_iff in Hx' as [u' [<- Hu']]. now exists u'. }
    split; [|reflexivity].
    intros u' Hu'.
    assert (Hc : In (cand_of k pt u') (cand_of k pt u0 :: t)).
    { apply (Permutation_in _ (Permutation_sym Hperm)). now apply in_map. }
    destruct Hc as [<-|Hc].
    + destruct (abs_leb_total (dif_dias_abs_col (cand_of k pt u0))
                              (dif_dias_abs_col (cand_of k pt u0))); assumption.
    + apply cand_leb_same_idx; [reflexivity|].
      inversion Hsorted as [|? ? _ Hall]; subst.
      rewrite Forall_forall in Hall. now apply Hall.
Qed.

Lemma run_firms_vs_ungrd_length (df_ungrd : list ungrd_row)
  (gdf_firms : firms_frame) (window_days : Z) :
  identified gdf_firms ->
  exists out, run_firms_vs_ungrd df_ungrd gdf_firms window_days = inr out
              /\ length out = length (points gdf_firms).
Proof.
  intros Hid.
  destruct (run_firms_vs_ungrd_rows df_ungrd gdf_firms window_days Hid)
    as [matches [_ Hrun]].
  eexists. split; [exact Hrun|].
  rewrite length_map. apply reset_index_length.
Qed.

(** ** The tiers of the output *)

Lemma best_match_tipo (merged : list candidate) (window_days : Z)
  (matches : list (idx * match_cols)) (m : idx * match_cols) :
  best_match_per_point merged window_days = inr matches ->
  In m matches ->
  exists t, tipo_coincidencia (snd m) = Some t
    /\ (t = "exacta"%string
        \/ t = ("ventana_" ++ PyStr.str_int window_days ++ "dias")%string
        \/ t = "sin_coincidencia"%string).
Proof.
  intros Hbest H.
  destruct (length (filter (fun c => notna (FECHA (cand_ungrd c))) merged) =? 0) eqn:E.
  - unfold best_match_per_point in Hbest. rewrite E in Hbest. injection Hbest as <-.
    apply in_map_iff in H as [i [<- _]]; simpl.
    eexists. split; [reflexivity|]. auto.
  - apply best_match_groups in Hbest; [|exact E]. rewrite Hbest in H.
    apply in_map_iff in H as [i [<- _]]; simpl.
    eexists. split; [reflexivity|].
    destruct (match first_notna dif_dias _ with Some d => (d =? 0)%Z | None => false end);
      [auto|].
    simpl. destruct (match first_notna dif_dias_abs_col _ with
                     | Some a => (a <=? window_days)%Z | None => false end); auto.
Qed.

Lemma three_way_count {A : Type} (p1 p2 p3 : A -> bool) (l : list A) :
  (forall x, In x l ->
     (p1 x = true /\ p2 x = false /\ p3 x = false)
     \/ (p1 x = false /\ p2 x = true /\ p3 x = false)
     \/ (p1 x = false /\ p2 x = false /\ p3 x = true)) ->
  length (filter p1 l) + length (filter p2 l) + length (filter p3 l) = length l.
Proof.
  induction l as [|x l IH]; intros H; [reflexivity|].
  simpl. specialize (IH (fun y Hy => H y (or_intror Hy))).
  destruct (H x (or_introl eq_refl)) as [[-> [-> ->]]|[[-> [-> ->]]|[-> [-> ->]]]];
    simpl; lia.
Qed.

Lemma left_merge_length {L R : Type} (on : L -> R -> bool) (left : list L) (right : list R) :
  length left <= length (left_merge on left right).
Proof.
  unfold left_merge. induction left as [|l left IH]; [simpl; lia|].
  cbn [flat_map]. rewrite length_app.
  set (rest := flat_map _ left) in *.
  destruct (filter (on l) right) as [|r ms]; [simpl; lia|].
  rewrite length_map. simpl. lia.
Qed.

Lemma attach_matches_length (gdf_firms_reset : list reset_row)
  (matches : list (idx * match_cols)) :
  length gdf_firms_reset <= length (attach_matches gdf_firms_reset matches).
Proof. unfold attach_matches. rewrite length_map. apply left_merge_length. Qed.

(** Whenever the run returns, what it returned is the attachment of
    the matches of the candidates. *)
Lemma run_firms_vs_ungrd_inr (df_ungrd : list ungrd_row) (gdf_firms : firms_frame)
  (window_days : Z) (out : list (reset_row * match_cols)) :
  run_firms_vs_ungrd df_ungrd gdf_firms window_days = inr out ->
  exists matches,
    best_match_per_point (admin_merge (reset_index gdf_firms) df_ungrd) window_days
    = inr matches
    /\ out = attach_matches (reset_index gdf_firms) matches.
Proof.
  unfold run_firms_vs_ungrd, build_candidates.
  destruct (notna (index_column gdf_firms) && has_level_0 gdf_firms); [discriminate|].
  destruct (has_idx_firms gdf_firms); [discriminate|].
  destruct (best_match_per_point _ window_days) as [e|matches]; [discriminate|].
  intros [= <-]. now exists matches.
Qed.

(** ** The claims on the pipeline *)

(** C1, on a layer with a field [index].  The two points of
    [shared_index_layer] carry the same value in [index], which
    [build_candidates] renames to [idx_firms]; the two left merges of
    [attach_matches] then join each point with both rows of [m], and
    the output has four rows for two points, each point twice. *)
Theorem shared_index_duplicates_points :
  points shared_index_layer = [point_at "X" (date 18291); point_at "Y" (date 18270)]
  /\ index_column shared_index_layer = Some (fun _ => Some 7)
  /\ exists out,
       run_firms_vs_ungrd shared_index_events shared_index_layer 5 = inr out
       /\ length out = 4
       /\ map fst out
          = [{| idx_firms := Some 7; point := point_at "X" (date 18291) |};
             {| idx_firms := Some 7; point := point_at "X" (date 18291) |};
             {| idx_firms := Some 7; point := point_at "Y" (date 18270) |};
             {| idx_firms := Some 7; point := point_at "Y" (date 18270) |}].
Proof.
  split; [reflexivity|]. split; [reflexivity|].
  eexists. split; [vm_compute; reflexivity|]. split; reflexivity.
Qed.

(** C2, on a layer with a field [index].  The point of
    [shared_index_layer] in X, of 2020-01-30, has one ranked candidate,
    the event of 2020-01-10 in X, 20 days away, outside the window of
    5 days.  With the value of [index] that it shares with the point
    in Y, [groupby("idx_firms")] puts the candidates of both points
    in one group, and every row of the output, those of the point in
    X too, carries the event of 2020-01-09 in Y with difference 0 and
    tier [exacta]. *)
Theorem shared_index_mixes_candidates :
  dated_events (point_at "X" (date 18291)) shared_index_events
  = [event_at "X" (date 18271)]
  /\ dif_dias (cand_of (Some 7) (point_at "X" (date 18291)) (event_at "X" (date 18271)))
     = Some 20%Z
  /\ exists out,
       run_firms_vs_ungrd shared_index_events shared_index_layer 5 = inr out
       /\ In {| idx_firms := Some 7; point := point_at "X" (date 18291) |} (map fst out)
       /\ forall r cols, In (r, cols) out ->
            cols = {| fecha_UNGRD_match := date 18270; dif_dias_min := Some 0%Z;
                      dif_dias_abs := Some 0%Z;
                      tipo_coincidencia := Some "exacta"%string |}.
Proof.
  split; [reflexivity|]. split; [reflexivity|].
  eexists. split; [vm_compute; reflexivity|]. split; [now left|].
  intros r cols [E|[E|[E|[E|[]]]]]; injection E as _ <-; reflexivity.
Qed.

(** X18.  Left-join invariant on a layer whose [idx_firms] tell the
    points apart (no field [idx_firms]; no field [index], or one with
    non-null, pairwise different cells and no [level_0] beside it):
    the run returns, the output has one row per input point, the
    points themselves in their order (none dropped, none duplicated),
    with the positions 0, 1, ... as [idx_firms] when the layer has no
    field [index], and the row of a point for which
    [best_match_per_point] returned no row has tier
    [sin_coincidencia]. *)
Theorem attach_keeps_every_point (df_ungrd : list ungrd_row)
  (gdf_firms : firms_frame) (window_days : Z) :
  identified gdf_firms ->
  exists out matches,
    run_firms_vs_ungrd df_ungrd gdf_firms window_days = inr out
    /\ best_match_per_point (admin_merge (reset_index gdf_firms) df_ungrd) window_days
       = inr matches
    /\ length out = length (points gdf_firms)
    /\ map (fun r => point (fst r)) out = points gdf_firms
    /\ (index_column gdf_firms = None ->
        map (fun r => idx_firms (fst r)) out
        = map Some (seq 0 (length (points gdf_firms))))
    /\ forall r cols, In (r, cols) out ->
         (forall m, In m matches -> fst m <> idx_firms r) ->
         tipo_coincidencia cols = Some "sin_coincidencia"%string.
Proof.
  intros Hid.
  destruct (run_firms_vs_ungrd_rows df_ungrd gdf_firms window_days Hid)
    as [matches [Hbest Hrun]].
  eexists. exists matches. split; [exact Hrun|]. split; [exact Hbest|].
  split; [rewrite length_map; apply reset_index_length|].
  split; [rewrite map_map; apply reset_index_point|].
  split.
  { intros Hnone. rewrite map_map. cbn [fst].
    change (map (fun x : reset_row => idx_firms x) (reset_index gdf_firms))
      with (map idx_firms (reset_index gdf_firms)).
    rewrite reset_index_idx. apply map_ext. intros i. unfold key_of. now rewrite Hnone. }
  intros r cols Hin Hnone.
  apply in_map_iff in Hin as [l [E _]]. injection E as -> <-.
  destruct (find _ _) as [m|] eqn:F; [|reflexivity].
  apply find_some in F as [Hm Em]. apply idx_eqb_eq in Em.
  exfalso. exact (Hnone m Hm Em).
Qed.

Lemma attach_keeps_every_point_witness :
  exists out,
    run_firms_vs_ungrd [event_at "X" (date 18274)] (layer [point_x; point_x]) 5 = inr out
    /\ length out = 2.
Proof.
  destruct (attach_keeps_every_point [event_at "X" (date 18274)]
              (layer [point_x; point_x]) 5 (layer_identified _))
    as [out [matches [H1 [_ [H2 _]]]]].
  exists out. split; [exact H1 | exact H2].
Defined.

(** X19.  Best match and its class on a layer whose [idx_firms] tell
    the points apart: a point with a date that has at least one
    candidate event with a date gets the date of a candidate event
    whose absolute difference in days is the least among the point's
    dated candidates; the signed difference is point date minus event
    date in whole days; the tier is [exacta] iff the difference is 0,
    ["ventana_" ++ str(window_days) ++ "dias"] iff it is not 0 and its
    absolute value is at most the window, [sin_coincidencia]
    otherwise. *)
Theorem best_match_is_nearest (df_ungrd : list ungrd_row)
  (gdf_firms : firms_frame) (window_days : Z)
  (i : nat) (pt : firms_point) (p : timestamp) :
  identified gdf_firms ->
  nth_error (points gdf_firms) i = Some pt ->
  fecha_FIRMS pt = Some p ->
  (exists u e, In u df_ungrd /\ admin_match pt u = true /\ FECHA u = Some e) ->
  exists out cols u0 e0,
    run_firms_vs_ungrd df_ungrd gdf_firms window_days = inr out
    /\ nth_error out i = Some ({| idx_firms := key_of gdf_firms i; point := pt |}, cols)
    /\ In u0 df_ungrd /\ admin_match pt u0 = true /\ FECHA u0 = Some e0
    /\ fecha_UNGRD_match cols = Some e0
    /\ dif_dias_min cols = Some ((p - e0) / day_ns)%Z
    /\ dif_dias_abs cols = Some (Z.abs ((p - e0) / day_ns))
    /\ (forall u e, In u df_ungrd -> admin_match pt u = true -> FECHA u = Some e ->
          (Z.abs ((p - e0) / day_ns) <= Z.abs ((p - e) / day_ns))%Z)
    /\ (tipo_coincidencia cols = Some "exacta"%string
        <-> ((p - e0) / day_ns = 0)%Z)
    /\ (tipo_coincidencia cols
        = Some ("ventana_" ++ PyStr.str_int window_days ++ "dias")%string
        <-> ((p - e0) / day_ns <> 0)%Z
            /\ (Z.abs ((p - e0) / day_ns) <= window_days)%Z)
    /\ (tipo_coincidencia cols = Some "sin_coincidencia"%string
        <-> ((p - e0) / day_ns <> 0)%Z
            /\ (window_days < Z.abs ((p - e0) / day_ns))%Z).
Proof.
  intros Hid Hpt Hp [u [e [Hu [Ha He]]]].
  destruct (point_result df_ungrd gdf_firms window_days i pt Hid Hpt)
    as [out [cols [Hrun [Hnth [[Hnil _]|[u0 [t [Hu0 [_ [Hmin Hcols]]]]]]]]]].
  { exfalso. assert (Hin : In u (dated_events pt df_ungrd)).
    { apply dated_events_In. repeat split; try assumption. now exists e. }
    rewrite Hnil in Hin. contradiction. }
  pose proof Hu0 as Hu0'. apply dated_events_In in Hu0' as [Hin0 [Ha0 [e0 He0]]].
  rewrite (best_row_dated window_days _ pt u0 p e0 t Hp He0) in Hcols.
  exists out, cols, u0, e0. subst cols. cbn [fecha_UNGRD_match dif_dias_min
    dif_dias_abs tipo_coincidencia].
  split; [exact Hrun|]. split; [exact Hnth|].
  repeat (split; [assumption || reflexivity|]).
  split.
  { intros u' e' Hu' Ha' He'.
    assert (Hd : In u' (dated_events pt df_ungrd)).
    { apply dated_events_In. repeat split; try assumption. now exists e'. }
    specialize (Hmin u' Hd). unfold dif_dias_abs_col, dif_dias in Hmin.
    simpl in Hmin. rewrite Hp, He0, He' in Hmin. simpl in Hmin.
    now apply Z.leb_le. }
  destruct (tipo_of_spec window_days ((p - e0) / day_ns)) as [T1 [T2 T3]].
  split; [|split].
  - rewrite <- T1. split; [now intros [= ->] | now intros ->].
  - rewrite <- T2. split; [now intros [= ->] | now intros ->].
  - rewrite <- T3. split; [now intros [= ->] | now intros ->].
Qed.

Lemma best_match_is_nearest_witness :
  exists out cols u0 e0,
    run_firms_vs_ungrd [event_at "X" (date 18293); event_at "X" (date 18274)]
      (layer [point_x]) 5 = inr out
    /\ nth_error out 0 = Some ({| idx_firms := Some 0; point := point_x |}, cols)
    /\ FECHA u0 = Some e0
    /\ fecha_UNGRD_match cols = Some e0
    /\ (tipo_coincidencia cols = Some "ventana_5dias"%string
        <-> ((18271 * day_ns - e0) / day_ns <> 0)%Z
            /\ (Z.abs ((18271 * day_ns - e0) / day_ns) <= 5)%Z).
Proof.
  destruct (best_match_is_nearest
              [event_at "X" (date 18293); event_at "X" (date 18274)]
              (layer [point_x]) 5
              0 point_x (18271 * day_ns)%Z (layer_identified _) eq_refl eq_refl
              (ex_intro _ (event_at "X" (date 18293))
                 (ex_intro _ (18293 * day_ns)%Z
                    (conj (or_introl eq_refl) (conj eq_refl eq_refl)))))
    as [out [cols [u0 [e0 [H0 [H1 [_ [_ [H2 [H3 [_ [_ [_ [_ [H4 _]]]]]]]]]]]]]]].
  exists out, cols, u0, e0.
  split; [exact H0|]. split; [exact H1|]. split; [exact H2|]. split; [exact H3|].
  exact H4.
Defined.

(** C7, as the code has it, on a layer whose [idx_firms] tell the
    points apart.  A point without a ranked candidate (no candidate
    event of it has a date while the point has one) gets tier
    [sin_coincidencia] and null day differences.  Its matched event
    date is null when none of its candidate events has a date; when
    the point's own date is null and a candidate event has a date, the
    matched event date is the date of such a candidate, since the rows
    are kept by the event date alone. *)
Theorem unranked_point_gets_none (df_ungrd : list ungrd_row)
  (gdf_firms : firms_frame) (window_days : Z) (i : nat) (pt : firms_point) :
  identified gdf_firms ->
  nth_error (points gdf_firms) i = Some pt ->
  (forall u, In u df_ungrd -> admin_match pt u = true ->
     fecha_FIRMS pt = None \/ FECHA u = None) ->
  exists out cols,
    run_firms_vs_ungrd df_ungrd gdf_firms window_days = inr out
    /\ nth_error out i = Some ({| idx_firms := key_of gdf_firms i; point := pt |}, cols)
    /\ tipo_coincidencia cols = Some "sin_coincidencia"%string
    /\ dif_dias_min cols = None
    /\ dif_dias_abs cols = None
    /\ ((forall u, In u df_ungrd -> admin_match pt u = true -> FECHA u = None) ->
        fecha_UNGRD_match cols = None)
    /\ ((exists u, In u df_ungrd /\ admin_match pt u = true /\ FECHA u <> None) ->
        exists u e, In u df_ungrd /\ admin_match pt u = true /\ FECHA u = Some e
                    /\ fecha_UNGRD_match cols = Some e).
Proof.
  intros Hid Hpt Hno.
  destruct (point_result df_ungrd gdf_firms window_days i pt Hid Hpt)
    as [out [cols [Hrun [Hnth [[Hnil ->]|[u0 [t [Hu0 [Ht [_ Hcols]]]]]]]]]].
  - exists out, sin_cols. split; [exact Hrun|]. split; [exact Hnth|]. simpl.
    do 4 (split; [reflexivity|]).
    intros [u [Hu [Ha Hd]]]. exfalso.
    assert (Hin : In u (dated_events pt df_ungrd)).
    { apply dated_events_In. repeat split; try assumption.
      destruct (FECHA u) as [e|]; [now exists e | contradiction]. }
    rewrite Hnil in Hin. contradiction.
  - pose proof Hu0 as Hu0'. apply dated_events_In in Hu0' as [Hin0 [Ha0 [e0 He0]]].
    assert (Hp : fecha_FIRMS pt = None).
    { destruct (Hno u0 Hin0 Ha0) as [H|H]; [exact H | congruence]. }
    rewrite (best_row_undated window_days _ pt u0 e0 t Hp He0) in Hcols.
    + exists out, cols. subst cols. simpl. split; [exact Hrun|]. split; [exact Hnth|].
      do 3 (split; [reflexivity|]). split.
      * intros Hall. rewrite (Hall u0 Hin0 Ha0) in He0. discriminate.
      * intros _. exists u0, e0. repeat split; assumption.
    + intros x Hx. destruct (Ht x Hx) as [u [_ ->]]. reflexivity.
Qed.

Lemma unranked_point_gets_none_witness :
  exists out cols,
    run_firms_vs_ungrd [event_at "X" None; event_at "Y" (date 18271)]
      (layer [point_x]) 5 = inr out
    /\ nth_error out 0 = Some ({| idx_firms := Some 0; point := point_x |}, cols)
    /\ tipo_coincidencia cols = Some "sin_coincidencia"%string
    /\ dif_dias_min cols = None
    /\ dif_dias_abs cols = None.
Proof.
  assert (Hno : forall u, In u [event_at "X" None; event_at "Y" (date 18271)] ->
                  admin_match point_x u = true ->
                  fecha_FIRMS point_x = None \/ FECHA u = None).
  { intros u [<-|[<-|[]]] Ha; [now right | discriminate Ha]. }
  destruct (unranked_point_gets_none
              [event_at "X" None; event_at "Y" (date 18271)] (layer [point_x]) 5
              0 point_x (layer_identified _) eq_refl Hno)
    as [out [cols [H0 [H1 [H2 [H3 [H4 _]]]]]]].
  exists out, cols. repeat split; assumption.
Defined.

(** The claim as stated fails on a point whose own date is null: the
    point has no ranked candidate, and its result carries the date of
    the event. *)
Lemma undated_point_keeps_event_date :
  fecha_FIRMS undated_point_x = None
  /\ cols_of (run_firms_vs_ungrd [event_at "X" (date 18271)] (layer [undated_point_x]) 5)
     = Some [{| fecha_UNGRD_match := Some (18271 * day_ns)%Z;
                dif_dias_min := None; dif_dias_abs := None;
                tipo_coincidencia := Some "sin_coincidencia"%string |}]
  /\ Some (18271 * day_ns)%Z <> @None timestamp.
Proof.
  split; [reflexivity|]. split; [vm_compute; reflexivity | discriminate].
Qed.

(** ** The summary *)

(** X3.  Whenever the run returns, the three tier counts of the
    summary add up to the number of rows of the output [n_points],
    which is at least the number of input points, the points counted
    as having an event are among them, and [n_ungrd_rows] is the
    number of events; the tier of the window is counted under the
    label ["ventana_" ++ str(window_days) ++ "dias"].  On a layer
    whose [idx_firms] tell the points apart the run returns and
    [n_points] is the number of input points. *)
Theorem summary_counts_partition (df_ungrd : list ungrd_row)
  (gdf_firms : firms_frame) (window_days : Z) :
  (forall s, summarize df_ungrd gdf_firms window_days = inr s ->
     exists gdf_out,
       run_firms_vs_ungrd df_ungrd gdf_firms window_days = inr gdf_out
       /\ n_points s = length gdf_out
       /\ n_exact s = count_tipo "exacta" gdf_out
       /\ n_window s
          = count_tipo ("ventana_" ++ PyStr.str_int window_days ++ "dias") gdf_out
       /\ n_none s = count_tipo "sin_coincidencia" gdf_out
       /\ n_exact s + n_window s + n_none s = n_points s
       /\ length (points gdf_firms) <= n_points s
       /\ n_points_with_any_ungrd s <= n_points s
       /\ n_ungrd_rows s = length df_ungrd)
  /\ (identified gdf_firms ->
      exists s, summarize df_ungrd gdf_firms window_days = inr s
                /\ n_points s = length (points gdf_firms)).
Proof.
  split.
  - intros s Hs. unfold summarize in Hs.
    destruct (run_firms_vs_ungrd df_ungrd gdf_firms window_days) as [e|gdf_out] eqn:R;
      [discriminate|].
    injection Hs as <-. exists gdf_out. split; [reflexivity|].
    cbn [summary_of n_points n_exact n_window n_none n_points_with_any_ungrd n_ungrd_rows].
    do 4 (split; [reflexivity|]).
    destruct (run_firms_vs_ungrd_inr _ _ _ _ R) as [matches [Hbest ->]].
    split; [|split; [|split]].
    + unfold count_tipo. apply three_way_count.
      intros [r cols] Hin. cbn [snd].
      apply attach_matches_tipo in Hin as [_ [t [Ht Hl]]].
      assert (Hl' : t = "exacta"%string
                    \/ t = ("ventana_" ++ PyStr.str_int window_days ++ "dias")%string
                    \/ t = "sin_coincidencia"%string).
      { destruct Hl as [->|[m [Hm Tm]]]; [auto|].
        destruct (best_match_tipo _ _ _ m Hbest Hm) as [t' [Ht' Hl']]. congruence. }
      rewrite Ht. clear Ht Hl.
      set (ventana := ("ventana_" ++ PyStr.str_int window_days ++ "dias")%string) in *.
      assert (V1 : String.eqb ventana "exacta" = false)
        by (apply String.eqb_neq; discriminate).
      assert (V2 : String.eqb ventana "sin_coincidencia" = false)
        by (apply String.eqb_neq; discriminate).
      assert (V3 : String.eqb "exacta" ventana = false)
        by (apply String.eqb_neq; discriminate).
      assert (V4 : String.eqb "sin_coincidencia" ventana = false)
        by (apply String.eqb_neq; discriminate).
      destruct Hl' as [-> | [-> | ->]].
      * left. rewrite V3. now repeat split.
      * right. left. rewrite V1, V2, String.eqb_refl. now repeat split.
      * right. right. rewrite V4. now repeat split.
    + rewrite <- reset_index_length. apply attach_matches_length.
    + apply filter_length_le.
    + reflexivity.
  - intros Hid. unfold summarize.
    destruct (run_firms_vs_ungrd_length df_ungrd gdf_firms window_days Hid)
      as [out [-> Hlen]].
    eexists. split; [reflexivity|]. exact Hlen.
Qed.

Lemma summary_counts_partition_witness :
  exists s,
    summarize [event_at "X" (date 18274)] (layer [point_x; point_x]) 5 = inr s
    /\ n_points s = 2
    /\ n_exact s + n_window s + n_none s = n_points s.
Proof.
  destruct (summary_counts_partition [event_at "X" (date 18274)]
              (layer [point_x; point_x]) 5) as [H1 H2].
  destruct (H2 (layer_identified _)) as [s [Hs Hn]].
  exists s. split; [exact Hs|]. split; [exact Hn|].
  destruct (H1 s Hs) as [out [_ [_ [_ [_ [_ [H _]]]]]]]. exact H.
Defined.

End Match.

(* ------------------------------------------------------------------ *)
(** * Random absence points
    [random_absence_points.build_allowed_zone] and
    [generate_random_points_in_geom]. *)

Module Sampler.

(** What the sampler and the zone raise: the [RuntimeError] and the
    [ValueError]s of the module with their messages, and the two
    errors of numpy that [generate_random_points_in_geom] lets
    through: the [ValueError] of [default_rng] for a seed it refuses
    ([SeedValueError]) and the [OverflowError] of [uniform] for a
    range that is not finite. *)
Inductive exn : Type :=
| RuntimeError (msg : string)
| ValueError (msg : string)
| SeedValueError
| OverflowError.

Section Sampling.

(** Coordinates are floats, the not-a-number among them; the
    development does not look inside them. *)
Variable coord : Type.

Definition xy : Type := (coord * coord)%type.

(** The bit generator of numpy, as a function of its state:
    [seeded seed] is the state [default_rng(seed)] starts in, [None]
    for a seed that numpy refuses (a negative one);
    [next_uniform s low high] is the value that [uniform(low, high)]
    draws in state [s], with the state after the draw;
    [finite_range low high] tells whether [high - low] is finite, the
    check [uniform] makes before it draws. *)
Variable rng_state : Type.
Variable seeded : Z -> option rng_state.
Variable next_uniform : rng_state -> coord -> coord -> coord * rng_state.
Variable finite_range : coord -> coord -> bool.

(** A shapely geometry: [geom.bounds] as (minx, miny, maxx, maxy), and
    [geom.contains(Point(x, y))]. *)
Variable geom : Type.
Variable bounds : geom -> coord * coord * coord * coord.
Variable contains : geom -> xy -> bool.

(** ** Generators as objects
    A [numpy.random.Generator] is an object: [default_rng] creates one
    that nothing else refers to, and each draw changes its state.  The
    world holds the state of every generator created so far, under the
    reference of the generator; [allocated] is the next free
    reference. *)
Record world : Type := {
  allocated : nat;
  generator : nat -> rng_state
}.

(** A computation in a world: what it returns or raises, and the
    world it leaves. *)
Definition M (A : Type) : Type := world -> (exn + A) * world.

Definition ret {A : Type} (a : A) : M A := fun w => (inr a, w).

Definition raise {A : Type} (e : exn) : M A := fun w => (inl e, w).

Definition bind {A B : Type} (c : M A) (k : A -> M B) : M B :=
  fun w => match c w with
           | (inl e, w') => (inl e, w')
           | (inr a, w') => k a w'
           end.

Notation "x <- c ;; k" := (bind c (fun x => k))
  (at level 61, c at next level, right associativity).

Definition set_generator (w : world) (rng : nat) (s : rng_state) : world :=
  {| allocated := allocated w;
     generator := fun r => if r =? rng then s else generator w r |}.

(** [np.random.default_rng(seed)] *)
Definition default_rng (seed : Z) : M nat :=
  fun w => match seeded seed with
           | None => (inl SeedValueError, w)
           | Some s =>
               (inr (allocated w),
                {| allocated := S (allocated w);
                   generator := fun r => if r =? allocated w then s else generator w r |})
           end.

(** [rng.uniform(low, high)] *)
Definition uniform (rng : nat) (low high : coord) : M coord :=
  fun w => if finite_range low high then
             let (v, s) := next_uniform (generator w rng) low high in
             (inr v, set_generator w rng s)
           else (inl OverflowError, w).

(** ** The sampler *)

(** The variables of the loop. *)
Record state : Type := {
  pts : list xy;
  attempts : Z
}.

(** [len(pts) < n_points and attempts < max_attempts] *)
Definition loop_cond (n_points max_attempts : Z) (st : state) : bool :=
  (Z.of_nat (length (pts st)) <? n_points)%Z && (attempts st <? max_attempts)%Z.

Definition loop_body (g : geom) (box : coord * coord * coord * coord) (rng : nat)
  (st : state) : M state :=
  let '(minx, miny, maxx, maxy) := box in
  x <- uniform rng minx maxx ;;
  y <- uniform rng miny maxy ;;
  ret {| pts := if contains g (x, y) then pts st ++ [(x, y)] else pts st;
         attempts := (attempts st + 1)%Z |}.

(** The [while] loop, at most [fuel] iterations. *)
Fixpoint while (fuel : nat) (g : geom) (box : coord * coord * coord * coord) (rng : nat)
  (n_points max_attempts : Z) (st : state) : M state :=
  match fuel with
  | O => ret st
  | S fuel' =>
      if loop_cond n_points max_attempts st
      then st' <- loop_body g box rng st ;;
           while fuel' g box rng n_points max_attempts st'
      else ret st
  end.

(** The loop makes at most [max_attempts] iterations, so that much
    fuel runs it to its end ([while_pure], [pure_while_exit]). *)
Definition generate_random_points_in_geom (g : geom)
  (n_points seed max_attempts_factor : Z) : M (list xy) :=
  rng <- default_rng seed ;;
  let box := bounds g in
  let max_attempts := (n_points * max_attempts_factor)%Z in
  st <- while (Z.to_nat max_attempts) g box rng n_points max_attempts
          {| pts := []; attempts := 0 |} ;;
  if (Z.of_nat (length (pts st)) <? n_points)%Z
  then raise (RuntimeError
                ("Solo se generaron " ++ PyStr.str_nat (length (pts st)) ++ "/"
                 ++ PyStr.str_int n_points ++ " puntos tras "
                 ++ PyStr.str_int (attempts st) ++ " intentos. "
                 ++ "Zona permitida muy pequeña o fragmentada (o max_attempts_factor bajo)."))
  else ret (pts st).

(** ** The stream of a generator
    What the loop does when no draw raises, as a function of the
    state of the generator. *)

(** The two draws of one attempt. *)
Definition draw (g : geom) (s : rng_state) : xy * rng_state :=
  let '(minx, miny, maxx, maxy) := bounds g in
  let (x, s1) := next_uniform s minx maxx in
  let (y, s2) := next_uniform s1 miny maxy in
  ((x, y), s2).

(** The candidate points the generator yields from state [s], in
    order, and its state after [k] of them. *)
Fixpoint draws (g : geom) (s : rng_state) (k : nat) : list xy :=
  match k with
  | O => []
  | S k' => let (p, s') := draw g s in p :: draws g s' k'
  end.

Fixpoint rng_after (g : geom) (s : rng_state) (k : nat) : rng_state :=
  match k with
  | O => s
  | S k' => rng_after g (snd (draw g s)) k'
  end.

(** Both ranges of the bounds are finite: no draw raises. *)
Definition bounds_finite (g : geom) : bool :=
  let '(minx, miny, maxx, maxy) := bounds g in
  finite_range minx maxx && finite_range miny maxy.

Definition pure_body (g : geom) (sst : rng_state * state) : rng_state * state :=
  let (p, s) := draw g (fst sst) in
  (s, {| pts := if contains g p then pts (snd sst) ++ [p] else pts (snd sst);
         attempts := (attempts (snd sst) + 1)%Z |}).

Fixpoint pure_while (fuel : nat) (g : geom) (n_points max_attempts : Z)
  (sst : rng_state * state) : rng_state * state :=
  match fuel with
  | O => sst
  | S fuel' =>
      if loop_cond n_points max_attempts (snd sst)
      then pure_while fuel' g n_points max_attempts (pure_body g sst)
      else sst
  end.

Lemma pure_body_attempts (g : geom) (sst : rng_state * state) :
  attempts (snd (pure_body g sst)) = (attempts (snd sst) + 1)%Z.
Proof. unfold pure_body. destruct (draw g (fst sst)). reflexivity. Qed.

(** Enough fuel: the loop ends by its condition, within its budget,
    the generator advanced by one candidate per attempt. *)
Lemma pure_while_exit (g : geom) (n_points max_attempts : Z) (fuel : nat)
  (sst : rng_state * state) :
  (max_attempts - attempts (snd sst) <= Z.of_nat fuel)%Z ->
  let r := pure_while fuel g n_points max_attempts sst in
  loop_cond n_points max_attempts (snd r) = false
  /\ (attempts (snd sst) <= attempts (snd r))%Z
  /\ (attempts (snd r) <= Z.max (attempts (snd sst)) max_attempts)%Z
  /\ fst r = rng_after g (fst sst) (Z.to_nat (attempts (snd r) - attempts (snd sst))).
Proof.
  cbv zeta. revert sst. induction fuel as [|fuel IH]; intros sst Hfuel; simpl.
  - split; [|split; [lia | split; [lia|]]].
    + unfold loop_cond. apply andb_false_iff. right. apply Z.ltb_ge. lia.
    + now rewrite Z.sub_diag.
  - destruct (loop_cond n_points max_attempts (snd sst)) eqn:C.
    + pose proof C as C'. unfold loop_cond in C'.
      apply andb_true_iff in C' as [_ C']. apply Z.ltb_lt in C'.
      destruct (IH (pure_body g sst)) as [Hc [Hlo [Hhi Hr]]].
      { rewrite pure_body_attempts. lia. }
      rewrite pure_body_attempts in Hlo, Hhi, Hr.
      split; [exact Hc|]. split; [lia|]. split; [lia|].
      rewrite Hr.
      replace (Z.to_nat (attempts (snd (pure_while fuel g n_points max_attempts
                                          (pure_body g sst))) - attempts (snd sst)))
        with (S (Z.to_nat (attempts (snd (pure_while fuel g n_points max_attempts
                                            (pure_body g sst)))
                           - (attempts (snd sst) + 1)))) by lia.
      simpl. unfold pure_body. destruct (draw g (fst sst)). reflexivity.
    + split; [exact C|]. split; [lia|]. split; [lia|]. now rewrite Z.sub_diag.
Qed.

(** The points the loop collects are the first accepted candidates. *)
Lemma pure_while_pts (g : geom) (n_points max_attempts : Z) (fuel : nat)
  (sst : rng_state * state) :
  Z.of_nat fuel = (max_attempts - attempts (snd sst))%Z ->
  pts (snd (pure_while fuel g n_points max_attempts sst))
  = pts (snd sst) ++ firstn (Z.to_nat n_points - length (pts (snd sst)))
                            (filter (contains g) (draws g (fst sst) fuel)).
Proof.
  revert sst. induction fuel as [|fuel IH]; intros sst Hfuel; simpl.
  - rewrite firstn_nil. now rewrite app_nil_r.
  - unfold loop_cond.
    destruct (Z.of_nat (length (pts (snd sst))) <? n_points)%Z eqn:L; simpl.
    + apply Z.ltb_lt in L.
      assert (A : (attempts (snd sst) <? max_attempts)%Z = true) by (apply Z.ltb_lt; lia).
      rewrite A. rewrite IH by (rewrite pure_body_attempts; lia).
      unfold pure_body. destruct (draw g (fst sst)) as [p r]. simpl.
      destruct (contains g p) eqn:Cp; [|reflexivity].
      rewrite length_app. simpl.
      replace (Z.to_nat n_points - length (pts (snd sst)))
        with (S (Z.to_nat n_points - (length (pts (snd sst)) + 1))) by lia.
      simpl. now rewrite <- app_assoc.
    + apply Z.ltb_ge in L.
      replace (Z.to_nat n_points - length (pts (snd sst))) with 0 by lia.
      simpl. now rewrite app_nil_r.
Qed.

(** ** The loop in a world *)

Lemma uniform_finite (rng : nat) (low high : coord) (w : world) :
  finite_range low high = true ->
  uniform rng low high w
  = (inr (fst (next_uniform (generator w rng) low high)),
     set_generator w rng (snd (next_uniform (generator w rng) low high))).
Proof.
  intros F. unfold uniform. rewrite F. now destruct (next_uniform _ low high).
Qed.

Lemma set_generator_same (w : world) (rng : nat) (s : rng_state) :
  generator (set_generator w rng s) rng = s.
Proof. simpl. now rewrite Nat.eqb_refl. Qed.

(** While no draw raises, an iteration is an iteration on the stream
    of the generator, which it leaves advanced. *)
Lemma loop_body_finite (g : geom) (rng : nat) (st : state) (w : world) :
  bounds_finite g = true ->
  exists w',
    loop_body g (bounds g) rng st w
    = (inr (snd (pure_body g (generator w rng, st))), w')
    /\ generator w' rng = fst (pure_body g (generator w rng, st))
    /\ allocated w' = allocated w
    /\ forall r, r <> rng -> generator w' r = generator w r.
Proof.
  unfold bounds_finite, loop_body, pure_body, draw. cbn [fst snd].
  destruct (bounds g) as [[[minx miny] maxx] maxy].
  intros F. apply andb_true_iff in F as [Fx Fy].
  unfold bind. rewrite (uniform_finite _ _ _ _ Fx).
  rewrite (uniform_finite _ _ _ _ Fy). rewrite set_generator_same.
  destruct (next_uniform (generator w rng) minx maxx) as [x s1]. cbn [fst snd].
  destruct (next_uniform s1 miny maxy) as [y s2]. cbn [fst snd].
  eexists. split; [reflexivity|]. split; [apply set_generator_same|].
  split; [reflexivity|].
  intros r Hr. simpl. apply Nat.eqb_neq in Hr. now rewrite Hr.
Qed.

Lemma while_pure (g : geom) (rng : nat) (n_points max_attempts : Z) (fuel : nat)
  (st : state) (w : world) :
  bounds_finite g = true ->
  exists w',
    while fuel g (bounds g) rng n_points max_attempts st w
    = (inr (snd (pure_while fuel g n_points max_attempts (generator w rng, st))), w')
    /\ generator w' rng
       = fst (pure_while fuel g n_points max_attempts (generator w rng, st))
    /\ allocated w' = allocated w
    /\ forall r, r <> rng -> generator w' r = generator w r.
Proof.
  intros F. revert st w. induction fuel as [|fuel IH]; intros st w.
  - exists w. simpl. repeat split; reflexivity.
  - cbn [while pure_while snd].
    destruct (loop_cond n_points max_attempts st).
    + destruct (loop_body_finite g rng st w F) as [w1 [E [G1 [A1 R1]]]].
      unfold bind. rewrite E.
      destruct (pure_body g (generator w rng, st)) as [s1 st1] eqn:P.
      cbn [fst snd] in *.
      destruct (IH st1 w1) as [w2 [E2 [G2 [A2 R2]]]].
      rewrite G1 in E2, G2.
      exists w2. split; [exact E2|]. split; [exact G2|].
      split; [congruence|].
      intros r Hr. rewrite (R2 r Hr). now apply R1.
    + exists w. repeat split; reflexivity.
Qed.

(** A range of the bounds that is not finite makes the first attempt
    raise. *)
Lemma while_overflow (g : geom) (rng : nat) (n_points max_attempts : Z) (fuel : nat)
  (st : state) (w : world) :
  bounds_finite g = false ->
  loop_cond n_points max_attempts st = true ->
  fst (while (S fuel) g (bounds g) rng n_points max_attempts st w) = inl OverflowError.
Proof.
  unfold bounds_finite. intros F C. cbn [while]. rewrite C.
  unfold bind, loop_body.
  destruct (bounds g) as [[[minx miny] maxx] maxy].
  unfold bind. unfold uniform at 1.
  destruct (finite_range minx maxx); [|reflexivity].
  simpl in F.
  destruct (next_uniform (generator w rng) minx maxx) as [x s1].
  unfold uniform. rewrite F. reflexivity.
Qed.

(** What the loop returns or raises depends on the world through the
    state of its own generator only. *)
Lemma loop_body_indep (g : geom) (box : coord * coord * coord * coord) (rng rng' : nat)
  (st : state) (w w' : world) :
  generator w rng = generator w' rng' ->
  fst (loop_body g box rng st w) = fst (loop_body g box rng' st w')
  /\ generator (snd (loop_body g box rng st w)) rng
     = generator (snd (loop_body g box rng' st w')) rng'.
Proof.
  intros H. unfold loop_body. destruct box as [[[minx miny] maxx] maxy].
  unfold bind, uniform. rewrite <- H.
  destruct (finite_range minx maxx); [|split; [reflexivity | exact H]].
  destruct (next_uniform (generator w rng) minx maxx) as [x s1].
  rewrite !set_generator_same.
  destruct (finite_range miny maxy);
    [|split; [reflexivity | cbn [snd]; now rewrite !set_generator_same]].
  destruct (next_uniform s1 miny maxy) as [y s2].
  split; [reflexivity|]. cbn [snd ret]. now rewrite !set_generator_same.
Qed.

Lemma while_indep (g : geom) (box : coord * coord * coord * coord) (rng rng' : nat)
  (n_points max_attempts : Z) (fuel : nat) (st : state) (w w' : world) :
  generator w rng = generator w' rng' ->
  fst (while fuel g box rng n_points max_attempts st w)
  = fst (while fuel g box rng' n_points max_attempts st w').
Proof.
  revert st w w'. induction fuel as [|fuel IH]; intros st w w' H; [reflexivity|].
  cbn [while]. destruct (loop_cond n_points max_attempts st); [|reflexivity].
  destruct (loop_body_indep g box rng rng' st w w' H) as [E G].
  unfold bind.
  destruct (loop_body g box rng st w) as [[e|st1] w1];
    destruct (loop_body g box rng' st w') as [[e'|st1'] w1']; cbn [fst snd] in *;
    try discriminate; [exact E|].
  injection E as <-. now apply IH.
Qed.

(** The sampler in a world, by what numpy does with the seed and the
    bounds. *)
Lemma generate_seed_refused (g : geom) (n_points seed max_attempts_factor : Z)
  (w : world) :
  seeded seed = None ->
  generate_random_points_in_geom g n_points seed max_attempts_factor w
  = (inl SeedValueError, w).
Proof.
  intros H. unfold generate_random_points_in_geom, bind, default_rng. now rewrite H.
Qed.

Lemma generate_overflow (g : geom) (n_points seed max_attempts_factor : Z)
  (s0 : rng_state) (w : world) :
  seeded seed = Some s0 ->
  bounds_finite g = false ->
  (0 < n_points)%Z -> (0 < max_attempts_factor)%Z ->
  fst (generate_random_points_in_geom g n_points seed max_attempts_factor w)
  = inl OverflowError.
Proof.
  intros Hs F Hn Hf. unfold generate_random_points_in_geom, default_rng.
  unfold bind at 1. rewrite Hs. unfold bind at 1.
  assert (Hmax : (0 < n_points * max_attempts_factor)%Z) by nia.
  destruct (Z.to_nat (n_points * max_attempts_factor)) as [|fuel] eqn:Efuel; [lia|].
  match goal with
  | |- fst (match ?c with _ => _ end) = _ =>
      assert (Hw : fst c = inl OverflowError)
  end.
  { apply while_overflow; [exact F|]. unfold loop_cond. simpl.
    apply andb_true_iff. split; apply Z.ltb_lt; lia. }
  match goal with
  | |- fst (match ?c with _ => _ end) = _ => destruct c as [[e|st] w']
  end; simpl in *; [now injection Hw as -> | discriminate].
Qed.

(** With a seed numpy accepts and finite bounds the sampler returns or
    raises what the loop on the stream of the new generator gives, and
    leaves that generator advanced. *)
Lemma generate_finite (g : geom) (n_points seed max_attempts_factor : Z)
  (s0 : rng_state) (w : world) :
  seeded seed = Some s0 ->
  bounds_finite g = true ->
  let max_attempts := (n_points * max_attempts_factor)%Z in
  let r := pure_while (Z.to_nat max_attempts) g n_points max_attempts
             (s0, {| pts := []; attempts := 0 |}) in
  exists w',
    generate_random_points_in_geom g n_points seed max_attempts_factor w
    = (if (Z.of_nat (length (pts (snd r))) <? n_points)%Z
       then inl (RuntimeError
                   ("Solo se generaron " ++ PyStr.str_nat (length (pts (snd r))) ++ "/"
                    ++ PyStr.str_int n_points ++ " puntos tras "
                    ++ PyStr.str_int (attempts (snd r)) ++ " intentos. "
                    ++ "Zona permitida muy pequeña o fragmentada (o max_attempts_factor bajo)."))
       else inr (pts (snd r)), w')
    /\ generator w' (allocated w) = fst r
    /\ allocated w' = S (allocated w)
    /\ forall rng, rng <> allocated w -> generator w' rng = generator w rng.
Proof.
  intros Hs F. cbv zeta.
  unfold generate_random_points_in_geom, default_rng.
  unfold bind at 1. rewrite Hs. unfold bind at 1.
  set (w1 := {| allocated := S (allocated w);
                generator := fun r => if r =? allocated w then s0 else generator w r |}).
  assert (G1 : generator w1 (allocated w) = s0) by (simpl; now rewrite Nat.eqb_refl).
  destruct (while_pure g (allocated w) n_points (n_points * max_attempts_factor)
              (Z.to_nat (n_points * max_attempts_factor))
              {| pts := []; attempts := 0 |} w1 F) as [w2 [E [G2 [A2 R2]]]].
  rewrite G1 in E, G2. rewrite E.
  exists w2.
  split.
  { destruct (Z.of_nat _ <? n_points)%Z; reflexivity. }
  split; [exact G2|]. split; [exact A2|].
  intros rng Hr. rewrite (R2 rng Hr). simpl. apply Nat.eqb_neq in Hr. now rewrite Hr.
Qed.

(** Every point the loop holds passed [contains]. *)
Lemma loop_body_contains (g : geom) (box : coord * coord * coord * coord) (rng : nat)
  (st st' : state) (w : world) :
  Forall (fun p => contains g p = true) (pts st) ->
  fst (loop_body g box rng st w) = inr st' ->
  Forall (fun p => contains g p = true) (pts st')
  /\ length (pts st') <= S (length (pts st))
  /\ length (pts st) <= length (pts st').
Proof.
  intros H. unfold loop_body. destruct box as [[[minx miny] maxx] maxy].
  unfold bind.
  destruct (uniform rng minx maxx w) as [[e|x] w1]; [discriminate|].
  destruct (uniform rng miny maxy w1) as [[e|y] w2]; [discriminate|].
  cbn [fst ret]. intros [= <-]. cbn [pts].
  destruct (contains g (x, y)) eqn:C.
  - split; [|rewrite length_app; simpl; lia].
    apply Forall_app. split; [exact H|]. now constructor.
  - split; [exact H | lia].
Qed.

Lemma while_contains (g : geom) (box : coord * coord * coord * coord) (rng : nat)
  (n_points max_attempts : Z) (fuel : nat) (st st' : state) (w : world) :
  Forall (fun p => contains g p = true) (pts st) ->
  fst (while fuel g box rng n_points max_attempts st w) = inr st' ->
  Forall (fun p => contains g p = true) (pts st')
  /\ length (pts st') <= Nat.max (length (pts st)) (Z.to_nat n_points).
Proof.
  revert st w. induction fuel as [|fuel IH]; intros st w H; cbn [while].
  - cbn [fst ret]. intros [= <-]. split; [exact H | lia].
  - destruct (loop_cond n_points max_attempts st) eqn:C.
    + unfold bind.
      destruct (loop_body g box rng st w) as [[e|st1] w1] eqn:B; [discriminate|].
      intros Hw.
      destruct (loop_body_contains g box rng st st1 w H) as [H1 [L1 L1']];
        [now rewrite B|].
      destruct (IH st1 w1 H1 Hw) as [H2 L2]. split; [exact H2|].
      unfold loop_cond in C. apply andb_true_iff in C as [C _].
      apply Z.ltb_lt in C. lia.
    + cbn [fst ret]. intros [= <-]. split; [exact H | lia].
Qed.

(** A sample that is returned passed [contains], point by point, and
    has as many points as were asked for (none, for a negative
    count). *)
Lemma generate_returns (g : geom) (n_points seed max_attempts_factor : Z) (w : world)
  (sample : list xy) :
  fst (generate_random_points_in_geom g n_points seed max_attempts_factor w) = inr sample ->
  Forall (fun p => contains g p = true) sample
  /\ Z.of_nat (length sample) = Z.max 0 n_points.
Proof.
  unfold generate_random_points_in_geom. unfold bind at 1.
  destruct (default_rng seed w) as [[e|rng] w1]; [discriminate|].
  unfold bind.
  destruct (while _ g (bounds g) rng n_points _ _ w1) as [[e|st] w2] eqn:W;
    [discriminate|].
  destruct (while_contains g (bounds g) rng n_points (n_points * max_attempts_factor)
              (Z.to_nat (n_points * max_attempts_factor))
              {| pts := []; attempts := 0 |} st w1 (Forall_nil _)) as [H L];
    [now rewrite W|].
  destruct (Z.of_nat (length (pts st)) <? n_points)%Z eqn:C; [discriminate|].
  cbn [fst ret]. intros [= <-]. split; [exact H|].
  apply Z.ltb_ge in C. simpl in L. lia.
Qed.

(** C4.  Determinism: what an invocation of the sampler returns or
    raises is the same in every world, whatever generators exist and
    whatever their states; so two invocations with the same region,
    target count, seed and attempt factor, the second in the world the
    first has left, end the same way, with the same points in the
    same order (or the same error). *)
Theorem sampler_deterministic (g : geom) (n_points seed max_attempts_factor : Z)
  (w w' : world) :
  fst (generate_random_points_in_geom g n_points seed max_attempts_factor w)
  = fst (generate_random_points_in_geom g n_points seed max_attempts_factor w')
  /\ (let (first, w1) :=
        generate_random_points_in_geom g n_points seed max_attempts_factor w in
      let (second, _) :=
        generate_random_points_in_geom g n_points seed max_attempts_factor w1 in
      first = second).
Proof.
  assert (H : forall a b,
            fst (generate_random_points_in_geom g n_points seed max_attempts_factor a)
            = fst (generate_random_points_in_geom g n_points seed max_attempts_factor b)).
  { intros a b. unfold generate_random_points_in_geom, default_rng.
    unfold bind at 1 3.
    destruct (seeded seed) as [s0|]; [|reflexivity].
    set (a1 := {| allocated := S (allocated a);
                  generator := fun r => if r =? allocated a then s0 else generator a r |}).
    set (b1 := {| allocated := S (allocated b);
                  generator := fun r => if r =? allocated b then s0 else generator b r |}).
    assert (E : generator a1 (allocated a) = generator b1 (allocated b))
      by (simpl; now rewrite !Nat.eqb_refl).
    pose proof (while_indep g (bounds g) (allocated a) (allocated b) n_points
                  (n_points * max_attempts_factor)
                  (Z.to_nat (n_points * max_attempts_factor))
                  {| pts := []; attempts := 0 |} a1 b1 E) as Hw.
    unfold bind.
    destruct (while _ g (bounds g) (allocated a) _ _ _ a1) as [[e|st] a2];
      destruct (while _ g (bounds g) (allocated b) _ _ _ b1) as [[e'|st'] b2];
      cbn [fst] in Hw; try discriminate.
    - now injection Hw as <-.
    - injection Hw as <-.
      destruct (Z.of_nat (length (pts st)) <? n_points)%Z; reflexivity. }
  split; [apply H|].
  specialize (H w (snd (generate_random_points_in_geom g n_points seed
                          max_attempts_factor w))).
  destruct (generate_random_points_in_geom g n_points seed max_attempts_factor w)
    as [first w1]. cbn [fst snd] in H.
  destruct (generate_random_points_in_geom g n_points seed max_attempts_factor w1)
    as [second w2]. exact H.
Qed.

(** C5, as the code has it.  For a target count [n] and an attempt
    factor [f] that are not negative, a seed that numpy accepts and a
    region whose bounds are finite, the loop ends by its condition
    after at most [n * f] attempts, each attempt one candidate point
    drawn from the generator of the invocation.  When at least [n] of
    the first [n * f] candidates are accepted the sampler returns the
    first [n] accepted ones, a list of exactly [n] points; otherwise it
    raises the [RuntimeError] whose message is "Solo se generaron
    <obtained>/<n> puntos tras <n * f> intentos. ..." with the number
    of points obtained, less than [n]. *)
Theorem sampler_contract (g : geom) (n_points seed max_attempts_factor : Z)
  (s0 : rng_state) (w : world) :
  (0 <= n_points)%Z -> (0 <= max_attempts_factor)%Z ->
  seeded seed = Some s0 ->
  bounds_finite g = true ->
  let max_attempts := (n_points * max_attempts_factor)%Z in
  let accepted := filter (contains g) (draws g s0 (Z.to_nat max_attempts)) in
  let result := generate_random_points_in_geom g n_points seed max_attempts_factor w in
  (exists drawn,
      (0 <= drawn <= max_attempts)%Z
      /\ generator (snd result) (allocated w) = rng_after g s0 (Z.to_nat drawn)
      /\ (forall rng, rng <> allocated w ->
            generator (snd result) rng = generator w rng)
      /\ ((drawn < max_attempts)%Z -> (n_points <= Z.of_nat (length accepted))%Z))
  /\ ((n_points <= Z.of_nat (length accepted))%Z ->
      fst result = inr (firstn (Z.to_nat n_points) accepted)
      /\ Z.of_nat (length (firstn (Z.to_nat n_points) accepted)) = n_points)
  /\ ((Z.of_nat (length accepted) < n_points)%Z ->
      fst result
      = inl (RuntimeError
               ("Solo se generaron " ++ PyStr.str_nat (length accepted) ++ "/"
                ++ PyStr.str_int n_points ++ " puntos tras "
                ++ PyStr.str_int max_attempts ++ " intentos. "
                ++ "Zona permitida muy pequeña o fragmentada (o max_attempts_factor bajo)."))).
Proof.
  intros Hn Hf Hs F. cbv zeta.
  assert (Hmax : (0 <= n_points * max_attempts_factor)%Z) by now apply Z.mul_nonneg_nonneg.
  set (max_attempts := (n_points * max_attempts_factor)%Z) in *.
  destruct (generate_finite g n_points seed max_attempts_factor s0 w Hs F)
    as [w' [E [G [A R]]]].
  fold max_attempts in E, G.
  set (r := pure_while (Z.to_nat max_attempts) g n_points max_attempts
              (s0, {| pts := []; attempts := 0 |})) in *.
  assert (Hfuel : (max_attempts - attempts (snd (s0, {| pts := []; attempts := 0 |}))
                   <= Z.of_nat (Z.to_nat max_attempts))%Z) by (simpl; lia).
  destruct (pure_while_exit g n_points max_attempts _ _ Hfuel) as [Hc [Hlo [Hhi Hr]]].
  fold r in Hc, Hlo, Hhi, Hr. cbn [fst snd attempts] in Hlo, Hhi, Hr.
  rewrite Z.sub_0_r in Hr.
  assert (Hpts : pts (snd r)
                 = firstn (Z.to_nat n_points)
                     (filter (contains g) (draws g s0 (Z.to_nat max_attempts)))).
  { unfold r. rewrite pure_while_pts by (simpl; lia). simpl.
    now rewrite Nat.sub_0_r. }
  set (accepted := filter (contains g) (draws g s0 (Z.to_nat max_attempts))) in *.
  rewrite E. cbn [fst snd].
  split.
  { exists (attempts (snd r)). split; [lia|]. split; [now rewrite G|].
    split; [exact R|].
    intros Hd. unfold loop_cond in Hc. apply andb_false_iff in Hc as [Hc|Hc];
      apply Z.ltb_ge in Hc; [|lia].
    rewrite Hpts, length_firstn in Hc. lia. }
  rewrite Hpts. split.
  - intros Hacc.
    assert (L : length (firstn (Z.to_nat n_points) accepted) = Z.to_nat n_points)
      by (rewrite length_firstn; lia).
    rewrite L.
    assert (E' : (Z.of_nat (Z.to_nat n_points) <? n_points)%Z = false)
      by (apply Z.ltb_ge; lia).
    rewrite E'. split; [reflexivity | lia].
  - intros Hshort.
    assert (Hall : firstn (Z.to_nat n_points) accepted = accepted)
      by (apply firstn_all2; lia).
    rewrite Hall.
    assert (E' : (Z.of_nat (length accepted) <? n_points)%Z = true)
      by (apply Z.ltb_lt; lia).
    rewrite E'.
    assert (Hatt : attempts (snd r) = max_attempts).
    { unfold loop_cond in Hc. apply andb_false_iff in Hc as [Hc|Hc];
        apply Z.ltb_ge in Hc; [|lia].
      rewrite Hpts, Hall in Hc. lia. }
    rewrite Hatt. reflexivity.
Qed.

(** ** The allowed zone *)

(** The shapely operations [build_allowed_zone] uses, with the part of
    their contract that the claim on the sampled points rests on.
    [covers g p] tells that [p] is a point of [g], boundary included;
    [within r p q] that the distance from [p] to [q] is at most [r]. *)
Variable covers : geom -> xy -> bool.
Variable unary_union : list geom -> geom.
Variable buffer : xy -> coord -> geom.
Variable difference : geom -> geom -> geom.
Variable is_empty : geom -> bool.
Variable within : coord -> xy -> xy -> Prop.

(** The buffer of a point is a polygon with its corners on the circle
    of the given radius, 64 of them for the resolution that
    [build_allowed_zone] leaves at its default: it lies inside the
    disc of that radius and does not fill it.  [inner r] is a radius
    whose disc the polygon does cover, at most that of the circle
    inscribed in the polygon ([r * cos(pi / 64)] for 64 corners). *)
Variable inner : coord -> coord.

(** A point in the interior of a difference is in the interior of the
    first geometry and not a point of the second. *)
Hypothesis contains_difference :
  forall a b p, contains (difference a b) p = true ->
                contains a p = true /\ covers b p = false.
(** The points of the members are points of the union. *)
Hypothesis covers_unary_union :
  forall gs g p, In g gs -> covers g p = true -> covers (unary_union gs) p = true.
(** The buffer polygon covers the disc of the inner radius. *)
Hypothesis covers_buffer_inner :
  forall q r p, within (inner r) p q -> covers (buffer q r) p = true.

Definition build_allowed_zone (aoi : list geom) (exclusion : list xy) (buffer_m : coord)
  : exn + geom :=
  let aoi_geom := unary_union aoi in
  if is_empty aoi_geom then inl (ValueError "AOI unificado quedó vacío.")
  else
    let buffer_union := unary_union (map (fun q => buffer q buffer_m) exclusion) in
    let allowed := difference aoi_geom buffer_union in
    if is_empty allowed
    then inl (ValueError
                "Zona permitida vacía (AOI - buffer). Reduce buffer o revisa AOI/pts.")
    else inr allowed.

(** C6, as the code has it.  Every point the sampler returns passed
    [contains] of the region it sampled, which excludes the boundary;
    when the region is the allowed zone, the point is inside the union
    of the AOI, outside the buffer polygon of every exclusion point,
    and so not within the inner radius of the polygon of any
    exclusion point. *)
Theorem sampled_points_in_allowed_zone (aoi : list geom) (exclusion : list xy)
  (buffer_m : coord) (allowed : geom) (n_points seed max_attempts_factor : Z)
  (w : world) (sample : list xy) :
  build_allowed_zone aoi exclusion buffer_m = inr allowed ->
  fst (generate_random_points_in_geom allowed n_points seed max_attempts_factor w)
  = inr sample ->
  forall p, In p sample ->
    contains allowed p = true
    /\ contains (unary_union aoi) p = true
    /\ forall q, In q exclusion ->
         covers (buffer q buffer_m) p = false
         /\ ~ within (inner buffer_m) p q.
Proof.
  intros Hzone Hgen p Hp.
  assert (Hc : contains allowed p = true).
  { destruct (generate_returns _ _ _ _ _ _ Hgen) as [Hall _].
    rewrite Forall_forall in Hall. now apply Hall. }
  split; [exact Hc|].
  unfold build_allowed_zone in Hzone.
  destruct (is_empty (unary_union aoi)); [discriminate|].
  destruct (is_empty (difference _ _)); [discriminate|].
  injection Hzone as <-.
  apply contains_difference in Hc as [Ha Hb].
  split; [exact Ha|].
  intros q Hq.
  assert (Hq' : covers (buffer q buffer_m) p = false).
  { destruct (covers (buffer q buffer_m) p) eqn:C; [|reflexivity].
    assert (T : covers (unary_union (map (fun q0 => buffer q0 buffer_m) exclusion)) p
                = true).
    { apply (covers_unary_union _ (buffer q buffer_m)); [|exact C].
      apply in_map_iff. now exists q. }
    congruence. }
  split; [exact Hq'|].
  intros Hw. apply covers_buffer_inner in Hw. congruence.
Qed.

End Sampling.
(** ** A model of the variables
    Regions of the integer lattice, given by the list of their points
    (every point is interior), with a linear congruential generator:
    enough to run the sampler and to check that the contracts above can
    be met together.  Every range of integers is finite, and the
    buffer of a point is the lattice disc, whose inner radius is its
    radius. *)

Definition lattice_region : Type := list (Z * Z).

Definition xy_eqb (a b : Z * Z) : bool :=
  ((fst a =? fst b) && (snd a =? snd b))%Z.

Definition lattice_contains (g : lattice_region) (p : Z * Z) : bool :=
  existsb (xy_eqb p) g.

Definition lattice_bounds (g : lattice_region) : Z * Z * Z * Z :=
  match g with
  | [] => (0, 0, 0, 0)%Z
  | (x, y) :: t =>
      fold_left (fun b p => let '(minx, miny, maxx, maxy) := b in
                            (Z.min minx (fst p), Z.min miny (snd p),
                             Z.max maxx (fst p), Z.max maxy (snd p)))
                t (x, y, x, y)
  end.

(** Like numpy, the generator refuses a negative seed. *)
Definition lcg_seeded (seed : Z) : option Z :=
  if (seed <? 0)%Z then None else Some (seed mod 2147483648)%Z.

Definition lcg_uniform (s low high : Z) : Z * Z :=
  let s' := ((1103515245 * s + 12345) mod 2147483648)%Z in
  ((low + (s' / 65536) mod (high - low + 1))%Z, s').

Definition z_range (low : Z) (n : nat) : list Z :=
  map (fun i => (low + Z.of_nat i)%Z) (seq 0 n).

Definition sq_dist (p q : Z * Z) : Z :=
  ((fst p - fst q) * (fst p - fst q) + (snd p - snd q) * (snd p - snd q))%Z.

Definition lattice_buffer (q : Z * Z) (r : Z) : lattice_region :=
  filter (fun p => (sq_dist p q <=? r * r)%Z)
         (list_prod (z_range (fst q - r) (Z.to_nat (2 * r + 1)))
                    (z_range (snd q - r) (Z.to_nat (2 * r + 1)))).

Definition lattice_difference (a b : lattice_region) : lattice_region :=
  filter (fun p => negb (lattice_contains b p)) a.

Definition lattice_is_empty (g : lattice_region) : bool :=
  match g with [] => true | _ :: _ => false end.

Definition lattice_within (r : Z) (p q : Z * Z) : Prop :=
  (0 <= r)%Z /\ (sq_dist p q <= r * r)%Z.

Lemma lattice_contains_In (g : lattice_region) (p : Z * Z) :
  lattice_contains g p = true <-> In p g.
Proof.
  unfold lattice_contains. rewrite existsb_exists. split.
  - intros [x [Hx E]]. unfold xy_eqb in E.
    apply andb_true_iff in E as [E1 E2]. apply Z.eqb_eq in E1, E2.
    destruct p, x. simpl in *. now subst.
  - intros H. exists p. split; [exact H|]. unfold xy_eqb. now rewrite !Z.eqb_refl.
Qed.

Lemma lattice_contains_difference (a b : lattice_region) (p : Z * Z) :
  lattice_contains (lattice_difference a b) p = true ->
  lattice_contains a p = true /\ lattice_contains b p = false.
Proof.
  rewrite !lattice_contains_In. unfold lattice_difference. rewrite filter_In.
  intros [Ha Hb]. split; [exact Ha|]. now apply negb_true_iff in Hb.
Qed.

Lemma lattice_covers_union (gs : list lattice_region) (g : lattice_region) (p : Z * Z) :
  In g gs -> lattice_contains g p = true -> lattice_contains (concat gs) p = true.
Proof.
  rewrite !lattice_contains_In. intros Hg Hp. apply in_concat. now exists g.
Qed.

Lemma z_range_In (low : Z) (n : nat) (x : Z) :
  In x (z_range low n) <-> (low <= x < low + Z.of_nat n)%Z.
Proof.
  unfold z_range. rewrite in_map_iff. split.
  - intros [i [<- Hi]]. apply in_seq in Hi. lia.
  - intros H. exists (Z.to_nat (x - low)). split; [lia|]. apply in_seq. lia.
Qed.

Lemma sq_bound (d e r : Z) :
  (0 <= r)%Z -> (d * d + e * e <= r * r)%Z -> (- r <= d <= r)%Z.
Proof.
  intros Hr H.
  pose proof (Z.square_nonneg e) as He.
  split.
  - destruct (Z_lt_le_dec d (- r)) as [L|L]; [|exact L].
    exfalso. assert (r * r < d * d)%Z by nia. lia.
  - destruct (Z_lt_le_dec r d) as [L|L]; [|exact L].
    exfalso. assert (r * r < d * d)%Z by nia. lia.
Qed.

Lemma lattice_covers_buffer (q : Z * Z) (r : Z) (p : Z * Z) :
  lattice_within r p q -> lattice_contains (lattice_buffer q r) p = true.
Proof.
  intros [Hr Hd]. apply lattice_contains_In. unfold lattice_buffer.
  apply filter_In. split; [|now apply Z.leb_le].
  destruct p as [x y], q as [a b]. unfold sq_dist in Hd. cbn [fst snd] in *.
  assert (Hx : (- r <= x - a <= r)%Z) by (apply (sq_bound _ (y - b)); lia).
  assert (Hy : (- r <= y - b <= r)%Z) by (apply (sq_bound _ (x - a)); lia).
  apply in_prod; apply z_range_In; lia.
Qed.

(** A world without generators. *)
Definition lattice_world : world Z := {| allocated := 0; generator := fun _ => 0%Z |}.

Definition lattice_generate (g : lattice_region) (n_points seed max_attempts_factor : Z)
  : exn + list (Z * Z) :=
  fst (generate_random_points_in_geom Z Z lcg_seeded lcg_uniform (fun _ _ => true)
         lattice_region lattice_bounds lattice_contains
         g n_points seed max_attempts_factor lattice_world).

Definition lattice_zone : list lattice_region -> list (Z * Z) -> Z -> exn + lattice_region :=
  build_allowed_zone Z lattice_region
    (@concat (Z * Z)) lattice_buffer lattice_difference lattice_is_empty.

(** A square of ten by ten points, and two exclusion points with a
    buffer of 2. *)
Definition square_aoi : list lattice_region :=
  [list_prod (z_range 0 10) (z_range 0 10)].

Definition hot_spots : list (Z * Z) := [(3, 3); (7, 6)]%Z.

Definition allowed_square : lattice_region :=
  lattice_difference (concat square_aoi)
    (concat (map (fun q => lattice_buffer q 2) hot_spots)).

Example lattice_zone_square :
  lattice_zone square_aoi hot_spots 2 = inr allowed_square.
Proof. vm_compute. reflexivity. Qed.

Definition sample_10_42_500 : list (Z * Z) :=
  Eval vm_compute in
    match lattice_generate allowed_square 10 42 500 with
    | inr sample => sample
    | inl _ => []
    end.

Example lattice_generate_square :
  lattice_generate allowed_square 10 42 500 = inr sample_10_42_500
  /\ length sample_10_42_500 = 10.
Proof. split; vm_compute; reflexivity. Qed.

(** A region too small for the budget: two points in a bounding box
    of thirty-six, three points wanted in three attempts. *)
Example lattice_generate_short :
  lattice_generate [(0, 0)%Z; (5, 5)%Z] 3 42 1
  = inl (RuntimeError
           ("Solo se generaron 0/3 puntos tras 3 intentos. "
            ++ "Zona permitida muy pequeña o fragmentada (o max_attempts_factor bajo).")).
Proof. vm_compute. reflexivity. Qed.

(** The second of two invocations runs in the world of the first,
    where the generator of the first is left advanced: it returns the
    same sample, from a generator of its own. *)
Example lattice_generate_twice :
  let run := generate_random_points_in_geom Z Z lcg_seeded lcg_uniform (fun _ _ => true)
               lattice_region lattice_bounds lattice_contains allowed_square 10 42 500 in
  let (first, w1) := run lattice_world in
  let (second, w2) := run w1 in
  first = inr sample_10_42_500 /\ second = inr sample_10_42_500
  /\ allocated Z w1 = 1 /\ allocated Z w2 = 2
  /\ generator Z w1 0 <> 42%Z /\ generator Z w2 0 = generator Z w1 0.
Proof. vm_compute. repeat split; discriminate. Qed.

Lemma sampler_contract_witness :
  lattice_generate allowed_square 10 42 500
  = inr (firstn 10 (filter (lattice_contains allowed_square)
                      (draws Z Z lcg_uniform lattice_region lattice_bounds
                         allowed_square 42%Z 5000)))
  /\ lattice_generate [(0, 0)%Z; (5, 5)%Z] 3 42 1
     = inl (RuntimeError
              ("Solo se generaron 0/3 puntos tras 3 intentos. "
               ++ "Zona permitida muy pequeña o fragmentada (o max_attempts_factor bajo).")).
Proof.
  split.
  - destruct (sampler_contract Z Z lcg_seeded lcg_uniform (fun _ _ => true)
                lattice_region lattice_bounds lattice_contains
                allowed_square 10 42 500 42%Z lattice_world
                ltac:(lia) ltac:(lia) eq_refl) as [_ [H _]].
    + vm_compute. reflexivity.
    + apply H. vm_compute. discriminate.
  - destruct (sampler_contract Z Z lcg_seeded lcg_uniform (fun _ _ => true)
                lattice_region lattice_bounds lattice_contains
                [(0, 0)%Z; (5, 5)%Z] 3 42 1 42%Z lattice_world
                ltac:(lia) ltac:(lia) eq_refl) as [_ [_ H]].
    + vm_compute. reflexivity.
    + apply H. vm_compute. reflexivity.
Defined.

Lemma sampled_points_in_allowed_zone_witness :
  forallb (fun p => lattice_contains allowed_square p) sample_10_42_500 = true
  /\ forall p, In p sample_10_42_500 ->
       forall q, In q hot_spots ->
         lattice_contains (lattice_buffer q 2) p = false /\ ~ lattice_within 2 p q.
Proof.
  split; [vm_compute; reflexivity|].
  intros p Hp.
  apply (sampled_points_in_allowed_zone Z Z lcg_seeded lcg_uniform (fun _ _ => true)
           lattice_region lattice_bounds lattice_contains
           lattice_contains (@concat (Z * Z)) lattice_buffer lattice_difference
           lattice_is_empty lattice_within (fun r => r)
           lattice_contains_difference lattice_covers_union lattice_covers_buffer
           square_aoi hot_spots 2%Z allowed_square 10 42 500 lattice_world
           sample_10_42_500
           lattice_zone_square (proj1 lattice_generate_square) p Hp).
Defined.

(** ** Shapes of the plane
    Boxes, the buffers of points as shapely builds them, unions and
    differences, with coordinates in whole millimetres; [None] is the
    not-a-number, the coordinate of the bounds of an empty shape. *)

Definition mm : Type := option Z.

Inductive shape : Type :=
| Empty
| Box (minx miny maxx maxy : Z)
| Buffer64 (cx cy r : Z)
| Union (a b : shape)
| Difference (a b : shape).

(** The buffer of a point is the polygon of 64 sides with its corners
    on the circle, the first of them on the horizontal through the
    centre.  By its symmetry a point is in it when, with the absolute
    values of its offsets from the centre, it is on the inner side of
    the 16 sides of the first quadrant; these are the outward normals
    of those sides, at the angles [(2 k + 1) pi / 64], and the distance
    of the sides from the centre for radius 1, [cos (pi / 64)], both in
    units of [10^-9]. *)
Definition normals : list (Z * Z) :=
  [(998795456, 49067674); (989176510, 146730474); (970031253, 242980180);
   (941544065, 336889853); (903989293, 427555093); (857728610, 514102744);
   (803207531, 595699304); (740951125, 671558955); (671558955, 740951125);
   (595699304, 803207531); (514102744, 857728610); (427555093, 903989293);
   (336889853, 941544065); (242980180, 970031253); (146730474, 989176510);
   (49067674, 998795456)]%Z.

Definition apothem : Z := 998795456.

Definition polygon_covers (r dx dy : Z) : bool :=
  (0 <? r)%Z
  && forallb (fun n => (fst n * Z.abs dx + snd n * Z.abs dy <=? apothem * r)%Z) normals.

Definition polygon_contains (r dx dy : Z) : bool :=
  (0 <? r)%Z
  && forallb (fun n => (fst n * Z.abs dx + snd n * Z.abs dy <? apothem * r)%Z) normals.

(** The points of a shape, boundary included, and those of its
    interior; the interior of a union is taken to be the union of the
    interiors. *)
Fixpoint shape_covers (s : shape) (x y : Z) : bool :=
  match s with
  | Empty => false
  | Box minx miny maxx maxy =>
      ((minx <=? x) && (x <=? maxx) && (miny <=? y) && (y <=? maxy))%Z
  | Buffer64 cx cy r => polygon_covers r (x - cx) (y - cy)
  | Union a b => shape_covers a x y || shape_covers b x y
  | Difference a b => shape_covers a x y && negb (shape_contains b x y)
  end
with shape_contains (s : shape) (x y : Z) : bool :=
  match s with
  | Empty => false
  | Box minx miny maxx maxy =>
      ((minx <? x) && (x <? maxx) && (miny <? y) && (y <? maxy))%Z
  | Buffer64 cx cy r => polygon_contains r (x - cx) (y - cy)
  | Union a b => shape_contains a x y || shape_contains b x y
  | Difference a b => shape_contains a x y && negb (shape_covers b x y)
  end.

Definition plane_contains (s : shape) (p : mm * mm) : bool :=
  match p with
  | (Some x, Some y) => shape_contains s x y
  | _ => false
  end.

(** The bounds of a difference are taken to be those of its first
    member, which they are when the second lies inside the first
    without reaching its bounds. *)
Fixpoint shape_bounds (s : shape) : option (Z * Z * Z * Z) :=
  match s with
  | Empty => None
  | Box minx miny maxx maxy => Some (minx, miny, maxx, maxy)
  | Buffer64 cx cy r =>
      if (0 <? r)%Z then Some (cx - r, cy - r, cx + r, cy + r)%Z else None
  | Union a b =>
      match shape_bounds a, shape_bounds b with
      | Some (ax, ay, aX, aY), Some (bx, by_, bX, bY) =>
          Some (Z.min ax bx, Z.min ay by_, Z.max aX bX, Z.max aY bY)
      | Some box, None => Some box
      | None, other => other
      end
  | Difference a b => shape_bounds a
  end.

Definition plane_bounds (s : shape) : mm * mm * mm * mm :=
  match shape_bounds s with
  | Some (minx, miny, maxx, maxy) => (Some minx, Some miny, Some maxx, Some maxy)
  | None => (None, None, None, None)
  end.

(** A shape without bounds is empty. *)
Definition plane_is_empty (s : shape) : bool :=
  match shape_bounds s with Some _ => false | None => true end.

Definition plane_unary_union (l : list shape) : shape := fold_right Union Empty l.

Definition plane_buffer (q : mm * mm) (r : mm) : shape :=
  match q, r with
  | (Some x, Some y), Some r => Buffer64 x y r
  | _, _ => Empty
  end.

(** The generator: a seed that is not negative and the number of
    doubles drawn.  [uniform(low, high)] is [low + (high - low) * u]
    for the next double [u] of the stream; the first two doubles for
    seed 42 are those of numpy, 0.77395605 and 0.43887844 to eight
    places; the runs below draw no other. *)
Definition plane_seeded (seed : Z) : option (Z * nat) :=
  if (seed <? 0)%Z then None else Some (seed, 0).

Definition plane_double (s : Z * nat) : Z :=
  if (fst s =? 42)%Z
  then nth (snd s) [77395605; 43887844]%Z 50000000%Z
  else 50000000%Z.

Definition plane_next_uniform (s : Z * nat) (low high : mm) : mm * (Z * nat) :=
  (match low, high with
   | Some l, Some h => Some (l + (h - l) * plane_double s / 100000000)%Z
   | _, _ => None
   end,
   (fst s, S (snd s))).

Definition plane_finite_range (low high : mm) : bool :=
  match low, high with
  | Some _, Some _ => true
  | _, _ => false
  end.

Definition plane_world : world (Z * nat) :=
  {| allocated := 0; generator := fun _ => (0%Z, 0) |}.

Definition plane_generate (g : shape) (n_points seed max_attempts_factor : Z)
  : exn + list (mm * mm) :=
  fst (generate_random_points_in_geom mm (Z * nat) plane_seeded plane_next_uniform
         plane_finite_range shape plane_bounds plane_contains
         g n_points seed max_attempts_factor plane_world).

Definition plane_zone : list shape -> list (mm * mm) -> mm -> exn + shape :=
  build_allowed_zone mm shape plane_unary_union plane_buffer Difference plane_is_empty.

(** A square AOI of ten kilometres, and one exclusion point inside
    it. *)
Definition aoi_10km : shape := Box 0 0 10000000 10000000.

Definition hot_spot : mm * mm := (Some 6741560%Z, Some 4339754%Z).

Definition allowed_10km : shape :=
  Difference (Union aoi_10km Empty) (Union (Buffer64 6741560 4339754 1000000) Empty).

(** C5 as stated fails where numpy raises before the loop can count:
    on the empty region, whose bounds are not numbers, the first draw
    raises [OverflowError], and a negative seed makes [default_rng]
    raise [ValueError]; in both cases no point is returned and the
    error is not the [RuntimeError] of the sampler. *)
Lemma sampler_raises_library_errors :
  plane_generate Empty 1 42 500 = inl OverflowError
  /\ plane_generate allowed_10km 1 (-1) 500 = inl SeedValueError
  /\ (forall sample, plane_generate Empty 1 42 500 <> inr sample)
  /\ (forall msg, plane_generate Empty 1 42 500 <> inl (RuntimeError msg))
  /\ (forall sample, plane_generate allowed_10km 1 (-1) 500 <> inr sample)
  /\ (forall msg, plane_generate allowed_10km 1 (-1) 500 <> inl (RuntimeError msg)).
Proof.
  assert (E1 : plane_generate Empty 1 42 500 = inl OverflowError)
    by (vm_compute; reflexivity).
  assert (E2 : plane_generate allowed_10km 1 (-1) 500 = inl SeedValueError)
    by (vm_compute; reflexivity).
  rewrite E1, E2. repeat split; intros; discriminate.
Qed.

(** C6 as stated fails between the buffer polygon and the circle: with
    a buffer of 1000 m around the exclusion point (6741.560,
    4339.754), the first point drawn with seed 42 in the square of ten
    kilometres, (7739.560, 4388.784), is outside the polygon, so in the
    allowed zone and returned, and 999.2 m from the exclusion
    point. *)
Lemma sampled_point_within_buffer_radius :
  plane_zone [aoi_10km] [hot_spot] (Some 1000000%Z) = inr allowed_10km
  /\ plane_generate allowed_10km 1 42 500 = inr [(Some 7739560%Z, Some 4388784%Z)]
  /\ shape_covers (Buffer64 6741560 4339754 1000000) 7739560 4388784 = false
  /\ ((7739560 - 6741560) * (7739560 - 6741560)
      + (4388784 - 4339754) * (4388784 - 4339754) < 1000000 * 1000000)%Z.
Proof.
  split; [vm_compute; reflexivity|].
  split; [vm_compute; reflexivity|].
  split; [vm_compute; reflexivity | lia].
Qed.

End Sampler.

(* ------------------------------------------------------------------ *)
(** * Column names of the frames of a folder
    [shp_merge_folder.normalize_columns]: the labels in lower case,
    stripped, with [_] for spaces, and a number after a name that
    was proposed before. *)

Module Columns.

Import PyStr Normalizer.
Local Open Scope N_scope.

Definition text_eqb (a b : text) : bool :=
  if list_eq_dec N.eq_dec a b then true else false.

(** A [dict] keyed by [str]. *)
Definition dict (V : Type) : Type := text -> option V.

Definition empty {V : Type} : dict V := fun _ => None.

(** [d[k] = v] *)
Definition setitem {V : Type} (d : dict V) (k : text) (v : V) : dict V :=
  fun k' => if text_eqb k' k then Some v else d k'.

(** [f"{name}_{k}"] *)
Definition suffixed (name : text) (k : nat) : text :=
  name ++ 95 :: ascii_text (str_nat k).

(** The loop over [proposed], [counts] being the dictionary at the
    start of the iteration. *)
Fixpoint final_names (counts : dict nat) (proposed : list text) : list text :=
  match proposed with
  | [] => []
  | name :: rest =>
      match counts name with
      | None => name :: final_names (setitem counts name 1%nat) rest
      | Some c => suffixed name (S c) :: final_names (setitem counts name (S c)) rest
      end
  end.

(** [{old: new for old, new in zip(columns, final_names)}]: a later
    pair with the same key replaces the earlier one. *)
Definition mapping (columns final : list text) : dict text :=
  fold_left (fun m kv => setitem m (fst kv) (snd kv)) (combine columns final) empty.

(** [rename(columns=mapping)] on the labels: a label that is a key of
    the mapping is replaced by its value. *)
Definition rename (columns : list text) (m : dict text) : list text :=
  map (fun c => match m c with Some new => new | None => c end) columns.

Section Names.

(** [str.lower] (a function of the whole string: the lower case of a
    capital sigma depends on its position) and the white space set of
    [str.strip]. *)
Variable str_lower : text -> text.
Variable isspace : codepoint -> bool.

(** [s.replace(" ", "_")] *)
Definition replace_space (s : text) : text :=
  map (fun c => if c =? 32 then 95 else c) s.

(** [c.lower().strip().replace(" ", "_")] *)
Definition propose (c : text) : text :=
  replace_space (strip isspace (str_lower c)).

(** [shp_merge_folder.normalize_columns], on the column labels of the
    frame. *)
Definition normalize_columns (columns : list text) : list text :=
  let proposed := map propose columns in
  let final := final_names empty proposed in
  rename columns (mapping columns final).

End Names.

(** Number of occurrences of a name. *)
Definition occ (name : text) (l : list text) : nat :=
  List.length (filter (text_eqb name) l).

(** Position of the last occurrence of a label. *)
Fixpoint last_index (c : text) (columns : list text) : option nat :=
  match columns with
  | [] => None
  | x :: rest =>
      match last_index c rest with
      | Some j => Some (S j)
      | None => if text_eqb c x then Some 0%nat else None
      end
  end.

(** The name the resolver gives to a proposed name that has [k] equal
    names before it. *)
Definition resolved (name : text) (k : nat) : text :=
  if (k =? 0)%nat then name else suffixed name (S k).

Lemma text_eqb_eq (a b : text) : text_eqb a b = true <-> a = b.
Proof.
  unfold text_eqb. destruct (list_eq_dec N.eq_dec a b); split; congruence.
Qed.

Lemma text_eqb_refl (a : text) : text_eqb a a = true.
Proof. now apply text_eqb_eq. Qed.

Lemma text_eqb_neq (a b : text) : text_eqb a b = false <-> a <> b.
Proof.
  unfold text_eqb. destruct (list_eq_dec N.eq_dec a b); split; congruence.
Qed.

Lemma final_names_length (counts : dict nat) (proposed : list text) :
  List.length (final_names counts proposed) = List.length proposed.
Proof.
  revert counts. induction proposed as [|name rest IH]; intros counts; simpl; [reflexivity|].
  destruct (counts name); simpl; now rewrite IH.
Qed.

Lemma final_names_nth (counts : dict nat) (proposed : list text) (i : nat) (name : text) :
  nth_error proposed i = Some name ->
  nth_error (final_names counts proposed) i
  = Some (let k := occ name (firstn i proposed) in
          match counts name with
          | None => resolved name k
          | Some c => suffixed name (c + k + 1)
          end).
Proof.
  revert counts i. induction proposed as [|p rest IH]; intros counts i H.
  - destruct i; discriminate.
  - destruct i as [|i]; simpl in H.
    + injection H as ->. simpl. unfold occ. simpl.
      destruct (counts name) as [c|]; simpl; [|reflexivity].
      do 2 f_equal. lia.
    + simpl final_names. unfold occ. simpl firstn. simpl filter.
      destruct (text_eqb name p) eqn:E.
      * apply text_eqb_eq in E. subst p.
        destruct (counts name) as [c|] eqn:C; simpl nth_error;
          rewrite (IH _ _ H); unfold setitem; rewrite text_eqb_refl; cbv zeta;
          unfold resolved, occ; simpl; do 2 f_equal; lia.
      * assert (Hs : forall v, setitem counts p v name = counts name).
        { intros v. unfold setitem. now rewrite E. }
        destruct (counts p) as [c|]; simpl nth_error;
          rewrite (IH _ _ H); cbv zeta; rewrite Hs; reflexivity.
Qed.

Lemma mapping_lookup (m : dict text) (columns final : list text) (c : text) :
  List.length final = List.length columns ->
  fold_left (fun m kv => setitem m (fst kv) (snd kv)) (combine columns final) m c
  = match last_index c columns with
    | Some j => nth_error final j
    | None => m c
    end.
Proof.
  revert m final. induction columns as [|x rest IH]; intros m final L.
  - reflexivity.
  - destruct final as [|f final]; [discriminate|]. simpl in L. injection L as L.
    simpl. rewrite (IH _ _ L).
    destruct (last_index c rest) as [j|]; [reflexivity|].
    unfold setitem. simpl. destruct (text_eqb c x); reflexivity.
Qed.

Lemma last_index_spec (c : text) (columns : list text) (i : nat) :
  nth_error columns i = Some c ->
  exists j, last_index c columns = Some j /\ (i <= j)%nat
            /\ nth_error columns j = Some c.
Proof.
  revert i. induction columns as [|x rest IH]; intros i H.
  - destruct i; discriminate.
  - destruct i as [|i]; simpl in H.
    + injection H as ->. simpl.
      destruct (last_index c rest) as [j|] eqn:E.
      * exists (S j). split; [reflexivity|]. split; [lia|].
        clear IH. revert j E. induction rest as [|y rest IH]; intros j E; [discriminate|].
        simpl in E. destruct (last_index c rest) as [j'|] eqn:E'.
        -- injection E as <-. simpl. exact (IH _ eq_refl).
        -- destruct (text_eqb c y) eqn:Ey; [|discriminate].
           injection E as <-. apply text_eqb_eq in Ey. now subst.
      * rewrite text_eqb_refl. exists 0%nat. split; [reflexivity|]. split; [lia | reflexivity].
    + destruct (IH _ H) as [j [E [Hle Hj]]]. exists (S j). simpl. rewrite E.
      split; [reflexivity|]. split; [lia | exact Hj].
Qed.

Lemma nth_error_firstn_snoc {A : Type} (l : list A) (i : nat) (x : A) :
  nth_error l i = Some x -> firstn (S i) l = firstn i l ++ [x].
Proof.
  revert i. induction l as [|a l IH]; intros i H.
  - destruct i; discriminate.
  - destruct i as [|i]; simpl in H.
    + now injection H as ->.
    + simpl. f_equal. now apply IH.
Qed.

Lemma occ_later (name : text) (l : list text) (i j : nat) :
  (i < j)%nat -> nth_error l i = Some name ->
  (occ name (firstn i l) < occ name (firstn j l))%nat.
Proof.
  intros Hlt Hi.
  assert (E : firstn j l = firstn (S i) l ++ skipn (S i) (firstn j l)).
  { rewrite <- (firstn_skipn (S i) (firstn j l)) at 1.
    rewrite firstn_firstn. now replace (Nat.min (S i) j) with (S i) by lia. }
  rewrite E, (nth_error_firstn_snoc _ _ _ Hi). unfold occ.
  rewrite !filter_app, !length_app. simpl. rewrite text_eqb_refl. simpl. lia.
Qed.

Lemma digits_no_underscore (d : Decimal.uint) :
  ~ In 95 (ascii_text (NilEmpty.string_of_uint d)).
Proof.
  unfold ascii_text.
  induction d; simpl; intros H; try contradiction;
    destruct H as [H|H]; try discriminate; contradiction.
Qed.

Lemma ascii_text_inj (a b : string) : ascii_text a = ascii_text b -> a = b.
Proof.
  unfold ascii_text. intros H.
  rewrite <- (string_of_list_ascii_of_string a), <- (string_of_list_ascii_of_string b).
  f_equal. revert H. generalize (list_ascii_of_string a) (list_ascii_of_string b).
  intros l. induction l as [|x l IH]; intros [|y l'] H; simpl in H; try discriminate.
  - reflexivity.
  - injection H as Hx Hl. f_equal; [|now apply IH].
    rewrite <- (ascii_N_embedding x), <- (ascii_N_embedding y). now rewrite Hx.
Qed.

Lemma split_at_mark (x : codepoint) (a b da db : text) :
  ~ In x da -> ~ In x db -> a ++ x :: da = b ++ x :: db -> a = b /\ da = db.
Proof.
  intros Ha Hb. revert b. induction a as [|h a IH]; intros [|h' b] H; simpl in H.
  - injection H as H. now split.
  - injection H as <- H. exfalso. apply Ha. rewrite H. apply in_or_app. right. now left.
  - injection H as -> H. exfalso. apply Hb. rewrite <- H. apply in_or_app. right. now left.
  - injection H as <- H. destruct (IH _ H) as [-> ->]. now split.
Qed.

Lemma suffixed_inj (a b : text) (j k : nat) :
  suffixed a j = suffixed b k -> a = b /\ j = k.
Proof.
  unfold suffixed. intros H.
  apply split_at_mark in H as [-> H]; try apply digits_no_underscore.
  split; [reflexivity|]. apply str_nat_inj. now apply ascii_text_inj.
Qed.

Lemma final_names_NoDup (proposed : list text) :
  (forall p q k, In p proposed -> In q proposed -> (2 <= k)%nat -> p <> suffixed q k) ->
  NoDup (final_names empty proposed).
Proof.
  intros Hfree.
  assert (Hlt : forall i j x, (i < j)%nat ->
            nth_error (final_names empty proposed) i = Some x ->
            nth_error (final_names empty proposed) j = Some x -> False).
  { intros i j x Hij Hi Hj.
    destruct (nth_error proposed i) as [p|] eqn:Pi.
    2:{ apply nth_error_None in Pi.
        assert (nth_error (final_names empty proposed) i <> None) by congruence.
        apply nth_error_Some in H. rewrite final_names_length in H. lia. }
    destruct (nth_error proposed j) as [q|] eqn:Pj.
    2:{ apply nth_error_None in Pj.
        assert (nth_error (final_names empty proposed) j <> None) by congruence.
        apply nth_error_Some in H. rewrite final_names_length in H. lia. }
    rewrite (final_names_nth _ _ _ _ Pi) in Hi. rewrite (final_names_nth _ _ _ _ Pj) in Hj.
    cbv zeta in Hi, Hj. unfold empty in Hi, Hj. injection Hi as Hi. injection Hj as Hj.
    pose proof (nth_error_In _ _ Pi) as Inp. pose proof (nth_error_In _ _ Pj) as Inq.
    unfold resolved in Hi, Hj.
    destruct (occ p (firstn i proposed) =? 0)%nat eqn:Ki;
      destruct (occ q (firstn j proposed) =? 0)%nat eqn:Kj.
    - subst x. subst q. pose proof (occ_later _ _ _ _ Hij Pi).
      apply Nat.eqb_eq in Kj. lia.
    - apply Nat.eqb_neq in Kj. subst x.
      apply (Hfree p q (S (occ q (firstn j proposed))) Inp Inq); [lia | congruence].
    - apply Nat.eqb_neq in Ki. subst x.
      apply (Hfree q p (S (occ p (firstn i proposed))) Inq Inp); [lia | congruence].
    - rewrite <- Hj in Hi. apply suffixed_inj in Hi as [-> Hk].
      pose proof (occ_later _ _ _ _ Hij Pi). lia. }
  apply NoDup_nth_error. intros i j Hi E.
  destruct (nth_error (final_names empty proposed) i) as [x|] eqn:Ei.
  2:{ apply nth_error_None in Ei. lia. }
  symmetry in E.
  destruct (Nat.lt_trichotomy i j) as [Hl | [-> | Hl]]; [|reflexivity|].
  - exfalso. exact (Hlt _ _ _ Hl Ei E).
  - exfalso. exact (Hlt _ _ _ Hl E Ei).
Qed.

Lemma last_index_NoDup (c : text) (columns : list text) (i : nat) :
  NoDup columns -> nth_error columns i = Some c -> last_index c columns = Some i.
Proof.
  intros Hnd Hi. destruct (last_index_spec _ _ _ Hi) as [j [E [_ Hj]]].
  rewrite E. f_equal. symmetry.
  apply (proj1 (NoDup_nth_error columns) Hnd); [|congruence].
  apply nth_error_Some. congruence.
Qed.

Section Names_facts.

Variable str_lower : text -> text.
Variable isspace : codepoint -> bool.

Lemma normalize_columns_nth (columns : list text) (i : nat) (c : text) :
  nth_error columns i = Some c ->
  exists j, last_index c columns = Some j
    /\ nth_error (normalize_columns str_lower isspace columns) i
       = nth_error (final_names empty (map (propose str_lower isspace) columns)) j.
Proof.
  intros Hi. destruct (last_index_spec _ _ _ Hi) as [j [E [Hle Hj]]].
  exists j. split; [exact E|].
  unfold normalize_columns, rename, mapping. rewrite nth_error_map, Hi. simpl.
  rewrite mapping_lookup by now rewrite final_names_length, length_map.
  rewrite E.
  rewrite (final_names_nth _ _ _ _ (map_nth_error _ _ _ Hj)). reflexivity.
Qed.

Lemma normalize_columns_unique_labels (columns : list text) :
  NoDup columns ->
  normalize_columns str_lower isspace columns
  = final_names empty (map (propose str_lower isspace) columns).
Proof.
  intros Hnd. apply nth_error_ext. intros i.
  destruct (nth_error columns i) as [c|] eqn:Hi.
  - destruct (normalize_columns_nth _ _ _ Hi) as [j [E H]].
    rewrite (last_index_NoDup _ _ _ Hnd Hi) in E. injection E as <-. exact H.
  - pose proof Hi as Hn. apply nth_error_None in Hn.
    transitivity (@None text); [|symmetry]; apply nth_error_None.
    + unfold normalize_columns, rename. now rewrite length_map.
    + now rewrite final_names_length, length_map.
Qed.

(** X4. [normalize_columns] keeps the number of columns.  The column at
    position [i] is named after the last column [j] that carries the
    same label (the same column when labels are distinct): its name is
    the proposed name of the label if no earlier column up to [j]
    proposed it, and that name followed by [_k] when it is the [k]-th
    to propose it. *)
Theorem normalize_columns_names (columns : list text) (i : nat) (c : text) :
  nth_error columns i = Some c ->
  List.length (normalize_columns str_lower isspace columns) = List.length columns
  /\ exists j,
       last_index c columns = Some j
       /\ (i <= j)%nat
       /\ nth_error columns j = Some c
       /\ (NoDup columns -> j = i)
       /\ nth_error (normalize_columns str_lower isspace columns) i
          = Some (resolved (propose str_lower isspace c)
                    (occ (propose str_lower isspace c)
                         (map (propose str_lower isspace) (firstn j columns)))).
Proof.
  intros Hi. split.
  { unfold normalize_columns, rename. apply length_map. }
  destruct (last_index_spec _ _ _ Hi) as [j [E [Hle Hj]]].
  exists j. split; [exact E|]. split; [exact Hle|]. split; [exact Hj|].
  split.
  { intros Hnd. rewrite (last_index_NoDup _ _ _ Hnd Hi) in E. congruence. }
  destruct (normalize_columns_nth _ _ _ Hi) as [j' [E' H]].
  rewrite E in E'. injection E' as <-. rewrite H.
  rewrite (final_names_nth _ _ _ _ (map_nth_error _ _ _ Hj)).
  cbv zeta. unfold empty. now rewrite firstn_map.
Qed.

(** X5. On distinct labels, when no proposed name has the form of
    another proposed name followed by [_k] with [k >= 2], the names
    given by [normalize_columns] are pairwise distinct. *)
Theorem normalize_columns_distinct (columns : list text) :
  NoDup columns ->
  (forall a b k, In a columns -> In b columns -> (2 <= k)%nat ->
     propose str_lower isspace a <> suffixed (propose str_lower isspace b) k) ->
  NoDup (normalize_columns str_lower isspace columns).
Proof.
  intros Hnd Hfree. rewrite (normalize_columns_unique_labels _ Hnd).
  apply final_names_NoDup. intros p q k Hp Hq Hk.
  apply in_map_iff in Hp as [a [<- Ha]]. apply in_map_iff in Hq as [b [<- Hb]].
  now apply Hfree.
Qed.

End Names_facts.

(** ** On Basic Latin labels *)

(** [str.lower] on Basic Latin text. *)
Definition ascii_lower (s : text) : text :=
  map (fun c => if (65 <=? c) && (c <=? 90) then c + 32 else c) s.

Definition sample_columns : list text :=
  map ascii_text ["Name"; "name "; "FIRE ID"; "NAME"]%string.

(** Colliding names get [_2], [_3]; a name that already has the form
    of a generated one is not told apart from it; two columns with the
    same label get the same name. *)
Example normalize_columns_examples :
  normalize_columns ascii_lower unicode_isspace sample_columns
  = map ascii_text ["name"; "name_2"; "fire_id"; "name_3"]%string
  /\ normalize_columns ascii_lower unicode_isspace (map ascii_text ["a"; "a_2"; "A"]%string)
     = map ascii_text ["a"; "a_2"; "a_2"]%string
  /\ normalize_columns ascii_lower unicode_isspace (map ascii_text ["A"; "A"]%string)
     = map ascii_text ["a_2"; "a_2"]%string.
Proof. repeat split; vm_compute; reflexivity. Qed.

Lemma normalize_columns_names_witness :
  nth_error (normalize_columns ascii_lower unicode_isspace sample_columns) 3
  = Some (ascii_text "name_3").
Proof.
  destruct (normalize_columns_names ascii_lower unicode_isspace sample_columns 3
              (ascii_text "NAME") eq_refl) as [_ [j [E [_ [_ [_ H]]]]]].
  vm_compute in E. injection E as <-. rewrite H. vm_compute. reflexivity.
Defined.

Lemma normalize_columns_distinct_witness :
  NoDup (normalize_columns ascii_lower unicode_isspace
           (map ascii_text ["Name"; "FIRE ID"; "Lat"]%string)).
Proof.
  apply normalize_columns_distinct.
  - repeat constructor; simpl; intuition discriminate.
  - intros a b k Ha Hb _ H.
    simpl in Ha, Hb.
    destruct Ha as [<- | [<- | [<- | []]]]; destruct Hb as [<- | [<- | [<- | []]]];
      vm_compute in H; discriminate.
Defined.

End Columns.

(* ------------------------------------------------------------------ *)
(** * Merge of the shapefiles of a folder
    [shp_merge_folder.read_and_standardize], [merge_gdfs],
    [write_shapefile_versioned] and [merge_shapefiles_in_folder]. *)

Module MergeFolder.

Import PyStr Normalizer Versioning.
Inductive exn : Type :=
| FileNotFoundError (msg : string)
| ValueError (msg : string)
| Raised.

(** The dictionary [counters]. *)
Record counters : Type := {
  ok : nat;
  empty : nat;
  err : nat
}.

Section Folder.

(** A coordinate reference system and [==] on them. *)
Variable crs : Type.
Variable crs_eqb : crs -> crs -> bool.

(** A [GeoDataFrame], as far as the script looks at it: [len], [.crs],
    the column labels, and [geometry.geom_type.unique()] as strings. *)
Variable gdf : Type.
Variable len : gdf -> nat.
Variable crs_of : gdf -> option crs.
Variable columns : gdf -> list text.
Variable geom_type_unique : gdf -> option (list string).

(** [gpd.read_file] and [GeoDataFrame.to_crs]; [None] when the call
    raises, as for every call below that returns an [option]. *)
Variable read_file : string -> option gdf.
Variable to_crs : gdf -> crs -> option gdf.

(** The frame with its column labels replaced, [pd.concat(gdfs,
    ignore_index=True)], [gpd.GeoDataFrame(merged,
    geometry="geometry", crs=...)], and whether [mkdir] and [to_file]
    go through. *)
Variable set_columns : gdf -> list text -> gdf.
Variable pd_concat : list gdf -> option gdf.
Variable GeoDataFrame : gdf -> option crs -> option gdf.
Variable to_file_ok : gdf -> string -> bool.

Variable str_lower : text -> text.
Variable isspace : codepoint -> bool.

(** [glob.glob], [os.path.join], [os.path.splitext]. *)
Variable glob_glob : string -> list string.
Variable os_path_join : string -> string -> string.
Variable splitext : string -> string * string.

(** [gdf.empty]: some axis has length 0. *)
Definition is_empty (g : gdf) : bool :=
  (len g =? 0) || (List.length (columns g) =? 0).

Definition normalize_columns (g : gdf) : gdf :=
  set_columns g (Columns.normalize_columns str_lower isspace (columns g)).

(** [sorted(glob.glob(os.path.join(folder, pattern)))] *)
Definition list_shapefiles (folder pattern : string) : list string :=
  PySort.stable_sort String.leb (glob_glob (os_path_join folder pattern)).

(** The variables of the loop of [read_and_standardize]. *)
Record loop_state : Type := {
  gdfs : list gdf;
  crs_base : option crs;
  geom_types_set : list string;
  counts : counters
}.

Definition count_empty (st : loop_state) : loop_state :=
  {| gdfs := gdfs st; crs_base := crs_base st; geom_types_set := geom_types_set st;
     counts := {| ok := ok (counts st); empty := S (empty (counts st));
                  err := err (counts st) |} |}.

Definition count_err (st : loop_state) : loop_state :=
  {| gdfs := gdfs st; crs_base := crs_base st; geom_types_set := geom_types_set st;
     counts := {| ok := ok (counts st); empty := empty (counts st);
                  err := S (err (counts st)) |} |}.

(** [set.add] *)
Definition set_add (s : list string) (t : string) : list string :=
  if existsb (String.eqb t) s then s else s ++ [t].

(** From [if normalize_cols:] to [counters["ok"] += 1]. *)
Definition keep (normalize_cols : bool) (st : loop_state) (g : gdf) : loop_state :=
  let g := if normalize_cols then normalize_columns g else g in
  match geom_type_unique g with
  | None => count_err st
  | Some types =>
      {| gdfs := gdfs st ++ [g];
         crs_base := crs_base st;
         geom_types_set := fold_left set_add types (geom_types_set st);
         counts := {| ok := S (ok (counts st)); empty := empty (counts st);
                      err := err (counts st) |} |}
  end.

Definition set_crs_base (st : loop_state) (c : option crs) : loop_state :=
  {| gdfs := gdfs st; crs_base := c; geom_types_set := geom_types_set st;
     counts := counts st |}.

(** One iteration of the loop, with its [try] / [except Exception]. *)
Definition iteration (normalize_cols reproject_to_base : bool)
    (st : loop_state) (path : string) : loop_state :=
  match read_file path with
  | None => count_err st
  | Some g =>
      if is_empty g then count_empty st
      else
        match crs_base st with
        | None => keep normalize_cols (set_crs_base st (crs_of g)) g
        | Some base =>
            match crs_of g with
            | Some src =>
                if reproject_to_base && negb (crs_eqb src base)
                then match to_crs g base with
                     | Some g' => keep normalize_cols st g'
                     | None => count_err st
                     end
                else keep normalize_cols st g
            | None => keep normalize_cols st g
            end
        end
  end.

Definition initial : loop_state :=
  {| gdfs := []; crs_base := None; geom_types_set := [];
     counts := {| ok := 0; empty := 0; err := 0 |} |}.

Definition read_loop (normalize_cols reproject_to_base : bool)
    (shp_paths : list string) : loop_state :=
  fold_left (iteration normalize_cols reproject_to_base) shp_paths initial.

Definition no_valid_message : string :=
  "No hay GeoDataFrames válidos para unir (todos vacíos o con error)."%string.

Definition read_and_standardize (shp_paths : list string)
    (normalize_cols reproject_to_base : bool)
  : exn + (list gdf * option crs * list string * counters) :=
  let st := read_loop normalize_cols reproject_to_base shp_paths in
  match gdfs st with
  | [] => inl (ValueError no_valid_message)
  | _ => inr (gdfs st, crs_base st,
              PySort.stable_sort String.leb (geom_types_set st), counts st)
  end.

Definition merge_gdfs (gs : list gdf) (base : option crs) : option gdf :=
  match pd_concat gs with
  | Some merged => GeoDataFrame merged base
  | None => None
  end.

(** [write_shapefile_versioned] on a store [fs]: the path written and
    returned, or [None] when the write raises.  The outer [None]
    stands for a version search that does not return. *)
Definition write_shapefile_versioned (fs : store) (g : gdf) (out_path : string)
    (version : bool) : option (option string) :=
  match (if version then next_version_path splitext fs out_path else Some out_path) with
  | None => None
  | Some final_path =>
      Some (if to_file_ok g final_path then Some final_path else None)
  end.

Record MergeFolderSummary : Type := {
  folder : string;
  n_found : nat;
  n_read_ok : nat;
  n_skipped_empty : nat;
  n_errors : nat;
  n_rows_out : nat;
  summary_crs_base : option crs;
  geom_types : list string;
  columns_out : list text;
  out_path : string
}.

Definition no_shp_message : string :=
  "No se encontraron archivos .shp en la carpeta indicada."%string.

(** [merge_shapefiles_in_folder] on a store [fs]: the exception it
    raises, or the summary together with the frame it writes. *)
Definition merge_shapefiles_in_folder (fs : store) (folder_ out_name pattern : string)
    (normalize_cols reproject_to_base version_out : bool)
  : option (exn + MergeFolderSummary * gdf) :=
  let shp_paths := list_shapefiles folder_ pattern in
  match shp_paths with
  | [] => Some (inl (FileNotFoundError no_shp_message))
  | _ =>
      match read_and_standardize shp_paths normalize_cols reproject_to_base with
      | inl e => Some (inl e)
      | inr (gs, base, types, cnt) =>
          match merge_gdfs gs base with
          | None => Some (inl Raised)
          | Some gdf_out =>
              match write_shapefile_versioned fs gdf_out (os_path_join folder_ out_name)
                      version_out with
              | None => None
              | Some None => Some (inl Raised)
              | Some (Some final_out) =>
                  Some (inr ({| folder := folder_;
                                n_found := List.length shp_paths;
                                n_read_ok := ok cnt;
                                n_skipped_empty := empty cnt;
                                n_errors := err cnt;
                                n_rows_out := len gdf_out;
                                summary_crs_base := crs_of gdf_out;
                                geom_types := types;
                                columns_out := columns gdf_out;
                                out_path := final_out |}, gdf_out))
              end
          end
      end
  end.

(** ** What the loop has seen *)

(** The frames read with rows, in the order of the paths. *)
Definition read_nonempty (shp_paths : list string) : list gdf :=
  flat_map (fun p => match read_file p with
                     | Some g => if is_empty g then [] else [g]
                     | None => []
                     end) shp_paths.

(** The first CRS that is not [None]. *)
Fixpoint first_crs (gs : list gdf) : option crs :=
  match gs with
  | [] => None
  | g :: rest =>
      match crs_of g with
      | Some c => Some c
      | None => first_crs rest
      end
  end.

(** The frame has no CRS or one that [==] the base. *)
Definition crs_agrees (base : option crs) (g : gdf) : Prop :=
  crs_of g = None
  \/ exists c b, crs_of g = Some c /\ base = Some b /\ crs_eqb c b = true.

Definition reads_empty (p : string) : bool :=
  match read_file p with
  | Some g => is_empty g
  | None => false
  end.

Definition unreadable (p : string) : bool :=
  match read_file p with
  | Some _ => false
  | None => true
  end.

(** Without reprojection: the file cannot be read, or it has rows and
    its geometry types cannot be listed. *)
Definition fails (normalize_cols : bool) (p : string) : bool :=
  match read_file p with
  | None => true
  | Some g =>
      if is_empty g then false
      else match geom_type_unique (if normalize_cols then normalize_columns g else g) with
           | Some _ => false
           | None => true
           end
  end.

Ltac iteration_cases st p :=
  unfold iteration, reads_empty, unreadable, fails;
  destruct (read_file p) as [?g|]; simpl;
  [ destruct (is_empty _) eqn:?E; simpl;
    [ | destruct (crs_base st) as [?b|] eqn:?B; simpl;
        [ destruct (crs_of _) as [?src|] eqn:?C; simpl;
          [ destruct (_ && _) eqn:?R; simpl;
            [ destruct (to_crs _ _) as [?g'|] eqn:?T; simpl | ]
          | ]
        | ] ]
  | ].

Ltac keep_cases :=
  unfold keep;
  repeat match goal with
         | |- context [geom_type_unique ?g] =>
             let U := fresh "U" in destruct (geom_type_unique g) eqn:U; simpl
         end.

Lemma iteration_counts (normalize_cols reproject_to_base : bool)
    (st : loop_state) (p : string) :
  let st' := iteration normalize_cols reproject_to_base st p in
  ok (counts st') + empty (counts st') + err (counts st')
  = S (ok (counts st) + empty (counts st) + err (counts st))
  /\ empty (counts st') = empty (counts st) + (if reads_empty p then 1 else 0)
  /\ err (counts st) + (if unreadable p then 1 else 0) <= err (counts st')
  /\ (reproject_to_base = false ->
      err (counts st')
      = err (counts st) + (if fails normalize_cols p then 1 else 0))
  /\ List.length (gdfs st') + ok (counts st) = List.length (gdfs st) + ok (counts st').
Proof.
  cbv zeta. iteration_cases st p; keep_cases;
    try rewrite length_app; simpl; repeat split; try lia;
    try (intros ->; discriminate).
Qed.

Lemma read_loop_counts (normalize_cols reproject_to_base : bool)
    (shp_paths : list string) (st : loop_state) :
  let st' := fold_left (iteration normalize_cols reproject_to_base) shp_paths st in
  ok (counts st') + empty (counts st') + err (counts st')
  = ok (counts st) + empty (counts st) + err (counts st) + List.length shp_paths
  /\ empty (counts st') = empty (counts st) + List.length (filter reads_empty shp_paths)
  /\ err (counts st) + List.length (filter unreadable shp_paths) <= err (counts st')
  /\ (reproject_to_base = false ->
      err (counts st')
      = err (counts st) + List.length (filter (fails normalize_cols) shp_paths))
  /\ List.length (gdfs st') + ok (counts st) = List.length (gdfs st) + ok (counts st').
Proof.
  cbv zeta. revert st. induction shp_paths as [|p rest IH]; intros st; simpl.
  - repeat split; lia.
  - destruct (IH (iteration normalize_cols reproject_to_base st p))
      as [I1 [I2 [I3 [I4 I5]]]].
    destruct (iteration_counts normalize_cols reproject_to_base st p)
      as [J1 [J2 [J3 [J4 J5]]]].
    repeat split.
    + lia.
    + rewrite I2, J2. destruct (reads_empty p); simpl; lia.
    + destruct (unreadable p); simpl in *; lia.
    + intros Hr. rewrite (I4 Hr), (J4 Hr). destruct (fails normalize_cols p); simpl; lia.
    + lia.
Qed.

(** X6. The counters of [read_and_standardize] account for every path:
    [ok + empty + err] is the number of paths, [ok] is the number of
    frames kept, [empty] counts the files read as empty, and every
    unreadable file is an error.  Without reprojection the errors are
    the unreadable files and those with rows whose geometry types
    cannot be listed.  The function raises exactly when no file was
    kept. *)
Theorem read_and_standardize_counters (shp_paths : list string)
    (normalize_cols reproject_to_base : bool) :
  let st := read_loop normalize_cols reproject_to_base shp_paths in
  ok (counts st) + empty (counts st) + err (counts st) = List.length shp_paths
  /\ List.length (gdfs st) = ok (counts st)
  /\ empty (counts st) = List.length (filter reads_empty shp_paths)
  /\ List.length (filter unreadable shp_paths) <= err (counts st)
  /\ (reproject_to_base = false ->
      err (counts st) = List.length (filter (fails normalize_cols) shp_paths))
  /\ match read_and_standardize shp_paths normalize_cols reproject_to_base with
     | inl e => e = ValueError no_valid_message /\ ok (counts st) = 0
     | inr (gs, base, types, cnt) =>
         gs = gdfs st /\ base = crs_base st /\ cnt = counts st /\ 0 < ok cnt
     end.
Proof.
  cbv zeta.
  destruct (read_loop_counts normalize_cols reproject_to_base shp_paths initial)
    as [I1 [I2 [I3 [I4 I5]]]].
  fold (read_loop normalize_cols reproject_to_base shp_paths) in I1, I2, I3, I4, I5.
  simpl in I1, I2, I3, I4, I5.
  split; [lia|]. split; [lia|]. split; [exact I2|]. split; [exact I3|].
  split; [exact I4|].
  unfold read_and_standardize.
  destruct (gdfs (read_loop normalize_cols reproject_to_base shp_paths)) eqn:G.
  - split; [reflexivity|]. simpl in I5. lia.
  - repeat split. simpl in I5. lia.
Qed.

Lemma is_empty_false (g : gdf) : is_empty g = false -> 0 < len g.
Proof.
  unfold is_empty. intros H. apply orb_false_iff in H as [H _].
  apply Nat.eqb_neq in H. lia.
Qed.

Lemma list_sum_ge (gs : list gdf) :
  (forall g, In g gs -> 0 < len g) -> List.length gs <= list_sum (map len gs).
Proof.
  induction gs as [|g gs IH]; intros H; simpl; [lia|].
  pose proof (H g (or_introl eq_refl)).
  assert (List.length gs <= list_sum (map len gs)) by (apply IH; intros; apply H; now right).
  lia.
Qed.

(** The base CRS is set by the first frame read with rows that has
    one, whether or not that frame is kept. *)
Lemma iteration_crs_base (normalize_cols reproject_to_base : bool)
    (st : loop_state) (p : string) :
  crs_base (iteration normalize_cols reproject_to_base st p)
  = match crs_base st with
    | Some c => Some c
    | None => first_crs (read_nonempty [p])
    end.
Proof.
  unfold read_nonempty. simpl.
  iteration_cases st p; keep_cases; simpl; try rewrite B; try reflexivity;
    match goal with
    | |- _ = match ?x with _ => _ end => now destruct x
    end.
Qed.

Lemma first_crs_app (l1 l2 : list gdf) :
  first_crs (l1 ++ l2)
  = match first_crs l1 with
    | Some c => Some c
    | None => first_crs l2
    end.
Proof.
  induction l1 as [|g l1 IH]; simpl; [reflexivity|].
  destruct (crs_of g); [reflexivity | exact IH].
Qed.

Lemma read_loop_crs_base (normalize_cols reproject_to_base : bool)
    (shp_paths : list string) (st : loop_state) :
  crs_base (fold_left (iteration normalize_cols reproject_to_base) shp_paths st)
  = match crs_base st with
    | Some c => Some c
    | None => first_crs (read_nonempty shp_paths)
    end.
Proof.
  revert st. induction shp_paths as [|p rest IH]; intros st; simpl fold_left.
  - simpl. now destruct (crs_base st).
  - rewrite IH, iteration_crs_base.
    replace (read_nonempty (p :: rest)) with (read_nonempty [p] ++ read_nonempty rest)
      by (unfold read_nonempty; simpl; now rewrite app_nil_r).
    rewrite first_crs_app.
    destruct (crs_base st); [reflexivity|].
    now destruct (first_crs (read_nonempty [p])).
Qed.

(** ** Under the contracts of the library calls *)

Hypothesis to_crs_crs : forall g c g', to_crs g c = Some g' -> crs_of g' = Some c.
Hypothesis to_crs_len : forall g c g', to_crs g c = Some g' -> len g' = len g.
Hypothesis set_columns_crs : forall g cs, crs_of (set_columns g cs) = crs_of g.
Hypothesis set_columns_len : forall g cs, len (set_columns g cs) = len g.
Hypothesis crs_eqb_refl : forall c, crs_eqb c c = true.
Hypothesis pd_concat_len :
  forall gs merged, pd_concat gs = Some merged -> len merged = list_sum (map len gs).
Hypothesis GeoDataFrame_len :
  forall g c g', GeoDataFrame g c = Some g' -> len g' = len g.
Hypothesis splitext_join : forall p, (fst (splitext p) ++ snd (splitext p))%string = p.

Lemma read_loop_rows (normalize_cols reproject_to_base : bool)
    (shp_paths : list string) (st : loop_state) :
  (forall g, In g (gdfs st) -> 0 < len g) ->
  forall g, In g (gdfs (fold_left (iteration normalize_cols reproject_to_base) shp_paths st)) ->
  0 < len g.
Proof.
  revert st. induction shp_paths as [|p rest IH]; intros st H; simpl; [exact H|].
  apply IH. clear IH.
  assert (K : forall st0 g0, gdfs st0 = gdfs st -> 0 < len g0 ->
            forall g, In g (gdfs (keep normalize_cols st0 g0)) -> 0 < len g).
  { intros st0 g0 Hst H0 g Hg. unfold keep in Hg.
    destruct (geom_type_unique _); simpl in Hg; rewrite Hst in Hg; [|now apply H].
    apply in_app_or in Hg as [Hg | [<- | []]]; [now apply H|].
    destruct normalize_cols; [|exact H0].
    unfold normalize_columns. now rewrite set_columns_len. }
  iteration_cases st p; try exact H; apply K; try reflexivity;
    try (now apply is_empty_false).
  rewrite (to_crs_len _ _ _ T). now apply is_empty_false.
Qed.

(** What holds of the loop variables after every iteration. *)
Definition standardized (reproject_to_base : bool) (st : loop_state) : Prop :=
  (forall g, In g (gdfs st) -> 0 < len g)
  /\ (reproject_to_base = true -> forall g, In g (gdfs st) -> crs_agrees (crs_base st) g).

Lemma crs_agrees_none (g : gdf) (base : option crs) :
  crs_of g = None -> crs_agrees base g.
Proof. intros H. now left. Qed.

Lemma keep_standardized (normalize_cols reproject_to_base : bool)
    (st : loop_state) (g : gdf) :
  (forall x, In x (gdfs st) -> 0 < len x) ->
  0 < len g ->
  (reproject_to_base = true ->
   (forall x, In x (gdfs st) -> crs_agrees (crs_base st) x)
   /\ crs_agrees (crs_base st) g) ->
  standardized reproject_to_base (keep normalize_cols st g).
Proof.
  intros Hlen Hg Hag.
  set (g' := if normalize_cols then normalize_columns g else g).
  assert (Lg : len g' = len g).
  { unfold g', normalize_columns. destruct normalize_cols; [apply set_columns_len | reflexivity]. }
  assert (Cg : crs_of g' = crs_of g).
  { unfold g', normalize_columns. destruct normalize_cols; [apply set_columns_crs | reflexivity]. }
  unfold standardized, keep. fold g'.
  destruct (geom_type_unique g'); simpl.
  - split.
    + intros x Hx. apply in_app_or in Hx as [Hx | [<- | []]]; [now apply Hlen | lia].
    + intros Hr x Hx. destruct (Hag Hr) as [Hold Hnew].
      apply in_app_or in Hx as [Hx | [<- | []]]; [now apply Hold|].
      unfold crs_agrees in *. now rewrite Cg.
  - split; [exact Hlen|]. intros Hr. now apply Hag.
Qed.

Lemma iteration_standardized (normalize_cols reproject_to_base : bool)
    (st : loop_state) (p : string) :
  standardized reproject_to_base st ->
  standardized reproject_to_base (iteration normalize_cols reproject_to_base st p).
Proof.
  intros [Hlen Hag].
  iteration_cases st p; try rewrite <- B in Hag;
    try (split; [exact Hlen | exact Hag]).
  - (* reprojected *)
    apply keep_standardized; try assumption.
    + rewrite (to_crs_len _ _ _ T). now apply is_empty_false.
    + intros Hr. split; [now apply Hag|].
      right. exists b, b.
      split; [exact (to_crs_crs _ _ _ T) | split; [exact B | apply crs_eqb_refl]].
  - (* same CRS, or no reprojection asked *)
    apply keep_standardized; try assumption.
    + now apply is_empty_false.
    + intros Hr. split; [now apply Hag|].
      right. exists src, b. split; [exact C | split; [exact B|]].
      rewrite Hr in R. simpl in R. now apply negb_false_iff in R.
  - (* frame without CRS *)
    apply keep_standardized; try assumption.
    + now apply is_empty_false.
    + intros Hr. split; [now apply Hag | now apply crs_agrees_none].
  - (* first frame with rows while no base is set *)
    apply keep_standardized; simpl; try assumption.
    + now apply is_empty_false.
    + intros Hr. split.
      * intros x Hx. apply crs_agrees_none.
        destruct (Hag Hr x Hx) as [H | [c [b [_ [H _]]]]]; [exact H | congruence].
      * destruct (crs_of g) as [c|] eqn:Cg; [|now left].
        right. exists c, c. split; [exact Cg|]. split; [reflexivity | apply crs_eqb_refl].
Qed.

Lemma read_loop_standardized (normalize_cols reproject_to_base : bool)
    (shp_paths : list string) :
  standardized reproject_to_base (read_loop normalize_cols reproject_to_base shp_paths).
Proof.
  unfold read_loop.
  assert (H0 : standardized reproject_to_base initial).
  { split; [intros g [] | intros _ g []]. }
  revert H0. generalize initial.
  induction shp_paths as [|p rest IH]; intros st H; simpl; [exact H|].
  apply IH. now apply iteration_standardized.
Qed.

Lemma read_and_standardize_cases (shp_paths : list string)
    (normalize_cols reproject_to_base : bool) :
  let st := read_loop normalize_cols reproject_to_base shp_paths in
  match read_and_standardize shp_paths normalize_cols reproject_to_base with
  | inl e => e = ValueError no_valid_message /\ gdfs st = []
  | inr (gs, base, types, cnt) =>
      gs = gdfs st /\ base = crs_base st /\ cnt = counts st /\ gs <> []
  end.
Proof.
  cbv zeta. unfold read_and_standardize.
  destruct (gdfs (read_loop normalize_cols reproject_to_base shp_paths)) eqn:G.
  - now split.
  - repeat split. discriminate.
Qed.

(** X7. The frames returned by [read_and_standardize] have rows, the
    base CRS is the first CRS found among the files read with rows,
    and with [reproject_to_base] every frame returned has no CRS or
    the base one. *)
Theorem standardized_frames_share_crs (shp_paths : list string)
    (normalize_cols reproject_to_base : bool)
    (gs : list gdf) (base : option crs) (types : list string) (cnt : counters) :
  read_and_standardize shp_paths normalize_cols reproject_to_base
  = inr (gs, base, types, cnt) ->
  gs <> []
  /\ (forall g, In g gs -> 0 < len g)
  /\ base = first_crs (read_nonempty shp_paths)
  /\ (reproject_to_base = true -> forall g, In g gs -> crs_agrees base g).
Proof.
  unfold read_and_standardize. intros H.
  destruct (read_loop_standardized normalize_cols reproject_to_base shp_paths)
    as [Hlen Hag].
  pose proof (read_loop_crs_base normalize_cols reproject_to_base shp_paths initial) as Hbase.
  fold (read_loop normalize_cols reproject_to_base shp_paths) in Hbase. simpl in Hbase.
  destruct (gdfs (read_loop normalize_cols reproject_to_base shp_paths)) eqn:G;
    [discriminate|].
  injection H as <- <- _ _. split; [discriminate|]. now repeat split.
Qed.

(** X8. [merge_shapefiles_in_folder] always returns or raises.  It raises
    its [FileNotFoundError] only when the pattern matches no file, its
    [ValueError] only when files were found and none was kept, and an
    error of the merge or of the write only after a file was kept.
    Otherwise [n_found] is the number of files matched and the sum of
    the three counters, at least one file was read, the output has at
    least one row per file read, and with [version_out] the output
    path did not exist. *)
Theorem merge_folder_summary (fs : store) (folder_ out_name pattern : string)
    (normalize_cols reproject_to_base version_out : bool) :
  exists r,
    merge_shapefiles_in_folder fs folder_ out_name pattern
      normalize_cols reproject_to_base version_out = Some r
    /\ match r with
       | inl (FileNotFoundError msg) =>
           msg = no_shp_message /\ glob_glob (os_path_join folder_ pattern) = []
       | inl (ValueError msg) =>
           msg = no_valid_message
           /\ glob_glob (os_path_join folder_ pattern) <> []
           /\ ok (counts (read_loop normalize_cols reproject_to_base
                            (list_shapefiles folder_ pattern))) = 0
       | inl Raised =>
           0 < ok (counts (read_loop normalize_cols reproject_to_base
                             (list_shapefiles folder_ pattern)))
       | inr (s, gdf_out) =>
           n_found s = List.length (glob_glob (os_path_join folder_ pattern))
           /\ n_found s = n_read_ok s + n_skipped_empty s + n_errors s
           /\ 1 <= n_read_ok s
           /\ n_read_ok s <= n_rows_out s
           /\ n_rows_out s = len gdf_out
           /\ (if version_out then path_exists fs (out_path s) = false
               else out_path s = os_path_join folder_ out_name)
       end.
Proof.
  unfold merge_shapefiles_in_folder.
  assert (Hperm : Permutation (list_shapefiles folder_ pattern)
                    (glob_glob (os_path_join folder_ pattern)))
    by apply PySort.stable_sort_perm.
  destruct (list_shapefiles folder_ pattern) as [|p0 rest] eqn:L.
  - eexists. split; [reflexivity|]. split; [reflexivity|].
    apply Permutation_nil in Hperm. exact Hperm.
  - rewrite <- L in *.
    pose proof (read_and_standardize_cases (list_shapefiles folder_ pattern)
                  normalize_cols reproject_to_base) as Hc.
    destruct (read_loop_counts normalize_cols reproject_to_base
                (list_shapefiles folder_ pattern) initial) as [Hsum [_ [_ [_ Hlg]]]].
    fold (read_loop normalize_cols reproject_to_base (list_shapefiles folder_ pattern))
      in Hsum, Hlg.
    simpl in Hsum, Hlg.
    assert (Hlen : forall g, In g (gdfs (read_loop normalize_cols reproject_to_base
                                            (list_shapefiles folder_ pattern))) -> 0 < len g).
    { apply read_loop_rows. intros g []. }
    cbv zeta in Hc.
    destruct (read_and_standardize (list_shapefiles folder_ pattern)
                normalize_cols reproject_to_base) as [e | [[[gs base] types] cnt]] eqn:R.
    + eexists. split; [reflexivity|]. destruct Hc as [-> Hnil].
      split; [reflexivity|]. split.
      * intros Hglob. rewrite Hglob in Hperm. apply Permutation_sym, Permutation_nil in Hperm.
        rewrite L in Hperm. discriminate.
      * rewrite Hnil in Hlg. simpl in Hlg. lia.
    + destruct Hc as [Hgs' [_ [Hcnt Hne]]]. subst cnt.
      assert (Hpos : 0 < List.length gs) by (destruct gs; [congruence | simpl; lia]).
      rewrite Hgs' in Hpos.
      unfold merge_gdfs.
      destruct (pd_concat gs) as [merged|] eqn:Pc;
        [|eexists; split; [reflexivity | simpl; lia]].
      destruct (GeoDataFrame merged base) as [gdf_out|] eqn:Gd;
        [|eexists; split; [reflexivity | simpl; lia]].
      assert (Hout : exists final_out,
                 (if version_out
                  then next_version_path splitext fs (os_path_join folder_ out_name)
                  else Some (os_path_join folder_ out_name)) = Some final_out
                 /\ (if version_out then path_exists fs final_out = false
                     else final_out = os_path_join folder_ out_name)).
      { destruct version_out.
        - destruct (resolver_spec fs (merge_candidate splitext (os_path_join folder_ out_name))
                      2 (os_path_join folder_ out_name)
                      (merge_candidate_inj splitext _)
                      (merge_candidate_fresh splitext splitext_join _))
            as [r [H1 [H2 _]]].
          exists r. split; [exact H1 | exact H2].
        - eexists. split; reflexivity. }
      destruct Hout as [final_out [Hw Hfinal]].
      unfold write_shapefile_versioned. rewrite Hw.
      destruct (to_file_ok gdf_out final_out);
        [|eexists; split; [reflexivity | simpl; lia]].
      eexists. split; [reflexivity|]. simpl.
      split; [now apply Permutation_length|].
      split; [lia|]. split; [lia|].
      split; [|split; [reflexivity | exact Hfinal]].
      rewrite (GeoDataFrame_len _ _ _ Gd), (pd_concat_len _ _ Pc).
      replace (ok (counts (read_loop normalize_cols reproject_to_base
                             (list_shapefiles folder_ pattern))))
        with (List.length gs) by (rewrite Hgs'; lia).
      apply list_sum_ge. now rewrite Hgs'.
Qed.

End Folder.

Arguments n_found {crs} _.
Arguments n_read_ok {crs} _.
Arguments n_skipped_empty {crs} _.
Arguments n_errors {crs} _.
Arguments n_rows_out {crs} _.
Arguments summary_crs_base {crs} _.
Arguments geom_types {crs} _.
Arguments columns_out {crs} _.
Arguments out_path {crs} _.

(** ** A folder to run the functions on *)

Record sample_gdf : Type := {
  sample_len : nat;
  sample_crs : option string;
  sample_columns : list text;
  sample_types : list string
}.

Definition sample_read_file (p : string) : option sample_gdf :=
  if String.eqb p "in/a.shp" then
    Some {| sample_len := 3; sample_crs := Some "EPSG:4326"%string;
            sample_columns := map ascii_text ["Name"; "name "; "geometry"]%string;
            sample_types := ["Point"]%string |}
  else if String.eqb p "in/b.shp" then
    Some {| sample_len := 2; sample_crs := Some "EPSG:9377"%string;
            sample_columns := map ascii_text ["NAME"; "geometry"]%string;
            sample_types := ["Point"; "MultiPoint"]%string |}
  else if String.eqb p "in/empty.shp" then
    Some {| sample_len := 0; sample_crs := Some "EPSG:4326"%string;
            sample_columns := map ascii_text ["geometry"]%string;
            sample_types := [] |}
  else None.

Definition sample_to_crs (g : sample_gdf) (c : string) : option sample_gdf :=
  Some {| sample_len := sample_len g; sample_crs := Some c;
          sample_columns := sample_columns g; sample_types := sample_types g |}.

Definition sample_set_columns (g : sample_gdf) (cs : list text) : sample_gdf :=
  {| sample_len := sample_len g; sample_crs := sample_crs g;
     sample_columns := cs; sample_types := sample_types g |}.

(** The columns of the merge are those of the inputs, each once. *)
Definition sample_concat (gs : list sample_gdf) : option sample_gdf :=
  Some {| sample_len := list_sum (map sample_len gs); sample_crs := None;
          sample_columns := nodup (list_eq_dec N.eq_dec) (flat_map sample_columns gs);
          sample_types := flat_map sample_types gs |}.

Definition sample_GeoDataFrame (g : sample_gdf) (c : option string) : option sample_gdf :=
  Some {| sample_len := sample_len g; sample_crs := c;
          sample_columns := sample_columns g; sample_types := sample_types g |}.

Definition sample_geom_types (g : sample_gdf) : option (list string) :=
  if existsb (Columns.text_eqb (ascii_text "geometry")) (sample_columns g)
  then Some (sample_types g) else None.

Definition sample_glob (pattern : string) : list string :=
  if String.eqb pattern "in/*.shp"
  then ["in/empty.shp"; "in/b.shp"; "in/missing.shp"; "in/a.shp"]%string
  else [].

Definition sample_join (a b : string) : string := (a ++ "/" ++ b)%string.

Definition sample_read_and_standardize :=
  read_and_standardize string String.eqb sample_gdf sample_len sample_crs sample_columns
    sample_geom_types sample_read_file sample_to_crs sample_set_columns
    Columns.ascii_lower unicode_isspace.

Definition sample_merge :=
  merge_shapefiles_in_folder string String.eqb sample_gdf sample_len sample_crs sample_columns
    sample_geom_types sample_read_file sample_to_crs sample_set_columns
    sample_concat sample_GeoDataFrame (fun _ _ => true) Columns.ascii_lower unicode_isspace
    sample_glob sample_join posix_splitext.

Example sample_merge_run :
  exists s out,
    sample_merge ["in/merged.shp"]%string "in" "merged.shp" "*.shp" true true true
    = Some (inr (s, out))
    /\ n_found s = 4 /\ n_read_ok s = 2 /\ n_skipped_empty s = 1 /\ n_errors s = 1
    /\ n_rows_out s = 5 /\ summary_crs_base s = Some "EPSG:4326"%string
    /\ geom_types s = ["MultiPoint"; "Point"]%string
    /\ out_path s = "in/merged_v002.shp"%string.
Proof. do 2 eexists. split; [vm_compute; reflexivity|]. repeat split. Qed.

Lemma standardized_frames_share_crs_witness :
  exists gs base types cnt,
    sample_read_and_standardize ["in/a.shp"; "in/b.shp"]%string true true
    = inr (gs, base, types, cnt)
    /\ base = Some "EPSG:4326"%string
    /\ forall g, In g gs -> 0 < sample_len g.
Proof.
  destruct (sample_read_and_standardize ["in/a.shp"; "in/b.shp"]%string true true)
    as [e | [[[gs base] types] cnt]] eqn:R; [vm_compute in R; discriminate|].
  exists gs, base, types, cnt. split; [reflexivity|].
  destruct (standardized_frames_share_crs string String.eqb sample_gdf sample_len sample_crs
              sample_columns sample_geom_types sample_read_file sample_to_crs
              sample_set_columns Columns.ascii_lower unicode_isspace
              ltac:(intros g c g' H; injection H as <-; reflexivity)
              ltac:(intros g c g' H; injection H as <-; reflexivity)
              ltac:(reflexivity) ltac:(reflexivity) String.eqb_refl
              _ _ _ _ _ _ _ R) as [_ [Hlen [Hbase _]]].
  split; [|exact Hlen].
  vm_compute in R. injection R as <- <- _ _. reflexivity.
Defined.

Lemma merge_folder_summary_witness :
  exists r, sample_merge ["in/merged.shp"]%string "in" "merged.shp" "*.shp" true true true
            = Some r.
Proof.
  destruct (merge_folder_summary string String.eqb sample_gdf sample_len sample_crs
              sample_columns sample_geom_types sample_read_file sample_to_crs
              sample_set_columns sample_concat sample_GeoDataFrame (fun _ _ => true)
              Columns.ascii_lower unicode_isspace
              sample_glob sample_join posix_splitext
              ltac:(intros g c g' H; injection H as <-; reflexivity)
              ltac:(reflexivity)
              ltac:(intros gs m H; injection H as <-; reflexivity)
              ltac:(intros g c g' H; injection H as <-; reflexivity)
              posix_splitext_join
              ["in/merged.shp"]%string "in" "merged.shp" "*.shp" true true true)%string
    as [r [H _]].
  exists r. exact H.
Defined.

End MergeFolder.

(* ------------------------------------------------------------------ *)
(** * Which event wins a tie
    [firms_ungrd_match.best_match_per_point] sorts by two columns, which
    pandas does with a stable sort, and [first()] takes the head of
    each group: among the events at the least distance in days, the
    one that comes first in the UNGRD frame is the match. *)

Module MatchOrder.

Import Normalizer Match.

(** Same cell of [dif_dias_abs]. *)
Definition same_abs (a b : option Z) : bool :=
  match a, b with
  | Some x, Some y => (x =? y)%Z
  | None, None => true
  | _, _ => false
  end.

(** The candidate events of a point: its keys, and a date. *)
Definition is_candidate (pt : firms_point) (u : ungrd_row) : bool :=
  admin_match pt u && notna (FECHA u).

Lemma same_abs_leb (a b : option Z) : same_abs a b = true -> abs_leb a b = true.
Proof.
  destruct a, b; simpl; try discriminate; auto.
  intros H. apply Z.eqb_eq in H. apply Z.leb_le. lia.
Qed.

Lemma same_abs_sym (a b : option Z) : same_abs a b = same_abs b a.
Proof. destruct a, b; simpl; auto. apply Z.eqb_sym. Qed.

Lemma same_abs_trans (a b c : option Z) :
  same_abs a b = true -> same_abs b c = true -> same_abs a c = true.
Proof.
  destruct a, b, c; simpl; try discriminate; auto.
  rewrite !Z.eqb_eq. congruence.
Qed.

Lemma filter_filter {A : Type} (f g : A -> bool) (l : list A) :
  filter f (filter g l) = filter (fun x => g x && f x) l.
Proof.
  induction l as [|x l IH]; simpl; [reflexivity|].
  destruct (g x); simpl; [destruct (f x)|]; now rewrite IH.
Qed.

Lemma dated_events_filter (pt : firms_point) (df_ungrd : list ungrd_row) :
  dated_events pt df_ungrd = filter (is_candidate pt) df_ungrd.
Proof. unfold dated_events. apply filter_filter. Qed.

(** X9. On a layer whose [idx_firms] tell the points apart, for a
    dated point with a dated event in its department and municipality,
    the row of [run_firms_vs_ungrd] carries the date of one such event
    [u0]: every such event listed before [u0] is strictly farther in
    whole days and every one listed after it is at least as far;
    [dif_dias_min] is the signed number of days from [u0] to the
    point. *)
Theorem best_match_takes_first_nearest (df_ungrd : list ungrd_row)
  (gdf_firms : firms_frame) (window_days : Z)
  (i : nat) (pt : firms_point) (p : timestamp) :
  identified gdf_firms ->
  nth_error (points gdf_firms) i = Some pt ->
  fecha_FIRMS pt = Some p ->
  (exists u, In u df_ungrd /\ is_candidate pt u = true) ->
  exists out cols l1 u0 l2 e0,
    run_firms_vs_ungrd df_ungrd gdf_firms window_days = inr out
    /\ nth_error out i = Some ({| idx_firms := key_of gdf_firms i; point := pt |}, cols)
    /\ df_ungrd = l1 ++ u0 :: l2
    /\ is_candidate pt u0 = true
    /\ FECHA u0 = Some e0
    /\ fecha_UNGRD_match cols = Some e0
    /\ dif_dias_min cols = Some ((p - e0) / day_ns)%Z
    /\ (forall u e, In u l1 -> is_candidate pt u = true -> FECHA u = Some e ->
          (Z.abs ((p - e0) / day_ns) < Z.abs ((p - e) / day_ns))%Z)
    /\ (forall u e, In u l2 -> is_candidate pt u = true -> FECHA u = Some e ->
          (Z.abs ((p - e0) / day_ns) <= Z.abs ((p - e) / day_ns))%Z).
Proof.
  intros Hid Hpt Hp [u [Hu Hcand]].
  assert (Hd : In u (dated_events pt df_ungrd)).
  { rewrite dated_events_filter. apply filter_In. now split. }
  destruct (point_group df_ungrd gdf_firms window_days i pt u Hid Hpt Hd)
    as [out [h [t [G [Hrun Hnth]]]]].
  pose proof (valid_group gdf_firms df_ungrd i pt Hid Hpt) as Hgroup.
  set (k := key_of gdf_firms i) in *.
  set (valid := filter (fun c => notna (FECHA (cand_ungrd c)))
                       (admin_merge (reset_index gdf_firms) df_ungrd)) in *.
  set (sorted := PySort.stable_sort cand_leb valid) in *.
  (* the head is least in its group *)
  assert (Hsorted : StronglySorted (fun a b => cand_leb a b = true)
                      (filter (fun c => idx_eqb (cand_idx_firms c) k) sorted)).
  { apply StronglySorted_filter.
    apply PySort.stable_sort_sorted; [apply cand_leb_total | apply cand_leb_trans]. }
  assert (Hperm : Permutation (h :: t) (map (cand_of k pt) (dated_events pt df_ungrd))).
  { rewrite <- G, <- Hgroup. apply Permutation_filter. apply PySort.stable_sort_perm. }
  assert (Hidx : cand_idx_firms h = k).
  { assert (Hf : In h (filter (fun c => idx_eqb (cand_idx_firms c) k) sorted)) by (rewrite G; now left).
    apply filter_In in Hf as [_ Ei]. now apply idx_eqb_eq. }
  assert (Hmin : forall c, In c (h :: t) ->
            abs_leb (dif_dias_abs_col h) (dif_dias_abs_col c) = true).
  { intros c [<-|Hc].
    - destruct (abs_leb_total (dif_dias_abs_col h) (dif_dias_abs_col h)); assumption.
    - rewrite G in Hsorted. apply StronglySorted_inv in Hsorted as [_ Hall].
      rewrite Forall_forall in Hall.
      apply cand_leb_same_idx; [|now apply Hall].
      assert (Hc' : In c (map (cand_of k pt) (dated_events pt df_ungrd)))
        by (apply (Permutation_in _ Hperm); now right).
      apply in_map_iff in Hc' as [u' [<- _]]. exact Hidx. }
  (* the rows at the distance of the head keep their order *)
  set (P := fun c => (idx_eqb (cand_idx_firms c) k)
                     && same_abs (dif_dias_abs_col c) (dif_dias_abs_col h)).
  assert (Hstable : filter P sorted = filter P valid).
  { apply PySort.stable_sort_filter. intros a b Ha Hb. unfold P in Ha, Hb.
    apply andb_true_iff in Ha as [Ia Sa]. apply andb_true_iff in Hb as [Ib Sb].
    apply idx_eqb_eq in Ia, Ib. unfold cand_leb.
    rewrite Ia, Ib, idx_eqb_refl, idx_ltb_irrefl. simpl.
    apply same_abs_leb. rewrite same_abs_sym in Sb. eapply same_abs_trans; eauto. }
  unfold P in Hstable. rewrite <- !filter_filter in Hstable.
  rewrite G, Hgroup in Hstable. simpl in Hstable.
  assert (Hh : same_abs (dif_dias_abs_col h) (dif_dias_abs_col h) = true)
    by (destruct (dif_dias_abs_col h); simpl; auto; apply Z.eqb_refl).
  rewrite Hh in Hstable.
  rewrite filter_map_comm in Hstable.
  rewrite dated_events_filter in Hstable.
  destruct (filter _ (filter (is_candidate pt) df_ungrd)) as [|u0 rest] eqn:F;
    [discriminate|].
  simpl in Hstable. injection Hstable as Hh0 _.
  change (filter ?f (filter (is_candidate pt) df_ungrd) = u0 :: rest)
    with (filter f (filter (is_candidate pt) df_ungrd) = [] ++ u0 :: rest) in F.
  apply Merge.filter_split in F as [d1 [d2 [Hsplit [Fd1 _]]]].
  assert (Hu0 : In u0 (filter (is_candidate pt) df_ungrd))
    by (rewrite Hsplit; apply in_or_app; right; now left).
  apply filter_In in Hu0 as [_ Hc0].
  assert (Hsplit' : exists l1 l2, df_ungrd = l1 ++ u0 :: l2
                                  /\ filter (is_candidate pt) l1 = d1
                                  /\ filter (is_candidate pt) l2 = d2)
    by (apply Merge.filter_split; exact Hsplit).
  destruct Hsplit' as [l1 [l2 [Hdf [Hl1 Hl2]]]].
  pose proof Hc0 as Hc0'. unfold is_candidate in Hc0'.
  apply andb_true_iff in Hc0' as [_ Hdate].
  destruct (FECHA u0) as [e0|] eqn:He0; [|discriminate].
  exists out, (snd (best_row window_days k (h :: t))), l1, u0, l2, e0.
  split; [exact Hrun|].
  split; [exact Hnth|]. split; [exact Hdf|]. split; [exact Hc0|].
  split; [exact He0|].
  rewrite Hh0. rewrite (best_row_dated window_days k pt u0 p e0 t Hp He0). simpl.
  split; [reflexivity|]. split; [reflexivity|].
  assert (Hkey : forall u' e', FECHA u' = Some e' ->
            dif_dias_abs_col (cand_of k pt u') = Some (Z.abs ((p - e') / day_ns))).
  { intros u' e' He'. unfold dif_dias_abs_col, dif_dias. simpl. now rewrite Hp, He'. }
  assert (Hle : forall u' e', In u' df_ungrd -> is_candidate pt u' = true ->
            FECHA u' = Some e' ->
            (Z.abs ((p - e0) / day_ns) <= Z.abs ((p - e') / day_ns))%Z).
  { intros u' e' Hin Hc' He'.
    assert (Hc : In (cand_of k pt u') (h :: t)).
    { apply (Permutation_in _ (Permutation_sym Hperm)). apply in_map.
      rewrite dated_events_filter. apply filter_In. now split. }
    specialize (Hmin _ Hc). rewrite Hh0, (Hkey _ _ He0), (Hkey _ _ He') in Hmin.
    simpl in Hmin. now apply Z.leb_le. }
  split.
  - intros u' e' Hin Hc' He'.
    assert (Hin' : In u' df_ungrd) by (rewrite Hdf; apply in_or_app; now left).
    pose proof (Hle _ _ Hin' Hc' He') as Hle'.
    assert (Hne : same_abs (dif_dias_abs_col (cand_of k pt u')) (dif_dias_abs_col h) = false).
    { destruct (same_abs (dif_dias_abs_col (cand_of k pt u')) (dif_dias_abs_col h)) eqn:S;
        [|reflexivity].
      exfalso.
      assert (Hf : In u' (filter (fun x => same_abs (dif_dias_abs_col (cand_of k pt x))
                                                    (dif_dias_abs_col h)) d1)).
      { apply filter_In. split; [|exact S]. rewrite <- Hl1. apply filter_In. now split. }
      rewrite Fd1 in Hf. contradiction. }
    rewrite Hh0, (Hkey _ _ He0), (Hkey _ _ He') in Hne. simpl in Hne.
    apply Z.eqb_neq in Hne. lia.
  - intros u' e' Hin Hc' He'.
    apply (Hle u' e'); try assumption. rewrite Hdf. apply in_or_app. right. now right.
Qed.

Lemma best_match_takes_first_nearest_witness :
  exists out cols,
    run_firms_vs_ungrd [event_at "X" (date 18273); event_at "X" (date 18269)]
      (layer [point_x]) 5 = inr out
    /\ nth_error out 0 = Some ({| idx_firms := Some 0; point := point_x |}, cols)
    /\ dif_dias_min cols = Some (-2)%Z.
Proof.
  destruct (best_match_takes_first_nearest
              [event_at "X" (date 18273); event_at "X" (date 18269)] (layer [point_x]) 5
              0 point_x (18271 * day_ns)%Z (layer_identified _) eq_refl eq_refl
              (ex_intro _ (event_at "X" (date 18273)) (conj (or_introl eq_refl) eq_refl)))
    as [out [cols [l1 [u0 [l2 [e0 [H0 [H1 _]]]]]]]].
  exists out, cols. split; [exact H0|]. split; [exact H1|].
  vm_compute in H0. injection H0 as <-.
  vm_compute in H1. injection H1 as <-. reflexivity.
Defined.

End MatchOrder.

(* ------------------------------------------------------------------ *)
(** * The FIRMS merge from the files to the summary
    [firms_merge.read_shps], [concat_geodataframes],
    [validate_required_fields], [coerce_latlon_numeric], [write_shp]
    and [merge_firms_shps], around [normalize_acq_date] and
    [deduplicate_prefer_instrument]. *)

Module FirmsPipeline.

Import PyStr Normalizer Merge Versioning.

(** What the pipeline raises.  [RequiredFields missing] is
    [ValueError(f"Faltan campos requeridos: {missing}")]; [KeyError]
    carries the labels pandas did not find; [ReadError path] stands for
    whatever [gpd.read_file(path)] raised, [ConcatError] for what the
    merge of the frames raised, [WriteError path] for what the write
    raised. *)
Inductive exn : Type :=
| ValueError (msg : string)
| RequiredFields (missing : list string)
| KeyError (labels : list string)
| ReadError (path : string)
| ConcatError
| WriteError (path : string).

Record MergeSummary (crs : Type) : Type := {
  n_inputs : nat;
  n_features_in : nat;
  n_features_out : nat;
  n_dropped_dupes : Z;
  crs_out : option crs
}.

Arguments n_inputs {crs} _.
Arguments n_features_in {crs} _.
Arguments n_features_out {crs} _.
Arguments n_dropped_dupes {crs} _.
Arguments crs_out {crs} _.

(** A frame read from a shapefile: its columns, the number of its
    rows, its CRS.  The rows of a frame of [n] rows are labelled
    [0 .. n-1], as after [ignore_index=True]. *)
Record geoframe (crs : Type) : Type := {
  table : frame;
  nrows : nat;
  crs_of : option crs
}.

Arguments table {crs} _.
Arguments nrows {crs} _.
Arguments crs_of {crs} _.

(** The cell of a column at a row. *)
Definition cell (t : frame) (col : string) (i : nat) : value :=
  match t col with
  | Some c => nth i c VNaN
  | None => VNaN
  end.

(** [gdf[col] = values] *)
Definition setitem (t : frame) (col : string) (values : list value) : frame :=
  fun c => if String.eqb c col then Some values else t c.

Section Pipeline.

Variable crs : Type.

(** [gpd.read_file]; [None] when it raises. *)
Variable read_file : string -> option (geoframe crs).

(** Whether [pd.concat] and [gpd.GeoDataFrame] go through on frames
    that are not all alike, and whether [mkdir] and [to_file] do. *)
Variable concat_ok : list (geoframe crs) -> bool.
Variable to_file_ok : frame -> list nat -> string -> bool.

Variable strptime_iso : text -> text -> option text.
Variable to_datetime_iso : text -> option text.

(** [pd.to_numeric(cell, errors="coerce")]: the number, or NaN. *)
Variable to_numeric : value -> value.

(** How [drop_duplicates] compares the cells of a key column. *)
Variable Kc : Type.
Variable kc_eqb : Kc -> Kc -> bool.
Variable factorize : value -> Kc.

Variable upper_map : codepoint -> list codepoint.

(** [sort_values(by=["_priority"])] on the row labels. *)
Variable sort_values : (nat -> nat) -> list nat -> list nat.

Variable splitext : string -> string * string.

(** [gdf.empty], for a frame that has its geometry column. *)
Definition empty (g : geoframe crs) : bool := nrows g =? 0.

Fixpoint read_shps (paths : list string) : exn + list (geoframe crs) :=
  match paths with
  | [] => inr []
  | p :: rest =>
      match read_file p with
      | None => inl (ReadError p)
      | Some gdf =>
          if empty gdf then inl (ValueError ("Shapefile vacío: " ++ p)%string)
          else match read_shps rest with
               | inl e => inl e
               | inr gdfs => inr (gdf :: gdfs)
               end
      end
  end.

(** [pd.concat(gdfs, ignore_index=True)]: the rows of the frames one
    after the other; a column is a column of the result when some
    frame has it, with NaN for the rows of the frames that do not. *)
Definition pd_concat (gdfs : list (geoframe crs)) : frame :=
  fun c =>
    if existsb (fun g => match table g c with Some _ => true | None => false end) gdfs
    then Some (flat_map (fun g => match table g c with
                                  | Some col => col
                                  | None => repeat VNaN (nrows g)
                                  end) gdfs)
    else None.

(** [next((g.crs for g in gdfs if g.crs is not None), crs_fallback)] *)
Fixpoint first_crs (gdfs : list (geoframe crs)) (crs_fallback : option crs) : option crs :=
  match gdfs with
  | [] => crs_fallback
  | g :: rest =>
      match crs_of g with
      | Some c => Some c
      | None => first_crs rest crs_fallback
      end
  end.

Definition concat_geodataframes (gdfs : list (geoframe crs)) (crs_fallback : option crs)
  : exn + geoframe crs :=
  match gdfs with
  | [] => inl (ValueError "No objects to concatenate")
  | _ =>
      if concat_ok gdfs
      then inr {| table := pd_concat gdfs;
                  nrows := list_sum (map nrows gdfs);
                  crs_of := first_crs gdfs crs_fallback |}
      else inl ConcatError
  end.

Definition validate_required_fields (t : frame) (required : list string) : exn + unit :=
  let missing := filter (fun c => match t c with Some _ => false | None => true end)
                        required in
  match missing with
  | [] => inr tt
  | _ => inl (RequiredFields missing)
  end.

Definition coerce_latlon_numeric (t : frame) (lat_col lon_col : string) : exn + frame :=
  match t lat_col with
  | None => inl (KeyError [lat_col])
  | Some lat =>
      let t := setitem t lat_col (map to_numeric lat) in
      match t lon_col with
      | None => inl (KeyError [lon_col])
      | Some lon => inr (setitem t lon_col (map to_numeric lon))
      end
  end.

(** The key of a row under [subset=keys]. *)
Definition subset_key (t : frame) (keys : list string) (i : nat) : list Kc :=
  map (fun k => factorize (cell t k i)) keys.

Fixpoint key_eqb (a b : list Kc) : bool :=
  match a, b with
  | [], [] => true
  | x :: a', y :: b' => kc_eqb x y && key_eqb a' b'
  | _, _ => false
  end.

(** An [int] cell. *)
Definition int_cell (k : nat) : value := VObj (ascii_text (str_nat k)).

(** [deduplicate_prefer_instrument] on a frame of [n] rows, for a list
    of keys that is not empty: the labels of the rows that stay, in the
    order of the result, and the count of the rows dropped.  The keys
    are looked up in the frame that has the column [_priority]. *)
Definition deduplicate (t : frame) (n : nat) (keys : list string)
    (instrument_col : string) (prefer_value : text) : exn + list nat * Z :=
  match t instrument_col with
  | None => inl (KeyError [instrument_col])
  | Some _ =>
      let instrument := fun i => py_str (cell t instrument_col i) in
      let t' := setitem t "_priority"
                  (map (fun i => int_cell (priority nat instrument upper_map prefer_value i))
                       (seq 0 n)) in
      match filter (fun k => match t' k with Some _ => false | None => true end) keys with
      | [] =>
          inr (deduplicate_prefer_instrument nat (list Kc) key_eqb
                 (subset_key t' keys) instrument
                 upper_map prefer_value sort_values (seq 0 n))
      | missing => inl (KeyError missing)
      end
  end.

(** [drop(columns=[col])] *)
Definition drop_column (t : frame) (col : string) : frame :=
  fun c => if String.eqb c col then None else t c.

(** [write_shp] on a store [fs], for a frame given by its columns and
    the labels of its rows: the path written and returned, or the
    error of the write.  [None] stands for a version search that does
    not return. *)
Definition write_shp (fs : store) (t : frame) (index : list nat) (out_path : string)
    (version : bool) : option (exn + string) :=
  match (if version then next_version_path splitext fs out_path else Some out_path) with
  | None => None
  | Some final_path =>
      Some (if to_file_ok t index final_path then inr final_path
            else inl (WriteError final_path))
  end.

(** [merge_firms_shps] on a store [fs], from the paths to what is
    returned: the path written, the summary, and the frame written,
    given by its columns and the labels of its rows. *)
Definition merge_firms_shps (fs : store) (paths : list string) (out_path : string)
    (required_cols : list string) (date_src date_out : string)
    (dedup_keys : list string) (prefer_instrument : text) (version_out : bool)
  : option (exn + string * MergeSummary crs * (frame * list nat)) :=
  match read_shps paths with
  | inl e => Some (inl e)
  | inr gdfs =>
  match concat_geodataframes gdfs None with
  | inl e => Some (inl e)
  | inr g =>
  match validate_required_fields (table g) required_cols with
  | inl e => Some (inl e)
  | inr _ =>
  match normalize_acq_date strptime_iso to_datetime_iso (table g) date_src date_out with
  | inl (Merge.ValueError msg) => Some (inl (ValueError msg))
  | inr t =>
  match coerce_latlon_numeric t "LATITUDE" "LONGITUDE" with
  | inl e => Some (inl e)
  | inr t =>
  let before := nrows g in
  match deduplicate t before dedup_keys "INSTRUMENT" prefer_instrument with
  | inl e => Some (inl e)
  | inr (index, dropped) =>
  match write_shp fs (drop_column t "_priority") index out_path version_out with
  | None => None
  | Some (inl e) => Some (inl e)
  | Some (inr final_path) =>
      Some (inr (final_path,
                 {| n_inputs := List.length paths;
                    n_features_in := before;
                    n_features_out := List.length index;
                    n_dropped_dupes := dropped;
                    crs_out := crs_of g |},
                 (drop_column t "_priority", index)))
  end end end end end end end.

Lemma key_eqb_spec :
  (forall a b, kc_eqb a b = true <-> a = b) ->
  forall a b, key_eqb a b = true <-> a = b.
Proof.
  intros H a. induction a as [|x a IH]; intros [|y b]; simpl;
    try (split; [discriminate | discriminate]); [tauto|].
  rewrite andb_true_iff, H, IH. split; [intros [-> ->]; reflexivity|].
  intros E. injection E as -> ->. now split.
Qed.

Lemma read_shps_inr (paths : list string) (gdfs : list (geoframe crs)) :
  read_shps paths = inr gdfs ->
  map read_file paths = map Some gdfs
  /\ Forall (fun g => 0 < nrows g) gdfs.
Proof.
  revert gdfs. induction paths as [|p rest IH]; intros gdfs H; simpl in H.
  - injection H as <-. split; [reflexivity | constructor].
  - destruct (read_file p) as [g|] eqn:R; [|discriminate].
    destruct (empty g) eqn:E; [discriminate|].
    destruct (read_shps rest) as [e|gs]; [discriminate|].
    injection H as <-. destruct (IH gs eq_refl) as [Hm Hf].
    simpl. rewrite R, Hm. split; [reflexivity|].
    constructor; [|exact Hf]. unfold empty in E. apply Nat.eqb_neq in E. lia.
Qed.

(** What reading one path raises, if it does. *)
Definition bad (p : string) : option exn :=
  match read_file p with
  | None => Some (ReadError p)
  | Some g =>
      if empty g then Some (ValueError ("Shapefile vacío: " ++ p)%string) else None
  end.


Lemma read_shps_all_good (paths : list string) :
  (forall q, In q paths -> bad q = None) ->
  exists gdfs, read_shps paths = inr gdfs.
Proof.
  unfold bad. induction paths as [|q l IH]; intros H; simpl.
  - now exists [].
  - pose proof (H q (or_introl eq_refl)) as Hq.
    destruct (read_file q) as [g|]; [|discriminate].
    destruct (empty g); [discriminate|].
    destruct IH as [gs ->]; [intros; apply H; now right|].
    now exists (g :: gs).
Qed.

Lemma list_sum_rows (gdfs : list (geoframe crs)) :
  Forall (fun g => 0 < nrows g) gdfs ->
  List.length gdfs <= list_sum (map nrows gdfs).
Proof.
  induction 1 as [|g gs Hg _ IH]; simpl; lia.
Qed.

Lemma pd_concat_column (gdfs : list (geoframe crs)) (c : string) :
  pd_concat gdfs c = None <-> forall g, In g gdfs -> table g c = None.
Proof.
  unfold pd_concat.
  destruct (existsb _ gdfs) eqn:E.
  - split; [discriminate|]. intros H. apply existsb_exists in E as [g [Hg Hc]].
    rewrite (H g Hg) in Hc. discriminate.
  - split; [|reflexivity]. intros _ g Hg.
    destruct (table g c) eqn:T; [|reflexivity].
    assert (X : existsb (fun g0 => match table g0 c with Some _ => true | None => false end)
                  gdfs = true).
    { apply existsb_exists. exists g. split; [exact Hg | now rewrite T]. }
    congruence.
Qed.

(** ** Under the contracts of the library calls *)

Hypothesis kc_eqb_spec : forall a b, kc_eqb a b = true <-> a = b.
Hypothesis sort_values_perm : forall by_ l, Permutation (sort_values by_ l) l.
Hypothesis splitext_join : forall p, (fst (splitext p) ++ snd (splitext p))%string = p.

Lemma deduplicate_rows (t : frame) (n : nat) (keys : list string)
    (instrument_col : string) (prefer_value : text) (index : list nat) (dropped : Z) :
  deduplicate t n keys instrument_col prefer_value = inr (index, dropped) ->
  exists t',
    (forall c, c <> "_priority"%string -> t' c = t c)
    /\ NoDup (map (subset_key t' keys) index)
    /\ (forall i, i < n -> exists j, In j index /\ subset_key t' keys j = subset_key t' keys i)
    /\ (forall j, In j index -> j < n)
    /\ List.length index <= n
    /\ (0 < n -> 0 < List.length index)
    /\ dropped = (Z.of_nat n - Z.of_nat (List.length index))%Z.
Proof.
  unfold deduplicate. destruct (t instrument_col); [|discriminate].
  set (instrument := fun i => py_str (cell t instrument_col i)).
  set (t' := setitem t "_priority" _).
  destruct (filter _ keys); [|discriminate].
  unfold deduplicate_prefer_instrument. intros H. injection H as <- <-.
  set (sorted := sort_values (priority nat instrument upper_map prefer_value) (seq 0 n)).
  assert (Hperm : Permutation sorted (seq 0 n)) by apply sort_values_perm.
  assert (Hcomplete : forall i, i < n ->
            exists j, In j (drop_duplicates nat (list Kc) key_eqb (subset_key t' keys) [] sorted)
                      /\ subset_key t' keys j = subset_key t' keys i).
  { intros i Hi.
    apply (drop_duplicates_complete nat (list Kc) key_eqb (key_eqb_spec kc_eqb_spec));
      [|intros []].
    apply (Permutation_in _ (Permutation_sym Hperm)). apply in_seq. lia. }
  exists t'. split.
  { intros c Hc. unfold t', setitem. apply String.eqb_neq in Hc. now rewrite Hc. }
  split; [apply drop_duplicates_NoDup; apply key_eqb_spec; exact kc_eqb_spec|].
  split; [exact Hcomplete|].
  split.
  { intros j Hj.
    apply (drop_duplicates_In nat (list Kc) key_eqb (key_eqb_spec kc_eqb_spec)) in Hj.
    apply (Permutation_in _ Hperm) in Hj. apply in_seq in Hj. lia. }
  pose proof (drop_duplicates_length nat (list Kc) key_eqb (subset_key t' keys) [] sorted) as L.
  rewrite (Permutation_length Hperm), length_seq in L.
  split; [exact L|]. split; [|rewrite length_seq; reflexivity].
  intros Hn. destruct (Hcomplete 0 Hn) as [j [Hj _]].
  destruct (drop_duplicates _ _ _ _ _ _); [contradiction | simpl; lia].
Qed.

(** X10. When [merge_firms_shps] completes with a non-empty list of
    keys, every input was read and was not empty, [n_features_in] is
    the total of their rows, the CRS is the first one found,
    [1 <= n_inputs <= n_features_in],
    [1 <= n_features_out <= n_features_in],
    [n_dropped_dupes = n_features_in - n_features_out], the rows kept
    have pairwise different keys and every row read has its key among
    them, and with [version_out] the path written did not exist. *)
Theorem merge_firms_shps_summary (fs : store) (paths : list string) (out_path : string)
    (required_cols : list string) (date_src date_out : string)
    (dedup_keys : list string) (prefer_instrument : text) (version_out : bool)
    (final_path : string) (s : MergeSummary crs) (t : frame) (index : list nat) :
  dedup_keys <> [] ->
  merge_firms_shps fs paths out_path required_cols date_src date_out
    dedup_keys prefer_instrument version_out = Some (inr (final_path, s, (t, index))) ->
  (exists gdfs,
      map read_file paths = map Some gdfs
      /\ Forall (fun g => 0 < nrows g) gdfs
      /\ n_features_in s = list_sum (map nrows gdfs)
      /\ crs_out s = first_crs gdfs None)
  /\ n_inputs s = List.length paths
  /\ 1 <= n_inputs s <= n_features_in s
  /\ 1 <= n_features_out s <= n_features_in s
  /\ n_features_out s = List.length index
  /\ n_dropped_dupes s = (Z.of_nat (n_features_in s) - Z.of_nat (n_features_out s))%Z
  /\ (exists t',
        (forall c, c <> "_priority"%string -> t' c = t c)
        /\ NoDup (map (subset_key t' dedup_keys) index)
        /\ (forall i, i < n_features_in s ->
              exists j, In j index
                        /\ subset_key t' dedup_keys j = subset_key t' dedup_keys i)
        /\ (forall j, In j index -> j < n_features_in s))
  /\ (if version_out then path_exists fs final_path = false else final_path = out_path).
Proof.
  intros Hkeys. unfold merge_firms_shps.
  destruct (read_shps paths) as [e|gdfs] eqn:R; [discriminate|].
  destruct (read_shps_inr _ _ R) as [Hread Hrows].
  unfold concat_geodataframes.
  destruct gdfs as [|g0 gs] eqn:G; [discriminate|]. rewrite <- G in *.
  destruct (concat_ok gdfs); [|discriminate].
  set (g := {| table := pd_concat gdfs; nrows := list_sum (map nrows gdfs);
               crs_of := first_crs gdfs None |}).
  destruct (validate_required_fields (table g) required_cols) as [e|[]] eqn:V; [discriminate|].
  destruct (normalize_acq_date _ _ (table g) date_src date_out) as [[msg]|t1] eqn:N;
    [discriminate|].
  destruct (coerce_latlon_numeric t1 "LATITUDE" "LONGITUDE") as [e|t2] eqn:C; [discriminate|].
  destruct (deduplicate t2 (nrows g) dedup_keys "INSTRUMENT" prefer_instrument)
    as [e|[idx dropped]] eqn:D; [discriminate|].
  destruct (write_shp fs _ idx out_path version_out) as [[e|fp]|] eqn:W;
    [discriminate | | discriminate].
  intros H. injection H as <- <- <- <-. subst g. simpl in D |- *.
  destruct (deduplicate_rows _ _ _ _ _ _ _ D) as [t' [Ht' [Hnd [Hall [Hin [Hle [Hpos Hdrop]]]]]]].
  assert (Hlen : List.length paths = List.length gdfs).
  { rewrite <- (length_map read_file), Hread. apply length_map. }
  pose proof (list_sum_rows _ Hrows) as Hsum.
  assert (Hg : 1 <= List.length gdfs) by (rewrite G; simpl; lia).
  split.
  { exists gdfs. repeat split; assumption || reflexivity. }
  split; [reflexivity|]. split; [lia|].
  split; [split; [apply Hpos|exact Hle]; lia|].
  split; [reflexivity|]. split; [exact Hdrop|].
  split.
  { exists t'. split.
    - intros c Hc. rewrite (Ht' c Hc). unfold drop_column.
      apply String.eqb_neq in Hc. now rewrite Hc.
    - now repeat split. }
  unfold write_shp in W. destruct version_out.
  - destruct (resolver_spec fs (merge_candidate splitext out_path) 2 out_path
                (merge_candidate_inj splitext _)
                (merge_candidate_fresh splitext splitext_join _)) as [r [H1 [H2 _]]].
    unfold next_version_path in W. rewrite H1 in W.
    destruct (to_file_ok _ idx r); [|discriminate]. now injection W as <-.
  - destruct (to_file_ok _ idx out_path); [|discriminate]. now injection W as <-.
Qed.


End Pipeline.

(** ** Two small shapefiles *)

Definition sample_frame (dates lats lons instruments : list string) : geoframe string :=
  {| table := fun c =>
       if String.eqb c "ACQ_DATE" then Some (map (fun s => VStr (ascii_text s)) dates)
       else if String.eqb c "LATITUDE" then Some (map (fun s => VStr (ascii_text s)) lats)
       else if String.eqb c "LONGITUDE" then Some (map (fun s => VStr (ascii_text s)) lons)
       else if String.eqb c "INSTRUMENT"
            then Some (map (fun s => VStr (ascii_text s)) instruments)
       else None;
     nrows := List.length dates;
     crs_of := Some "EPSG:4326"%string |}.

Definition sample_read_file (p : string) : option (geoframe string) :=
  if String.eqb p "viirs.shp" then
    Some (sample_frame ["10-01-2020"; "11-01-2020"] ["4.5"; "4.6"] ["-73.1"; "-73.2"]
                       ["VIIRS"; "VIIRS"])%string
  else if String.eqb p "modis.shp" then
    Some (sample_frame ["10/01/2020"; "12/01/2020"] ["4.5"; "4.7"] ["-73.1"; "-73.3"]
                       ["modis"; "MODIS"])%string
  else if String.eqb p "empty.shp" then Some (sample_frame [] [] [] [])
  else None.

(** Numbers written in one way only: the cell itself stands for the
    number. *)
Definition sample_to_numeric (v : value) : value :=
  match v with
  | VStr s => VObj s
  | _ => VNaN
  end.

Definition sample_sort_values (by_ : nat -> nat) (l : list nat) : list nat :=
  PySort.stable_sort (fun a b => by_ a <=? by_ b) l.

Definition sample_merge_firms_shps :=
  merge_firms_shps string sample_read_file (fun _ => true) (fun _ _ _ => true)
    sample_strptime_iso sample_to_datetime_iso
    sample_to_numeric text Columns.text_eqb py_str latin1_upper sample_sort_values
    posix_splitext.

Definition sample_run :=
  sample_merge_firms_shps ["out/firms.shp"]%string ["viirs.shp"; "modis.shp"]%string
    "out/firms.shp" ["ACQ_DATE"; "LATITUDE"; "LONGITUDE"; "INSTRUMENT"]%string
    "ACQ_DATE" "ACQ_DATE_NORM" ["ACQ_DATE_NORM"; "LATITUDE"; "LONGITUDE"]%string
    (ascii_text "MODIS") true.

(** The first VIIRS record has the date and place of the first MODIS
    record and is dropped. *)
Example sample_merge_firms_run :
  exists t s,
    sample_run = Some (inr ("out/firms_v002.shp"%string, s, (t, [2; 3; 1])))
    /\ n_inputs s = 2 /\ n_features_in s = 4 /\ n_features_out s = 3
    /\ n_dropped_dupes s = 1%Z /\ crs_out s = Some "EPSG:4326"%string
    /\ t "ACQ_DATE_NORM"%string
       = Some (map (fun s => VStr (ascii_text s))
                 ["2020-01-10"; "2020-01-11"; "2020-01-10"; "2020-01-12"]%string).
Proof. do 2 eexists. split; [vm_compute; reflexivity|]. repeat split. Qed.

Lemma merge_firms_shps_summary_witness :
  exists final_path s out,
    sample_run = Some (inr (final_path, s, out))
    /\ 1 <= n_features_out s <= n_features_in s
    /\ path_exists ["out/firms.shp"]%string final_path = false.
Proof.
  destruct sample_run as [[e | [[final_path s] [t index]]]|] eqn:R;
    [vm_compute in R; discriminate | | vm_compute in R; discriminate].
  exists final_path, s, (t, index). split; [reflexivity|].
  destruct (merge_firms_shps_summary string sample_read_file
              (fun _ => true) (fun _ _ _ => true)
              sample_strptime_iso sample_to_datetime_iso
              sample_to_numeric text Columns.text_eqb py_str
              latin1_upper sample_sort_values posix_splitext
              Columns.text_eqb_eq
              (fun by_ l => PySort.stable_sort_perm (fun a b => by_ a <=? by_ b) l)
              posix_splitext_join
              ["out/firms.shp"]%string ["viirs.shp"; "modis.shp"]%string
              "out/firms.shp"%string
              ["ACQ_DATE"; "LATITUDE"; "LONGITUDE"; "INSTRUMENT"]%string
              "ACQ_DATE"%string "ACQ_DATE_NORM"%string
              ["ACQ_DATE_NORM"; "LATITUDE"; "LONGITUDE"]%string
              (ascii_text "MODIS") true final_path s t index
              ltac:(discriminate) R)
    as [_ [_ [_ [Hout [_ [_ [_ Hpath]]]]]]].
  split; [exact Hout | exact Hpath].
Defined.

End FirmsPipeline.

(* ------------------------------------------------------------------ *)
(** * A sampling run from the files to the summary
    [random_absence_points.load_and_project], [write_points_shp] and
    [run_random_absence_sampling], around [build_allowed_zone] and
    [generate_random_points_in_geom]. *)

Module SamplingRun.

Import PyStr Versioning Sampler.

(** What a run raises: the errors of the loader, those of the zone
    and of the sampler, or whatever [gpd.read_file], [to_crs] or the
    write raised. *)
Inductive exn : Type :=
| FileNotFoundError (msg : string)
| LoadError (msg : string)
| ReadError (path : string)
| TransformError
| Raised (e : Sampler.exn)
| WriteError (path : string).

Record SamplingSummary (coord : Type) : Type := {
  n_requested : Z;
  n_generated : nat;
  buffer_m : coord;
  seed : Z;
  crs_target : string;
  geom_type_allowed : string;
  out_path : string
}.

Arguments n_requested {coord} _.
Arguments n_generated {coord} _.
Arguments buffer_m {coord} _.
Arguments seed {coord} _.
Arguments crs_target {coord} _.
Arguments geom_type_allowed {coord} _.
Arguments out_path {coord} _.

Section Run.

Variable coord : Type.
Variable rng_state : Type.
Variable seeded : Z -> option rng_state.
Variable next_uniform : rng_state -> coord -> coord -> coord * rng_state.
Variable finite_range : coord -> coord -> bool.
Variable geom : Type.
Variable bounds : geom -> coord * coord * coord * coord.
Variable contains : geom -> xy coord -> bool.
Variable unary_union : list geom -> geom.
Variable buffer : xy coord -> coord -> geom.
Variable difference : geom -> geom -> geom.
Variable is_empty : geom -> bool.
Variable geom_type : geom -> string.

(** A [GeoDataFrame]: [.empty], [str(.crs)] when it has a CRS, its
    geometries, and the points of its geometry column. *)
Variable gdf : Type.
Variable empty : gdf -> bool.
Variable crs_str : gdf -> option string.
Variable geometry : gdf -> list geom.
Variable geometry_points : gdf -> list (xy coord).

(** [gpd.read_file] and [to_crs] ([None] when the call raises), and
    whether [mkdir] and [to_file] go through. *)
Variable read_file : string -> option gdf.
Variable to_crs : gdf -> string -> option gdf.
Variable to_file_ok : list (nat * xy coord) -> string -> bool.

Variable splitext : string -> string * string.

(** [load_and_project]: both files are read before the first check on
    their content. *)
Definition load_and_project (fs : store) (aoi_path points_path crs_target_ : string)
  : exn + gdf * gdf :=
  if negb (path_exists fs aoi_path)
  then inl (FileNotFoundError ("No existe AOI: " ++ aoi_path)%string)
  else if negb (path_exists fs points_path)
  then inl (FileNotFoundError ("No existe puntos: " ++ points_path)%string)
  else
    match read_file aoi_path with
    | None => inl (ReadError aoi_path)
    | Some aoi =>
    match read_file points_path with
    | None => inl (ReadError points_path)
    | Some pts =>
        if empty aoi then inl (LoadError "AOI vacío.")
        else if empty pts
        then inl (LoadError "Puntos FIRMS vacío; no se puede construir buffer.")
        else
          match crs_str aoi with
          | None => inl (LoadError "AOI sin CRS.")
          | Some aoi_crs =>
          match crs_str pts with
          | None => inl (LoadError "Puntos sin CRS.")
          | Some pts_crs =>
              match (if negb (String.eqb aoi_crs crs_target_)
                     then to_crs aoi crs_target_ else Some aoi) with
              | None => inl TransformError
              | Some aoi =>
              match (if negb (String.eqb pts_crs crs_target_)
                     then to_crs pts crs_target_ else Some pts) with
              | None => inl TransformError
              | Some pts => inr (aoi, pts)
              end end
          end end
    end end.

(** The frame [write_points_shp] builds: [id] from 1, and the points. *)
Definition points_frame (points : list (xy coord)) : list (nat * xy coord) :=
  combine (seq 1 (List.length points)) points.

(** [write_points_shp] on a store [fs]: the path written and returned,
    or the error of the write.  [None] stands for a version search
    that does not return. *)
Definition write_points_shp (fs : store) (points : list (xy coord)) (out_path_ : string)
    (version : bool) : option (exn + string) :=
  match (if version then next_version_path_suffix_1 splitext fs out_path_
         else Some out_path_) with
  | None => None
  | Some final =>
      Some (if to_file_ok (points_frame points) final then inr final
            else inl (WriteError final))
  end.

(** [run_random_absence_sampling] on a store [fs], in a world [w] of
    generators: what it raises, or the summary with the frame it
    writes; [None] stands for a version search that does not
    return. *)
Definition run_random_absence_sampling (fs : store)
    (aoi_path points_path out_path_ crs_target_ : string) (buffer_m_ : coord)
    (n_points seed_ max_attempts_factor : Z) (w : world rng_state)
  : option (exn + SamplingSummary coord * list (nat * xy coord)) :=
  match load_and_project fs aoi_path points_path crs_target_ with
  | inl e => Some (inl e)
  | inr (aoi, pts) =>
  match build_allowed_zone coord geom unary_union buffer difference is_empty
          (geometry aoi) (geometry_points pts) buffer_m_ with
  | inl e => Some (inl (Raised e))
  | inr allowed =>
  match fst (generate_random_points_in_geom coord rng_state seeded next_uniform
               finite_range geom bounds contains
               allowed n_points seed_ max_attempts_factor w) with
  | inl e => Some (inl (Raised e))
  | inr rand_points =>
  match write_points_shp fs rand_points out_path_ true with
  | None => None
  | Some (inl e) => Some (inl e)
  | Some (inr final_out) =>
      Some (inr ({| n_requested := n_points;
                    n_generated := List.length rand_points;
                    buffer_m := buffer_m_;
                    seed := seed_;
                    crs_target := crs_target_;
                    geom_type_allowed := geom_type allowed;
                    out_path := final_out |},
                 points_frame rand_points))
  end end end end.

Lemma map_fst_combine {A B : Type} (l : list A) (l' : list B) :
  List.length l = List.length l' -> map fst (combine l l') = l.
Proof.
  revert l'. induction l as [|a l IH]; intros [|b l'] H; simpl; try discriminate.
  - reflexivity.
  - f_equal. apply IH. now injection H.
Qed.

Hypothesis splitext_join : forall p, (fst (splitext p) ++ snd (splitext p))%string = p.

(** X12. [run_random_absence_sampling] always returns.  A missing AOI
    file is reported first and a missing points file second.  On
    success both files exist, [n_requested] is [n_points],
    [n_generated] is [max 0 n_points], the points written are numbered
    [1..n_generated], the output path did not exist, and it is
    [out_path] exactly when that was free. *)
Theorem sampling_run_summary (fs : store)
    (aoi_path points_path out_path_ crs_target_ : string) (buffer_m_ : coord)
    (n_points seed_ max_attempts_factor : Z) (w : world rng_state) :
  exists r,
    run_random_absence_sampling fs aoi_path points_path out_path_ crs_target_
      buffer_m_ n_points seed_ max_attempts_factor w = Some r
    /\ (path_exists fs aoi_path = false ->
        r = inl (FileNotFoundError ("No existe AOI: " ++ aoi_path)%string))
    /\ (path_exists fs aoi_path = true -> path_exists fs points_path = false ->
        r = inl (FileNotFoundError ("No existe puntos: " ++ points_path)%string))
    /\ forall s written, r = inr (s, written) ->
         path_exists fs aoi_path = true
         /\ path_exists fs points_path = true
         /\ n_requested s = n_points
         /\ Z.of_nat (n_generated s) = Z.max 0 n_points
         /\ List.length written = n_generated s
         /\ map fst written = seq 1 (n_generated s)
         /\ path_exists fs (out_path s) = false
         /\ (out_path s = out_path_ <-> path_exists fs out_path_ = false).
Proof.
  unfold run_random_absence_sampling, load_and_project.
  destruct (path_exists fs aoi_path) eqn:Ea; simpl.
  2:{ eexists. split; [reflexivity|]. split; [reflexivity|].
      split; [discriminate|]. intros s wr H. discriminate. }
  destruct (path_exists fs points_path) eqn:Ep; simpl.
  2:{ eexists. split; [reflexivity|]. split; [discriminate|].
      split; [reflexivity|]. intros s wr H. discriminate. }
  assert (Hfail : forall e : exn,
            exists r : exn + SamplingSummary coord * list (nat * xy coord),
              Some (@inl exn (SamplingSummary coord * list (nat * xy coord)) e) = Some r
              /\ (true = false -> r = inl (FileNotFoundError ("No existe AOI: " ++ aoi_path)%string))
              /\ (true = true -> true = false ->
                  r = inl (FileNotFoundError ("No existe puntos: " ++ points_path)%string))
              /\ forall s written, r = inr (s, written) ->
                   true = true /\ true = true
                   /\ n_requested s = n_points
                   /\ Z.of_nat (n_generated s) = Z.max 0 n_points
                   /\ List.length written = n_generated s
                   /\ map fst written = seq 1 (n_generated s)
                   /\ path_exists fs (out_path s) = false
                   /\ (out_path s = out_path_ <-> path_exists fs out_path_ = false)).
  { intros e. eexists. split; [reflexivity|]. split; [discriminate|].
    split; [discriminate|]. intros s wr H. discriminate. }
  destruct (read_file aoi_path) as [aoi|]; [|apply Hfail].
  destruct (read_file points_path) as [pts_|]; [|apply Hfail].
  destruct (empty aoi); [apply Hfail|].
  destruct (empty pts_); [apply Hfail|].
  destruct (crs_str aoi) as [aoi_crs|]; [|apply Hfail].
  destruct (crs_str pts_) as [pts_crs|]; [|apply Hfail].
  destruct (if negb (aoi_crs =? crs_target_)%string then to_crs aoi crs_target_ else Some aoi)
    as [aoi'|]; [|apply Hfail].
  destruct (if negb (pts_crs =? crs_target_)%string then to_crs pts_ crs_target_ else Some pts_)
    as [pts'|]; [|apply Hfail].
  destruct (build_allowed_zone _ _ _ _ _ _ _ _ _) as [e|allowed]; [apply Hfail|].
  destruct (fst (generate_random_points_in_geom _ _ _ _ _ _ _ _ _ _ _ _ _))
    as [e|rand_points] eqn:G; [apply Hfail|].
  destruct (resolver_spec fs (suffix_candidate splitext out_path_) 1 out_path_
              (suffix_candidate_inj splitext _)
              (suffix_candidate_fresh splitext splitext_join _)) as [fp [H1 [H2 [H3 _]]]].
  unfold write_points_shp, next_version_path_suffix_1. rewrite H1.
  destruct (to_file_ok _ fp); [|apply Hfail].
  eexists. split; [reflexivity|]. split; [discriminate|]. split; [discriminate|].
  intros s wr H. injection H as <- <-. simpl.
  split; [reflexivity|]. split; [reflexivity|]. split; [reflexivity|].
  split; [exact (proj2 (generate_returns _ _ _ _ _ _ _ _ _ _ _ _ _ _ G))|].
  unfold points_frame.
  split; [rewrite length_combine, length_seq; lia|].
  split; [|split; [exact H2 | exact H3]].
  rewrite map_fst_combine; [reflexivity|]. now rewrite length_seq.
Qed.

End Run.

(** ** A run on the lattice *)

Record sample_layer : Type := {
  layer_crs : option string;
  layer_regions : list lattice_region;
  layer_points : list (Z * Z)
}.

Definition sample_read_file (p : string) : option sample_layer :=
  if String.eqb p "aoi.shp" then
    Some {| layer_crs := Some "EPSG:9377"%string; layer_regions := square_aoi;
            layer_points := [] |}
  else if String.eqb p "firms.shp" then
    Some {| layer_crs := Some "EPSG:4326"%string; layer_regions := [];
            layer_points := hot_spots |}
  else None.

Definition sample_to_crs (g : sample_layer) (c : string) : option sample_layer :=
  Some {| layer_crs := Some c; layer_regions := layer_regions g;
          layer_points := layer_points g |}.

Definition sample_empty (g : sample_layer) : bool :=
  match layer_regions g, layer_points g with
  | [], [] => true
  | _, _ => false
  end.

Definition sample_run (fs : store) (n_points : Z) :=
  run_random_absence_sampling Z Z lcg_seeded lcg_uniform (fun _ _ => true)
    lattice_region lattice_bounds lattice_contains
    (@concat (Z * Z)) lattice_buffer lattice_difference lattice_is_empty
    (fun _ => "MultiPoint"%string)
    sample_layer sample_empty layer_crs layer_regions layer_points
    sample_read_file sample_to_crs (fun _ _ => true) posix_splitext
    fs "aoi.shp" "firms.shp" "abs.shp" "EPSG:9377" 2%Z n_points 42 500 lattice_world.

Example sample_runs :
  (exists s, sample_run ["aoi.shp"; "firms.shp"; "abs.shp"]%string 10
             = Some (inr (s, combine (seq 1 10) sample_10_42_500))
             /\ n_generated s = 10 /\ out_path s = "abs_1.shp"%string)
  /\ sample_run ["firms.shp"]%string 10
     = Some (inl (FileNotFoundError "No existe AOI: aoi.shp"))
  /\ (exists s, sample_run ["aoi.shp"; "firms.shp"]%string (-3)
                = Some (inr (s, [])) /\ n_requested s = (-3)%Z /\ n_generated s = 0).
Proof.
  split; [|split].
  - eexists. split; [vm_compute; reflexivity|]. now split.
  - vm_compute. reflexivity.
  - eexists. split; [vm_compute; reflexivity|]. now split.
Qed.

Lemma sampling_run_summary_witness :
  exists s written,
    sample_run ["aoi.shp"; "firms.shp"; "abs.shp"]%string 10 = Some (inr (s, written))
    /\ Z.of_nat (n_generated s) = 10%Z
    /\ path_exists ["aoi.shp"; "firms.shp"; "abs.shp"]%string (out_path s) = false.
Proof.
  destruct (sampling_run_summary Z Z lcg_seeded lcg_uniform (fun _ _ => true)
              lattice_region lattice_bounds lattice_contains
              (@concat (Z * Z)) lattice_buffer lattice_difference lattice_is_empty
              (fun _ => "MultiPoint"%string)
              sample_layer sample_empty layer_crs layer_regions layer_points
              sample_read_file sample_to_crs (fun _ _ => true)
              posix_splitext posix_splitext_join
              ["aoi.shp"; "firms.shp"; "abs.shp"]%string
              "aoi.shp" "firms.shp" "abs.shp" "EPSG:9377" 2%Z 10%Z 42%Z 500%Z
              lattice_world)%string
    as [r [Hr [_ [_ Hs]]]].
  destruct r as [e | [s w]]; [vm_compute in Hr; discriminate|].
  exists s, w. split; [exact Hr|].
  destruct (Hs s w eq_refl) as [_ [_ [_ [Hn [_ [_ [Hp _]]]]]]].
  split; [exact Hn | exact Hp].
Defined.

End SamplingRun.

(* ------------------------------------------------------------------ *)
(** * The UNGRD filter
    [ungrd_filter.clean_columns], [add_date_parts],
    [normalize_text_col], [normalize_categories], [year_counts],
    [filter_events_deptos], [build_year_summary], [write_excel] and
    [run_ungrd_pipeline]. *)

Module UngrdFilter.

Import PyStr Normalizer Versioning.
Import Merge (value, VNone, VNaN, VNaT, VStr, VObj, py_str).

(** What the pipeline raises.  [MissingColumns missing] is
    [KeyError(f"Faltan columnas para filtrar: {missing}")]; [ReadError]
    stands for whatever [pd.read_excel] raised, [Raised] for what
    pandas raises on a column, [WriteError] for what the write
    raised. *)
Inductive exn : Type :=
| FileNotFoundError (msg : string)
| KeyError (msg : text)
| MissingColumns (missing : list text)
| ReadError (path : string)
| Raised
| WriteError (path : string).

(** A cell: as read from the sheet, a [datetime64] (null: [NaT]), or a
    nullable [Int64] (null: [<NA>]). *)
Inductive cell : Type :=
| Raw (v : value)
| Datetime (t : option Z)
| Int64 (z : option Z).

(** A frame: the labels of its columns, and its rows, each giving the
    cell under a label.  Where several columns carry a label their
    cells are not told apart; selecting such a label does not give a
    column. *)
Record frame : Type := {
  columns : list text;
  rows : list (text -> cell)
}.

Record UNGRDSummary : Type := {
  n_rows_in : nat;
  n_rows_filtered : nat;
  n_nat_dates : nat;
  out_path : string
}.

Definition text_eqb := Columns.text_eqb.

Definition option_bind {A B : Type} (f : A -> option B) (o : option A) : option B :=
  match o with
  | Some a => f a
  | None => None
  end.

(** [col in df.columns] *)
Definition has (df : frame) (col : text) : bool :=
  existsb (text_eqb col) (columns df).

(** [df[col]] where a column is expected: with several columns under
    the label the selection is a frame, and [pd.to_datetime], [.dt],
    [.str] and [groupby] raise on it. *)
Definition getitem (df : frame) (col : text) : option (list cell) :=
  if Nat.eqb (Columns.occ col (columns df)) 1
  then Some (map (fun r => r col) (rows df))
  else None.

(** [df[col] = values]: every column under the label is replaced, and
    a column is added at the end when there is none. *)
Definition setitem (df : frame) (col : text) (values : list cell) : frame :=
  {| columns := if has df col then columns df else columns df ++ [col];
     rows := map (fun rv => fun c => if text_eqb c col then snd rv else fst rv c)
                 (combine (rows df) values) |}.

Definition FECHA : text := ascii_text "FECHA".
Definition EVENTO : text := ascii_text "EVENTO".
Definition DEPARTAMENTO : text := ascii_text "DEPARTAMENTO".
(** [año_UNGRD], [mes_UNGRD], [dia_UNGRD] *)
Definition anio_UNGRD : text := [97; 241; 111; 95; 85; 78; 71; 82; 68]%N.
Definition mes_UNGRD : text := ascii_text "mes_UNGRD".
Definition dia_UNGRD : text := ascii_text "dia_UNGRD".

Section Pipeline.

Variable upper_map : codepoint -> list codepoint.
Variable isspace : codepoint -> bool.

(** [pd.to_datetime(col, dayfirst=..., errors="coerce")] on a column
    ([None] when it raises or gives a column that is not
    [datetime64]), and the fields of a timestamp. *)
Variable to_datetime : bool -> list cell -> option (list (option Z)).
Variable year : Z -> Z.
Variable month : Z -> Z.
Variable day : Z -> Z.

(** [str()] of a timestamp or of an integer cell. *)
Variable render : cell -> text.

(** [pd.read_excel] ([None] when it raises), and whether [mkdir] and
    [to_excel] go through. *)
Variable pd_read_excel : string -> option frame.
Variable to_excel_ok : frame -> string -> bool.
Variable splitext : string -> string * string.

Definition read_excel (fs : store) (path : string) : exn + frame :=
  if negb (path_exists fs path)
  then inl (FileNotFoundError ("No existe el archivo: " ++ path)%string)
  else match pd_read_excel path with
       | Some df => inr df
       | None => inl (ReadError path)
       end.

(** The labels are given as their [str]; the rows are read under the
    stripped labels. *)
Definition clean_columns (df : frame) : frame :=
  {| columns := map (strip isspace) (columns df);
     rows := map (fun r => fun c =>
                    match find (fun l => text_eqb (strip isspace l) c) (columns df) with
                    | Some l => r l
                    | None => r c
                    end) (rows df) |}.

Definition missing_column (col : text) : exn :=
  KeyError (ascii_text "Falta la columna requerida: " ++ col).

Definition is_nat (c : cell) : bool :=
  match c with
  | Datetime None => true
  | _ => false
  end.

Definition is_datetime (c : cell) : bool :=
  match c with
  | Datetime _ => true
  | _ => false
  end.

Definition date_part (part : Z -> Z) (c : cell) : cell :=
  match c with
  | Datetime (Some t) => Int64 (Some (part t))
  | _ => Int64 None
  end.

(** [col.dt.year.astype("Int64")] and the like; [.dt] raises on a
    column that is not [datetime64]. *)
Definition dt_part (part : Z -> Z) (col : list cell) : option (list cell) :=
  if forallb is_datetime col then Some (map (date_part part) col) else None.

Definition add_date_parts (df : frame) (date_col : text) (dayfirst : bool)
    (year_col month_col day_col : text) : exn + frame * nat :=
  if negb (has df date_col) then inl (missing_column date_col)
  else
    match option_bind (to_datetime dayfirst) (getitem df date_col) with
    | None => inl Raised
    | Some dates =>
    let df := setitem df date_col (map Datetime dates) in
    match getitem df date_col with
    | None => inl Raised
    | Some col =>
    let n_nat := List.length (filter is_nat col) in
    match option_bind (dt_part year) (getitem df date_col) with
    | None => inl Raised
    | Some years =>
    let df := setitem df year_col years in
    match option_bind (dt_part month) (getitem df date_col) with
    | None => inl Raised
    | Some months =>
    let df := setitem df month_col months in
    match option_bind (dt_part day) (getitem df date_col) with
    | None => inl Raised
    | Some days =>
    let df := setitem df day_col days in
    inr (df, n_nat)
    end end end end end.

(** [str(cell)] *)
Definition cell_str (c : cell) : text :=
  match c with
  | Raw v => py_str v
  | _ => render c
  end.

Definition normalize_text_col (df : frame) (col : text) : exn + frame :=
  if negb (has df col) then inl (missing_column col)
  else
    match getitem df col with
    | None => inl Raised
    | Some cells =>
        inr (setitem df col
               (map (fun c => Raw (VStr (str_upper upper_map (strip isspace (cell_str c)))))
                    cells))
    end.

Fixpoint normalize_categories (df : frame) (cols : list text) : exn + frame :=
  match cols with
  | [] => inr df
  | c :: rest =>
      match normalize_text_col df c with
      | inl e => inl e
      | inr df2 => normalize_categories df2 rest
      end
  end.

(** The group key of a cell of an [Int64] column, which is what the
    pipeline groups by; null cells are in no group. *)
Definition group_key (c : cell) : option Z :=
  match c with
  | Int64 z => z
  | _ => None
  end.

Fixpoint somes {A : Type} (l : list (option A)) : list A :=
  match l with
  | [] => []
  | Some x :: rest => x :: somes rest
  | None :: rest => somes rest
  end.

Definition count (k : Z) (keys : list Z) : nat :=
  List.length (filter (Z.eqb k) keys).

(** [groupby(col).size()] of a column of keys: the distinct keys in
    ascending order, each with the number of its rows. *)
Definition size_by (keys : list Z) : list (Z * nat) :=
  map (fun k => (k, count k keys)) (PySort.stable_sort Z.leb (nodup Z.eq_dec keys)).

Definition year_counts (df : frame) (year_col : text) : exn + list (Z * nat) :=
  if negb (has df year_col)
  then inl (KeyError (ascii_text "Falta la columna: " ++ year_col))
  else
    match getitem df year_col with
    | None => inl Raised
    | Some cells => inr (size_by (somes (map group_key cells)))
    end.

(** [Series.isin(values)] for a list of [str]. *)
Definition isin (c : cell) (values : list text) : bool :=
  match c with
  | Raw (VStr s) => existsb (text_eqb s) values
  | _ => false
  end.

(** [filter_events_deptos] where each of the two labels is carried by
    one column.  On the other frames [normalize_categories] has raised
    before the pipeline gets here, and [Raised] stands for them. *)
Definition filter_events_deptos (df : frame) (eventos deptos : list text)
    (col_evento col_depto : text) : exn + frame :=
  let missing := filter (fun c => negb (has df c)) [col_evento; col_depto] in
  match missing with
  | [] =>
      match getitem df col_evento, getitem df col_depto with
      | Some _, Some _ =>
          let ev := map (fun x => str_upper upper_map (strip isspace x)) eventos in
          let dp := map (fun x => str_upper upper_map (strip isspace x)) deptos in
          inr {| columns := columns df;
                 rows := filter (fun r => isin (r col_evento) ev && isin (r col_depto) dp)
                                (rows df) |}
      | _, _ => inl Raised
      end
  | _ => inl (MissingColumns missing)
  end.

(** The value of a count series at a key, 0 after [fillna(0)]. *)
Definition lookup (s : list (Z * nat)) (k : Z) : nat :=
  match find (fun kv => Z.eqb (fst kv) k) s with
  | Some kv => snd kv
  | None => 0
  end.

(** [build_year_summary]: one row per key of either series, in
    ascending order: the key, [registros_totales],
    [registros_filtrados]. *)
Definition build_year_summary (total_counts filtered_counts : list (Z * nat))
  : list (Z * nat * nat) :=
  map (fun k => (k, lookup total_counts k, lookup filtered_counts k))
      (PySort.stable_sort Z.leb
         (nodup Z.eq_dec (map fst total_counts ++ map fst filtered_counts))).

(** [write_excel] on a store [fs]: the path written and returned, or
    the error of the write.  [None] stands for a version search that
    does not return. *)
Definition write_excel (fs : store) (df : frame) (out_path_ : string) (version : bool)
  : option (exn + string) :=
  match (if version then next_version_path splitext fs out_path_ else Some out_path_) with
  | None => None
  | Some final_path =>
      Some (if to_excel_ok df final_path then inr final_path
            else inl (WriteError final_path))
  end.

(** [run_ungrd_pipeline] on a store [fs]: what it raises, or the
    filtered frame, the table by year and the summary. *)
Definition run_ungrd_pipeline (fs : store) (in_path out_path_ : string)
    (eventos_interes deptos_interes : list text) (dayfirst version_out : bool)
  : option (exn + frame * list (Z * nat * nat) * UNGRDSummary) :=
  match read_excel fs in_path with
  | inl e => Some (inl e)
  | inr df =>
  let df := clean_columns df in
  match add_date_parts df FECHA dayfirst anio_UNGRD mes_UNGRD dia_UNGRD with
  | inl e => Some (inl e)
  | inr (df, n_nat) =>
  match normalize_categories df [EVENTO; DEPARTAMENTO] with
  | inl e => Some (inl e)
  | inr df =>
  match year_counts df anio_UNGRD with
  | inl e => Some (inl e)
  | inr total_counts =>
  match filter_events_deptos df eventos_interes deptos_interes EVENTO DEPARTAMENTO with
  | inl e => Some (inl e)
  | inr df_filtered =>
  match year_counts df_filtered anio_UNGRD with
  | inl e => Some (inl e)
  | inr filtered_counts =>
  let year_table := build_year_summary total_counts filtered_counts in
  match write_excel fs df_filtered out_path_ version_out with
  | None => None
  | Some (inl e) => Some (inl e)
  | Some (inr final_out) =>
      Some (inr (df_filtered, year_table,
                 {| n_rows_in := List.length (rows df);
                    n_rows_filtered := List.length (rows df_filtered);
                    n_nat_dates := n_nat;
                    out_path := final_out |}))
  end end end end end end end.

(** ** Columns of a frame *)

Lemma length_setitem (df : frame) (col : text) (values : list cell) :
  List.length values = List.length (rows df) ->
  List.length (rows (setitem df col values)) = List.length (rows df).
Proof. intros H. unfold setitem. simpl. rewrite length_map, length_combine. lia. Qed.

Lemma map_combine_snd {A B : Type} (l : list A) (l' : list B) :
  List.length l' = List.length l -> map snd (combine l l') = l'.
Proof.
  revert l'. induction l as [|a l IH]; intros [|b l'] H; simpl in *; try discriminate.
  - reflexivity.
  - f_equal. apply IH. now injection H.
Qed.

Lemma map_combine_fst {A B : Type} (l : list A) (l' : list B) :
  List.length l' = List.length l -> map fst (combine l l') = l.
Proof.
  revert l'. induction l as [|a l IH]; intros [|b l'] H; simpl in *; try discriminate.
  - reflexivity.
  - f_equal. apply IH. now injection H.
Qed.

(** What is read under a label after it was written. *)
Lemma getitem_setitem_same (df : frame) (col : text) (values cells : list cell) :
  List.length values = List.length (rows df) ->
  getitem (setitem df col values) col = Some cells -> cells = values.
Proof.
  intros L. unfold getitem. destruct (Nat.eqb _ 1); [|discriminate].
  intros H. injection H as <-. unfold setitem. simpl. rewrite map_map.
  rewrite <- (map_combine_snd (rows df) values L) at 2.
  apply map_ext. intros rv. unfold text_eqb. now rewrite Columns.text_eqb_refl.
Qed.

Lemma occ_app (c : text) (l1 l2 : list text) :
  Columns.occ c (l1 ++ l2) = Columns.occ c l1 + Columns.occ c l2.
Proof. unfold Columns.occ. now rewrite filter_app, length_app. Qed.

(** What is read under another label does not change. *)
Lemma getitem_setitem_other (df : frame) (col c : text) (values : list cell) :
  c <> col -> List.length values = List.length (rows df) ->
  getitem (setitem df col values) c = getitem df c.
Proof.
  intros Hne L. unfold getitem.
  assert (F : Columns.text_eqb c col = false) by now apply Columns.text_eqb_neq.
  assert (O : Columns.occ c (columns (setitem df col values)) = Columns.occ c (columns df)).
  { unfold setitem. simpl. destruct (has df col); [reflexivity|].
    rewrite occ_app. unfold Columns.occ at 2. simpl. rewrite F. simpl. lia. }
  rewrite O. destruct (Nat.eqb _ 1); [|reflexivity]. f_equal.
  unfold setitem. simpl. rewrite map_map.
  rewrite <- (map_combine_fst (rows df) values L) at 2. rewrite map_map.
  apply map_ext. intros rv. unfold text_eqb. now rewrite F.
Qed.

Lemma getitem_length (df : frame) (col : text) (cells : list cell) :
  getitem df col = Some cells -> List.length cells = List.length (rows df).
Proof.
  unfold getitem. destruct (Nat.eqb _ 1); [|discriminate].
  intros H. injection H as <-. apply length_map.
Qed.

Lemma getitem_rows (df : frame) (col : text) (cells : list cell) :
  getitem df col = Some cells -> cells = map (fun r => r col) (rows df).
Proof.
  unfold getitem. destruct (Nat.eqb _ 1); [|discriminate].
  intros H. now injection H as <-.
Qed.

Lemma dt_part_datetime (part : Z -> Z) (dates : list (option Z)) :
  dt_part part (map Datetime dates)
  = Some (map (fun d => Int64 (option_map part d)) dates).
Proof.
  unfold dt_part.
  replace (forallb is_datetime (map Datetime dates)) with true
    by (symmetry; apply forallb_forall; intros c Hc;
        apply in_map_iff in Hc as [d [<- _]]; reflexivity).
  rewrite map_map. f_equal. apply map_ext. now intros [t|].
Qed.

Lemma normalize_text_col_inr (df df' : frame) (col : text) :
  normalize_text_col df col = inr df' ->
  exists values, df' = setitem df col values
                 /\ List.length values = List.length (rows df).
Proof.
  unfold normalize_text_col. destruct (negb (has df col)); [discriminate|].
  destruct (getitem df col) as [cells|] eqn:G; [|discriminate].
  intros H. injection H as <-. eexists. split; [reflexivity|].
  rewrite length_map. exact (getitem_length _ _ _ G).
Qed.

Lemma labels_distinct :
  FECHA <> anio_UNGRD /\ FECHA <> mes_UNGRD /\ FECHA <> dia_UNGRD
  /\ anio_UNGRD <> mes_UNGRD /\ anio_UNGRD <> dia_UNGRD
  /\ anio_UNGRD <> EVENTO /\ anio_UNGRD <> DEPARTAMENTO.
Proof. repeat split; intros H; vm_compute in H; discriminate. Qed.

Lemma length_somes_filter {A : Type} (l : list (option A)) :
  List.length (somes l)
  + List.length (filter (fun o => match o with None => true | Some _ => false end) l)
  = List.length l.
Proof.
  induction l as [|[x|] l IH]; simpl; lia.
Qed.

(** ** Counting by key *)

Lemma count_cons (k x : Z) (keys : list Z) :
  count k (x :: keys) = (if Z.eqb k x then 1 else 0) + count k keys.
Proof. unfold count. simpl. now destruct (Z.eqb k x). Qed.

Lemma sum_indicator (x : Z) (ks : list Z) :
  NoDup ks -> In x ks ->
  list_sum (map (fun k => if Z.eqb k x then 1 else 0) ks) = 1.
Proof.
  induction 1 as [|k ks Hk Hnd IH]; intros Hin; [contradiction|].
  simpl. destruct Hin as [->|Hin].
  - rewrite Z.eqb_refl.
    assert (Z0 : list_sum (map (fun k => if Z.eqb k x then 1 else 0) ks) = 0).
    { clear IH Hnd. induction ks as [|y ks IH]; [reflexivity|]. simpl.
      destruct (Z.eqb y x) eqn:E.
      - apply Z.eqb_eq in E. subst. exfalso. apply Hk. now left.
      - apply IH. intros H. apply Hk. now right. }
    lia.
  - destruct (Z.eqb k x) eqn:E.
    + apply Z.eqb_eq in E. subst. contradiction.
    + now apply IH.
Qed.

Lemma sum_counts (keys ks : list Z) :
  NoDup ks -> (forall x, In x keys -> In x ks) ->
  list_sum (map (fun k => count k keys) ks) = List.length keys.
Proof.
  intros Hnd. induction keys as [|x keys IH]; intros Hin.
  - unfold count. simpl. clear. induction ks as [|k ks IHk]; [reflexivity | exact IHk].
  - assert (E : list_sum (map (fun k => count k (x :: keys)) ks)
                = list_sum (map (fun k => if Z.eqb k x then 1 else 0) ks)
                  + list_sum (map (fun k => count k keys) ks)).
    { clear. induction ks as [|k ks IHk]; [reflexivity|].
      simpl map. simpl list_sum. rewrite IHk, count_cons. lia. }
    rewrite E, IH by (intros; apply Hin; now right).
    rewrite (sum_indicator x ks Hnd) by (apply Hin; now left). reflexivity.
Qed.

Lemma count_In (k : Z) (keys : list Z) : In k keys <-> 1 <= count k keys.
Proof.
  unfold count. split.
  - intros H. assert (Hf : In k (filter (Z.eqb k) keys))
      by (apply filter_In; split; [exact H | apply Z.eqb_refl]).
    destruct (filter (Z.eqb k) keys); [contradiction | simpl; lia].
  - intros H. destruct (filter (Z.eqb k) keys) as [|x l] eqn:F; [simpl in H; lia|].
    assert (Hx : In x (filter (Z.eqb k) keys)) by (rewrite F; now left).
    apply filter_In in Hx as [Hx E]. apply Z.eqb_eq in E. now subst.
Qed.

Lemma lookup_map (g : Z -> nat) (ks : list Z) (k : Z) :
  lookup (map (fun k => (k, g k)) ks) k = if existsb (Z.eqb k) ks then g k else 0.
Proof.
  unfold lookup. induction ks as [|x ks IH]; simpl; [reflexivity|].
  rewrite (Z.eqb_sym k x). destruct (Z.eqb x k) eqn:E; simpl.
  - apply Z.eqb_eq in E. now subst.
  - exact IH.
Qed.

Lemma keys_size_by (keys : list Z) (k : Z) :
  In k (map fst (size_by keys)) <-> In k keys.
Proof.
  unfold size_by. rewrite map_map. simpl. rewrite map_id.
  rewrite PySort.stable_sort_In. apply nodup_In.
Qed.

Lemma lookup_size_by (keys : list Z) (k : Z) :
  lookup (size_by keys) k = count k keys.
Proof.
  unfold size_by. rewrite lookup_map.
  destruct (existsb (Z.eqb k) _) eqn:E; [reflexivity|].
  destruct (count k keys) eqn:C; [reflexivity|].
  assert (Hin : In k keys) by (apply count_In; lia).
  assert (X : existsb (Z.eqb k) (PySort.stable_sort Z.leb (nodup Z.eq_dec keys)) = true).
  { apply existsb_exists. exists k. split; [|apply Z.eqb_refl].
    apply PySort.stable_sort_In. now apply nodup_In. }
  congruence.
Qed.

Lemma Z_leb_total (a b : Z) : Z.leb a b = true \/ Z.leb b a = true.
Proof. rewrite !Z.leb_le. lia. Qed.

Lemma Z_leb_trans (a b c : Z) : Z.leb a b = true -> Z.leb b c = true -> Z.leb a c = true.
Proof. rewrite !Z.leb_le. lia. Qed.

Lemma sorted_keys_strict (l : list Z) :
  StronglySorted Z.lt (PySort.stable_sort Z.leb (nodup Z.eq_dec l)).
Proof.
  assert (Hs : StronglySorted (fun a b => Z.leb a b = true)
                 (PySort.stable_sort Z.leb (nodup Z.eq_dec l)))
    by (apply PySort.stable_sort_sorted; [apply Z_leb_total | apply Z_leb_trans]).
  assert (Hnd : NoDup (PySort.stable_sort Z.leb (nodup Z.eq_dec l))).
  { apply (Permutation_NoDup (Permutation_sym (PySort.stable_sort_perm Z.leb _))).
    apply NoDup_nodup. }
  revert Hs Hnd. generalize (PySort.stable_sort Z.leb (nodup Z.eq_dec l)).
  intros s. induction 1 as [|x s Hs IH Hx]; intros Hnd; constructor.
  - apply IH. now inversion Hnd.
  - rewrite Forall_forall in *. intros y Hy. specialize (Hx y Hy).
    apply Z.leb_le in Hx. inversion Hnd as [|? ? Hnin _]; subst.
    assert (x <> y) by (intros ->; contradiction). lia.
Qed.

Lemma count_somes_filter {A : Type} (g : A -> option Z) (P : A -> bool)
    (l : list A) (k : Z) :
  count k (somes (map g (filter P l))) <= count k (somes (map g l)).
Proof.
  induction l as [|x l IH]; simpl; [lia|].
  destruct (P x); simpl.
  - destruct (g x) as [y|]; [|exact IH]. rewrite !count_cons. lia.
  - destruct (g x) as [y|]; [|exact IH]. rewrite count_cons. lia.
Qed.

Lemma In_somes_filter {A : Type} (g : A -> option Z) (P : A -> bool)
    (l : list A) (k : Z) :
  In k (somes (map g (filter P l))) -> In k (somes (map g l)).
Proof.
  intros H. apply count_In. apply count_In in H.
  pose proof (count_somes_filter g P l k). lia.
Qed.

Lemma length_somes_le {A : Type} (l : list (option A)) :
  List.length (somes l) <= List.length l.
Proof. induction l as [|[x|] l IH]; simpl; lia. Qed.

(** The table of two count series of which the second counts a part
    of the rows of the first. *)
Lemma build_year_summary_counts {A : Type} (g : A -> option Z) (P : A -> bool)
    (l : list A) :
  let total := somes (map g l) in
  let part := somes (map g (filter P l)) in
  let table := build_year_summary (size_by total) (size_by part) in
  StronglySorted Z.lt (map (fun r => fst (fst r)) table)
  /\ list_sum (map (fun r => snd (fst r)) table) = List.length total
  /\ list_sum (map snd table) = List.length part
  /\ forall k t f, In (k, t, f) table ->
       In k total /\ t = count k total /\ f = count k part /\ 1 <= t /\ f <= t.
Proof.
  cbv zeta. unfold build_year_summary.
  set (total := somes (map g l)). set (part := somes (map g (filter P l))).
  set (ks := PySort.stable_sort Z.leb
               (nodup Z.eq_dec (map fst (size_by total) ++ map fst (size_by part)))).
  assert (Hks : forall k, In k ks <-> In k total).
  { intros k. unfold ks. rewrite PySort.stable_sort_In, nodup_In, in_app_iff.
    rewrite !keys_size_by. split; [|auto].
    intros [H|H]; [exact H | now apply (In_somes_filter g P l)]. }
  assert (Hnd : NoDup ks).
  { apply (Permutation_NoDup (Permutation_sym (PySort.stable_sort_perm Z.leb _))).
    apply NoDup_nodup. }
  rewrite !map_map. simpl.
  split; [rewrite map_id; apply sorted_keys_strict|].
  split.
  { erewrite map_ext by (intros k; apply lookup_size_by).
    apply sum_counts; [exact Hnd | intros x Hx; now apply Hks]. }
  split.
  { erewrite map_ext by (intros k; apply lookup_size_by).
    apply sum_counts; [exact Hnd|]. intros x Hx. apply Hks.
    now apply (In_somes_filter g P l). }
  intros k t f Hin. apply in_map_iff in Hin as [k' [E Hk']].
  injection E as -> <- <-. rewrite !lookup_size_by.
  apply Hks in Hk'. split; [exact Hk'|]. split; [reflexivity|]. split; [reflexivity|].
  split; [now apply count_In | apply (count_somes_filter g P l)].
Qed.

(** ** Under the contracts of the library calls *)

Hypothesis to_datetime_length :
  forall dayfirst col dates,
    to_datetime dayfirst col = Some dates -> List.length dates = List.length col.
Hypothesis splitext_join : forall p, (fst (splitext p) ++ snd (splitext p))%string = p.

(** The frame after [add_date_parts] on the labels of the pipeline. *)
Lemma add_date_parts_inr (df df' : frame) (dayfirst : bool) (n_nat : nat) :
  add_date_parts df FECHA dayfirst anio_UNGRD mes_UNGRD dia_UNGRD = inr (df', n_nat) ->
  exists col dates,
    getitem df FECHA = Some col
    /\ to_datetime dayfirst col = Some dates
    /\ n_nat = List.length (filter (fun d => match d with None => true | Some _ => false end)
                              dates)
    /\ List.length (rows df') = List.length (rows df)
    /\ forall cells, getitem df' anio_UNGRD = Some cells ->
                     cells = map (fun d => Int64 (option_map year d)) dates.
Proof.
  destruct labels_distinct as [Lfa [Lfm [Lfd [Lam [Lad _]]]]].
  unfold add_date_parts. destruct (negb (has df FECHA)); [discriminate|].
  destruct (getitem df FECHA) as [col|] eqn:G1; [|discriminate]. cbn [option_bind].
  destruct (to_datetime dayfirst col) as [dates|] eqn:T; [|discriminate].
  assert (Ld : List.length dates = List.length (rows df))
    by (rewrite (to_datetime_length _ _ _ T); exact (getitem_length _ _ _ G1)).
  set (df2 := setitem df FECHA (map Datetime dates)).
  assert (L2 : List.length (rows df2) = List.length (rows df))
    by (apply length_setitem; now rewrite length_map).
  destruct (getitem df2 FECHA) as [col2|] eqn:G2; [|discriminate].
  assert (E2 : col2 = map Datetime dates)
    by (apply (getitem_setitem_same df FECHA); [now rewrite length_map | exact G2]).
  subst col2. cbn [option_bind]. rewrite dt_part_datetime.
  set (years := map (fun d => Int64 (option_map year d)) dates).
  assert (Ly : List.length years = List.length (rows df2))
    by (unfold years; rewrite length_map; lia).
  set (df3 := setitem df2 anio_UNGRD years).
  assert (L3 : List.length (rows df3) = List.length (rows df2)) by now apply length_setitem.
  assert (G3 : getitem df3 FECHA = Some (map Datetime dates))
    by (unfold df3; rewrite getitem_setitem_other; assumption).
  rewrite G3. cbn [option_bind]. rewrite dt_part_datetime.
  set (months := map (fun d => Int64 (option_map month d)) dates).
  assert (Lm : List.length months = List.length (rows df3))
    by (unfold months; rewrite length_map; lia).
  set (df4 := setitem df3 mes_UNGRD months).
  assert (L4 : List.length (rows df4) = List.length (rows df3)) by now apply length_setitem.
  assert (G4 : getitem df4 FECHA = Some (map Datetime dates))
    by (unfold df4; rewrite getitem_setitem_other; assumption).
  rewrite G4. cbn [option_bind]. rewrite dt_part_datetime.
  set (days := map (fun d => Int64 (option_map day d)) dates).
  assert (Ldy : List.length days = List.length (rows df4))
    by (unfold days; rewrite length_map; lia).
  intros H. injection H as <- <-.
  exists col, dates. split; [reflexivity|]. split; [exact T|]. split.
  { rewrite Match.filter_map_comm, length_map. reflexivity. }
  split; [rewrite length_setitem by exact Ldy; lia|].
  intros cells Hc.
  rewrite getitem_setitem_other in Hc by assumption.
  unfold df4 in Hc. rewrite getitem_setitem_other in Hc by assumption.
  now apply (getitem_setitem_same df2 anio_UNGRD).
Qed.

(** X13. When [run_ungrd_pipeline] completes, [n_rows_in] is the number
    of rows read, [n_nat_dates] the number of cells of [FECHA] that
    [pd.to_datetime] made [NaT], and [n_rows_filtered <= n_rows_in].
    The years of the table are strictly ascending,
    [registros_totales] adds up to the dated rows,
    [registros_filtrados] to at most [n_rows_filtered], every year has
    [1 <= registros_totales] and
    [registros_filtrados <= registros_totales], and with [version_out]
    the path written did not exist. *)
Theorem ungrd_pipeline_counts (fs : store) (in_path out_path_ : string)
    (eventos_interes deptos_interes : list text) (dayfirst version_out : bool)
    (df_filtered : frame) (year_table : list (Z * nat * nat)) (s : UNGRDSummary) :
  run_ungrd_pipeline fs in_path out_path_ eventos_interes deptos_interes
    dayfirst version_out = Some (inr (df_filtered, year_table, s)) ->
  exists df0 col dates,
    pd_read_excel in_path = Some df0
    /\ getitem (clean_columns df0) FECHA = Some col
    /\ to_datetime dayfirst col = Some dates
    /\ n_rows_in s = List.length (rows df0)
    /\ n_nat_dates s
       = List.length (filter (fun d => match d with None => true | Some _ => false end)
                        dates)
    /\ n_rows_filtered s = List.length (rows df_filtered)
    /\ n_rows_filtered s <= n_rows_in s
    /\ StronglySorted Z.lt (map (fun r => fst (fst r)) year_table)
    /\ list_sum (map (fun r => snd (fst r)) year_table) + n_nat_dates s = n_rows_in s
    /\ list_sum (map snd year_table) <= n_rows_filtered s
    /\ (forall k t f, In (k, t, f) year_table -> 1 <= t /\ f <= t)
    /\ (if version_out then path_exists fs (out_path s) = false
        else out_path s = out_path_).
Proof.
  destruct labels_distinct as [_ [_ [_ [_ [_ [Le Lp]]]]]].
  unfold run_ungrd_pipeline, read_excel.
  destruct (negb (path_exists fs in_path)); [discriminate|].
  destruct (pd_read_excel in_path) as [df0|] eqn:R; [|discriminate].
  cbv zeta.
  destruct (add_date_parts (clean_columns df0) FECHA dayfirst anio_UNGRD mes_UNGRD dia_UNGRD)
    as [e|[df5 n_nat]] eqn:A; [discriminate|].
  destruct (add_date_parts_inr _ _ _ _ A) as [col [dates [G1 [T [Nn [L5 Hy]]]]]].
  assert (Ld : List.length dates = List.length (rows df0)).
  { rewrite (to_datetime_length _ _ _ T), (getitem_length _ _ _ G1).
    unfold clean_columns. simpl. apply length_map. }
  assert (L50 : List.length (rows df5) = List.length (rows df0))
    by (rewrite L5; unfold clean_columns; simpl; apply length_map).
  simpl normalize_categories.
  destruct (normalize_text_col df5 EVENTO) as [e|df6] eqn:N6; [discriminate|].
  destruct (normalize_text_col df6 DEPARTAMENTO) as [e|df7] eqn:N7; [discriminate|].
  destruct (normalize_text_col_inr _ _ _ N6) as [v6 [E6 L6]].
  destruct (normalize_text_col_inr _ _ _ N7) as [v7 [E7 L7]].
  assert (Ln : List.length (rows df7) = List.length (rows df0)).
  { rewrite E7, length_setitem by exact L7. rewrite E6, length_setitem by exact L6.
    exact L50. }
  unfold year_counts at 1.
  destruct (negb (has df7 anio_UNGRD)); [discriminate|].
  destruct (getitem df7 anio_UNGRD) as [cells|] eqn:G7; [|discriminate].
  assert (Ec : cells = map (fun d => Int64 (option_map year d)) dates).
  { apply Hy. rewrite <- G7, E7, getitem_setitem_other by assumption.
    rewrite E6, getitem_setitem_other by assumption. reflexivity. }
  pose proof (getitem_rows _ _ _ G7) as Er.
  unfold filter_events_deptos.
  destruct (filter _ [EVENTO; DEPARTAMENTO]); [|discriminate].
  destruct (getitem df7 EVENTO); [|discriminate].
  destruct (getitem df7 DEPARTAMENTO); [|discriminate].
  set (P := fun r : text -> cell =>
              isin (r EVENTO) (map (fun x => str_upper upper_map (strip isspace x))
                                   eventos_interes)
              && isin (r DEPARTAMENTO) (map (fun x => str_upper upper_map (strip isspace x))
                                            deptos_interes)).
  unfold year_counts, has, getitem. cbn [columns rows].
  destruct (negb (existsb (text_eqb anio_UNGRD) (columns df7))); [discriminate|].
  destruct (Nat.eqb (Columns.occ anio_UNGRD (columns df7)) 1); [|discriminate].
  destruct (write_excel fs _ out_path_ version_out) as [[e|final_out]|] eqn:W;
    [discriminate | | discriminate].
  intros H. injection H as <- <- <-.
  cbn [n_rows_in n_rows_filtered n_nat_dates out_path rows columns].
  exists df0, col, dates. split; [reflexivity|]. split; [exact G1|]. split; [exact T|].
  split; [exact Ln|]. split; [exact Nn|]. split; [reflexivity|].
  pose proof (filter_length_le P (rows df7)) as Lf.
  split; [lia|].
  destruct (build_year_summary_counts (fun r : text -> cell => group_key (r anio_UNGRD))
              P (rows df7)) as [T1 [T2 [T3 T4]]].
  rewrite Er, !map_map.
  split; [exact T1|]. split.
  { rewrite T2, Ln, Nn.
    rewrite <- (map_map (fun r : text -> cell => r anio_UNGRD) group_key), <- Er, Ec.
    pose proof (length_somes_filter
                  (map group_key (map (fun d => Int64 (option_map year d)) dates))) as Hs.
    rewrite !length_map in Hs. rewrite <- Ld, <- Hs. f_equal.
    rewrite map_map, Match.filter_map_comm, length_map.
    f_equal. apply filter_ext. now intros [t|]. }
  split.
  { rewrite T3. etransitivity; [apply length_somes_le|]. now rewrite length_map. }
  split.
  { intros k t f Hin. destruct (T4 k t f Hin) as [_ [_ [_ Hb]]]. exact Hb. }
  unfold write_excel in W. destruct version_out.
  - destruct (resolver_spec fs (merge_candidate splitext out_path_) 2 out_path_
                (merge_candidate_inj splitext _)
                (merge_candidate_fresh splitext splitext_join _)) as [r [H1 [H2 _]]].
    unfold next_version_path in W. rewrite H1 in W.
    destruct (to_excel_ok _ r); [|discriminate]. now injection W as <-.
  - destruct (to_excel_ok _ out_path_); [|discriminate]. now injection W as <-.
Qed.

End Pipeline.

(** ** A small sheet *)

(** Dates written [yyyy-mm-dd], a timestamp given as the number
    [yyyymmdd]. *)
Definition sample_date (c : cell) : option Z :=
  match c with
  | Raw (VStr [y1; y2; y3; y4; 45; m1; m2; 45; d1; d2]%N) =>
      if forallb Merge.is_digit [y1; y2; y3; y4; m1; m2; d1; d2]
      then Some (Z.of_N (((((y1 - 48) * 10 + (y2 - 48)) * 10 + (y3 - 48)) * 10 + (y4 - 48))
                         * 10000
                         + Merge.two_digits m1 m2 * 100 + Merge.two_digits d1 d2))
      else None
  | Datetime t => t
  | _ => None
  end.

Definition sample_to_datetime (dayfirst : bool) (col : list cell) : option (list (option Z)) :=
  Some (map sample_date col).

Definition sample_row (fecha evento depto : string) : text -> cell :=
  fun c =>
    if text_eqb c (ascii_text " FECHA") then Raw (VStr (ascii_text fecha))
    else if text_eqb c (ascii_text "EVENTO") then Raw (VStr (ascii_text evento))
    else if text_eqb c (ascii_text "DEPARTAMENTO ") then Raw (VStr (ascii_text depto))
    else Raw VNaN.

Definition sample_sheet : frame :=
  {| columns := map ascii_text [" FECHA"; "EVENTO"; "DEPARTAMENTO "]%string;
     rows := [sample_row "2019-03-01" "incendio forestal " "Meta";
              sample_row "2019-07-15" "INUNDACION" "META";
              sample_row "sin fecha" "Incendio Forestal" "meta";
              sample_row "2020-01-10" "Incendio Forestal" "Vichada";
              sample_row "2020-02-11" "INCENDIO FORESTAL" "Cesar"]%string |}.

Definition sample_pipeline :=
  run_ungrd_pipeline latin1_upper unicode_isspace sample_to_datetime
    (fun t => t / 10000)%Z (fun t => (t / 100) mod 100)%Z (fun t => t mod 100)%Z
    (fun _ => [])
    (fun p => if String.eqb p "ungrd.xlsx" then Some sample_sheet else None)
    (fun _ _ => true) posix_splitext
    ["ungrd.xlsx"]%string "ungrd.xlsx" "out/filtrado.xlsx"
    [ascii_text "Incendio forestal"] [ascii_text "meta"; ascii_text " vichada"]
    true true.

Example sample_pipeline_run :
  exists df_filtered,
    sample_pipeline
    = Some (inr (df_filtered, [(2019%Z, 2, 1); (2020%Z, 2, 1)],
                 {| n_rows_in := 5; n_rows_filtered := 3; n_nat_dates := 1;
                    out_path := "out/filtrado.xlsx" |}))
    /\ map (fun r => r FECHA) (rows df_filtered)
       = [Datetime (Some 20190301%Z); Datetime None; Datetime (Some 20200110%Z)].
Proof. eexists. split; vm_compute; reflexivity. Qed.

Lemma ungrd_pipeline_counts_witness :
  exists df_filtered year_table s,
    sample_pipeline = Some (inr (df_filtered, year_table, s))
    /\ list_sum (map (fun r => snd (fst r)) year_table) + n_nat_dates s = n_rows_in s
    /\ n_rows_filtered s <= n_rows_in s.
Proof.
  destruct sample_pipeline as [[e | [[df_filtered year_table] s]]|] eqn:R;
    [vm_compute in R; discriminate | | vm_compute in R; discriminate].
  exists df_filtered, year_table, s. split; [reflexivity|].
  destruct (ungrd_pipeline_counts latin1_upper unicode_isspace sample_to_datetime
              (fun t => t / 10000)%Z (fun t => (t / 100) mod 100)%Z (fun t => t mod 100)%Z
              (fun _ => [])
              (fun p => if String.eqb p "ungrd.xlsx" then Some sample_sheet else None)
              (fun _ _ => true) posix_splitext
              ltac:(intros d col dates H; injection H as <-; apply length_map)
              posix_splitext_join
              ["ungrd.xlsx"]%string "ungrd.xlsx"%string "out/filtrado.xlsx"%string
              [ascii_text "Incendio forestal"] [ascii_text "meta"; ascii_text " vichada"]
              true true df_filtered year_table s R)
    as [df0 [col [dates [_ [_ [_ [_ [_ [_ [Hle [_ [Hsum _]]]]]]]]]]]].
  split; [exact Hsum | exact Hle].
Defined.

End UngrdFilter.

(* ------------------------------------------------------------------ *)
(** * Batch clip and batch reprojection
    [shp_clip.load_aoi], [iter_shps], [clip_one_shp], [batch_clip] and
    [shp_reprojector.reproject_one_shp], [batch_reproject_shps]: loops
    that read datasets and write new ones beside them. *)

Module Batch.

Import PyStr Versioning.

(** [s.endswith(suffix)] and [sub in s]. *)
Fixpoint endswith (s suffix : string) : bool :=
  String.eqb s suffix
  || match s with
     | EmptyString => false
     | String _ s' => endswith s' suffix
     end.

Fixpoint contains (s sub : string) : bool :=
  String.prefix sub s
  || match s with
     | EmptyString => false
     | String _ s' => contains s' sub
     end.

Inductive status : Type := OK | NO_INTERSECTION | CLIP_EMPTY | ERROR.

(** [ReadError], [UnionError] and [WriteError] stand for whatever
    [gpd.read_file], [union_all] and [to_file] raised, [TransformError]
    for what [to_crs] raised, [ConsoleError] for what a write of the
    given text to the console raised. *)
Inductive exn : Type :=
| ValueError (msg : string)
| ReadError (path : string)
| UnionError
| TransformError
| WriteError (path : string)
| ConsoleError (text : string).

Record ClipSummary : Type := {
  total : nat;
  clipped_ok : nat;
  no_intersection_or_empty : nat;
  err : nat
}.

Record ReprojectSummary : Type := {
  r_total : nat;
  r_ok : nat;
  r_err : nat
}.

(** What [to_file] does at a path: it completes and the dataset is
    there, or it raises, having left a dataset there or not. *)
Inductive written (file : Type) : Type :=
| Complete (f : file)
| Failed (left : option file).

Arguments Complete {file} _.
Arguments Failed {file} _.

Section Disk.

(** A dataset on disk (a shapefile goes by the path of its [.shp]),
    the frame [gpd.read_file] makes of it ([None] when it raises) and
    what [to_file] makes of a frame at a path. *)
Variable file : Type.
Variable gdf : Type.
Variable decode : file -> option gdf.
Variable to_file : gdf -> string -> written file.

Variable crs : Type.
Variable geom : Type.
Variable empty : gdf -> bool.
Variable crs_of : gdf -> option crs.
(** [gdf.crs != other] *)
Variable crs_differs : option crs -> crs -> bool.
(** [to_crs], [geometry.union_all()], [gdf.intersects(geom).any()] and
    [gpd.clip(gdf, mask)]; [None] when the call raises. *)
Variable to_crs : gdf -> crs -> option gdf.
Variable union_all : gdf -> option geom.
Variable intersects_any : gdf -> geom -> option bool.
Variable clip : gdf -> gdf -> option gdf.

Variable str_lower : string -> string.
Variable dirname : string -> string.
Variable basename : string -> string.
Variable join : string -> string -> string.
Variable splitext : string -> string * string.
(** [os.walk(root)] on the paths of a disk: the directories with their
    file names. *)
Variable os_walk : list string -> string -> list (string * list string).

(** The console of [batch_reproject_shps]: whether [print] of a text
    goes through (it raises on a text that the encoding of the console
    does not have), and whether the progress bar with a description
    can be shown. *)
Variable print_ok : string -> bool.
Variable tqdm_ok : string -> bool.

(** The disk: the datasets by path, the latest write first. *)
Definition disk : Type := list (string * file).

Definition paths (d : disk) : store := map fst d.

Definition lookup (d : disk) (p : string) : option file :=
  option_map snd (find (fun kv => String.eqb (fst kv) p) d).

Definition read_file (d : disk) (p : string) : option gdf :=
  match lookup d p with
  | Some f => decode f
  | None => None
  end.

Definition put (d : disk) (p : string) (f : file) : disk := (p, f) :: d.

(** ** Clip *)

Definition load_aoi (d : disk) (aoi_path : string) : exn + gdf * geom * crs :=
  match read_file d aoi_path with
  | None => inl (ReadError aoi_path)
  | Some aoi =>
      if empty aoi
      then inl (ValueError "El shapefile AOI está vacío o no contiene geometrías."%string)
      else match crs_of aoi with
           | None => inl (ValueError "El AOI no tiene CRS definido."%string)
           | Some c =>
               match union_all aoi with
               | None => inl UnionError
               | Some aoi_union => inr (aoi, aoi_union, c)
               end
           end
  end.

Definition iter_shps (d : disk) (root endswith_ exclude_contains : string) : list string :=
  flat_map (fun df =>
              map (join (fst df))
                  (filter (fun f => endswith (str_lower f) (str_lower endswith_)
                                    && negb (contains f exclude_contains))
                          (snd df)))
           (os_walk (paths d) root).

(** The path a result is written to, before versioning. *)
Definition sibling (in_shp_path suffix : string) : string :=
  let folder := dirname in_shp_path in
  let fname := fst (splitext (basename in_shp_path)) in
  join folder (fname ++ suffix ++ ".shp")%string.

(** [clip_one_shp]: the status, the path written, the disk after;
    [None] stands for a version search that does not return. *)
Definition clip_one_shp (d : disk) (in_shp_path : string) (aoi_gdf : gdf)
    (aoi_union : geom) (aoi_crs : crs) (out_suffix : string) (version : bool)
  : option (status * option string * disk) :=
  match read_file d in_shp_path with
  | None => Some (ERROR, None, d)
  | Some g =>
      if empty g then Some (CLIP_EMPTY, None, d)
      else
        match (if crs_differs (crs_of g) aoi_crs then to_crs g aoi_crs else Some g) with
        | None => Some (ERROR, None, d)
        | Some g =>
            match intersects_any g aoi_union with
            | None => Some (ERROR, None, d)
            | Some false => Some (NO_INTERSECTION, None, d)
            | Some true =>
              match clip g aoi_gdf with
              | None => Some (ERROR, None, d)
              | Some gdf_clip =>
                  if empty gdf_clip then Some (CLIP_EMPTY, None, d)
                  else
                    let out_path := sibling in_shp_path out_suffix in
                    match (if version then next_version_path splitext (paths d) out_path
                           else Some out_path) with
                    | None => None
                    | Some out_path =>
                        match to_file gdf_clip out_path with
                        | Complete f => Some (OK, Some out_path, put d out_path f)
                        | Failed (Some f) => Some (ERROR, None, put d out_path f)
                        | Failed None => Some (ERROR, None, d)
                        end
                    end
              end
            end
        end
  end.

Definition count_status (s : ClipSummary) (st : status) : ClipSummary :=
  let s := {| total := S (total s); clipped_ok := clipped_ok s;
              no_intersection_or_empty := no_intersection_or_empty s; err := err s |} in
  match st with
  | OK => {| total := total s; clipped_ok := S (clipped_ok s);
             no_intersection_or_empty := no_intersection_or_empty s; err := err s |}
  | NO_INTERSECTION | CLIP_EMPTY =>
      {| total := total s; clipped_ok := clipped_ok s;
         no_intersection_or_empty := S (no_intersection_or_empty s); err := err s |}
  | ERROR => {| total := total s; clipped_ok := clipped_ok s;
                no_intersection_or_empty := no_intersection_or_empty s;
                err := S (err s) |}
  end.

(** The loop of [batch_clip] over the paths listed before it starts. *)
Fixpoint clip_loop (shp_paths : list string) (aoi_gdf : gdf) (aoi_union : geom)
    (aoi_crs : crs) (out_suffix : string) (version : bool)
    (summary : ClipSummary) (d : disk) : option (ClipSummary * disk) :=
  match shp_paths with
  | [] => Some (summary, d)
  | shp :: rest =>
      match clip_one_shp d shp aoi_gdf aoi_union aoi_crs out_suffix version with
      | None => None
      | Some (st, _, d') =>
          clip_loop rest aoi_gdf aoi_union aoi_crs out_suffix version
            (count_status summary st) d'
      end
  end.

Definition batch_clip (d : disk) (root_folder aoi_path input_endswith exclude_contains
    out_suffix : string) (version : bool) : option (exn + ClipSummary * disk) :=
  match load_aoi d aoi_path with
  | inl e => Some (inl e)
  | inr (aoi_gdf, aoi_union, aoi_crs) =>
      let shp_paths := iter_shps d root_folder input_endswith exclude_contains in
      match clip_loop shp_paths aoi_gdf aoi_union aoi_crs out_suffix version
              {| total := 0; clipped_ok := 0; no_intersection_or_empty := 0; err := 0 |}
              d with
      | None => None
      | Some r => Some (inr r)
      end
  end.

(** ** Reprojection *)

(** [reproject_one_shp]: the exception or the path returned, and the
    disk after. *)
Definition reproject_one_shp (d : disk) (in_shp_path : string) (target_crs : crs)
    (suffix : string) (version : bool) : option ((exn + string) * disk) :=
  match read_file d in_shp_path with
  | None => Some (inl (ReadError in_shp_path), d)
  | Some g =>
      if empty g then Some (inl (ValueError "El shapefile está vacío."%string), d)
      else match crs_of g with
           | None => Some (inl (ValueError "El shapefile no tiene CRS definido."%string), d)
           | Some _ =>
               match to_crs g target_crs with
               | None => Some (inl TransformError, d)
               | Some gdf_out =>
                   let out_shp_path := sibling in_shp_path suffix in
                   match (if version
                          then next_version_path splitext (paths d) out_shp_path
                          else Some out_shp_path) with
                   | None => None
                   | Some out_shp_path =>
                       match to_file gdf_out out_shp_path with
                       | Complete f => Some (inr out_shp_path, put d out_shp_path f)
                       | Failed (Some f) =>
                           Some (inl (WriteError out_shp_path), put d out_shp_path f)
                       | Failed None => Some (inl (WriteError out_shp_path), d)
                       end
                   end
               end
           end
  end.

Definition counted (summary : ReprojectSummary) (total_ ok_ err_ : nat)
  : ReprojectSummary :=
  {| r_total := r_total summary + total_;
     r_ok := r_ok summary + ok_;
     r_err := r_err summary + err_ |}.

(** One file of the loop.  The [print] of the path written is inside
    the [try], after [summary.ok += 1]: when it raises, the handler
    counts the file in [err] too.  The [print] of the handler is not
    guarded: what it raises leaves the function. *)
Definition reproject_file (d : disk) (in_path : string) (target_crs : crs)
    (suffix : string) (version : bool) (summary : ReprojectSummary)
  : option ((exn + ReprojectSummary) * disk) :=
  let summary := counted summary 1 0 0 in
  match reproject_one_shp d in_path target_crs suffix version with
  | None => None
  | Some (r, d') =>
      let '(summary, handled) :=
        match r with
        | inr out_path =>
            (counted summary 0 1 0, negb (print_ok ("✅ " ++ out_path)))
        | inl _ => (summary, true)
        end in
      if handled then
        let summary := counted summary 0 0 1 in
        let text := ("❌ Error en: " ++ in_path ++ ". Ver log.")%string in
        if print_ok text then Some (inr summary, d')
        else Some (inl (ConsoleError text), d')
      else Some (inr summary, d')
  end.

(** The loop over the files of one directory. *)
Fixpoint reproject_files (in_paths : list string) (target_crs : crs) (suffix : string)
    (version : bool) (summary : ReprojectSummary) (d : disk)
  : option ((exn + ReprojectSummary) * disk) :=
  match in_paths with
  | [] => Some (inr summary, d)
  | in_path :: rest =>
      match reproject_file d in_path target_crs suffix version summary with
      | None => None
      | Some (inl e, d') => Some (inl e, d')
      | Some (inr summary', d') =>
          reproject_files rest target_crs suffix version summary' d'
      end
  end.

(** The files of a directory that the loop takes. *)
Definition shp_files (exclude_if_contains : string) (filenames : list string)
  : list string :=
  filter (fun f => endswith (str_lower f) ".shp"%string
                   && negb (contains f exclude_if_contains))
         filenames.

(** The loop over the directories of the walk.  A directory is listed
    before the loop writes to it; the progress bar of a directory with
    files is shown before its first file is taken, outside the
    [try]. *)
Fixpoint reproject_dirs (walk : list (string * list string)) (target_crs : crs)
    (suffix exclude_if_contains : string) (version : bool)
    (summary : ReprojectSummary) (d : disk)
  : option ((exn + ReprojectSummary) * disk) :=
  match walk with
  | [] => Some (inr summary, d)
  | (dirpath, filenames) :: rest =>
      match shp_files exclude_if_contains filenames with
      | [] => reproject_dirs rest target_crs suffix exclude_if_contains version summary d
      | files =>
          let desc := ("Procesando en " ++ dirpath)%string in
          if tqdm_ok desc then
            match reproject_files (map (join dirpath) files) target_crs suffix version
                    summary d with
            | None => None
            | Some (inl e, d') => Some (inl e, d')
            | Some (inr summary', d') =>
                reproject_dirs rest target_crs suffix exclude_if_contains version
                  summary' d'
            end
          else Some (inl (ConsoleError desc), d)
      end
  end.

(** The files of the walk that the loop takes, directory by
    directory. *)
Definition reproject_inputs (d : disk) (root_folder exclude_if_contains : string)
  : list string :=
  flat_map (fun df => map (join (fst df)) (shp_files exclude_if_contains (snd df)))
           (os_walk (paths d) root_folder).

(** [batch_reproject_shps]: the summary returned or what is raised,
    and the disk after; [None] stands for a version search that does
    not return. *)
Definition batch_reproject_shps (d : disk) (root_folder : string) (target_crs : crs)
    (suffix exclude_if_contains : string) (version : bool)
  : option ((exn + ReprojectSummary) * disk) :=
  reproject_dirs (os_walk (paths d) root_folder) target_crs suffix exclude_if_contains
    version {| r_total := 0; r_ok := 0; r_err := 0 |} d.

(** Every text can be printed, and every progress bar shown. *)
Definition console_ok : Prop :=
  (forall text, print_ok text = true) /\ (forall desc, tqdm_ok desc = true).

(** No write that raises leaves a dataset behind. *)
Definition clean_failures : Prop :=
  forall g p f, to_file g p <> Failed (Some f).

(** ** What a step does to the disk *)

(** The disk after a step: the same, or one more dataset, at a path
    that did not exist when the step is versioned. *)
Definition step (version : bool) (d d' : disk) (wrote : bool) : Prop :=
  if wrote
  then exists p f, d' = (p, f) :: d
                   /\ (version = true -> path_exists (paths d) p = false)
  else d' = d.

(** What a run of steps does: [n] new datasets on top of the disk. *)
Definition grows (version : bool) (d d' : disk) (n : nat) : Prop :=
  exists new,
    d' = new ++ d
    /\ List.length new = n
    /\ (version = true ->
        NoDup (map fst new)
        /\ (forall p, In p (map fst new) -> path_exists (paths d) p = false)
        /\ forall p, lookup d' p = match lookup d p with
                                   | Some f => Some f
                                   | None => lookup new p
                                   end).

Lemma grows_refl (version : bool) (d : disk) : grows version d d 0.
Proof.
  exists []. split; [reflexivity|]. split; [reflexivity|]. intros _.
  split; [constructor|]. split; [intros p []|].
  intros p. simpl. now destruct (lookup d p).
Qed.

Lemma lookup_paths (d : disk) (p : string) :
  path_exists (paths d) p = match lookup d p with Some _ => true | None => false end.
Proof.
  unfold lookup, paths. induction d as [|[q f] d IH]; simpl; [reflexivity|].
  rewrite (String.eqb_sym p q). destruct (String.eqb q p); simpl; [reflexivity | exact IH].
Qed.

Lemma lookup_app (a b : disk) (p : string) :
  lookup (a ++ b) p = match lookup a p with
                      | Some f => Some f
                      | None => lookup b p
                      end.
Proof.
  unfold lookup. induction a as [|[q f] a IH]; simpl; [reflexivity|].
  destruct (String.eqb q p); simpl; [reflexivity | exact IH].
Qed.

Lemma lookup_cons (d : disk) (p q : string) (f : file) :
  lookup ((p, f) :: d) q = if String.eqb p q then Some f else lookup d q.
Proof. unfold lookup. simpl. now destruct (String.eqb p q). Qed.

Lemma lookup_notin (d : disk) (p : string) : ~ In p (map fst d) -> lookup d p = None.
Proof.
  intros H. pose proof (lookup_paths d p) as E.
  destruct (lookup d p); [|reflexivity].
  exfalso. apply H. now apply path_exists_In.
Qed.

Lemma grows_step (version : bool) (d d1 d2 : disk) (n : nat) (wrote : bool) :
  step version d d1 wrote -> grows version d1 d2 n ->
  grows version d d2 (n + if wrote then 1 else 0).
Proof.
  unfold step. destruct wrote.
  - intros [p [f [-> Hfresh]]] [new [-> [Hlen Hver]]].
    exists (new ++ [(p, f)]). split; [now rewrite <- app_assoc|].
    split; [rewrite length_app; simpl; lia|].
    intros Hv. destruct (Hver Hv) as [Hnd [Hnew Hlook]]. specialize (Hfresh Hv).
    assert (Hp : ~ In p (map fst new)).
    { intros Hin. specialize (Hnew p Hin). simpl in Hnew.
      rewrite String.eqb_refl in Hnew. discriminate. }
    split.
    { rewrite map_app. simpl. apply NoDup_app; [exact Hnd | repeat constructor; intros [] |].
      intros x Hx [<-|[]]. contradiction. }
    split.
    { intros q Hq. rewrite map_app in Hq. apply in_app_or in Hq as [Hq|[<-|[]]].
      - specialize (Hnew q Hq). simpl in Hnew. apply orb_false_iff in Hnew.
        exact (proj2 Hnew).
      - exact Hfresh. }
    intros q. rewrite Hlook, lookup_app, !lookup_cons.
    rewrite lookup_paths in Hfresh.
    destruct (String.eqb p q) eqn:E.
    + apply String.eqb_eq in E. subst q.
      destruct (lookup d p); [discriminate|].
      now rewrite (lookup_notin _ _ Hp).
    + destruct (lookup d q); [reflexivity|]. now destruct (lookup new q).
  - intros -> H. now rewrite Nat.add_0_r.
Qed.

Hypothesis splitext_join : forall p, (fst (splitext p) ++ snd (splitext p))%string = p.

Lemma versioned_target (d : disk) (out_path : string) (version : bool) :
  exists r,
    (if version then next_version_path splitext (paths d) out_path else Some out_path)
    = Some r
    /\ (version = true -> path_exists (paths d) r = false).
Proof.
  destruct version.
  - destruct (resolver_spec (paths d) (merge_candidate splitext out_path) 2 out_path
                (merge_candidate_inj splitext _)
                (merge_candidate_fresh splitext splitext_join _)) as [r [H1 [H2 _]]].
    exists r. split; [exact H1 | intros _; exact H2].
  - exists out_path. split; [reflexivity | discriminate].
Qed.

(** The outcome of one file: whether the disk gained a dataset, and
    whether the file counts as done. *)
Definition outcome (version : bool) (d d' : disk) (done wrote : bool) : Prop :=
  step version d d' wrote
  /\ (done = true -> wrote = true)
  /\ (clean_failures -> wrote = done).

Lemma write_outcome (version : bool) (d : disk) (g : gdf) (r : string) :
  (version = true -> path_exists (paths d) r = false) ->
  match to_file g r with
  | Complete f => outcome version d (put d r f) true true
  | Failed (Some f) => outcome version d (put d r f) false true
  | Failed None => outcome version d d false false
  end.
Proof.
  intros Hr. destruct (to_file g r) as [f|[f|]] eqn:W.
  - split; [exists r, f; now split | now split].
  - split; [exists r, f; now split|]. split; [discriminate|].
    intros Hc. exfalso. exact (Hc g r f W).
  - split; [reflexivity | now split].
Qed.

Lemma clip_one_shp_step (d : disk) (in_shp_path : string) (aoi_gdf : gdf)
    (aoi_union : geom) (aoi_crs : crs) (out_suffix : string) (version : bool) :
  exists st out d' wrote,
    clip_one_shp d in_shp_path aoi_gdf aoi_union aoi_crs out_suffix version
    = Some (st, out, d')
    /\ outcome version d d' (match st with OK => true | _ => false end) wrote
    /\ (wrote = true -> st = OK \/ st = ERROR).
Proof.
  unfold clip_one_shp.
  assert (Hno : forall st,
            st <> OK ->
            exists st' out d' wrote,
              Some (st, @None string, d) = Some (st', out, d')
              /\ outcome version d d' (match st' with OK => true | _ => false end) wrote
              /\ (wrote = true -> st' = OK \/ st' = ERROR)).
  { intros st Hst. exists st, None, d, false. split; [reflexivity|]. split.
    - split; [reflexivity|]. split; [destruct st; congruence|].
      intros _. destruct st; congruence.
    - discriminate. }
  destruct (read_file d in_shp_path) as [g|]; [|apply Hno; discriminate].
  destruct (empty g); [apply Hno; discriminate|].
  destruct (if crs_differs (crs_of g) aoi_crs then to_crs g aoi_crs else Some g) as [g'|];
    [|apply Hno; discriminate].
  destruct (intersects_any g' aoi_union) as [[|]|]; try (apply Hno; discriminate).
  destruct (clip g' aoi_gdf) as [gdf_clip|]; [|apply Hno; discriminate].
  destruct (empty gdf_clip); [apply Hno; discriminate|].
  destruct (versioned_target d (sibling in_shp_path out_suffix) version) as [r [-> Hr]].
  pose proof (write_outcome version d gdf_clip r Hr) as Hw.
  destruct (to_file gdf_clip r) as [f|[f|]].
  - exists OK, (Some r), (put d r f), true. split; [reflexivity|]. split; [exact Hw | auto].
  - exists ERROR, None, (put d r f), true. split; [reflexivity|]. split; [exact Hw | auto].
  - exists ERROR, None, d, false. split; [reflexivity|]. split; [exact Hw | auto].
Qed.

Lemma clip_loop_grows (shp_paths : list string) (aoi_gdf : gdf) (aoi_union : geom)
    (aoi_crs : crs) (out_suffix : string) (version : bool)
    (summary : ClipSummary) (d : disk) :
  exists summary' d' n,
    clip_loop shp_paths aoi_gdf aoi_union aoi_crs out_suffix version summary d
    = Some (summary', d')
    /\ total summary' = total summary + List.length shp_paths
    /\ clipped_ok summary' + no_intersection_or_empty summary' + err summary'
       = clipped_ok summary + no_intersection_or_empty summary + err summary
         + List.length shp_paths
    /\ clipped_ok summary <= clipped_ok summary'
    /\ err summary <= err summary'
    /\ grows version d d' n
    /\ clipped_ok summary' - clipped_ok summary <= n
    /\ n <= (clipped_ok summary' - clipped_ok summary) + (err summary' - err summary)
    /\ (clean_failures -> n = clipped_ok summary' - clipped_ok summary).
Proof.
  revert summary d. induction shp_paths as [|shp rest IH]; intros summary d; simpl.
  - exists summary, d, 0. split; [reflexivity|]. repeat split; try lia. apply grows_refl.
  - destruct (clip_one_shp_step d shp aoi_gdf aoi_union aoi_crs out_suffix version)
      as [st [out [d1 [wrote [-> [[Hstep [Hdone Hclean]] Hst]]]]]].
    destruct (IH (count_status summary st) d1)
      as [s' [d' [n [-> [Ht [Hs [Hle [Hle' [Hg [Hn1 [Hn2 Hn3]]]]]]]]]]].
    exists s', d', (n + if wrote then 1 else 0). split; [reflexivity|].
    pose proof (grows_step _ _ _ _ _ _ Hstep Hg) as Hg'.
    assert (Hw : wrote = true -> st = OK \/ st = ERROR) by exact Hst.
    destruct st; simpl in *;
      (split; [lia|]); (split; [lia|]); (split; [lia|]); (split; [lia|]);
      (split; [exact Hg'|]);
      destruct wrote;
      try (specialize (Hdone eq_refl); discriminate);
      try (destruct (Hw eq_refl); discriminate);
      (split; [lia|]); (split; [lia|]);
      intros Hc; specialize (Hn3 Hc); specialize (Hclean Hc); try discriminate; lia.
Qed.

(** X14. [batch_clip] always returns or raises.  On success [total] is
    the number of shapefiles selected and the sum of the three
    counters.  The folder has gained a dataset for each file counted
    in [clipped_ok], and otherwise only what writes that raised have
    left, at most one for each file counted in [err].  With [version]
    the paths gained are new and pairwise different and no dataset
    that was there has changed. *)
Theorem batch_clip_summary (d : disk) (root_folder aoi_path input_endswith
    exclude_contains out_suffix : string) (version : bool) :
  exists r,
    batch_clip d root_folder aoi_path input_endswith exclude_contains out_suffix version
    = Some r
    /\ forall summary d', r = inr (summary, d') ->
         total summary
         = List.length (iter_shps d root_folder input_endswith exclude_contains)
         /\ total summary
            = clipped_ok summary + no_intersection_or_empty summary + err summary
         /\ exists n,
              grows version d d' n
              /\ clipped_ok summary <= n <= clipped_ok summary + err summary
              /\ (clean_failures -> n = clipped_ok summary).
Proof.
  unfold batch_clip.
  destruct (load_aoi d aoi_path) as [e|[[aoi_gdf aoi_union] aoi_crs]].
  { eexists. split; [reflexivity|]. intros s d' H. discriminate. }
  destruct (clip_loop_grows (iter_shps d root_folder input_endswith exclude_contains)
              aoi_gdf aoi_union aoi_crs out_suffix version
              {| total := 0; clipped_ok := 0; no_intersection_or_empty := 0; err := 0 |} d)
    as [s' [d' [n [-> [Ht [Hs [_ [_ [Hg [Hn1 [Hn2 Hn3]]]]]]]]]]].
  eexists. split; [reflexivity|]. intros s d2 H. injection H as <- <-.
  simpl in Ht, Hs, Hn1, Hn2, Hn3.
  split; [lia|]. split; [lia|]. exists n. split; [exact Hg|].
  split; [lia|]. intros Hc. specialize (Hn3 Hc). lia.
Qed.

Lemma reproject_one_shp_step (d : disk) (in_shp_path : string) (target_crs : crs)
    (suffix : string) (version : bool) :
  exists r d' wrote,
    reproject_one_shp d in_shp_path target_crs suffix version = Some (r, d')
    /\ outcome version d d' (match r with inr _ => true | inl _ => false end) wrote.
Proof.
  unfold reproject_one_shp.
  assert (Hno : forall e : exn,
            exists (r : exn + string) d' wrote,
              Some (@inl exn string e, d) = Some (r, d')
              /\ outcome version d d' (match r with inr _ => true | inl _ => false end)
                   wrote).
  { intros e. exists (inl e), d, false. split; [reflexivity|].
    split; [reflexivity | now split]. }
  destruct (read_file d in_shp_path) as [g|]; [|apply Hno].
  destruct (empty g); [apply Hno|].
  destruct (crs_of g); [|apply Hno].
  destruct (to_crs g target_crs) as [gdf_out|]; [|apply Hno].
  destruct (versioned_target d (sibling in_shp_path suffix) version) as [r [-> Hr]].
  pose proof (write_outcome version d gdf_out r Hr) as Hw.
  destruct (to_file gdf_out r) as [f|[f|]].
  - exists (inr r), (put d r f), true. split; [reflexivity | exact Hw].
  - exists (inl (WriteError r)), (put d r f), true. split; [reflexivity | exact Hw].
  - exists (inl (WriteError r)), d, false. split; [reflexivity | exact Hw].
Qed.

Lemma grows_trans (version : bool) (d d1 d2 : disk) (n1 n2 : nat) :
  grows version d d1 n1 -> grows version d1 d2 n2 -> grows version d d2 (n2 + n1).
Proof.
  intros [new1 [-> [L1 V1]]] [new2 [-> [L2 V2]]].
  exists (new2 ++ new1). split; [now rewrite app_assoc|].
  split; [rewrite length_app; lia|].
  intros Hv. destruct (V1 Hv) as [Nd1 [F1 K1]]. destruct (V2 Hv) as [Nd2 [F2 K2]].
  assert (Hfresh : forall p, In p (map fst new2) ->
            ~ In p (map fst new1) /\ path_exists (paths d) p = false).
  { intros p Hp. specialize (F2 p Hp). unfold paths in F2. rewrite map_app in F2.
    split.
    - intros Hin. assert (T : path_exists (map fst new1 ++ map fst d) p = true).
      { apply path_exists_In. apply in_or_app. now left. }
      congruence.
    - destruct (path_exists (paths d) p) eqn:E; [|reflexivity].
      apply path_exists_In in E.
      assert (T : path_exists (map fst new1 ++ map fst d) p = true).
      { apply path_exists_In. apply in_or_app. now right. }
      congruence. }
  split.
  { rewrite map_app. apply NoDup_app; [exact Nd2 | exact Nd1 |].
    intros p Hp Hp1. now destruct (Hfresh p Hp). }
  split.
  { intros p Hp. rewrite map_app in Hp. apply in_app_or in Hp as [Hp|Hp].
    - now destruct (Hfresh p Hp).
    - now apply F1. }
  intros p. rewrite K2, K1, lookup_app.
  destruct (lookup d p) as [f|] eqn:Ed.
  - destruct (lookup new1 p) eqn:E1; [|reflexivity].
    exfalso.
    assert (Hin : In p (map fst new1)).
    { apply path_exists_In. change (map fst new1) with (paths new1).
      rewrite (lookup_paths new1 p). now rewrite E1. }
    specialize (F1 p Hin). rewrite lookup_paths, Ed in F1. discriminate.
  - destruct (lookup new1 p) as [f1|] eqn:E1; [|now destruct (lookup new2 p)].
    destruct (lookup new2 p) as [f2|] eqn:E2; [|reflexivity].
    exfalso.
    assert (Hin : In p (map fst new2)).
    { apply path_exists_In. change (map fst new2) with (paths new2).
      rewrite (lookup_paths new2 p). now rewrite E2. }
    destruct (Hfresh p Hin) as [Hn _]. apply Hn.
    apply path_exists_In. change (map fst new1) with (paths new1).
    rewrite (lookup_paths new1 p). now rewrite E1.
Qed.

(** What a run over [len] files has done when it ends: the disk has
    grown by [n] datasets, at most one for each file; when the run
    returns, [total] has grown by [len], [ok] by [a] and [err] by
    [b], each file being counted in one of the two at least, the
    files counted in [ok] have written their dataset, and the only
    others are what writes that raised have left. *)
Definition progress (version : bool) (len : nat) (summary : ReprojectSummary) (d : disk)
    (r : exn + ReprojectSummary) (d' : disk) : Prop :=
  exists n,
    grows version d d' n
    /\ n <= len
    /\ match r with
       | inl _ => ~ console_ok
       | inr summary' =>
           exists a b,
             summary' = counted summary len a b
             /\ a <= n
             /\ a <= len /\ b <= len /\ len <= a + b
             /\ (clean_failures -> n = a)
             /\ (console_ok -> a + b = len)
       end.

Lemma reproject_file_progress (d : disk) (in_path : string) (target_crs : crs)
    (suffix : string) (version : bool) (summary : ReprojectSummary) :
  exists r d',
    reproject_file d in_path target_crs suffix version summary = Some (r, d')
    /\ progress version 1 summary d r d'.
Proof.
  unfold reproject_file.
  destruct (reproject_one_shp_step d in_path target_crs suffix version)
    as [r [d1 [wrote [-> [Hstep [Hdone Hclean]]]]]].
  assert (Hg : grows version d d1 (if wrote then 1 else 0)).
  { apply (grows_step version d d1 d1 0 wrote Hstep (grows_refl version d1)). }
  assert (Hn : (if wrote then 1 else 0) <= 1) by (destruct wrote; lia).
  set (text := ("❌ Error en: " ++ in_path ++ ". Ver log.")%string).
  destruct r as [e|out_path].
  - (* the file raised *)
    destruct (print_ok text) eqn:P.
    + eexists. exists d1. split; [reflexivity|].
      exists (if wrote then 1 else 0). split; [exact Hg|]. split; [exact Hn|].
      exists 0, 1. unfold counted. simpl.
      split; [f_equal; lia|]. split; [lia|]. split; [lia|]. split; [lia|].
      split; [lia|]. split.
      * intros Hc. rewrite (Hclean Hc). reflexivity.
      * intros _. reflexivity.
    + eexists. exists d1. split; [reflexivity|].
      exists (if wrote then 1 else 0). split; [exact Hg|]. split; [exact Hn|].
      intros [Hp _]. rewrite Hp in P. discriminate.
  - (* the file was written *)
    specialize (Hdone eq_refl). subst wrote.
    destruct (print_ok ("✅ " ++ out_path)) eqn:P1; cbn [negb].
    + eexists. exists d1. split; [reflexivity|].
      exists 1. split; [exact Hg|]. split; [lia|].
      exists 1, 0. unfold counted. simpl.
      split; [f_equal; lia|]. do 4 (split; [lia|]). split; intros _; reflexivity.
    + destruct (print_ok text) eqn:P.
      * eexists. exists d1. split; [reflexivity|].
        exists 1. split; [exact Hg|]. split; [lia|].
        exists 1, 1. unfold counted. simpl.
        split; [f_equal; lia|]. do 4 (split; [lia|]). split; [intros _; reflexivity|].
        intros [Hp _]. rewrite Hp in P1. discriminate.
      * eexists. exists d1. split; [reflexivity|].
        exists 1. split; [exact Hg|]. split; [lia|].
        intros [Hp _]. rewrite Hp in P. discriminate.
Qed.

Lemma counted_counted (summary : ReprojectSummary) (t1 a1 b1 t2 a2 b2 : nat) :
  counted (counted summary t1 a1 b1) t2 a2 b2
  = counted summary (t1 + t2) (a1 + a2) (b1 + b2).
Proof. unfold counted. simpl. f_equal; lia. Qed.

Lemma progress_trans (version : bool) (len1 len2 : nat) (s s1 : ReprojectSummary)
    (d d1 d2 : disk) (r : exn + ReprojectSummary) :
  progress version len1 s d (inr s1) d1 ->
  progress version len2 s1 d1 r d2 ->
  progress version (len1 + len2) s d r d2.
Proof.
  intros [n1 [G1 [N1 [a1 [b1 [-> [A1 [A1' [B1 [L1 [C1 K1]]]]]]]]]]] [n2 [G2 [N2 H2]]].
  exists (n2 + n1). split; [eapply grows_trans; eassumption|]. split; [lia|].
  destruct r as [e|s2]; [exact H2|].
  destruct H2 as [a2 [b2 [-> [A2 [A2' [B2 [L2 [C2 K2]]]]]]]].
  exists (a1 + a2), (b1 + b2). split; [apply counted_counted|].
  split; [lia|]. split; [lia|]. split; [lia|]. split; [lia|].
  split.
  - intros Hc. rewrite (C1 Hc), (C2 Hc). lia.
  - intros Hc. specialize (K1 Hc). specialize (K2 Hc). lia.
Qed.

Lemma progress_raised (version : bool) (len1 len2 : nat) (s : ReprojectSummary)
    (d d1 : disk) (e : exn) :
  progress version len1 s d (inl e) d1 ->
  progress version (len1 + len2) s d (inl e) d1.
Proof.
  intros [n [G [N H]]]. exists n. split; [exact G|]. split; [lia | exact H].
Qed.

Lemma progress_refl (version : bool) (s : ReprojectSummary) (d : disk) :
  progress version 0 s d (inr s) d.
Proof.
  exists 0. split; [apply grows_refl|]. split; [lia|].
  exists 0, 0. split.
  { unfold counted. destruct s. simpl. f_equal; lia. }
  do 4 (split; [lia|]). split; intros _; reflexivity.
Qed.

Lemma reproject_files_progress (in_paths : list string) (target_crs : crs)
    (suffix : string) (version : bool) (summary : ReprojectSummary) (d : disk) :
  exists r d',
    reproject_files in_paths target_crs suffix version summary d = Some (r, d')
    /\ progress version (List.length in_paths) summary d r d'.
Proof.
  revert summary d. induction in_paths as [|p rest IH]; intros summary d; simpl.
  - eexists. exists d. split; [reflexivity | apply progress_refl].
  - destruct (reproject_file_progress d p target_crs suffix version summary)
      as [r [d1 [-> H1]]].
    destruct r as [e|s1].
    + exists (inl e), d1. split; [reflexivity|].
      apply (progress_raised version 1 (List.length rest)). exact H1.
    + destruct (IH s1 d1) as [r [d2 [-> H2]]].
      exists r, d2. split; [reflexivity|].
      apply (progress_trans version 1 (List.length rest) summary s1 d d1 d2 r H1 H2).
Qed.

Lemma reproject_dirs_progress (walk : list (string * list string)) (target_crs : crs)
    (suffix exclude_if_contains : string) (version : bool)
    (summary : ReprojectSummary) (d : disk) :
  exists r d',
    reproject_dirs walk target_crs suffix exclude_if_contains version summary d
    = Some (r, d')
    /\ progress version
         (List.length
            (flat_map (fun df => map (join (fst df))
                                     (shp_files exclude_if_contains (snd df))) walk))
         summary d r d'.
Proof.
  revert summary d. induction walk as [|[dirpath filenames] rest IH]; intros summary d.
  - eexists. exists d. split; [reflexivity | apply progress_refl].
  - cbn [reproject_dirs flat_map fst snd]. rewrite length_app, length_map.
    destruct (shp_files exclude_if_contains filenames) as [|f files] eqn:F.
    + apply IH.
    + destruct (tqdm_ok ("Procesando en " ++ dirpath)) eqn:T.
      * destruct (reproject_files_progress (map (join dirpath) (f :: files)) target_crs
                    suffix version summary d) as [r [d1 [-> H1]]].
        rewrite length_map in H1.
        destruct r as [e|s1].
        -- exists (inl e), d1. split; [reflexivity|]. now apply progress_raised.
        -- destruct (IH s1 d1) as [r [d2 [-> H2]]].
           exists r, d2. split; [reflexivity|].
           eapply progress_trans; eassumption.
      * eexists. exists d. split; [reflexivity|].
        exists 0. split; [apply grows_refl|]. split; [lia|].
        intros [_ Hb]. rewrite Hb in T. discriminate.
Qed.

(** X15. [batch_reproject_shps] returns or raises, and what it raises
    is what a write to the console raised: with a console that takes
    every text it returns.  In both cases the folder has only gained
    datasets, at most one for each shapefile selected; with [version]
    their paths are new and pairwise different and no dataset that
    was there has changed.  When it returns, [total] is the number of
    shapefiles selected; each of them is counted in [ok] or in [err],
    and in both when the print of its output path raised, so that
    [total <= ok + err], with equality when the console takes every
    text; the folder has gained a dataset for each file counted in
    [ok], and otherwise only what writes that raised have left. *)
Theorem batch_reproject_summary (d : disk) (root_folder : string) (target_crs : crs)
    (suffix exclude_if_contains : string) (version : bool) :
  exists r d' n,
    batch_reproject_shps d root_folder target_crs suffix exclude_if_contains version
    = Some (r, d')
    /\ grows version d d' n
    /\ n <= List.length (reproject_inputs d root_folder exclude_if_contains)
    /\ (console_ok -> exists summary, r = inr summary)
    /\ forall summary, r = inr summary ->
         r_total summary
         = List.length (reproject_inputs d root_folder exclude_if_contains)
         /\ r_ok summary <= r_total summary
         /\ r_err summary <= r_total summary
         /\ r_total summary <= r_ok summary + r_err summary
         /\ (console_ok -> r_total summary = r_ok summary + r_err summary)
         /\ r_ok summary <= n
         /\ (clean_failures -> n = r_ok summary).
Proof.
  unfold batch_reproject_shps, reproject_inputs.
  destruct (reproject_dirs_progress (os_walk (paths d) root_folder) target_crs suffix
              exclude_if_contains version {| r_total := 0; r_ok := 0; r_err := 0 |} d)
    as [r [d' [-> [n [Hg [Hn H]]]]]].
  exists r, d', n. split; [reflexivity|]. split; [exact Hg|]. split; [exact Hn|].
  split.
  - intros Hc. destruct r as [e|s]; [contradiction | now exists s].
  - intros s ->. destruct H as [a [b [-> [A [A' [B [L [C K]]]]]]]].
    unfold counted. simpl.
    split; [reflexivity|]. split; [exact A'|]. split; [exact B|]. split; [exact L|].
    split; [intros Hc; symmetry; now apply K|]. split; [exact A | exact C].
Qed.

End Disk.

(** ** A folder to run the batches on *)

(** [posixpath.basename] and [posixpath.dirname]. *)
Definition posix_basename (p : string) : string :=
  let i := Z.to_nat (rfind "/" p + 1) in
  substring i (String.length p - i) p.

Fixpoint all_slashes (s : string) : bool :=
  match s with
  | EmptyString => true
  | String c s' => Ascii.eqb c "/" && all_slashes s'
  end.

Fixpoint rstrip_slashes (s : string) : string :=
  match s with
  | EmptyString => EmptyString
  | String c s' => if all_slashes s then EmptyString else String c (rstrip_slashes s')
  end.

Definition posix_dirname (p : string) : string :=
  let i := Z.to_nat (rfind "/" p + 1) in
  let head := substring 0 i p in
  if all_slashes head then head else rstrip_slashes head.

Definition posix_join (a b : string) : string :=
  if String.prefix "/" b then b
  else if String.eqb a "" then b
  else if endswith a "/" then (a ++ b)%string
  else (a ++ "/" ++ b)%string.

Example posix_path_examples :
  map posix_dirname ["data/a_wgs84.shp"; "a.shp"; "/a.shp"; "x//z.shp"; "//z"]%string
  = ["data"; ""; "/"; "x"; "//"]%string
  /\ map posix_basename ["data/a_wgs84.shp"; "a.shp"; "/a.shp"; "x/"]%string
     = ["a_wgs84.shp"; "a.shp"; "a.shp"; ""]%string
  /\ posix_join "data" "a.shp" = "data/a.shp"%string
  /\ endswith "A_WGS84.SHP" "_wgs84.shp" = false
  /\ contains "a_wgs84_recorte.shp" "_recorte" = true.
Proof. repeat split. Qed.

(** A frame is the number of its rows; every frame is in CRS 1 and
    meets the AOI. *)
Definition sample_disk : list (string * nat) :=
  [("data/a_wgs84.shp", 3); ("data/b_wgs84.shp", 0);
   ("data/a_wgs84_recorte.shp", 9); ("aoi.shp", 5)]%string.

Definition sample_walk (ps : list string) (root : string) : list (string * list string) :=
  [(root, map posix_basename (filter (String.prefix (root ++ "/")) ps))].

Definition sample_batch_clip (version : bool) :=
  batch_clip nat nat (fun f => Some f) (fun g _ => Complete g)
    nat unit (fun g => g =? 0) (fun _ => Some 1) (fun _ _ => false)
    (fun g _ => Some g) (fun _ => Some tt) (fun _ _ => Some true) (fun g _ => Some g)
    (fun s => s) posix_dirname posix_basename posix_join posix_splitext sample_walk
    sample_disk "data" "aoi.shp" "_wgs84.shp" "_recorte" "_recorte" version.

(** A console that has the letters of ASCII only. *)
Fixpoint is_ascii (s : string) : bool :=
  match s with
  | EmptyString => true
  | String c s' => (N_of_ascii c <? 128)%N && is_ascii s'
  end.

Definition sample_batch_reproject (print_ok : string -> bool) (version : bool) :=
  batch_reproject_shps nat nat (fun f => Some f) (fun g _ => Complete g)
    nat (fun g => g =? 0) (fun _ => Some 1)
    (fun g _ => Some g)
    (fun s => s) posix_dirname posix_basename posix_join posix_splitext sample_walk
    print_ok (fun _ => true)
    sample_disk "data" 2 "_recorte" "_recorte" version.


(** With versioning the clip of [a_wgs84.shp] goes beside the dataset
    that has its name; without, it takes its place. *)
Example sample_batch_runs :
  sample_batch_clip true
  = Some (inr ({| total := 2; clipped_ok := 1; no_intersection_or_empty := 1; err := 0 |},
               ("data/a_wgs84_recorte_v002.shp"%string, 3) :: sample_disk))
  /\ sample_batch_clip false
     = Some (inr ({| total := 2; clipped_ok := 1; no_intersection_or_empty := 1;
                     err := 0 |},
                  ("data/a_wgs84_recorte.shp"%string, 3) :: sample_disk))
  /\ sample_batch_reproject (fun _ => true) true
     = Some (inr {| r_total := 2; r_ok := 1; r_err := 1 |},
             ("data/a_wgs84_recorte_v002.shp"%string, 3) :: sample_disk).
Proof. repeat split; vm_compute; reflexivity. Qed.

(** On a console of ASCII the print of the path written raises inside
    the [try], the file is counted in [err] as well, and the print of
    the handler raises out of the function, the dataset written; on a
    folder with the first file only and a console that takes the mark
    of the handler alone, the run returns with the file counted
    twice. *)
Example sample_batch_console :
  sample_batch_reproject is_ascii true
  = Some (inl (ConsoleError "❌ Error en: data/a_wgs84.shp. Ver log."),
          ("data/a_wgs84_recorte_v002.shp"%string, 3) :: sample_disk)
  /\ batch_reproject_shps nat nat (fun f => Some f) (fun g _ => Complete g)
       nat (fun g => g =? 0) (fun _ => Some 1) (fun g _ => Some g)
       (fun s => s) posix_dirname posix_basename posix_join posix_splitext sample_walk
       (String.prefix "❌") (fun _ => true)
       [("data/a_wgs84.shp"%string, 3)] "data" 2 "_recorte" "_recorte" true
     = Some (inr {| r_total := 1; r_ok := 1; r_err := 1 |},
             [("data/a_wgs84_recorte.shp"%string, 3); ("data/a_wgs84.shp"%string, 3)]).
Proof. split; vm_compute; reflexivity. Qed.

Lemma batch_clip_summary_witness :
  exists r, sample_batch_clip true = Some r.
Proof.
  destruct (batch_clip_summary nat nat (fun f => Some f) (fun g _ => Complete g)
              nat unit (fun g => g =? 0) (fun _ => Some 1) (fun _ _ => false)
              (fun g _ => Some g) (fun _ => Some tt) (fun _ _ => Some true)
              (fun g _ => Some g)
              (fun s => s) posix_dirname posix_basename posix_join posix_splitext
              sample_walk posix_splitext_join
              sample_disk "data" "aoi.shp" "_wgs84.shp" "_recorte" "_recorte" true)
    as [r [H _]].
  exists r. exact H.
Defined.

Lemma batch_reproject_summary_witness :
  exists summary d',
    sample_batch_reproject (fun _ => true) true = Some (inr summary, d')
    /\ r_total summary = r_ok summary + r_err summary.
Proof.
  destruct (batch_reproject_summary nat nat (fun f => Some f) (fun g _ => Complete g)
              nat (fun g => g =? 0) (fun _ => Some 1)
              (fun g _ => Some g)
              (fun s => s) posix_dirname posix_basename posix_join posix_splitext
              sample_walk (fun _ => true) (fun _ => true) posix_splitext_join
              sample_disk "data" 2 "_recorte" "_recorte" true)
    as [r [d' [n [H [_ [_ [Hret Hs]]]]]]].
  assert (Hc : console_ok (fun _ : string => true) (fun _ : string => true))
    by (split; reflexivity).
  destruct (Hret Hc) as [summary ->].
  exists summary, d'. split; [exact H|].
  destruct (Hs summary eq_refl) as [_ [_ [_ [_ [Hk _]]]]]. exact (Hk Hc).
Defined.

End Batch.

(* ------------------------------------------------------------------ *)
(** * Join of the points to the municipalities
    [firms_admin_join.ensure_columns], [load_layers],
    [spatial_join_points_to_municipios], [write_shp_versioned] and
    [run_admin_join]. *)

Module AdminJoin.

Import PyStr Normalizer Versioning.

(** [MissingColumns missing] is
    [KeyError(f"Faltan columnas en municipios: {missing}")] and
    [KeyError label] the error of a selection; [ReadError],
    [TransformError], [JoinError] and [WriteError] stand for whatever
    [gpd.read_file], [to_crs], [gpd.sjoin] and the write raised. *)
Inductive exn : Type :=
| ValueError (msg : string)
| MissingColumns (missing : list string)
| KeyError (label : string)
| ReadError (path : string)
| TransformError
| JoinError
| WriteError (path : string).

(** The [how] of [gpd.sjoin]. *)
Inductive how_t : Type := Left | Inner | Right.

Record JoinSummary (crs : Type) : Type := {
  n_points : nat;
  n_join_ok : nat;
  n_join_fail : Z;
  crs_out : option crs;
  out_path : string
}.

Arguments n_points {crs} _.
Arguments n_join_ok {crs} _.
Arguments n_join_fail {crs} _.
Arguments crs_out {crs} _.
Arguments out_path {crs} _.

(** A layer as [gpd.read_file] gives it: its rows, its CRS, the labels
    of its columns, which are pairwise different. *)
Record layer (crs row : Type) : Type := {
  rows : list row;
  crs_of : option crs;
  columns : list string
}.

Arguments rows {crs row} _.
Arguments crs_of {crs row} _.
Arguments columns {crs row} _.

Section Join.

Variable crs : Type.
(** [a != b] on the CRS of two layers. *)
Variable crs_differs : option crs -> option crs -> bool.

(** A point of the FIRMS layer; a municipality, with its cell
    [MpNombre]. *)
Variable point : Type.
Variable muni : Type.
Variable MpNombre : muni -> option text.

Variable read_points : string -> option (layer crs point).
Variable read_municipios : string -> option (layer crs muni).
Variable to_crs : layer crs point -> option crs -> option (layer crs point).

(** The spatial predicate of the join, by its name; whether
    [gpd.sjoin] goes through on two layers (it refuses some column
    labels); whether [mkdir] and [to_file] go through. *)
Variable holds : string -> point -> muni -> bool.
Variable sjoin_ok : layer crs point -> layer crs muni -> bool.
Variable to_file_ok : list (option point * option muni) -> string -> bool.

Variable upper_map : codepoint -> list codepoint.
Variable decomposition : codepoint -> list codepoint.
Variable combining : codepoint -> N.
Variable isspace : codepoint -> bool.
Variable splitext : string -> string * string.

Definition ensure_columns (cols required : list string) : exn + unit :=
  match filter (fun c => negb (existsb (String.eqb c) cols)) required with
  | [] => inr tt
  | missing => inl (MissingColumns missing)
  end.

(** [load_layers] with the default [mun_cols]. *)
Definition load_layers (municipios_path puntos_path : string)
  : exn + layer crs muni * layer crs point :=
  match read_municipios municipios_path with
  | None => inl (ReadError municipios_path)
  | Some mun =>
  match read_points puntos_path with
  | None => inl (ReadError puntos_path)
  | Some pts =>
      match crs_of mun with
      | None => inl (ValueError "El shapefile de municipios no tiene CRS definido.")
      | Some _ =>
          match (if crs_differs (crs_of pts) (crs_of mun)
                 then to_crs pts (crs_of mun) else Some pts) with
          | None => inl TransformError
          | Some pts =>
              match ensure_columns (columns mun) ["MpNombre"; "Depto"]%string with
              | inl e => inl e
              | inr _ => inr (mun, pts)
              end
          end
      end
  end end.

(** [mun["mpnombre_std"]] *)
Definition mpnombre_std (m : muni) : option text :=
  normalize_text upper_map decomposition combining isspace (MpNombre m).

(** The rows of [gpd.sjoin]: pairs of a point and a municipality for
    which the predicate holds, and, for a left (right) join, the
    points (municipalities) without a pair, alone.  The order of the
    rows is not part of the model. *)
Definition sjoin (puntos : list point) (municipios : list muni) (how : how_t)
    (predicate : string) : list (option point * option muni) :=
  match how with
  | Left =>
      flat_map (fun p => match filter (holds predicate p) municipios with
                         | [] => [(Some p, None)]
                         | ms => map (fun m => (Some p, Some m)) ms
                         end) puntos
  | Inner =>
      flat_map (fun p => map (fun m => (Some p, Some m))
                             (filter (holds predicate p) municipios)) puntos
  | Right =>
      flat_map (fun m => match filter (fun p => holds predicate p m) puntos with
                         | [] => [(None, Some m)]
                         | ps => map (fun p => (Some p, Some m)) ps
                         end) municipios
  end.

(** [gdf_join["mpnombre_std"].notna()] *)
Definition join_ok (r : option point * option muni) : bool :=
  match snd r with
  | Some m => match mpnombre_std m with Some _ => true | None => false end
  | None => false
  end.

(** [spatial_join_points_to_municipios]: a column of the points with
    the label [mpnombre_std] is renamed by the join, and the selection
    of [mpnombre_std] then fails. *)
Definition spatial_join_points_to_municipios (puntos : layer crs point)
    (municipios : layer crs muni) (how : how_t) (predicate : string)
  : exn + list (option point * option muni) :=
  if negb (sjoin_ok puntos municipios) then inl JoinError
  else if existsb (String.eqb "mpnombre_std") (columns puntos)
  then inl (KeyError "mpnombre_std")
  else inr (sjoin (rows puntos) (rows municipios) how predicate).

(** [write_shp_versioned] on a store [fs]: the path written and
    returned, or the error of the write.  [None] stands for a version
    search that does not return. *)
Definition write_shp_versioned (fs : store) (gdf : list (option point * option muni))
    (out_path_ : string) (version : bool) : option (exn + string) :=
  match (if version then next_version_path splitext fs out_path_ else Some out_path_) with
  | None => None
  | Some final_path =>
      Some (if to_file_ok gdf final_path then inr final_path
            else inl (WriteError final_path))
  end.

(** [run_admin_join] on a store [fs]: what it raises, or the summary
    with the rows it writes. *)
Definition run_admin_join (fs : store) (municipios_path puntos_path out_path_ : string)
    (how : how_t) (predicate : string) (version_out : bool)
  : option (exn + JoinSummary crs * list (option point * option muni)) :=
  match load_layers municipios_path puntos_path with
  | inl e => Some (inl e)
  | inr (municipios, puntos) =>
      match spatial_join_points_to_municipios puntos municipios how predicate with
      | inl e => Some (inl e)
      | inr gdf_join =>
          match write_shp_versioned fs gdf_join out_path_ version_out with
          | None => None
          | Some (inl e) => Some (inl e)
          | Some (inr final_path) =>
              let n_ok := List.length (filter join_ok gdf_join) in
              let n_total := List.length gdf_join in
              Some (inr ({| n_points := n_total;
                            n_join_ok := n_ok;
                            n_join_fail := (Z.of_nat n_total - Z.of_nat n_ok)%Z;
                            crs_out := crs_of puntos;
                            out_path := final_path |}, gdf_join))
          end
      end
  end.

(** ** Counts of a left join *)

(** The number of rows a point gives. *)
Definition fan_out (municipios : list muni) (predicate : string) (p : point) : nat :=
  Nat.max 1 (List.length (filter (holds predicate p) municipios)).

Lemma length_flat_map {A B : Type} (f : A -> list B) (l : list A) :
  List.length (flat_map f l) = list_sum (map (fun x => List.length (f x)) l).
Proof.
  induction l as [|x l IH]; simpl; [reflexivity|]. now rewrite length_app, IH.
Qed.

Lemma sjoin_left_length (puntos : list point) (municipios : list muni)
    (predicate : string) :
  List.length (sjoin puntos municipios Left predicate)
  = list_sum (map (fan_out municipios predicate) puntos).
Proof.
  unfold sjoin. rewrite length_flat_map. f_equal. apply map_ext. intros p.
  unfold fan_out. destruct (filter (holds predicate p) municipios) as [|m ms]; [reflexivity|].
  rewrite length_map. simpl. lia.
Qed.

Lemma list_sum_bounds {A : Type} (f : A -> nat) (l : list A) :
  (forall x, In x l -> 1 <= f x) -> List.length l <= list_sum (map f l).
Proof.
  induction l as [|x l IH]; intros H; simpl; [lia|].
  pose proof (H x (or_introl eq_refl)).
  assert (List.length l <= list_sum (map f l)) by (apply IH; intros; apply H; now right).
  lia.
Qed.

Lemma list_sum_ones {A : Type} (f : A -> nat) (l : list A) :
  (forall x, In x l -> f x = 1) -> list_sum (map f l) = List.length l.
Proof.
  induction l as [|x l IH]; intros H; simpl; [reflexivity|].
  rewrite (H x (or_introl eq_refl)), IH; [reflexivity|]. intros; apply H; now right.
Qed.

Lemma sjoin_left_ok (puntos : list point) (municipios : list muni) (predicate : string) :
  List.length (filter join_ok (sjoin puntos municipios Left predicate))
  = list_sum (map (fun p =>
                     List.length (filter (fun m => match MpNombre m with
                                                   | Some _ => true
                                                   | None => false
                                                   end)
                                         (filter (holds predicate p) municipios)))
                  puntos).
Proof.
  unfold sjoin. rewrite Match.filter_flat_map, length_flat_map.
  f_equal. apply map_ext. intros p.
  destruct (filter (holds predicate p) municipios) as [|m ms]; [reflexivity|].
  rewrite Match.filter_map_comm, length_map. f_equal. apply filter_ext. intros m0.
  unfold join_ok, mpnombre_std. simpl. now destruct (MpNombre m0).
Qed.

Hypothesis splitext_join : forall p, (fst (splitext p) ++ snd (splitext p))%string = p.

(** X16. After a left join of [run_admin_join], [n_points] is the number
    of rows of the join: each point counts once per municipality it
    meets and once if it meets none, so it is at least the number of
    input points, with equality when no point meets two.  [n_join_ok]
    counts the pairs whose municipality has a name,
    [n_join_ok + n_join_fail = n_points] with [n_join_fail >= 0], and
    with [version_out] the path written did not exist. *)
Theorem admin_join_counts (fs : store) (municipios_path puntos_path out_path_ : string)
    (predicate : string) (version_out : bool)
    (s : JoinSummary crs) (gdf_join : list (option point * option muni)) :
  run_admin_join fs municipios_path puntos_path out_path_ Left predicate version_out
  = Some (inr (s, gdf_join)) ->
  exists municipios puntos,
    load_layers municipios_path puntos_path = inr (municipios, puntos)
    /\ n_points s = List.length gdf_join
    /\ n_points s = list_sum (map (fan_out (rows municipios) predicate) (rows puntos))
    /\ List.length (rows puntos) <= n_points s
    /\ ((forall p, In p (rows puntos) ->
           List.length (filter (holds predicate p) (rows municipios)) <= 1) ->
        n_points s = List.length (rows puntos))
    /\ n_join_ok s
       = list_sum (map (fun p =>
                          List.length
                            (filter (fun m => match MpNombre m with
                                              | Some _ => true
                                              | None => false
                                              end)
                                    (filter (holds predicate p) (rows municipios))))
                       (rows puntos))
    /\ (0 <= n_join_fail s)%Z
    /\ (Z.of_nat (n_join_ok s) + n_join_fail s = Z.of_nat (n_points s))%Z
    /\ (if version_out then path_exists fs (out_path s) = false
        else out_path s = out_path_).
Proof.
  unfold run_admin_join.
  destruct (load_layers municipios_path puntos_path) as [e|[municipios puntos]];
    [discriminate|].
  unfold spatial_join_points_to_municipios.
  destruct (negb (sjoin_ok puntos municipios)); [discriminate|].
  destruct (existsb (String.eqb "mpnombre_std") (columns puntos)); [discriminate|].
  set (J := sjoin (rows puntos) (rows municipios) Left predicate).
  destruct (write_shp_versioned fs J out_path_ version_out) as [[e|final_path]|] eqn:W;
    [discriminate | | discriminate].
  intros H. injection H as <- <-. cbn [n_points n_join_ok n_join_fail out_path].
  exists municipios, puntos. split; [reflexivity|]. split; [reflexivity|].
  pose proof (filter_length_le join_ok J) as Hok.
  unfold J in *. clear J.
  split; [apply sjoin_left_length|].
  split.
  { rewrite sjoin_left_length. apply list_sum_bounds. intros p _. unfold fan_out. lia. }
  split.
  { intros Hone. rewrite sjoin_left_length. apply list_sum_ones.
    intros p Hp. specialize (Hone p Hp). unfold fan_out. lia. }
  split; [apply sjoin_left_ok|].
  split; [lia|]. split; [lia|].
  unfold write_shp_versioned in W. destruct version_out.
  - destruct (resolver_spec fs (merge_candidate splitext out_path_) 2 out_path_
                (merge_candidate_inj splitext _)
                (merge_candidate_fresh splitext splitext_join _)) as [r [H1 [H2 _]]].
    unfold next_version_path in W. rewrite H1 in W.
    destruct (to_file_ok _ r); [|discriminate]. now injection W as <-.
  - destruct (to_file_ok _ out_path_); [|discriminate]. now injection W as <-.
Qed.

End Join.

(** ** Two municipalities that share a border *)

(** Points and municipalities on a line: a municipality is a closed
    interval, a point intersects it when it lies in it. *)
Definition sample_municipios : layer string (Z * Z * option text) :=
  {| rows := [(0, 10, Some (ascii_text "Granada")); (10, 20, None)]%Z;
     crs_of := Some "EPSG:4326"%string;
     columns := ["MpNombre"; "Depto"; "geometry"]%string |}.

Definition sample_puntos : layer string Z :=
  {| rows := [5; 10; 15; 30]%Z; crs_of := Some "EPSG:4326"%string;
     columns := ["geometry"]%string |}.

Definition sample_run_admin_join :=
  run_admin_join string
    (fun a b => match a, b with
                | Some x, Some y => negb (String.eqb x y)
                | None, None => false
                | _, _ => true
                end)
    Z (Z * Z * option text) (fun m => snd m)
    (fun _ => Some sample_puntos) (fun _ => Some sample_municipios)
    (fun l c => Some {| rows := rows l; crs_of := c; columns := columns l |})
    (fun _ p m => (fst (fst m) <=? p)%Z && (p <=? snd (fst m))%Z)
    (fun _ _ => true) (fun _ _ => true)
    latin1_upper latin1_decomposition latin1_combining unicode_isspace posix_splitext
    [] "mun.shp" "pts.shp" "out.shp" Left "intersects" true.

(** Four points give five rows: the point on the border is in both
    municipalities; the rows of the municipality without a name and
    the row of the point outside count as not assigned. *)
Example sample_admin_join_run :
  exists s gdf_join,
    sample_run_admin_join = Some (inr (s, gdf_join))
    /\ n_points s = 5 /\ n_join_ok s = 2 /\ n_join_fail s = 3%Z
    /\ out_path s = "out.shp"%string.
Proof. do 2 eexists. split; [vm_compute; reflexivity|]. repeat split. Qed.

Lemma admin_join_counts_witness :
  exists s gdf_join,
    sample_run_admin_join = Some (inr (s, gdf_join))
    /\ List.length (rows sample_puntos) <= n_points s
    /\ (Z.of_nat (n_join_ok s) + n_join_fail s = Z.of_nat (n_points s))%Z.
Proof.
  destruct sample_run_admin_join as [[e | [s gdf_join]]|] eqn:R;
    [vm_compute in R; discriminate | | vm_compute in R; discriminate].
  exists s, gdf_join. split; [reflexivity|].
  destruct (admin_join_counts string
              (fun a b => match a, b with
                          | Some x, Some y => negb (String.eqb x y)
                          | None, None => false
                          | _, _ => true
                          end)
              Z (Z * Z * option text) (fun m => snd m)
              (fun _ => Some sample_puntos) (fun _ => Some sample_municipios)
              (fun l c => Some {| rows := rows l; crs_of := c; columns := columns l |})
              (fun _ p m => (fst (fst m) <=? p)%Z && (p <=? snd (fst m))%Z)
              (fun _ _ => true) (fun _ _ => true)
              latin1_upper latin1_decomposition latin1_combining unicode_isspace
              posix_splitext posix_splitext_join
              [] "mun.shp"%string "pts.shp"%string "out.shp"%string
              "intersects"%string true s gdf_join R)
    as [municipios [puntos [Hl [_ [_ [Hle [_ [_ [_ [Hsum _]]]]]]]]]].
  vm_compute in Hl. injection Hl as <- <-.
  split; [exact Hle | exact Hsum].
Defined.

End AdminJoin.

(* ------------------------------------------------------------------ *)
(** * The match from the files to the summary
    [firms_ungrd_match.ensure_columns], [normalize_series],
    [load_ungrd_excel], [load_firms_shp], [write_shp] and
    [run_firms_vs_ungrd] with its loaders. *)

Module MatchRun.

Import PyStr Normalizer Versioning Match.
Import Merge (value, isna, py_str).

(** [MissingColumns name missing] is
    [KeyError(f"Faltan columnas en {name}: {missing}")]; [ReadError]
    stands for whatever the reader raised, [Raised] for what pandas
    raises on a column or on a frame, [ValueError] for the one of
    [reset_index], [WriteError] for what the write raised. *)
Inductive exn : Type :=
| FileNotFoundError (msg : string)
| MissingColumns (name : string) (missing : list text)
| ReadError (path : string)
| Raised
| ValueError (msg : string)
| WriteError (path : string).

Definition of_match (e : Match.exn) : exn :=
  match e with
  | Match.ValueError msg => ValueError msg
  | Match.Raised => Raised
  end.

(** A sheet or a layer as it is read: the labels of its columns and
    its rows, each giving the cell under a label. *)
Record table : Type := {
  columns : list text;
  rows : list (text -> value)
}.

Definition option_bind {A B : Type} (f : A -> option B) (o : option A) : option B :=
  match o with
  | Some a => f a
  | None => None
  end.

Section Loaders.

Variable upper_map : codepoint -> list codepoint.
Variable decomposition : codepoint -> list codepoint.
Variable combining : codepoint -> N.
Variable isspace : codepoint -> bool.

(** [pd.read_excel] and [gpd.read_file]; [None] when they raise, as
    for the calls on columns below. *)
Variable pd_read_excel : string -> option table.
Variable gpd_read_file : string -> option table.

(** On a column: [pd.to_datetime(col, dayfirst=True, errors="coerce")],
    [pd.to_numeric(col, errors="coerce").astype("Int64")] and
    [pd.to_datetime(dict(year=, month=, day=), errors="coerce")]. *)
Variable to_datetime : list value -> option (list (option timestamp)).
Variable to_Int64 : list value -> option (list (option Z)).
Variable to_datetime_parts :
  list (option Z) -> list (option Z) -> list (option Z) -> option (list (option timestamp)).

(** The cell of a column [index] of the layer as a cell of
    [idx_firms]: null, or the number that stands for its value. *)
Variable index_key : value -> idx.

(** Whether [mkdir] and [to_file] go through. *)
Variable to_file_ok : list (reset_row * match_cols) -> string -> bool.

Variable splitext : string -> string * string.

Definition ensure_columns (cols required : list text) (name : string) : exn + unit :=
  match filter (fun c => negb (existsb (Columns.text_eqb c) cols)) required with
  | [] => inr tt
  | missing => inl (MissingColumns name missing)
  end.

(** [normalize_text] of a cell. *)
Definition normalize_cell (v : value) : option text :=
  normalize_text upper_map decomposition combining isspace
    (if isna v then None else Some (py_str v)).

(** [df.columns = df.columns.astype(str).str.strip()]: the rows are
    read under the stripped labels. *)
Definition strip_labels (t : table) : table :=
  {| columns := map (strip isspace) (columns t);
     rows := map (fun r => fun c =>
                    match find (fun l => Columns.text_eqb (strip isspace l) c) (columns t) with
                    | Some l => r l
                    | None => r c
                    end) (rows t) |}.

(** [df[label]] where a column is expected: with several columns under
    the label the selection is a frame, and the calls made on it
    raise. *)
Definition getitem (t : table) (label : text) : option (list value) :=
  if Nat.eqb (Columns.occ label (columns t)) 1
  then Some (map (fun r => r label) (rows t))
  else None.

Definition load_ungrd_excel (fs : store) (excel_path : string)
    (col_depto col_muni col_fecha : text) : exn + list ungrd_row :=
  if negb (path_exists fs excel_path)
  then inl (FileNotFoundError ("No existe Excel UNGRD: " ++ excel_path)%string)
  else
    match pd_read_excel excel_path with
    | None => inl (ReadError excel_path)
    | Some df =>
        let df := strip_labels df in
        match ensure_columns (columns df) [col_depto; col_muni; col_fecha] "UNGRD Excel" with
        | inl e => inl e
        | inr _ =>
            match getitem df col_depto, getitem df col_muni, getitem df col_fecha with
            | Some depto, Some muni, Some fecha =>
                match to_datetime fecha with
                | None => inl Raised
                | Some dates =>
                    inr (map (fun x => {| DEPTO_std := normalize_cell (fst (fst x));
                                          MUNICIPIO_std := normalize_cell (snd (fst x));
                                          FECHA := snd x |})
                             (combine (combine depto muni) dates))
                end
            | _, _, _ => inl Raised
            end
        end
    end.

Definition has_column (t : table) (label : string) : bool :=
  existsb (Columns.text_eqb (ascii_text label)) (columns t).

(** The frame [load_firms_shp] returns, as the matching reads it: the
    points, and the columns of the layer that [build_candidates]
    depends on. *)
Definition firms_frame_of (gdf : table) (pts : list firms_point) : firms_frame :=
  {| points := pts;
     index_column :=
       if has_column gdf "index"
       then Some (fun i => match nth_error (rows gdf) i with
                           | Some r => index_key (r (ascii_text "index"))
                           | None => None
                           end)
       else None;
     has_level_0 := has_column gdf "level_0";
     has_idx_firms := has_column gdf "idx_firms" |}.

Definition load_firms_shp (fs : store) (shp_path : string)
    (col_depto_std col_muni_raw col_year col_month col_day : text)
  : exn + firms_frame :=
  if negb (path_exists fs shp_path)
  then inl (FileNotFoundError ("No existe SHP FIRMS: " ++ shp_path)%string)
  else
    match gpd_read_file shp_path with
    | None => inl (ReadError shp_path)
    | Some gdf =>
        match ensure_columns (columns gdf)
                [col_depto_std; col_muni_raw; col_year; col_month; col_day] "FIRMS SHP" with
        | inl e => inl e
        | inr _ =>
            match option_bind (to_Int64) (getitem gdf col_year),
                  option_bind (to_Int64) (getitem gdf col_month),
                  option_bind (to_Int64) (getitem gdf col_day),
                  getitem gdf col_depto_std, getitem gdf col_muni_raw with
            | Some years, Some months, Some days, Some depto, Some muni =>
                match to_datetime_parts years months days with
                | None => inl Raised
                | Some dates =>
                    inr (firms_frame_of gdf
                           (map (fun x => {| depto_std := normalize_cell (fst (fst x));
                                             mpnombre_s_std := normalize_cell (snd (fst x));
                                             fecha_FIRMS := snd x |})
                                (combine (combine depto muni) dates)))
                end
            | _, _, _, _, _ => inl Raised
            end
        end
    end.

(** [write_shp] on a store [fs]: the path written and returned, or the
    error of the write.  [None] stands for a version search that does
    not return. *)
Definition write_shp (fs : store) (gdf : list (reset_row * match_cols))
    (out_path : string) (version : bool) : option (exn + string) :=
  match (if version then next_version_path_suffix_1 splitext fs out_path
         else Some out_path) with
  | None => None
  | Some final =>
      Some (if to_file_ok gdf final then inr final else inl (WriteError final))
  end.

(** [run_firms_vs_ungrd] on a store [fs], with the default column
    names: what it raises, or the frame written, the summary and the
    path written. *)
Definition run_firms_vs_ungrd_files (fs : store) (ungrd_excel firms_shp out_shp : string)
    (window_days : Z)
  : option (exn + list (reset_row * match_cols) * MatchSummary * string) :=
  match load_ungrd_excel fs ungrd_excel (ascii_text "DEPARTAMENTO")
          (ascii_text "MUNICIPIO") (ascii_text "FECHA") with
  | inl e => Some (inl e)
  | inr df_ungrd =>
  match load_firms_shp fs firms_shp (ascii_text "depto_std") (ascii_text "mpnombre_s")
          (ascii_text "anio") (ascii_text "mes") (ascii_text "dia") with
  | inl e => Some (inl e)
  | inr gdf_firms =>
  match run_firms_vs_ungrd df_ungrd gdf_firms window_days with
  | inl e => Some (inl (of_match e))
  | inr gdf_out =>
  match write_shp fs gdf_out out_shp true with
  | None => None
  | Some (inl e) => Some (inl e)
  | Some (inr final_path) =>
      Some (inr (gdf_out,
                 summary_of df_ungrd (admin_merge (reset_index gdf_firms) df_ungrd)
                   gdf_out window_days,
                 final_path))
  end end end end.

Lemma column_length (t : table) (label : text) (col : list value) :
  getitem t label = Some col -> List.length col = List.length (rows t).
Proof.
  unfold getitem. destruct (Nat.eqb _ 1); [|discriminate].
  intros H. injection H as <-. apply length_map.
Qed.

(** ** Under the contracts of the library calls
    The calls on columns return as many cells as they are given. *)

Hypothesis to_datetime_length :
  forall col dates, to_datetime col = Some dates -> List.length dates = List.length col.
Hypothesis to_Int64_length :
  forall col ints, to_Int64 col = Some ints -> List.length ints = List.length col.
Hypothesis to_datetime_parts_length :
  forall years months days dates,
    List.length months = List.length years -> List.length days = List.length years ->
    to_datetime_parts years months days = Some dates ->
    List.length dates = List.length years.
Hypothesis splitext_join : forall p, (fst (splitext p) ++ snd (splitext p))%string = p.

Lemma load_ungrd_excel_inr (fs : store) (excel_path : string)
    (col_depto col_muni col_fecha : text) (df_ungrd : list ungrd_row) :
  load_ungrd_excel fs excel_path col_depto col_muni col_fecha = inr df_ungrd ->
  exists df,
    path_exists fs excel_path = true
    /\ pd_read_excel excel_path = Some df
    /\ List.length df_ungrd = List.length (rows df).
Proof.
  unfold load_ungrd_excel.
  destruct (path_exists fs excel_path); cbn [negb]; [|discriminate].
  destruct (pd_read_excel excel_path) as [df|]; [|discriminate].
  destruct (ensure_columns _ _ _) as [e|[]]; [discriminate|].
  destruct (getitem (strip_labels df) col_depto) as [depto|] eqn:Gd; [|discriminate].
  destruct (getitem (strip_labels df) col_muni) as [muni|] eqn:Gm; [|discriminate].
  destruct (getitem (strip_labels df) col_fecha) as [fecha|] eqn:Gf; [|discriminate].
  destruct (to_datetime fecha) as [dates|] eqn:T; [|discriminate].
  intros H. injection H as <-. exists df. split; [reflexivity|]. split; [reflexivity|].
  rewrite length_map, !length_combine.
  rewrite (to_datetime_length _ _ T).
  rewrite (column_length _ _ _ Gd), (column_length _ _ _ Gm), (column_length _ _ _ Gf).
  unfold strip_labels. simpl. rewrite length_map. lia.
Qed.

Lemma load_firms_shp_inr (fs : store) (shp_path : string)
    (col_depto_std col_muni_raw col_year col_month col_day : text)
    (gdf_firms : firms_frame) :
  load_firms_shp fs shp_path col_depto_std col_muni_raw col_year col_month col_day
  = inr gdf_firms ->
  exists gdf pts,
    path_exists fs shp_path = true
    /\ gpd_read_file shp_path = Some gdf
    /\ gdf_firms = firms_frame_of gdf pts
    /\ List.length pts = List.length (rows gdf).
Proof.
  unfold load_firms_shp.
  destruct (path_exists fs shp_path); cbn [negb]; [|discriminate].
  destruct (gpd_read_file shp_path) as [gdf|]; [|discriminate].
  destruct (ensure_columns _ _ _) as [e|[]]; [discriminate|].
  destruct (getitem gdf col_year) as [cy|] eqn:Gy; [|discriminate].
  cbn [option_bind].
  destruct (to_Int64 cy) as [years|] eqn:Ty; [|discriminate].
  destruct (getitem gdf col_month) as [cm|] eqn:Gm; [|discriminate].
  cbn [option_bind].
  destruct (to_Int64 cm) as [months|] eqn:Tm; [|discriminate].
  destruct (getitem gdf col_day) as [cd|] eqn:Gd; [|discriminate].
  cbn [option_bind].
  destruct (to_Int64 cd) as [days|] eqn:Td; [|discriminate].
  destruct (getitem gdf col_depto_std) as [depto|] eqn:Gp; [|discriminate].
  destruct (getitem gdf col_muni_raw) as [muni|] eqn:Gn; [|discriminate].
  destruct (to_datetime_parts years months days) as [dates|] eqn:T; [|discriminate].
  intros H. injection H as <-. eexists gdf, _.
  split; [reflexivity|]. split; [reflexivity|]. split; [reflexivity|].
  pose proof (to_Int64_length _ _ Ty) as Ly. pose proof (to_Int64_length _ _ Tm) as Lm.
  pose proof (to_Int64_length _ _ Td) as Ld.
  rewrite (column_length _ _ _ Gy) in Ly. rewrite (column_length _ _ _ Gm) in Lm.
  rewrite (column_length _ _ _ Gd) in Ld.
  assert (Lt : List.length dates = List.length years)
    by (apply (to_datetime_parts_length _ _ _ _) with (3 := T); lia).
  rewrite length_map, !length_combine.
  rewrite (column_length _ _ _ Gp), (column_length _ _ _ Gn). lia.
Qed.

Lemma write_shp_fresh (fs : store) (gdf : list (reset_row * match_cols)) (out_shp : string) :
  exists fp,
    write_shp fs gdf out_shp true
    = Some (if to_file_ok gdf fp then inr fp else inl (WriteError fp))
    /\ path_exists fs fp = false
    /\ (fp = out_shp <-> path_exists fs out_shp = false).
Proof.
  destruct (resolver_spec fs (suffix_candidate splitext out_shp) 1 out_shp
              (suffix_candidate_inj splitext _)
              (suffix_candidate_fresh splitext splitext_join _)) as [fp [H1 [H2 [H3 _]]]].
  exists fp. unfold write_shp, next_version_path_suffix_1. rewrite H1. now split.
Qed.

(** X17. [run_firms_vs_ungrd] on files always returns or raises, and a
    missing Excel file is reported first.  On success both files exist
    and were read, the layer has no field [idx_firms] and not both
    [index] and [level_0], [n_ungrd_rows] is the number of rows of the
    sheet, [n_points] the number of rows written, at least one per row
    of the layer, the merge on department has at least one row per
    row of the layer, the output path did not exist, and it is
    [out_shp] exactly when that was free.  When the layer has no field
    [index], and more generally when its [idx_firms] tell the points
    apart, [n_points] is the number of rows of the layer; without a
    field [index] the rows written carry the positions 0, 1, ... as
    [idx_firms] in the order of the layer. *)
Theorem match_run_from_files (fs : store) (ungrd_excel firms_shp out_shp : string)
    (window_days : Z) :
  (exists r, run_firms_vs_ungrd_files fs ungrd_excel firms_shp out_shp window_days = Some r)
  /\ (path_exists fs ungrd_excel = false ->
      run_firms_vs_ungrd_files fs ungrd_excel firms_shp out_shp window_days
      = Some (inl (FileNotFoundError ("No existe Excel UNGRD: " ++ ungrd_excel)%string)))
  /\ (forall gdf_out s final_path,
        run_firms_vs_ungrd_files fs ungrd_excel firms_shp out_shp window_days
        = Some (inr (gdf_out, s, final_path)) ->
        exists df gdf df_ungrd pts,
          path_exists fs ungrd_excel = true
          /\ path_exists fs firms_shp = true
          /\ pd_read_excel ungrd_excel = Some df
          /\ gpd_read_file firms_shp = Some gdf
          /\ has_column gdf "idx_firms" = false
          /\ has_column gdf "index" && has_column gdf "level_0" = false
          /\ List.length pts = List.length (rows gdf)
          /\ load_ungrd_excel fs ungrd_excel (ascii_text "DEPARTAMENTO")
               (ascii_text "MUNICIPIO") (ascii_text "FECHA") = inr df_ungrd
          /\ load_firms_shp fs firms_shp (ascii_text "depto_std") (ascii_text "mpnombre_s")
               (ascii_text "anio") (ascii_text "mes") (ascii_text "dia")
             = inr (firms_frame_of gdf pts)
          /\ run_firms_vs_ungrd df_ungrd (firms_frame_of gdf pts) window_days = inr gdf_out
          /\ n_ungrd_rows s = List.length (rows df)
          /\ n_points s = List.length gdf_out
          /\ List.length (rows gdf) <= n_points s
          /\ List.length (rows gdf) <= n_candidates_after_admin_merge s
          /\ (identified (firms_frame_of gdf pts) ->
              n_points s = List.length (rows gdf))
          /\ (has_column gdf "index" = false ->
              n_points s = List.length (rows gdf)
              /\ map (fun r => idx_firms (fst r)) gdf_out
                 = map Some (seq 0 (List.length (rows gdf))))
          /\ path_exists fs final_path = false
          /\ (final_path = out_shp <-> path_exists fs out_shp = false)).
Proof.
  unfold run_firms_vs_ungrd_files. split; [|split].
  - destruct (load_ungrd_excel _ _ _ _ _) as [e|df_ungrd]; [eexists; reflexivity|].
    destruct (load_firms_shp _ _ _ _ _ _ _) as [e|gdf_firms]; [eexists; reflexivity|].
    destruct (run_firms_vs_ungrd df_ungrd gdf_firms window_days) as [e|gdf_out];
      [eexists; reflexivity|].
    destruct (write_shp_fresh fs gdf_out out_shp) as [fp [-> _]].
    destruct (to_file_ok _ fp); eexists; reflexivity.
  - intros E. unfold load_ungrd_excel. rewrite E. reflexivity.
  - intros gdf_out s final_path.
    destruct (load_ungrd_excel _ _ _ _ _) as [e|df_ungrd] eqn:Lu; [discriminate|].
    destruct (load_firms_shp _ _ _ _ _ _ _) as [e|gdf_firms] eqn:Lf; [discriminate|].
    destruct (load_ungrd_excel_inr _ _ _ _ _ _ Lu) as [df [Eu [Ru Nu]]].
    destruct (load_firms_shp_inr _ _ _ _ _ _ _ _ Lf) as [gdf [pts [Ef [Rf [-> Nf]]]]].
    destruct (run_firms_vs_ungrd df_ungrd (firms_frame_of gdf pts) window_days)
      as [e|out] eqn:Run; [discriminate|].
    destruct (write_shp_fresh fs out out_shp) as [fp [-> [W1 W2]]].
    destruct (to_file_ok _ fp); [|discriminate].
    intros H. injection H as <- <- <-.
    exists df, gdf, df_ungrd, pts.
    cbn [summary_of n_ungrd_rows n_points n_candidates_after_admin_merge].
    do 4 (split; [assumption|]).
    assert (Hcols : has_column gdf "idx_firms" = false
                    /\ has_column gdf "index" && has_column gdf "level_0" = false).
    { revert Run. unfold run_firms_vs_ungrd, build_candidates.
      cbn [firms_frame_of index_column has_level_0 has_idx_firms].
      destruct (has_column gdf "index"); cbn [notna andb];
        destruct (has_column gdf "level_0"); cbn [andb]; try discriminate;
        destruct (has_column gdf "idx_firms"); try discriminate; now split. }
    destruct Hcols as [Hc1 Hc2].
    split; [exact Hc1|]. split; [exact Hc2|]. split; [exact Nf|].
    split; [reflexivity|]. split; [reflexivity|].
    split; [exact Run|]. split; [exact Nu|]. split; [reflexivity|].
    destruct (run_firms_vs_ungrd_inr _ _ _ _ Run) as [matches [_ Hout]].
    assert (Hlen : List.length (reset_index (firms_frame_of gdf pts))
                   = List.length (rows gdf)).
    { rewrite reset_index_length. exact Nf. }
    split.
    { rewrite <- Hlen, Hout. apply attach_matches_length. }
    split.
    { unfold admin_merge. rewrite length_map, <- Hlen. apply Match.left_merge_length. }
    assert (Hid : identified (firms_frame_of gdf pts) ->
                  List.length out = List.length (rows gdf)).
    { intros Hid.
      destruct (run_firms_vs_ungrd_length df_ungrd _ window_days Hid) as [out' [R' L']].
      rewrite Run in R'. injection R' as <-. rewrite L'. exact Nf. }
    split; [exact Hid|].
    split; [|split; [exact W1 | exact W2]].
    intros Hnone.
    assert (Hi : identified (firms_frame_of gdf pts)).
    { split; [exact Hc1|]. cbn [firms_frame_of index_column]. now rewrite Hnone. }
    split; [now apply Hid|].
    destruct (run_firms_vs_ungrd_rows df_ungrd _ window_days Hi) as [ms [_ R']].
    rewrite Run in R'. injection R' as ->.
    rewrite map_map. cbn [fst].
    change (map (fun x : reset_row => idx_firms x) (reset_index (firms_frame_of gdf pts)))
      with (map idx_firms (reset_index (firms_frame_of gdf pts))).
    rewrite reset_index_idx. cbn [firms_frame_of points]. rewrite Nf.
    apply map_ext. intros i. unfold key_of. cbn [firms_frame_of index_column].
    now rewrite Hnone.
Qed.

End Loaders.

(** ** A sheet and a layer
    Numbers are cells that hold their decimal digits; a date is its
    day number in a calendar of months of 31 days. *)

Definition digits_value (v : value) : option Z :=
  match v with
  | Merge.VObj s =>
      if forallb Merge.is_digit s && negb (Nat.eqb (List.length s) 0)
      then Some (fold_left (fun acc c => acc * 10 + Z.of_N (c - 48))%Z s 0%Z)
      else None
  | _ => None
  end.

Definition sample_date_of_parts (y m d : option Z) : option timestamp :=
  match y, m, d with
  | Some y, Some m, Some d => Some (((y * 12 + (m - 1)) * 31 + (d - 1)) * day_ns)%Z
  | _, _, _ => None
  end.

Definition sample_to_datetime (col : list value) : option (list (option timestamp)) :=
  Some (map (fun v => option_map (fun d => d * day_ns)%Z (digits_value v)) col).

Definition sample_to_Int64 (col : list value) : option (list (option Z)) :=
  Some (map digits_value col).

Definition sample_to_datetime_parts (years months days : list (option Z))
  : option (list (option timestamp)) :=
  Some (map (fun x => sample_date_of_parts (fst (fst x)) (snd (fst x)) (snd x))
            (combine (combine years months) days)).

Definition sample_cells (cells : list (string * value)) : text -> value :=
  fun c => match find (fun kv => Columns.text_eqb (ascii_text (fst kv)) c) cells with
           | Some kv => snd kv
           | None => Merge.VNaN
           end.

Definition sample_excel : table :=
  {| columns := map ascii_text [" DEPARTAMENTO"; "MUNICIPIO "; "FECHA"]%string;
     rows := [sample_cells [(" DEPARTAMENTO", Merge.VStr (ascii_text "Meta"));
                            ("MUNICIPIO ", Merge.VStr (ascii_text " granada"));
                            ("FECHA", Merge.VObj (ascii_text "751446"))];
              sample_cells [(" DEPARTAMENTO", Merge.VStr (ascii_text "META"));
                            ("MUNICIPIO ", Merge.VNaN);
                            ("FECHA", Merge.VStr (ascii_text "pendiente"))]]%string |}.

Definition sample_layer : table :=
  {| columns := map ascii_text ["depto_std"; "mpnombre_s"; "anio"; "mes"; "dia";
                                "geometry"]%string;
     rows := [sample_cells [("depto_std", Merge.VStr (ascii_text "META"));
                            ("mpnombre_s", Merge.VStr (ascii_text "Granada"));
                            ("anio", Merge.VObj (ascii_text "2020"));
                            ("mes", Merge.VObj (ascii_text "1"));
                            ("dia", Merge.VObj (ascii_text "10"))];
              sample_cells [("depto_std", Merge.VStr (ascii_text "META"));
                            ("mpnombre_s", Merge.VStr (ascii_text "Lejanias"));
                            ("anio", Merge.VObj (ascii_text "2020"));
                            ("mes", Merge.VStr (ascii_text "?"));
                            ("dia", Merge.VObj (ascii_text "10"))]]%string |}.

(** The same layer with a field [index] that holds 7 on both
    points. *)
Definition sample_layer_index : table :=
  {| columns := map ascii_text ["index"; "depto_std"; "mpnombre_s"; "anio"; "mes"; "dia";
                                "geometry"]%string;
     rows := [sample_cells [("index", Merge.VObj (ascii_text "7"));
                            ("depto_std", Merge.VStr (ascii_text "META"));
                            ("mpnombre_s", Merge.VStr (ascii_text "Granada"));
                            ("anio", Merge.VObj (ascii_text "2020"));
                            ("mes", Merge.VObj (ascii_text "1"));
                            ("dia", Merge.VObj (ascii_text "10"))];
              sample_cells [("index", Merge.VObj (ascii_text "7"));
                            ("depto_std", Merge.VStr (ascii_text "META"));
                            ("mpnombre_s", Merge.VStr (ascii_text "Lejanias"));
                            ("anio", Merge.VObj (ascii_text "2020"));
                            ("mes", Merge.VStr (ascii_text "?"));
                            ("dia", Merge.VObj (ascii_text "10"))]]%string |}.

Definition sample_index_key (v : value) : idx :=
  option_map Z.to_nat (digits_value v).

Definition sample_match_run (layer : table) (fs : store) :=
  run_firms_vs_ungrd_files latin1_upper latin1_decomposition latin1_combining
    unicode_isspace
    (fun p => if String.eqb p "ungrd.xlsx" then Some sample_excel else None)
    (fun p => if String.eqb p "firms.shp" then Some layer else None)
    sample_to_datetime sample_to_Int64 sample_to_datetime_parts
    sample_index_key
    (fun _ _ => true) posix_splitext
    fs "ungrd.xlsx" "firms.shp" "out/match.shp" 5.

(** The first point is matched three days after the event of its
    municipality; the second has no date and no event.  With the
    field [index] the two points share, four rows are written, all
    with the match of the first point. *)
Example sample_match_runs :
  (exists gdf_out s,
     sample_match_run sample_layer ["ungrd.xlsx"; "firms.shp"; "out/match.shp"]%string
     = Some (inr (gdf_out, s, "out/match_1.shp"%string))
     /\ map (fun r => tipo_coincidencia (snd r)) gdf_out
        = [Some "ventana_5dias"; Some "sin_coincidencia"]%string
     /\ map (fun r => dif_dias_min (snd r)) gdf_out = [Some 3%Z; None]
     /\ n_points s = 2 /\ n_ungrd_rows s = 2 /\ n_window s = 1 /\ n_none s = 1)
  /\ (exists gdf_out s,
       sample_match_run sample_layer_index ["ungrd.xlsx"; "firms.shp"]%string
       = Some (inr (gdf_out, s, "out/match.shp"%string))
       /\ map (fun r => tipo_coincidencia (snd r)) gdf_out
          = [Some "ventana_5dias"; Some "ventana_5dias";
             Some "ventana_5dias"; Some "ventana_5dias"]%string
       /\ n_points s = 4 /\ n_window s = 4 /\ n_none s = 0)
  /\ sample_match_run sample_layer ["firms.shp"]%string
     = Some (inl (FileNotFoundError "No existe Excel UNGRD: ungrd.xlsx"))
  /\ sample_match_run sample_layer ["ungrd.xlsx"]%string
     = Some (inl (FileNotFoundError "No existe SHP FIRMS: firms.shp")).
Proof.
  split; [|split; [|split; vm_compute; reflexivity]].
  - do 2 eexists. split; [vm_compute; reflexivity|]. repeat split.
  - do 2 eexists. split; [vm_compute; reflexivity|]. repeat split.
Qed.

Lemma match_run_from_files_witness :
  exists gdf_out s,
    sample_match_run sample_layer ["ungrd.xlsx"; "firms.shp"; "out/match.shp"]%string
    = Some (inr (gdf_out, s, "out/match_1.shp"%string))
    /\ n_points s = 2.
Proof.
  assert (R : exists gdf_out s,
            sample_match_run sample_layer
              ["ungrd.xlsx"; "firms.shp"; "out/match.shp"]%string
            = Some (inr (gdf_out, s, "out/match_1.shp"%string))).
  { do 2 eexists. vm_compute. reflexivity. }
  destruct R as [gdf_out [s R]]. exists gdf_out, s. split; [exact R|].
  assert (T := match_run_from_files latin1_upper latin1_decomposition latin1_combining
                 unicode_isspace
                 (fun p => if String.eqb p "ungrd.xlsx" then Some sample_excel else None)
                 (fun p => if String.eqb p "firms.shp" then Some sample_layer else None)
                 sample_to_datetime sample_to_Int64 sample_to_datetime_parts
                 sample_index_key
                 (fun _ _ => true) posix_splitext).
  assert (L1 : forall col dates, sample_to_datetime col = Some dates ->
                 List.length dates = List.length col).
  { intros col dates H. injection H as <-. apply length_map. }
  assert (L2 : forall col ints, sample_to_Int64 col = Some ints ->
                 List.length ints = List.length col).
  { intros col ints H. injection H as <-. apply length_map. }
  assert (L3 : forall years months days dates,
                 List.length months = List.length years ->
                 List.length days = List.length years ->
                 sample_to_datetime_parts years months days = Some dates ->
                 List.length dates = List.length years).
  { intros years months days dates Hm Hd H. injection H as <-.
    rewrite length_map, !length_combine. lia. }
  destruct (T L1 L2 L3 posix_splitext_join
              ["ungrd.xlsx"; "firms.shp"; "out/match.shp"]%string
              "ungrd.xlsx"%string "firms.shp"%string "out/match.shp"%string 5%Z)
    as [_ [_ H]].
  destruct (H gdf_out s _ R)
    as [df [gdf [df_ungrd [pts [_ [_ [_ [Hread [_ [_ [Hlen [_ [_ [_ [_ [_ [_ [_
        [_ [Hnone _]]]]]]]]]]]]]]]]]]]].
  injection Hread as <-.
  destruct (Hnone eq_refl) as [Hn _]. exact Hn.
Defined.

End MatchRun.
